(* ===== verification/_CoqProject ===== *)
-Q . S2P
Prelude.v
GoStrings.v
Effects.v
Resolve.v
SqlParser.v
Dialects.v
Sql.v
Store.v
MemDB.v
Migration.v
Options.v
Collect.v
Runner.v
Provider.v
ProviderLocks.v
RunnerSpec.v
ProviderSpec.v
ProviderQueries.v
ProviderSystem.v
ProviderSystemSpec.v
ProviderResults.v
Integration.v
IntegrationSpec.v
Transactions.v
LegacyStore.v
Legacy.v
LegacyRun.v
LegacySpec.v
LegacyCollect.v
LegacyResolve.v
LegacyMethods.v
Names.v
Files.v
Paths.v
Directory.v
FilesSpec.v
Stats.v
Cli.v
CliSpec.v
Logging.v
LockStore.v
LockSpec.v
Lockers.v
LockSystem.v
LockerSpec.v
LockTest.v
LockTestSpec.v
LockMem.v
LockTestSamples.v
Netip.v
DockerClient.v
DockerManage.v
DockerStream.v
DockerSpec.v
DockerPostgres.v
DockerPostgresSpec.v
DockerMem.v
TestDB.v
TestDBSpec.v
TestDBSamples.v
Samples.v
IntegrationSamples.v
LegacySamples.v
FilesSamples.v
SystemSamples.v
