(* ===== verification/Prelude.v ===== *)
(** * Verification of the goose migration library

    goose (package [github.com/pressly/goose/v3]) keeps a database schema at a
    version: migrations are SQL files or Go functions with a version number,
    and a version table in the database records which have been applied.  This
    development models the library, states what its parts promise and proves
    that the code keeps these promises; where it does not, a theorem shows an
    input on which it fails.

    ** The program and its parts

    There are two interfaces to the same task.  A [Provider] (provider.go) is
    built once from a file system, a registry of Go migrations and options, and
    has methods ([Up], [DownTo], [Status], ...) that take a connection, lock the
    database, compare the version table with the known migrations and run what
    is missing.  The older package-level functions (migrate.go, up.go, down.go
    and others, called the legacy interface below) collect the migrations of a
    directory on every call and share their Go migrations through pointers into
    a global registry.  Both use the SQL parser, the dialects' statements and
    [database/sql]; the provider also uses the lockers of package lock, which
    keep several processes from migrating at the same time.  The command line
    tool calls the legacy interface through [run].  The tests of the lockers let
    several providers migrate one database at the same time, and the integration
    tests run their databases in containers, which package dockermanage starts,
    finds and removes, or which package testdb starts with dockertest.

    ** Files of this development

    The base: [Prelude] (64-bit integers, error values, multierr, sorting),
    [GoStrings] (strings, strconv, path and filepath), [Effects] (a state
    monad whose outcomes are a value, an error, a panic or blocking for ever;
    [defer], [recover], retry loops, and a logic of preserved predicates), [Sql]
    and [Transactions] (database/sql: a pool with a limit, transactions that end
    once, statements on the pool, a connection or a transaction, over a driver
    that is a parameter).

    The provider:
    - [Resolve]: internal/gooseutil/resolve.go.
    - [SqlParser]: internal/sqlparser.
    - [Dialects]: internal/dialects and database/dialects.go, the SQL text
      character for character.
    - [Store]: database/dialects.go, database/store.go and
      internal/controller/store.go; the class [StoreSpec] is the contract of the
      interface [database.Store], against which the provider is verified.
    - [Migration]: the type [Migration] of migration.go, globals.go and
      register.go.
    - [Options]: provider_options.go and lock/locker.go.
    - [Collect]: provider_collect.go and [NewProvider].
    - [Runner]: provider_run.go below the provider's state; [RunnerSpec] is what
      it does to the version table.
    - [Provider]: the methods of provider.go and provider_run.go with the
      provider's mutex, its [sync.Once], its migrations and the database.
    - [ProviderLocks]: no method keeps what it has taken or blocks.
      [ProviderSpec]: what the methods that change the database do to it.
      [ProviderQueries]: the other methods, and two situations in which the
      provider fails.
    - [ProviderSystem]: the goroutines of lock/locktesting, several providers
      that call [Up] on one database; [ProviderSystemSpec] is what they do to it
      together.
    - [ProviderResults]: which migrations the results of a provider name.
      [Integration]: internal/testing/integration, the test of every dialect,
      which calls all parts of the provider; [IntegrationSpec]: that it passes.

    The legacy interface:
    - [LegacyStore]: internal/legacystore, dialect.go and db.go.
    - [Legacy]: migrate.go, with the heap of migrations that slices of pointers
      point into; [LegacyCollect] is what collecting does to it.
    - [LegacyRun]: migration.go, migration_sql.go, up.go, down.go, redo.go,
      reset.go, status.go, version.go, the rest of migrate.go and the commands
      of goose.go that use the database.
    - [LegacySpec], [LegacyResolve], [LegacyMethods]: what running one
      migration, choosing the migrations and the commands do.
    - [Names]: helpers.go.  [Files]: create.go, fix.go, osfs.go, [versioned] and
      [timestamped] of migrate.go, and [run] of goose.go, over a model of the
      operating system's files.  [Paths], [Directory], [FilesSpec]: clean paths,
      the migrations of a directory, and what [Create] and [Fix] do to them.
    - [Stats]: internal/migrationstats.
    - [Cli]: cmd/goose, [main] with its flags as parsed; [CliSpec]: what its
      commands do to files.
    - [Logging]: log.go, [logf] and [verboseInfo], and the text of a result.

    The locks:
    - [LockStore]: lock/internal/store, the statements and the operations on
      PostgreSQL and MySQL.
    - [LockSpec]: the rows of the lock table, what the statements do to them,
      and the contract [LockStoreSpec] of a store among other processes.
    - [Lockers]: lock/postgres.go, lock/mysql.go, the options, and
      lock/internal/table: mutex, heartbeat and retries.
    - [LockSystem]: any number of processes that use one lock, as a transition
      system.  [LockerSpec]: the locker of a process is a node of it.
    - [LockTest]: [TestConcurrentLocking] of lock/locktesting, goroutines with
      deadlines on that system; [LockTestSpec]: what it verifies.

    The containers of the tests (pkg/dockermanage):
    - [Netip]: the functions of the Go library on network addresses it calls.
    - [DockerClient]: contexts as values, readers and writers of package io, the
      Docker client as a class with its documented behaviour.
    - [DockerManage]: options.go and manager.go.  [DockerStream]: the frames of
      the multiplexed output of a command.  [DockerSpec]: what the operations do
      to the containers.
    - [DockerPostgres]: dockerpostgres/postgres.go; [DockerPostgresSpec]: what
      its [Start] does.
    - [TestDB]: internal/testing/testdb, the databases of the integration tests;
      [TestDBSpec]: that no container is lost.

    [MemDB] and [LockMem] are concrete databases, [DockerMem] a concrete daemon,
    and [Samples], [LegacySamples], [FilesSamples], [SystemSamples],
    [IntegrationSamples], [LockTestSamples] and [TestDBSamples] concrete
    configurations: the theorems are evaluated there, which shows that their
    assumptions can hold.

    ** State and operations

    A method with receiver or global state is a function in the monad [M W] of
    [Effects] for the record [W] of the state it uses: [DB D] for the database
    (pool, open transactions and the driver's state [D]), [PW] for a provider,
    [LW] for the legacy interface (database, registry, allocated migrations),
    [TLW] for a table locker, [OW] for the commands with the file system, the
    daemon's state for the container manager and the test databases.  Names
    are those of the source; a method [T.m] is [m], [T_m] or [m] with the prefix
    [legacy_] where the name is taken, and a loop is a [Fixpoint] with a name of
    its own.  Errors are values with the structure that [errors.Is] and
    [errors.As] look at: sentinels, formats with wrapped operands, retryable,
    combined and partial errors.

    ** What the theorems show

    - Applying: [UpTo] (of both interfaces) runs exactly the pending versions in
      ascending order and records each; [DownTo] rolls back the applied ones,
      newest record first, and the legacy one terminates; a failure leaves a
      recorded prefix and says which; nothing runs if one migration cannot be
      prepared; [Up] and [DownTo 0] are inverse on a fresh database; both
      interfaces choose the same versions.  A failed transaction leaves no
      trace.  Providers that migrate the same database at the same time record
      each pending version once and in order, and one of them runs all of them.
      The integration test passes on every directory of SQL files that are
      numbered without a gap, with every store: it puts collecting, [NewProvider],
      [Up], [GetDBVersion], [DownTo] and [UpByOne] together.
    - Resources: after any sequence of calls, errors and panics included, the
      mutex is free and the connections are back in the pool; no call blocks.
    - Inputs: the parser gives back rendered scripts and keeps the sections
      apart; which files become migrations and with which version; what a
      constructed provider contains; names by words.
    - Contracts: the stores implement [StoreSpec] and [LockStoreSpec], the
      lockers implement what the provider assumes of them and the abstract
      system, whose invariant is mutual exclusion of running leases.  Of the
      goroutines of [TestConcurrentLocking] exactly one acquires the lock, if a
      lease outlives the deadlines of all of them.
    - Files: [Fix] renumbers without losing a file, [Create] changes no file and
      in sequential mode takes the next number.
    - Containers: a started container is the one that was asked for, a failed
      [Start] removes what it created, [RemoveManaged] attempts all managed
      ones and no other, [WaitReady] returns nil right after a check that
      succeeded and otherwise the error of the context; the demultiplexer
      gives back the frames of both streams and reports truncation.  A test
      database that was started is connected to and can be removed, or its
      container is gone, except on the paths that [TestDBSpec] lists.
    - Limits: [goose init] makes a migration that the parser rejects; an empty
      statement block loses a statement; a version table that could not be
      created is not created later; a Go migration without a transaction
      deadlocks on one connection; a provider without Go migrations is not
      sorted; [WithNoVersioning] makes a later [DownTo] loop; leases below a
      second do not exclude; [Up] skips rolled-back versions; a host name as
      host address panics; a cancelled start of PostgreSQL leaves its container;
      labels that differ in white space depend on the order of a map; a client
      certificate is ignored without root certificates; the test of concurrent
      lockers fails with every timeout above five seconds; the emulator of Spanner
      is lost when its connection cannot be opened; and five smaller ones in
      [FilesSamples].

    ** Bounds and fuel

    [int64] arithmetic wraps ([wrap64]) where it can overflow: versions,
    durations, lock timeouts.  The only unbounded loop of the source is that of
    the legacy [DownTo]; [down_rounds] has fuel, and more fuel than the version
    table has rows is enough ([legacy_DownTo_spec]).  The demultiplexer takes at
    least a header from its stream in each round, so a round more than there are
    bytes is enough ([demuxDockerStream_spec]); an IPv6 address has at most eight
    groups.  The loop that waits for the health of a container ends when its
    context does, which is after [ctx_rounds] rounds.  Decimal formatting has 20
    digits, as many as 64 bits need.  The retry loops of go-retry are a
    parameter ([Retry]) with at most as many attempts as the back-off allows.

    ** Parameters and assumptions

    Not under src/, hence parameters: the driver with its database ([Driver];
    [DbLaws] states that transactions and statements are atomic, [QuerierSpec],
    [PostgresLocks] and [MySQLLocks] that the database gives goose's statements
    their meaning), the user's Go functions ([UserLaws]: they leave goose's
    table and connections alone), environment substitution, multierr and
    go-retry, [RowsAffected], host name, process number and random bytes of a
    lock's owner, the parser of the Go language and the tables of package
    unicode, the loading of .env files, the MySQL driver's connection strings
    and the certificates of crypto/tls; for containers the Docker client
    ([DockerLaws]: this process alone works on the daemon, and a call does what
    Docker documents), host ports, the dialer and the retry loop under a
    deadline ([RetryCtxLaws]); for the test databases dockertest, the drivers and
    the clients of Spanner and YDB ([DockerTestLaws]: only
    [RunWithOptions] starts a container, and [Retry] calls its function until it
    succeeds or gives up).  An assertion of testify that fails ends the test.
    The order in which Go ranges over a map and the order of two
    concurrent parses are parameters without assumptions beyond being an order.

    Abstractions: a statement of a lock store takes effect at one moment, with
    any actions of other processes before and after it, and a transaction of the
    MySQL store is isolated; a lease in seconds is exact below 97 days, the
    range in which a Go [float64] division is; [rows.Close] does not fail; the
    text of the panic on duplicate versions is shortened; a reader is its bytes
    and its final error; templates are functions to text.  Migrations in the
    legacy interface are in a heap that only grows.  In [ProviderSystem] the part of
    [Up] under the lock is one step, which the lockers justify.  A writer takes
    what a copy gives it in one piece, as the buffers of the source do.

    ** Not modelled

    Cancellation of contexts in the provider, the legacy interface and the
    lockers: every context there is live, so timeouts of lockers and
    [SessionLock] under a cancelled context are not covered (the contexts of the
    container manager are values that the client sees).  The clock of results
    and durations other than [truncateDuration].  The log lines of the lockers
    and of the container manager.  [Ping] and [Close] of a provider, which only
    call database/sql.  Of cmd/goose the parsing of flags and the text of the
    usage message.  The construction of the Docker client.  Test files and
    examples: they check or demonstrate the library and have no state of its own.
    Renaming of directories, and globbing in directories whose path contains the
    special characters of patterns, are parameters of [Files]. *)

From Stdlib Require Export ZArith Lia Bool List String Ascii.
From stdpp Require Export base tactics decidable option list sorting gmap strings.
From stdpp Require Import options.

#[global] Open Scope string_scope.
#[global] Open Scope list_scope.
#[global] Open Scope Z_scope.

(** ** Machine integers *)

Definition maxInt64 : Z := 2 ^ 63 - 1.
Definition minInt64 : Z := - 2 ^ 63.

(** A Go [int64] value. *)
Definition is_int64 (z : Z) : Prop := minInt64 ≤ z ≤ maxInt64.

#[export] Instance is_int64_dec z : Decision (is_int64 z).
Proof. unfold is_int64. apply _. Defined.

(** Wrap-around of [int64] arithmetic. *)
Definition wrap64 (z : Z) : Z := (z + 2 ^ 63) mod 2 ^ 64 - 2 ^ 63.

Lemma wrap64_id z : is_int64 z → wrap64 z = z.
Proof.
  unfold is_int64, minInt64, maxInt64, wrap64. intros H.
  rewrite Z.mod_small; lia.
Qed.

(** ** Error values

    A Go error is a sentinel variable (compared by identity), the result of
    [fmt.Errorf] (kept as the format and its arguments, [AWrap] being the
    operand of a %w verb), a [go-retry] retryable error, a pair combined by
    [multierr.Append], a [PartialError], or an error of the outside world (a
    driver, a file system, a user function). *)
Inductive sentinel :=
  | ErrVersionNotFound | ErrNoMigrations | ErrAlreadyApplied | ErrNotApplied
  | errInvalidVersion | errMissingZeroVersion
  | ErrNoMigrationFiles | ErrNoCurrentVersion | ErrNoNextVersion
  | database_ErrVersionNotFound | ErrUnsupported | sql_ErrNoRows
  | errEmptyAnnotation | errInvalidAnnotation
  | ErrSyntax | ErrRange | bufio_ErrTooLong | fs_ErrNotExist
  | io_EOF | io_ErrUnexpectedEOF | context_Canceled | context_DeadlineExceeded.

#[export] Instance sentinel_eq_dec : EqDecision sentinel.
Proof. solve_decision. Defined.

(** [MigrationType] is a Go string type with two constants; [TypeOther] is
    any other string, the zero value [""] among them. *)
Inductive MigrationType := TypeGo | TypeSQL | TypeOther (name : string).

#[export] Instance MigrationType_eq_dec : EqDecision MigrationType.
Proof. solve_decision. Defined.

Record Source := mkSource {
  src_Type : MigrationType;
  src_Path : string;
  src_Version : Z
}.

(** A [MigrationResult], over the type of its [Error] field; the measured
    duration is left out. *)
Record MigrationResultOf (E : Type) := mkMigrationResult {
  res_Source : Source;
  res_Direction : string;
  res_Empty : bool;
  res_Error : option E
}.
Arguments mkMigrationResult {E} _ _ _ _.
Arguments res_Source {E} _.
Arguments res_Direction {E} _.
Arguments res_Empty {E} _.
Arguments res_Error {E} _.

Inductive error :=
  | ESentinel (s : sentinel)
  | EErrorf (format : string) (args : list farg)
  | ERetryable (e : error)
  | EMulti (e1 e2 : error)
  | EPartial (applied : list (MigrationResultOf error))
      (failed : MigrationResultOf error) (err : error)
  | EExternal (code : Z)
with farg :=
  | AInt (z : Z)
  | AStr (s : string)
  | AErr (e : error)
  | AWrap (e : error).

Abbreviation MigrationResult := (MigrationResultOf error).

Definition errors_New (msg : string) : error := EErrorf msg [].

(** [errors.Is err s]: unwraps %w operands, retryable errors, combined errors
    and [PartialError]. *)
Fixpoint errors_Is (e : error) (s : sentinel) : bool :=
  match e with
  | ESentinel s' => bool_decide (s' = s)
  | EErrorf _ args =>
      existsb (λ a, match a with AWrap e' => errors_Is e' s | _ => false end) args
  | ERetryable e' => errors_Is e' s
  | EMulti e1 e2 => errors_Is e1 s || errors_Is e2 s
  | EPartial _ _ e' => errors_Is e' s
  | EExternal _ => false
  end.

(** ** Results of fallible pure functions *)

Definition result (A : Type) : Type := A + error.

#[global] Declare Scope go_scope.
#[global] Delimit Scope go_scope with go.
#[global] Open Scope go_scope.

Definition rbind {A B} (r : result A) (f : A → result B) : result B :=
  match r with inl a => f a | inr e => inr e end.

Notation "'let?' x ':=' r 'in' k" := (rbind r (λ x, k))
  (at level 10, x pattern, r at level 100, k at level 200) : go_scope.

(** [go.uber.org/multierr]: combining two errors, of which either may be nil. *)
Class Multierr := multierr_Append : option error → option error → option error.

Class MultierrLaws `{Multierr} := {
  append_nil_l e : multierr_Append None e = e;
  append_nil_r e : multierr_Append e None = e;
  append_not_nil e1 e2 : multierr_Append (Some e1) (Some e2) ≠ None;
  append_Is e1 e2 e s :
    multierr_Append (Some e1) (Some e2) = Some e →
    errors_Is e s = errors_Is e1 s || errors_Is e2 s
}.

Lemma append_None `{MultierrLaws} a b : multierr_Append a b = None → a = None ∧ b = None.
Proof.
  destruct a as [a|], b as [b|]; rewrite ?append_nil_l, ?append_nil_r; auto; try done.
  intros Ha. by apply append_not_nil in Ha.
Qed.

(** An implementation, for the witnesses. *)
Definition pair_Append : Multierr := λ a b,
  match a, b with
  | None, _ => b
  | _, None => a
  | Some a, Some b => Some (EMulti a b)
  end.

Lemma pair_Append_laws : @MultierrLaws pair_Append.
Proof. split; [done|by intros []|done|by intros ???? [= <-]]. Qed.

(** ** Tactics and hint databases *)

Create HintDb goose discriminated.
Create HintDb preserve discriminated.

(** Splits every [match]/[if] of the goal or the hypotheses, simplifying the
    equations on the way. *)
Ltac case_all :=
  simplify_eq/=; repeat (case_match; simplify_eq/=).

(** Turns boolean comparisons on integers into propositions. *)
Ltac zify_bool :=
  repeat match goal with
  | H : (_ && _)%bool = true |- _ => apply andb_prop in H as [? ?]
  | H : (_ && _)%bool = false |- _ => apply andb_false_iff in H
  | H : (_ || _)%bool = true |- _ => apply orb_true_iff in H
  | H : (_ || _)%bool = false |- _ => apply orb_false_iff in H as [? ?]
  | H : negb _ = true |- _ => apply negb_true_iff in H
  | H : negb _ = false |- _ => apply negb_false_iff in H
  | H : (_ <? _) = true |- _ => apply Z.ltb_lt in H
  | H : (_ <? _) = false |- _ => apply Z.ltb_ge in H
  | H : (_ <=? _) = true |- _ => apply Z.leb_le in H
  | H : (_ <=? _) = false |- _ => apply Z.leb_gt in H
  | H : (_ >? _) = true |- _ => rewrite Z.gtb_ltb in H
  | H : (_ >? _) = false |- _ => rewrite Z.gtb_ltb in H
  | H : (_ =? _) = true |- _ => apply Z.eqb_eq in H
  | H : (_ =? _) = false |- _ => apply Z.eqb_neq in H
  | H : bool_decide _ = true |- _ => apply bool_decide_eq_true_1 in H
  | H : bool_decide _ = false |- _ => apply bool_decide_eq_false_1 in H
  end.

(** ** Lists of versions *)

(** [slices.Sort] on [[]int64]. *)
Definition slices_Sort (l : list Z) : list Z := merge_sort (≤) l.

Lemma slices_Sort_perm l : slices_Sort l ≡ₚ l.
Proof. apply merge_sort_Permutation. Qed.

Lemma slices_Sort_sorted l : StronglySorted (≤) (slices_Sort l).
Proof. apply (StronglySorted_merge_sort _). Qed.

Lemma elem_of_slices_Sort x l : x ∈ slices_Sort l ↔ x ∈ l.
Proof. by rewrite slices_Sort_perm. Qed.

(** Two sorted lists with the same elements, counted, are equal. *)
Lemma sorted_perm_eq (l1 l2 : list Z) :
  StronglySorted (≤) l1 → StronglySorted (≤) l2 → l1 ≡ₚ l2 → l1 = l2.
Proof. intros; by eapply (StronglySorted_unique (≤)). Qed.

Lemma slices_Sort_id l : StronglySorted (≤) l → slices_Sort l = l.
Proof.
  intros. apply sorted_perm_eq; auto using slices_Sort_sorted, slices_Sort_perm.
Qed.

Lemma StronglySorted_filter {A} (R : relation A) (P : A → Prop)
    `{∀ x, Decision (P x)} (l : list A) :
  StronglySorted R l → StronglySorted R (filter P l).
Proof.
  induction 1 as [|x l Hs IH Hx]; [constructor|].
  rewrite filter_cons. case_decide; [|done].
  constructor; [done|]. rewrite Forall_forall in Hx |- *.
  intros y [_ ?]%list_elem_of_filter. auto.
Qed.

Lemma StronglySorted_app_2 {A} (R : relation A) l1 l2 :
  StronglySorted R l1 → StronglySorted R l2 →
  (∀ x y, x ∈ l1 → y ∈ l2 → R x y) → StronglySorted R (l1 ++ l2).
Proof.
  induction 1 as [|x l1 Hs IH Hx]; intros Hl2 Hr; [done|].
  simpl. constructor.
  - apply IH; [done|]. intros; apply Hr; [by right|done].
  - apply Forall_app; split; [done|].
    apply Forall_forall. intros; apply Hr; [by left|done].
Qed.

#[export] Hint Resolve slices_Sort_sorted slices_Sort_perm : goose.

Lemma foldl_ext_eq {A B} (f g : A → B → A) a l :
  (∀ x y, f x y = g x y) → foldl f a l = foldl g a l.
Proof. intros H. revert a. induction l as [|x l IH]; intros a; simpl; [done|]. by rewrite H. Qed.

Lemma list_filter_ext_elem {A} (P Q : A → Prop)
    `{∀ x, Decision (P x), ∀ x, Decision (Q x)} (l : list A) :
  (∀ x, x ∈ l → P x ↔ Q x) → filter P l = filter Q l.
Proof.
  induction l as [|x l IH]; intros Hl; [done|].
  rewrite !filter_cons, IH by (intros; apply Hl; by right).
  specialize (Hl x ltac:(by left)). by repeat case_decide; try tauto.
Qed.

(** The longest prefix of elements that satisfy [f]. *)
Fixpoint take_while {A} (f : A → bool) (l : list A) : list A :=
  match l with [] => [] | x :: l' => if f x then x :: take_while f l' else [] end.

Lemma take_while_all {A} (f : A → bool) l l' :
  forallb f l = true → take_while f (l ++ l') = l ++ take_while f l'.
Proof. induction l as [|x l IH]; simpl; [done|]. intros [-> Hl]%andb_prop. by rewrite IH. Qed.

(** Elements with different keys are determined by their keys. *)
Lemma NoDup_keys {A} (f : A → Z) l x y : NoDup (f <$> l) → x ∈ l → y ∈ l → f x = f y → x = y.
Proof.
  induction l as [|z l IH]; cbn; [by intros _ ?%elem_of_nil|].
  intros [Hz Hnd]%NoDup_cons [->|Hx]%elem_of_cons [->|Hy]%elem_of_cons Hf; [done| | |by apply IH].
  - destruct Hz. rewrite Hf. by apply list_elem_of_fmap_2.
  - destruct Hz. rewrite <- Hf. by apply list_elem_of_fmap_2.
Qed.

(** Two sorted permutations of elements with different keys are equal. *)
Lemma sorted_by_key {A} (f : A → Z) (R : relation A) l1 l2 :
  (∀ a b, R a b → R b a → f a = f b) → NoDup (f <$> l1) →
  StronglySorted R l1 → StronglySorted R l2 → l1 ≡ₚ l2 → l1 = l2.
Proof.
  intros HR Hnd H1 H2 Hp. apply (StronglySorted_unique_strong R); [|done|done|done].
  intros a b Ha Hb Hab Hba. rewrite <- Hp in Hb. apply (NoDup_keys f l1); auto.
Qed.

Lemma filter_id {A} (P : A → Prop) `{∀ x, Decision (P x)} (l : list A) :
  (∀ x, x ∈ l → P x) → filter P l = l.
Proof.
  induction l as [|x l IH]; intros Hl; [done|]. rewrite filter_cons_True by (apply Hl; by left).
  f_equal. apply IH. intros; apply Hl. by right.
Qed.

Lemma StronglySorted_impl {A} (R S : relation A) l :
  (∀ x y, R x y → S x y) → StronglySorted R l → StronglySorted S l.
Proof.
  intros Himpl. induction 1 as [|x l Hs IH Hx]; constructor; [done|]. eapply Forall_impl; [exact Hx|]. auto.
Qed.

Lemma StronglySorted_reverse {A} (R : relation A) l : StronglySorted R l → StronglySorted (flip R) (reverse l).
Proof.
  induction 1 as [|x l Hs IH Hx]; [constructor|]. rewrite reverse_cons. apply StronglySorted_app_2; [done| |].
  - by repeat constructor.
  - intros y z Hy ->%list_elem_of_singleton. rewrite elem_of_reverse in Hy. rewrite Forall_forall in Hx. by apply Hx.
Qed.

Lemma Sorted_lt_NoDup (l : list Z) : StronglySorted Z.lt l → NoDup l.
Proof.
  induction 1 as [|x l Hs IH Hx]; constructor; [|done]. intros Hin. rewrite Forall_forall in Hx.
  specialize (Hx x Hin). lia.
Qed.

Lemma StronglySorted_fmap {A} (f : A → Z) (R : relation Z) l :
  StronglySorted R (f <$> l) ↔ StronglySorted (λ a b, R (f a) (f b)) l.
Proof.
  induction l as [|x l IH]; [split; constructor|]. cbn. split; intros Hsx; apply StronglySorted_inv in Hsx as [Hs Hx].
  - constructor; [by apply IH|]. rewrite Forall_fmap in Hx. exact Hx.
  - constructor; [by apply IH|]. apply Forall_fmap. exact Hx.
Qed.

Lemma sorted_strict (l : list Z) : NoDup l → StronglySorted Z.le l → StronglySorted Z.lt l.
Proof.
  intros Hnd Hs. induction Hs as [|v l Hs IH Hv]; [constructor|].
  apply NoDup_cons in Hnd as [Hn Hnd]. constructor; [by apply IH|].
  rewrite Forall_forall in Hv |- *. intros u Hu. specialize (Hv u Hu).
  assert (u ≠ v) by (intros ->; done). lia.
Qed.
