(* ===== verification/GoStrings.v ===== *)
(** * Go strings

    The functions of the Go standard library on strings that goose calls
    ([strings], [strconv], [path/filepath], the line and word splitting of
    [bufio]), on byte strings.  Unicode white space is recognised by its UTF-8
    encodings; no encoding of a white-space rune can start inside the encoding
    of another rune, so scanning byte by byte agrees with Go's rune scanning,
    on malformed input too. *)

From S2P Require Import Prelude.

(** [String.append], written with Go's [+]. *)
Infix "+++" := String.append (at level 60, right associativity) : go_scope.
#[global] Arguments String.append !_ _ / : simpl nomatch.

Definition ch (n : nat) : ascii := ascii_of_nat n.
Definition nl : string := String (ch 10) EmptyString.
Definition cr : ascii := ch 13.
#[global] Arguments Ascii.eqb : simpl never.
#[global] Arguments ch : simpl never.
#[global] Arguments nl : simpl never.

(** ** package strings *)

Fixpoint HasPrefix (s p : string) : bool :=
  match p, s with
  | EmptyString, _ => true
  | String a p', String b s' => Ascii.eqb a b && HasPrefix s' p'
  | String _ _, EmptyString => false
  end.

Fixpoint HasSuffix (s p : string) : bool :=
  String.eqb s p || match s with EmptyString => false | String _ s' => HasSuffix s' p end.

Fixpoint Contains (s sub : string) : bool :=
  HasPrefix s sub || match s with EmptyString => false | String _ s' => Contains s' sub end.

(** [strings.Replace(s, old, new, n)] for a non-empty [old]; [None] is the
    negative [n] of [ReplaceAll].  [skip] counts the bytes of a match still to
    be dropped. *)
Fixpoint replace_from (old new : string) (n : option nat) (skip : nat) (s : string) : string :=
  match s with
  | EmptyString => EmptyString
  | String c s' =>
      match skip with
      | S k => replace_from old new n k s'
      | O =>
          if bool_decide (n ≠ Some 0%nat) && HasPrefix s old
          then new +++ replace_from old new (Nat.pred <$> n) (Nat.pred (String.length old)) s'
          else String c (replace_from old new n 0 s')
      end
  end.

Definition Replace (s old new : string) (n : nat) : string := replace_from old new (Some n) 0 s.
Definition ReplaceAll (s old new : string) : string := replace_from old new None 0 s.

(** Byte width of the white-space rune at the head of [s], 0 if there is none
    ([unicode.IsSpace]; [bufio] uses the same set). *)
Definition space_width (s : string) : nat :=
  match s with
  | EmptyString => 0
  | String a s1 =>
      let n := nat_of_ascii a in
      if (9 <=? n)%nat && (n <=? 13)%nat || (n =? 32)%nat then 1
      else match s1 with
      | EmptyString => 0
      | String b s2 =>
          let m := nat_of_ascii b in
          if (n =? 194)%nat && ((m =? 133)%nat || (m =? 160)%nat) then 2
          else match s2 with
          | EmptyString => 0
          | String c _ =>
              let k := nat_of_ascii c in
              if (n =? 225)%nat && (m =? 154)%nat && (k =? 128)%nat            (* U+1680 *)
                 || (n =? 226)%nat && (m =? 128)%nat
                    && ((128 <=? k)%nat && (k <=? 138)%nat                     (* U+2000..200A *)
                        || (k =? 168)%nat || (k =? 169)%nat || (k =? 175)%nat) (* 2028 2029 202F *)
                 || (n =? 226)%nat && (m =? 129)%nat && (k =? 159)%nat         (* U+205F *)
                 || (n =? 227)%nat && (m =? 128)%nat && (k =? 128)%nat         (* U+3000 *)
              then 3 else 0
          end
      end
  end.

(** [skip] bytes of a white-space rune are still to be dropped. *)
Fixpoint trim_left_from (skip : nat) (s : string) : string :=
  match s with
  | EmptyString => EmptyString
  | String _ s' =>
      match skip with
      | S k => trim_left_from k s'
      | O => match space_width s with
             | O => s
             | S k => trim_left_from k s'
             end
      end
  end.

Definition all_space (s : string) : bool := String.eqb (trim_left_from 0 s) "".

Fixpoint TrimRightSpace (s : string) : string :=
  match s with
  | EmptyString => EmptyString
  | String c s' => if all_space s then EmptyString else String c (TrimRightSpace s')
  end.

Definition TrimLeftSpace (s : string) : string := trim_left_from 0 s.

Definition TrimSpace (s : string) : string := TrimRightSpace (TrimLeftSpace s).

(** [strings.Cut(s, sep)] for a one-byte separator. *)
Fixpoint Cut (s : string) (sep : ascii) : string * string * bool :=
  match s with
  | EmptyString => ("", "", false)%string
  | String c s' =>
      if Ascii.eqb c sep then (""%string, s', true)
      else let '(before, after, ok) := Cut s' sep in (String c before, after, ok)
  end.

Fixpoint Join (l : list string) (sep : string) : string :=
  match l with
  | [] => ""
  | [x] => x
  | x :: l' => x +++ sep +++ Join l' sep
  end.

Definition lower (c : ascii) : ascii :=
  let n := nat_of_ascii c in
  if (65 <=? n)%nat && (n <=? 90)%nat then ch (n + 32) else c.

(** Simple case folding, enough to compare with an ASCII string: letters are
    lowered, U+017F (long s) folds to s and U+212A (Kelvin) to k. *)
Fixpoint fold_case_from (skip : nat) (s : string) : string :=
  match s with
  | EmptyString => EmptyString
  | String c s' =>
      match skip with
      | S k => fold_case_from k s'
      | O =>
          if HasPrefix s (String (ch 197) (String (ch 191) ""))
          then String "s" (fold_case_from 1 s')
          else if HasPrefix s (String (ch 226) (String (ch 132) (String (ch 170) "")))
          then String "k" (fold_case_from 2 s')
          else String (lower c) (fold_case_from 0 s')
      end
  end.

(** [strings.EqualFold(s, t)] for an ASCII [s]. *)
Definition EqualFold (s t : string) : bool :=
  String.eqb (fold_case_from 0 s) (fold_case_from 0 t).

(** ** package bufio *)

(** [bufio.ScanLines]: split after line feeds, drop one trailing carriage
    return of each line, no token for an empty rest. *)
Definition drop_cr (s : string) : string :=
  (fix go s := match s with
   | EmptyString => EmptyString
   | String c EmptyString => if Ascii.eqb c cr then EmptyString else s
   | String c s' => String c (go s')
   end) s.

(** The raw lines of [s], each without its line feed. *)
Fixpoint raw_lines (s : string) : list string :=
  match s with
  | EmptyString => []
  | String c s' =>
      if Ascii.eqb c (ch 10) then EmptyString :: raw_lines s'
      else match raw_lines s' with
           | [] => [String c EmptyString]
           | l :: ls =>
               (* the first raw line of [s'] continues this one *)
               String c l :: ls
           end
  end.

(** [bufio.ScanWords]. *)
Fixpoint words_from (skip : nat) (cur : string) (s : string) : list string :=
  match s with
  | EmptyString => if String.eqb cur "" then [] else [cur]
  | String c s' =>
      match skip with
      | S k => words_from k cur s'
      | O => match space_width s with
             | O => words_from 0 (cur +++ String c "") s'
             | S k => if String.eqb cur "" then words_from k "" s'
                      else cur :: words_from k "" s'
             end
      end
  end.

Definition words (s : string) : list string := words_from 0 "" s.

(** ** package strconv *)

Definition digit_of (c : ascii) : option Z :=
  let n := Z.of_nat (nat_of_ascii c) in
  if (48 <=? n) && (n <=? 57) then Some (n - 48) else None.

(** The digit loop of [strconv.ParseUint] in base 10 and 64 bits. *)
Fixpoint parse_digits (n : Z) (s : string) : result Z :=
  match s with
  | EmptyString => inl n
  | String c s' =>
      match digit_of c with
      | None => inr (ESentinel ErrSyntax)
      | Some d =>
          if n >=? (2 ^ 64 - 1) / 10 + 1 then inr (ESentinel ErrRange)
          else let n1 := n * 10 + d in
               if n1 >? 2 ^ 64 - 1 then inr (ESentinel ErrRange)
               else parse_digits n1 s'
      end
  end.

(** [strconv.ParseInt(s, 10, 64)], the value only. *)
Definition ParseInt (s : string) : result Z :=
  match s with
  | EmptyString => inr (ESentinel ErrSyntax)
  | String c s' =>
      let neg := Ascii.eqb c "-" in
      let body := if neg || Ascii.eqb c "+" then s' else s in
      match body with
      | EmptyString => inr (ESentinel ErrSyntax)
      | String _ _ =>
          let? un := parse_digits 0 body in
          if negb neg && (un >=? 2 ^ 63) then inr (ESentinel ErrRange)
          else if neg && (un >? 2 ^ 63) then inr (ESentinel ErrRange)
          else inl (if neg then - un else un)
      end
  end.

Definition digit_char (d : Z) : ascii := ch (Z.to_nat (d + 48)).

Fixpoint format_digits (fuel : nat) (n : Z) (acc : string) : string :=
  match fuel with
  | O => acc
  | S f =>
      let acc' := String (digit_char (n mod 10)) acc in
      if n <? 10 then acc' else format_digits f (n / 10) acc'
  end.

(** [strconv.FormatInt(n, 10)]; 20 digits are enough for 64 bits. *)
Definition FormatInt (n : Z) : string :=
  if n <? 0 then String "-" (format_digits 20 (- n) "") else format_digits 20 n "".

Fixpoint repeat_char (n : nat) (c : ascii) : string :=
  match n with O => EmptyString | S k => String c (repeat_char k c) end.

(** [fmt.Sprintf("%05v", n)] for a non-negative [n]. *)
Definition Sprintf_05v (n : Z) : string :=
  let s := FormatInt n in repeat_char (5 - String.length s) "0" +++ s.

(** ** package path/filepath *)

Fixpoint strip_trailing_slashes (s : string) : string :=
  match s with
  | EmptyString => EmptyString
  | String c s' =>
      match strip_trailing_slashes s' with
      | EmptyString => if Ascii.eqb c "/" then EmptyString else String c EmptyString
      | r => String c r
      end
  end.

(** The text after the last slash. *)
Fixpoint after_last_slash (s : string) : string :=
  match s with
  | EmptyString => EmptyString
  | String c s' =>
      if Contains s' "/" then after_last_slash s'
      else if Ascii.eqb c "/" then s' else s
  end.

Definition filepath_Base (path : string) : string :=
  if String.eqb path "" then "."
  else let p := after_last_slash (strip_trailing_slashes path) in
       if String.eqb p "" then "/" else p.

(** The suffix from the last dot of the last path element. *)
Fixpoint ext_from (cand : string) (s : string) : string :=
  match s with
  | EmptyString => cand
  | String c s' =>
      if Ascii.eqb c "/" then ext_from "" s'
      else if Ascii.eqb c "." then ext_from s s'
      else ext_from cand s'
  end.

Definition filepath_Ext (path : string) : string := ext_from "" path.

(** ** package path *)

(** The elements of a path between its slashes. *)
Fixpoint split_slash (cur s : string) : list string :=
  match s with
  | EmptyString => [cur]
  | String c s' =>
      if Ascii.eqb c "/" then cur :: split_slash "" s' else split_slash (cur +++ String c "") s'
  end.

(** The elements that [path.Clean] keeps, last one first. *)
Fixpoint clean_elements (rooted : bool) (out elems : list string) : list string :=
  match elems with
  | [] => out
  | e :: elems =>
      clean_elements rooted
        (if String.eqb e "" || String.eqb e "." then out
         else if String.eqb e ".." then
           match out with
           | o :: out' => if String.eqb o ".." then e :: out else out'
           | [] => if rooted then [] else [e]
           end
         else e :: out) elems
  end.

Definition path_Clean (path : string) : string :=
  let rooted := HasPrefix path "/" in
  let out := Join (reverse (clean_elements rooted [] (split_slash "" path))) "/" in
  if rooted then "/" +++ out else if String.eqb out "" then "." else out.

(** [path.Join(dir, name)] with a name that is not empty. *)
Definition path_Join (dir name : string) : string :=
  path_Clean (if String.eqb dir "" then name else dir +++ "/" +++ name).

(** * Lemmas *)

Lemma HasPrefix_empty s : HasPrefix s "" = true.
Proof. by destruct s. Qed.

Lemma digit_of_digit_char d : 0 ≤ d < 10 → digit_of (digit_char d) = Some d.
Proof.
  intros H. assert (d = 0 ∨ d = 1 ∨ d = 2 ∨ d = 3 ∨ d = 4 ∨ d = 5 ∨ d = 6 ∨ d = 7 ∨ d = 8 ∨ d = 9)
    as Hd by lia.
  by repeat destruct Hd as [->|Hd]; [..|subst].
Qed.

Lemma parse_digits_step n d s :
  0 ≤ d < 10 → 0 ≤ n → n * 10 + d ≤ 2 ^ 64 - 1 →
  parse_digits n (String (digit_char d) s) = parse_digits (n * 10 + d) s.
Proof.
  intros. cbn [parse_digits]. rewrite digit_of_digit_char by done.
  change ((2 ^ 64 - 1) / 10 + 1) with 1844674407370955162.
  case_match; zify_bool; [lia|]. case_match; zify_bool; [lia|done].
Qed.

Lemma parse_format_digits fuel m acc :
  0 ≤ m < 10 ^ Z.of_nat fuel → m ≤ 2 ^ 64 - 1 → (0 < fuel)%nat →
  parse_digits 0 (format_digits fuel m acc) = parse_digits m acc.
Proof.
  revert m acc. induction fuel as [|f IH]; intros m acc Hm Hb Hf; [lia|].
  cbn [format_digits]. case_match; zify_bool.
  - rewrite Z.mod_small by lia. rewrite parse_digits_step by lia. f_equal; lia.
  - rewrite Nat2Z.inj_succ, Z.pow_succ_r in Hm by lia.
    assert (0 < f)%nat by (destruct f; simpl in Hm; lia).
    pose proof (Z.div_mod m 10 ltac:(lia)) as Hdm.
    pose proof (Z.mod_pos_bound m 10 ltac:(lia)).
    rewrite IH by (try split; try apply Z.div_pos; try apply Z.div_lt_upper_bound; lia).
    rewrite parse_digits_step by lia. f_equal; lia.
Qed.

Lemma format_digits_head fuel m acc :
  0 ≤ m → (0 < fuel)%nat →
  ∃ d s, 0 ≤ d < 10 ∧ format_digits fuel m acc = String (digit_char d) s.
Proof.
  revert m acc. induction fuel as [|f IH]; intros m acc Hm Hf; [lia|].
  cbn [format_digits].
  pose proof (Z.mod_pos_bound m 10 ltac:(lia)).
  case_match; zify_bool; [by eauto|].
  destruct f; [by cbn; eauto|]. apply IH; [apply Z.div_pos|]; lia.
Qed.

Lemma digit_char_not_sign d :
  0 ≤ d < 10 → Ascii.eqb (digit_char d) "-" = false ∧ Ascii.eqb (digit_char d) "+" = false.
Proof.
  intros H. assert (d = 0 ∨ d = 1 ∨ d = 2 ∨ d = 3 ∨ d = 4 ∨ d = 5 ∨ d = 6 ∨ d = 7 ∨ d = 8 ∨ d = 9)
    as Hd by lia.
  by repeat destruct Hd as [->|Hd]; [..|subst].
Qed.

(** Printing then parsing an [int64] gives it back. *)
Lemma ParseInt_FormatInt n : is_int64 n → ParseInt (FormatInt n) = inl n.
Proof.
  unfold is_int64, minInt64, maxInt64, FormatInt. intros Hn.
  case_match; zify_bool.
  - cbn [ParseInt]. change (Ascii.eqb "-" "-") with true. cbn [orb].
    destruct (format_digits_head 20 (- n) "") as (d & s & Hd & Hs); [lia..|].
    rewrite Hs. unfold rbind. rewrite <- Hs.
    rewrite parse_format_digits by lia. cbn [parse_digits negb andb].
    case_match; zify_bool; [lia|]. f_equal. lia.
  - destruct (format_digits_head 20 n "") as (d & s & Hd & Hs); [lia..|].
    destruct (digit_char_not_sign d Hd) as [H1 H2].
    rewrite Hs. cbn [ParseInt]. rewrite H1, H2. cbn [orb]. rewrite <- Hs.
    unfold rbind. rewrite parse_format_digits by lia.
    cbn [parse_digits negb andb]. case_match; zify_bool; [lia|done].
Qed.

(** ** Bytes of a string *)

(** [s] does not contain the byte [c]. *)
Fixpoint lacks (c : ascii) (s : string) : bool :=
  match s with
  | EmptyString => true
  | String d s' => negb (Ascii.eqb d c) && lacks c s'
  end.

Lemma append_assoc (a b c : string) : (a +++ b) +++ c = a +++ b +++ c.
Proof. induction a as [|x a IH]; [done|]. simpl. by rewrite IH. Qed.

Lemma lacks_app c a b : lacks c (a +++ b) = lacks c a && lacks c b.
Proof. induction a as [|d a IH]; [done|]. simpl. by rewrite IH, andb_assoc. Qed.

Lemma Contains_byte c s : Contains s (String c "") = negb (lacks c s).
Proof.
  induction s as [|d s IH]; [done|]. simpl. rewrite IH, HasPrefix_empty, andb_true_r, negb_andb.
  rewrite (Ascii.eqb_sym c d), negb_involutive. done.
Qed.

Lemma Cut_found c a b : lacks c a = true → Cut (a +++ String c b) c = (a, b, true).
Proof.
  induction a as [|d a IH]; simpl.
  - intros _. by rewrite Ascii.eqb_refl.
  - intros [Hd%negb_true_iff Ha]%andb_prop. by rewrite Hd, IH.
Qed.

Lemma strip_trailing_slashes_app a b :
  strip_trailing_slashes b ≠ "" → strip_trailing_slashes (a +++ b) = a +++ strip_trailing_slashes b.
Proof.
  intros Hb. induction a as [|d a IH]; [done|]. simpl. rewrite IH.
  by destruct a; simpl; [destruct (strip_trailing_slashes b)|].
Qed.

Lemma strip_trailing_slashes_id b : lacks "/" b = true → strip_trailing_slashes b = b.
Proof.
  induction b as [|d b IH]; [done|]. simpl. intros [Hd%negb_true_iff Hb]%andb_prop.
  rewrite IH by done. destruct b; [by rewrite Hd|done].
Qed.

Lemma after_last_slash_id b : lacks "/" b = true → after_last_slash b = b.
Proof.
  destruct b as [|d b]; [done|]. cbn [after_last_slash lacks].
  intros [Hd%negb_true_iff Hb]%andb_prop. by rewrite Contains_byte, Hb, Hd.
Qed.

Lemma after_last_slash_app a b :
  lacks "/" b = true → after_last_slash (a +++ String "/" b) = b.
Proof.
  intros Hb. induction a as [|d a IH]; cbn [String.append after_last_slash].
  - by rewrite Contains_byte, Hb.
  - rewrite Contains_byte, lacks_app. cbn [lacks]. by rewrite andb_false_r.
Qed.

(** The base of a path, with or without a directory. *)
Lemma filepath_Base_id b : lacks "/" b = true → b ≠ "" → filepath_Base b = b.
Proof.
  intros Hb Hne. unfold filepath_Base.
  rewrite strip_trailing_slashes_id, after_last_slash_id by done.
  by rewrite (proj2 (String.eqb_neq b "")).
Qed.

Lemma filepath_Base_app dir b :
  lacks "/" b = true → b ≠ "" → filepath_Base (dir +++ String "/" b) = b.
Proof.
  intros Hb Hne. unfold filepath_Base.
  assert (dir +++ String "/" b ≠ "") as H1 by by destruct dir.
  rewrite (proj2 (String.eqb_neq _ "") H1).
  assert (strip_trailing_slashes (String "/" b) = String "/" b) as Hs.
  { simpl. rewrite strip_trailing_slashes_id by done. by destruct b. }
  rewrite strip_trailing_slashes_app by by rewrite Hs.
  rewrite Hs, after_last_slash_app by done. by rewrite (proj2 (String.eqb_neq b "")).
Qed.

Lemma ext_from_app cand a e :
  lacks "/" a = true → (∀ cand, ext_from cand e = e) → ext_from cand (a +++ e) = e.
Proof.
  intros Ha He. revert cand Ha. induction a as [|d a IH]; intros cand; simpl; [done|].
  intros [Hd%negb_true_iff Ha]%andb_prop. rewrite Hd. by case_match; apply IH.
Qed.

(** ** Numbers in file names *)

Lemma digit_char_not c d : digit_of c = None → 0 ≤ d < 10 → Ascii.eqb (digit_char d) c = false.
Proof.
  intros Hc Hd. apply Ascii.eqb_neq. intros <-. by rewrite digit_of_digit_char in Hc.
Qed.

Lemma lacks_format_digits c fuel m acc :
  digit_of c = None → 0 ≤ m → lacks c acc = true → lacks c (format_digits fuel m acc) = true.
Proof.
  intros Hc. revert m acc. induction fuel as [|f IH]; intros m acc Hm Ha; [done|].
  cbn [format_digits].
  assert (lacks c (String (digit_char (m mod 10)) acc) = true).
  { cbn [lacks]. rewrite digit_char_not, Ha by (done || by apply Z.mod_pos_bound). done. }
  case_match; [done|]. apply IH; [apply Z.div_pos; lia|done].
Qed.

Lemma lacks_Sprintf_05v c n : digit_of c = None → 0 ≤ n → lacks c (Sprintf_05v n) = true.
Proof.
  intros Hc Hn. unfold Sprintf_05v, FormatInt. rewrite (proj2 (Z.ltb_ge n 0)) by lia.
  rewrite lacks_app, lacks_format_digits by done. rewrite andb_true_r.
  assert (Ascii.eqb "0" c = false) as H0.
  { apply Ascii.eqb_neq. intros <-. by vm_compute in Hc. }
  induction (5 - _)%nat as [|k IH]; [done|]. cbn [repeat_char lacks]. by rewrite H0, IH.
Qed.

Lemma parse_digits_zeros k s : parse_digits 0 (repeat_char k "0" +++ s) = parse_digits 0 s.
Proof. by induction k. Qed.

Lemma ParseInt_Sprintf_05v n : 0 ≤ n ≤ maxInt64 → ParseInt (Sprintf_05v n) = inl n.
Proof.
  intros Hn. pose proof (ParseInt_FormatInt n) as Hp. unfold Sprintf_05v.
  destruct (5 - String.length (FormatInt n))%nat as [|k]; [apply Hp; unfold is_int64, minInt64; lia|].
  cbn [repeat_char String.append ParseInt].
  change (Ascii.eqb "0" "-") with false. change (Ascii.eqb "0" "+") with false. cbn [orb].
  change (String "0" (repeat_char k "0" +++ FormatInt n))
    with (repeat_char (S k) "0" +++ FormatInt n).
  rewrite parse_digits_zeros. unfold FormatInt. unfold maxInt64 in Hn.
  rewrite (proj2 (Z.ltb_ge n 0)), parse_format_digits by lia.
  cbn [parse_digits rbind negb andb]. case_match; zify_bool; [lia|done].
Qed.

Lemma parse_digits_bounds n s m : 0 ≤ n → parse_digits n s = inl m → 0 ≤ m.
Proof.
  revert n. induction s as [|c s IH]; intros n Hn; simpl; [by intros [= <-]|].
  destruct (digit_of c) as [d|] eqn:Hd; [|done].
  assert (0 ≤ d). { unfold digit_of in Hd. case_all; zify_bool; lia. }
  do 2 (case_match; [done|]). apply IH. lia.
Qed.

Lemma ParseInt_bounds s n : ParseInt s = inl n → is_int64 n.
Proof.
  unfold ParseInt, rbind, is_int64, minInt64, maxInt64. intros Hn.
  destruct s as [|c s]; [done|].
  destruct (if Ascii.eqb c "-" || Ascii.eqb c "+" then s else String c s) as [|c' s'] eqn:Hb; [done|].
  destruct (parse_digits 0 (String c' s')) as [m|] eqn:Hm; [|done].
  apply parse_digits_bounds in Hm; [|lia].
  destruct (Ascii.eqb c "-"); case_all; zify_bool; lia.
Qed.
(** ** Trimming *)

Lemma space_width_app a b k : space_width a = S k → space_width (a +++ b) = S k.
Proof.
  destruct a as [|x [|y [|z a]]]; simpl; [done| | |done].
  - destruct (_ || _); done.
  - destruct (_ || _); [done|]. by destruct (_ && _).
Qed.

Lemma space_width_length a k : space_width a = S k → (S k <= String.length a)%nat.
Proof.
  assert (Hif : ∀ (b : bool) (m n : nat), (if b then m else n) = S k → m = S k ∨ n = S k) by (intros []; auto).
  destruct a as [|x [|y [|z a]]]; cbn [space_width String.length]; intros Hk; [done|..];
    repeat (apply Hif in Hk as [Hk|Hk]; [lia|]); lia.
Qed.

Lemma trim_left_from_skip k a : (String.length a <= k)%nat → trim_left_from k a = "".
Proof.
  revert k. induction a as [|c a IH]; intros k; [done|]. cbn [String.length]. intros Hk.
  destruct k as [|k]; [lia|]. cbn. apply IH. lia.
Qed.

Lemma trim_left_from_app k a b :
  (k <= String.length a)%nat → trim_left_from k a = "" → trim_left_from k (a +++ b) = trim_left_from 0 b.
Proof.
  revert k. induction a as [|c a IH]; intros k; cbn [String.length].
  - intros Hk _. by replace k with 0%nat by lia.
  - intros Hk. destruct k as [|k].
    + cbn [trim_left_from String.append]. destruct (space_width (String c a)) as [|k] eqn:Hw; [done|].
      apply (space_width_app _ b) in Hw as Hw'. cbn [String.append] in Hw'. rewrite Hw'.
      apply space_width_length in Hw. cbn [String.length] in Hw. apply IH. lia.
    + cbn [trim_left_from String.append]. apply IH. lia.
Qed.

Lemma all_space_app a b : all_space a = true → all_space b = true → all_space (a +++ b) = true.
Proof.
  unfold all_space. rewrite !String.eqb_eq. intros Ha Hb. rewrite trim_left_from_app; [done|lia|done].
Qed.

Lemma TrimRightSpace_split s : ∃ b, s = TrimRightSpace s +++ b ∧ all_space b = true.
Proof.
  induction s as [|c s (b & Hs & Hb)]; [by exists ""|]. cbn [TrimRightSpace]. destruct (all_space (String c s)) eqn:Ha.
  - by exists (String c s).
  - exists b. cbn [String.append]. by rewrite <- Hs.
Qed.

Lemma TrimRightSpace_idemp s : TrimRightSpace (TrimRightSpace s) = TrimRightSpace s.
Proof.
  induction s as [|c s IH]; [done|]. cbn [TrimRightSpace].
  destruct (all_space (String c s)) eqn:Ha; [done|]. cbn [TrimRightSpace].
  destruct (all_space (String c (TrimRightSpace s))) eqn:Ht; [|by rewrite IH].
  destruct (TrimRightSpace_split s) as (b & Hs & Hb).
  pose proof (all_space_app _ _ Ht Hb) as Hsp. cbn [String.append] in Hsp. rewrite <- Hs in Hsp. congruence.
Qed.

Lemma trim_left_from_0 s : space_width s = 0%nat → trim_left_from 0 s = s.
Proof. destruct s; [done|]. intros Hs. cbn [trim_left_from]. by rewrite Hs. Qed.

Lemma trim_left_from_width k s : space_width (trim_left_from k s) = 0%nat.
Proof.
  revert k. induction s as [|c s IH]; intros k; [done|]. destruct k as [|k]; cbn [trim_left_from]; [|apply IH].
  destruct (space_width (String c s)) eqn:Hw; [done|apply IH].
Qed.

Lemma TrimSpace_idemp s : TrimSpace (TrimSpace s) = TrimSpace s.
Proof.
  unfold TrimSpace at 1, TrimLeftSpace. rewrite trim_left_from_0; [apply TrimRightSpace_idemp|].
  unfold TrimSpace, TrimLeftSpace. pose proof (trim_left_from_width 0 s) as Hw.
  destruct (TrimRightSpace_split (trim_left_from 0 s)) as (b & Hb & _).
  destruct (space_width (TrimRightSpace (trim_left_from 0 s))) as [|k] eqn:Hk; [done|].
  apply (space_width_app _ b) in Hk. congruence.
Qed.
