(* ===== verification/Effects.v ===== *)
(** * Effectful Go code

    A small monad for stateful Go code that may return an error, panic or
    block forever, with the combinators that stand for Go's control flow
    (checking an error, [defer], loops over a slice), and the preservation
    logic the safety theorems are proved in. *)

From S2P Require Import Prelude.

(** ** The monad *)

Inductive outcome (A : Type) :=
  | Ok (a : A)
  | Err (e : error)
  | Panic (msg : string)
  | Block.
Arguments Ok {A} a.
Arguments Err {A} e.
Arguments Panic {A} msg.
Arguments Block {A}.

Definition M (W A : Type) : Type := W → outcome A * W.

#[export] Instance M_ret W : MRet (M W) := λ A a w, (Ok a, w).
#[export] Instance M_bind W : MBind (M W) := λ A B f m w,
  match m w with
  | (Ok a, w') => f a w'
  | (Err e, w') => (Err e, w')
  | (Panic s, w') => (Panic s, w')
  | (Block, w') => (Block, w')
  end.

#[export] Instance M_fmap W : FMap (M W) := λ A B f m, a ← m; mret (f a).

Definition fail {W A} (e : error) : M W A := λ w, (Err e, w).
Definition panic {W A} (msg : string) : M W A := λ w, (Panic msg, w).
Definition block {W A} : M W A := λ w, (Block, w).
Definition gets {W A} (f : W → A) : M W A := λ w, (Ok (f w), w).
Definition modify {W} (f : W → W) : M W unit := λ w, (Ok tt, f w).

Definition of_result {W A} (r : result A) : M W A := λ w,
  match r with inl a => (Ok a, w) | inr e => (Err e, w) end.

Definition of_outcome {W A} (r : outcome A) : M W A := λ w, (r, w).

(** [x, err := m]: the error is a value. *)
Definition catch {W A} (m : M W A) : M W (result A) := λ w,
  match m w with
  | (Ok a, w') => (Ok (inl a), w')
  | (Err e, w') => (Ok (inr e), w')
  | (Panic s, w') => (Panic s, w')
  | (Block, w') => (Block, w')
  end.

(** The error of a call that returns nothing else. *)
Definition error_of {W} (m : M W unit) : M W (option error) :=
  r ← catch m; mret (match r with inl _ => None | inr e => Some e end).

(** [if err := m; err != nil { return wrap(err) }]. *)
Definition wrap_err {W A} (wrap : error → error) (m : M W A) : M W A := λ w,
  match m w with
  | (Err e, w') => (Err (wrap e), w')
  | r => r
  end.

(** [recover()] in a deferred function that turns a panic into an error. *)
Definition recover {W A} (wrap : string → error) (m : M W A) : M W A := λ w,
  match m w with
  | (Panic s, w') => (Err (wrap s), w')
  | r => r
  end.

(** A function with results [A] and an error: on an error path the results
    have their zero values. *)
Definition returning {W A} (zero : A) (m : M W A) : M W (A * option error) := λ w,
  match m w with
  | (Ok a, w') => (Ok (a, None), w')
  | (Err e, w') => (Ok (zero, Some e), w')
  | (Panic s, w') => (Panic s, w')
  | (Block, w') => (Block, w')
  end.

(** The caller that only looks at the results when the error is nil. *)
Definition check {W A} (m : M W (A * option error)) : M W A :=
  '(a, err) ← m; match err with None => mret a | Some e => fail e end.

(** [defer func() { retErr = multierr.Append(retErr, cleanup()) }()] around the
    rest of a function; deferred calls run when the function panics too. *)
Definition defer_append `{Multierr} {W A} (body : M W (A * option error))
    (cleanup : M W (option error)) : M W (A * option error) := λ w,
  match body w with
  | (Ok (a, retErr), w1) =>
      match cleanup w1 with
      | (Ok ce, w2) => (Ok (a, multierr_Append retErr ce), w2)
      | (Err e, w2) => (Err e, w2)
      | (Panic s, w2) => (Panic s, w2)
      | (Block, w2) => (Block, w2)
      end
  | (Err e, w1) =>
      match cleanup w1 with
      | (Ok ce, w2) => (Err (default e (multierr_Append (Some e) ce)), w2)
      | (Err e', w2) => (Err e', w2)
      | (Panic s, w2) => (Panic s, w2)
      | (Block, w2) => (Block, w2)
      end
  | (Panic s, w1) =>
      match cleanup w1 with
      | (Block, w2) => (Block, w2)
      | (_, w2) => (Panic s, w2)
      end
  | (Block, w1) => (Block, w1)
  end.

(** [defer func() { if retErr != nil { retErr = cleanup(retErr) } }()] around the
    rest of a function; a panic leaves [retErr] nil. *)
Definition on_error {W A} (cleanup : error → M W error) (body : M W A) : M W A := λ w,
  match body w with
  | (Err e, w1) =>
      match cleanup e w1 with
      | (Ok e', w2) => (Err e', w2)
      | (Err e', w2) => (Err e', w2)
      | (Panic s, w2) => (Panic s, w2)
      | (Block, w2) => (Block, w2)
      end
  | r => r
  end.

(** [for _, x := range l { m x }], stopping at the first error. *)
Fixpoint mfor {W A} (f : A → M W unit) (l : list A) : M W unit :=
  match l with [] => mret tt | x :: l' => f x;; mfor f l' end.

(** A loop that appends one result per element. *)
Fixpoint mmap {W A B} (f : A → M W B) (l : list A) : M W (list B) :=
  match l with [] => mret [] | x :: l' => b ← f x; bs ← mmap f l'; mret (b :: bs) end.

(** Running an operation of a component of the state. *)
Definition zoom {W V A} (get : W → V) (set : V → W → W) (m : M V A) : M W A := λ w,
  let '(r, v) := m (get w) in (r, set v w).

(** ** Inversion of a run *)

Lemma bind_ok {W A B} (m : M W A) (k : A → M W B) w b w' :
  (m ≫= k) w = (Ok b, w') ↔ ∃ a w1, m w = (Ok a, w1) ∧ k a w1 = (Ok b, w').
Proof. unfold mbind, M_bind. destruct (m w) as [[] ?]; naive_solver. Qed.

Lemma bind_err {W A B} (m : M W A) (k : A → M W B) w e w' :
  (m ≫= k) w = (Err e, w') ↔
    m w = (Err e, w') ∨ ∃ a w1, m w = (Ok a, w1) ∧ k a w1 = (Err e, w').
Proof. unfold mbind, M_bind. destruct (m w) as [[] ?]; naive_solver. Qed.

Lemma bind_panic {W A B} (m : M W A) (k : A → M W B) w s w' :
  (m ≫= k) w = (Panic s, w') ↔
    m w = (Panic s, w') ∨ ∃ a w1, m w = (Ok a, w1) ∧ k a w1 = (Panic s, w').
Proof. unfold mbind, M_bind. destruct (m w) as [[] ?]; naive_solver. Qed.

Lemma bind_run {W A B} (m : M W A) (k : A → M W B) w a w1 :
  m w = (Ok a, w1) → (m ≫= k) w = k a w1.
Proof. unfold mbind, M_bind. by intros ->. Qed.

Lemma wrap_err_ok {W A} g (m : M W A) w a w' :
  wrap_err g m w = (Ok a, w') ↔ m w = (Ok a, w').
Proof. unfold wrap_err. destruct (m w) as [[] ?]; naive_solver. Qed.

Lemma wrap_err_err {W A} g (m : M W A) w e w' :
  wrap_err g m w = (Err e, w') ↔ ∃ e0, e = g e0 ∧ m w = (Err e0, w').
Proof. unfold wrap_err. destruct (m w) as [[] ?]; naive_solver. Qed.

Lemma wrap_err_panic {W A} g (m : M W A) w s w' :
  wrap_err g m w = (Panic s, w') ↔ m w = (Panic s, w').
Proof. unfold wrap_err. destruct (m w) as [[] ?]; naive_solver. Qed.

Lemma of_result_ok {W A} (r : result A) (w : W) a w' :
  of_result r w = (Ok a, w') ↔ r = inl a ∧ w' = w.
Proof. unfold of_result. destruct r; naive_solver. Qed.

Lemma of_outcome_run {W A} (r r' : outcome A) (w w' : W) :
  of_outcome r w = (r', w') ↔ r = r' ∧ w' = w.
Proof. unfold of_outcome. naive_solver. Qed.

Lemma of_result_err {W A} (r : result A) (w : W) e w' :
  of_result r w = (Err e, w') ↔ r = inr e ∧ w' = w.
Proof. unfold of_result. destruct r; naive_solver. Qed.

Lemma of_result_panic {W A} (r : result A) (w : W) s w' :
  of_result r w ≠ (Panic s, w').
Proof. unfold of_result. by destruct r. Qed.

Lemma catch_run {W A} (m : M W A) w :
  catch m w = match m w with
              | (Ok a, w') => (Ok (inl a), w')
              | (Err e, w') => (Ok (inr e), w')
              | (Panic s, w') => (Panic s, w')
              | (Block, w') => (Block, w')
              end.
Proof. done. Qed.

Lemma error_of_run {W} (m : M W unit) w :
  error_of m w = match m w with
                 | (Ok _, w') => (Ok None, w')
                 | (Err e, w') => (Ok (Some e), w')
                 | (Panic s, w') => (Panic s, w')
                 | (Block, w') => (Block, w')
                 end.
Proof. unfold error_of, catch, mbind, M_bind. by destruct (m w) as [[] ?]. Qed.

Lemma returning_run {W A} (z : A) (m : M W A) w a err w' :
  returning z m w = (Ok (a, err), w') →
  (err = None ∧ m w = (Ok a, w')) ∨ (∃ e, err = Some e ∧ a = z ∧ m w = (Err e, w')).
Proof. unfold returning. destruct (m w) as [[] ?]; naive_solver. Qed.

Lemma bind_eq {W A B} (m : M W A) (k : A → M W B) w :
  (m ≫= k) w = match m w with
               | (Ok a, w') => k a w'
               | (Err e, w') => (Err e, w')
               | (Panic s, w') => (Panic s, w')
               | (Block, w') => (Block, w')
               end.
Proof. done. Qed.

Lemma wrap_err_eq {W A} g (m : M W A) w :
  wrap_err g m w = match m w with (Err e, w') => (Err (g e), w') | r => r end.
Proof. done. Qed.

(** Decomposes the hypotheses that say how a program ran. *)
Ltac run_inv :=
  repeat (match goal with
  | H : (_ ≫= _) _ = (Ok _, _) |- _ => apply bind_ok in H as (? & ? & ? & ?)
  | H : (_ ≫= _) _ = (Err _, _) |- _ => apply bind_err in H as [?|(? & ? & ? & ?)]
  | H : (_ ≫= _) _ = (Panic _, _) |- _ => apply bind_panic in H as [?|(? & ? & ? & ?)]
  | H : wrap_err _ _ _ = (Ok _, _) |- _ => apply wrap_err_ok in H
  | H : wrap_err _ _ _ = (Err _, _) |- _ => apply wrap_err_err in H as (? & ? & ?)
  | H : wrap_err _ _ _ = (Panic _, _) |- _ => apply wrap_err_panic in H
  | H : of_result _ _ = (Ok _, _) |- _ => apply of_result_ok in H as [? ?]
  | H : of_result _ _ = (Err _, _) |- _ => apply of_result_err in H as [? ?]
  | H : of_result _ _ = (Panic _, _) |- _ => by apply of_result_panic in H
  | H : of_outcome _ _ = (_, _) |- _ => apply of_outcome_run in H as [? ?]
  | H : mret _ _ = _ |- _ => injection H as ? ?
  | H : mret _ _ = (_, _) |- _ => discriminate H
  | H : fail _ _ = (Ok _, _) |- _ => discriminate H
  | H : fail _ _ = (Panic _, _) |- _ => discriminate H
  | H : fail _ _ = (Err _, _) |- _ => injection H as ? ?
  end; simplify_eq/=).

(** ** go-retry *)

(** [retry.NewConstant(interval)] with [retry.WithMaxRetries(max)], possibly
    with jitter. *)
Record Backoff := mkBackoff { max_retries : nat; interval : Z }.

(** [retry.Do] of [sethvargo/go-retry]. *)
Class Retry := retry_Do : ∀ W, Backoff → M W unit → M W unit.
Arguments retry_Do {_ W} _ _.

Definition retry_unwrap (r : outcome unit) : outcome unit :=
  match r with Err (ERetryable e) => Err e | _ => r end.

Definition is_retryable (r : outcome unit) : bool :=
  match r with Err (ERetryable _) => true | _ => false end.

(** [attempts f n w r w']: [n] calls of [f] from [w], all but the last
    returning a retryable error, the last returning [r] in [w']. *)
Inductive attempts {W} (f : M W unit) : nat → W → outcome unit → W → Prop :=
  | attempts_last w r w' : f w = (r, w') → attempts f 1 w r w'
  | attempts_retry n w e w1 r w' :
      f w = (Err (ERetryable e), w1) → attempts f n w1 r w' → attempts f (S n) w r w'.

(** What the documentation of [retry.Do] says, for a context that is not
    cancelled: the function is called until it returns nil or an error that is
    not retryable, at most [max_retries] more times, and the last error is
    returned, unwrapped. *)
Class RetryLaws `{Retry} := retry_Do_spec : ∀ W b (f : M W unit) w,
  ∃ n r w', attempts f n w r w' ∧ (n ≤ S (max_retries b))%nat ∧
    retry_Do b f w = (retry_unwrap r, w') ∧
    (is_retryable r = true → n = S (max_retries b)).

(** The part of it that also holds for a backoff that earlier calls have used,
    whose retries may be used up. *)
Class RetryBound `{Retry} := retry_Do_bound : ∀ W b (f : M W unit) w,
  ∃ n r w', attempts f n w r w' ∧ (n ≤ S (max_retries b))%nat ∧ retry_Do b f w = (retry_unwrap r, w').

#[export] Instance retry_laws_bound `{RetryLaws} : RetryBound.
Proof. intros W b f w. destruct (retry_Do_spec W b f w) as (n & r & w' & ? & ? & ? & _). by exists n, r, w'. Qed.

Fixpoint retry_loop {W} (max : nat) (f : M W unit) : M W unit := λ w,
  match f w with
  | (Err (ERetryable e), w') =>
      match max with O => (Err e, w') | S k => retry_loop k f w' end
  | r => r
  end.

(** An implementation, for the witnesses. *)
Definition loop_retry : Retry := λ W b f, retry_loop (max_retries b) f.

Lemma loop_retry_laws : @RetryLaws loop_retry.
Proof.
  intros W b f. unfold retry_Do, loop_retry. generalize (max_retries b) as k.
  intros k. induction k as [|k IH]; intros w; simpl;
    destruct (f w) as [r w1] eqn:Hf.
  - exists 1%nat, r, w1. split_and!; [by apply attempts_last|done| |done].
    by destruct r as [|[]| |].
  - destruct (is_retryable r) eqn:Hr; cycle 1.
    + exists 1%nat, r, w1. split_and!; [by apply attempts_last|lia| |by rewrite Hr].
      by destruct r as [|[]| |].
    + destruct r as [|[| |e| | |]| |]; try done.
      destruct (IH w1) as (n & r & w' & Ha & Hn & Hd & Hret).
      exists (S n), r, w'. split_and!; [by eapply attempts_retry|lia|done|].
      intros Hr'. by rewrite Hret.
Qed.

Definition decide_block {A} (r : outcome A) : {r = Block} + {r ≠ Block}.
Proof. destruct r; (by left) || by right. Defined.

(** ** Preservation

    [Preserves f m]: unless it blocks, [m] leaves the view [f] of the state as
    it was, also when it fails or panics. *)
Definition Preserves {W A B} (f : W → B) (m : M W A) : Prop :=
  ∀ w, match m w with (Block, _) => True | (_, w') => f w' = f w end.

Section Preserves.
Context {W B : Type} (f : W → B).
Implicit Types A C : Type.

Lemma preserves_ret {A} (a : A) : Preserves f (mret a).
Proof. done. Qed.

Lemma preserves_fail {A} e : Preserves f (fail e : M W A).
Proof. done. Qed.

Lemma preserves_panic {A} s : Preserves f (panic s : M W A).
Proof. done. Qed.

Lemma preserves_block {A} : Preserves f (block : M W A).
Proof. done. Qed.

Lemma preserves_gets {A} (g : W → A) : Preserves f (gets g).
Proof. done. Qed.

Lemma preserves_of_result {A} (r : result A) : Preserves f (of_result r).
Proof. by destruct r. Qed.

Lemma preserves_of_outcome {A} (r : outcome A) : Preserves f (of_outcome r).
Proof. by destruct r. Qed.

Lemma preserves_modify g : (∀ w, f (g w) = f w) → Preserves f (modify g).
Proof. intros Hg w. apply Hg. Qed.

Lemma preserves_bind {A C} (m : M W A) (k : A → M W C) :
  Preserves f m → (∀ a, Preserves f (k a)) → Preserves f (m ≫= k).
Proof.
  intros Hm Hk w. unfold mbind, M_bind. specialize (Hm w).
  destruct (m w) as [[a|e|s|] w1]; try done.
  specialize (Hk a w1). by destruct (k a w1) as [[]]; try congruence.
Qed.

Ltac one_step := intros Hm w; specialize (Hm w); unfold catch, wrap_err, recover, returning;
  match goal with |- context [?m w] => destruct (m w) as [[]] end; done.

Lemma preserves_catch {A} (m : M W A) : Preserves f m → Preserves f (catch m).
Proof. one_step. Qed.

Lemma preserves_wrap_err {A} g (m : M W A) : Preserves f m → Preserves f (wrap_err g m).
Proof. one_step. Qed.

Lemma preserves_recover {A} g (m : M W A) : Preserves f m → Preserves f (recover g m).
Proof. one_step. Qed.

Lemma preserves_returning {A} z (m : M W A) : Preserves f m → Preserves f (returning z m).
Proof. one_step. Qed.

Lemma preserves_error_of (m : M W unit) : Preserves f m → Preserves f (error_of m).
Proof. intros. by apply preserves_bind; [apply preserves_catch|]. Qed.

Lemma preserves_check {A} (m : M W (A * option error)) : Preserves f m → Preserves f (check m).
Proof. intros. apply preserves_bind; [done|]. by intros [a [e|]]. Qed.

Lemma preserves_defer_append `{Multierr} {A} (m : M W (A * option error)) c :
  Preserves f m → Preserves f c → Preserves f (defer_append m c).
Proof.
  intros Hm Hc w. unfold defer_append. specialize (Hm w).
  destruct (m w) as [[[a r]|e|s|] w1]; try done;
    specialize (Hc w1); by destruct (c w1) as [[]]; try congruence.
Qed.

Lemma preserves_mfor {A} (g : A → M W unit) l :
  (∀ x, Preserves f (g x)) → Preserves f (mfor g l).
Proof. intros Hg. induction l; simpl; [done|]. by apply preserves_bind. Qed.

Lemma preserves_mmap {A C} (g : A → M W C) l :
  (∀ x, Preserves f (g x)) → Preserves f (mmap g l).
Proof.
  intros Hg. induction l; simpl; [done|].
  apply preserves_bind; [done|]. intros. by apply preserves_bind.
Qed.

Lemma preserves_attempts g n w r w' :
  Preserves f g → attempts g n w r w' → r ≠ Block → f w' = f w.
Proof.
  intros Hg. induction 1 as [w r w' Hw|n w e w1 r w' Hw _ IH]; intros Hr.
  - specialize (Hg w). rewrite Hw in Hg. by destruct r.
  - specialize (Hg w). rewrite Hw in Hg. by rewrite IH.
Qed.

Lemma preserves_retry `{RetryBound} b g : Preserves f g → Preserves f (retry_Do b g).
Proof.
  intros Hg w. destruct (retry_Do_bound W b g w) as (n & r & w' & Ha & _ & ->).
  destruct (decide_block r) as [->|Hr]; [done|].
  pose proof (preserves_attempts g n w r w' Hg Ha Hr).
  by destruct r as [|[]| |].
Qed.

(** The operations of a component of the state that the view ignores. *)
Lemma preserves_zoom {V A} (get : W → V) set (m : M V A) :
  (∀ w v, f (set v w) = f w) → Preserves f (zoom get set m).
Proof. intros Hs w. unfold zoom. destruct (m (get w)) as [[] v]; try done; apply Hs. Qed.

End Preserves.

Lemma preserves_weaken {W B C A} (f : W → B) (g : W → C) (m : M W A) :
  (∀ w w', f w = f w' → g w = g w') → Preserves f m → Preserves g m.
Proof.
  intros Hfg Hm w. specialize (Hm w). destruct (m w) as [[] w']; try done; by apply Hfg.
Qed.

(** A view of a component, seen from the whole state. *)
Lemma preserves_zoom_get {W V B A} (g : V → B) (get : W → V) set (m : M V A) :
  (∀ w v, get (set v w) = v) → Preserves g m → Preserves (g ∘ get) (zoom get set m).
Proof.
  intros Hgs Hm w. unfold zoom. specialize (Hm (get w)).
  destruct (m (get w)) as [[] v]; simpl; by rewrite ?Hgs.
Qed.

#[export] Hint Resolve preserves_ret preserves_fail preserves_panic preserves_block
  preserves_gets preserves_of_result preserves_of_outcome preserves_bind preserves_catch preserves_wrap_err
  preserves_recover preserves_returning preserves_error_of preserves_check
  preserves_defer_append preserves_mfor preserves_mmap preserves_retry : preserve.

(** Decomposes a monadic program down to its primitive operations. *)
Ltac preserve :=
  repeat first
    [ progress intros
    | solve [eauto 3 with preserve]
    | apply preserves_bind | apply preserves_catch | apply preserves_wrap_err
    | apply preserves_recover | apply preserves_returning | apply preserves_error_of
    | apply preserves_check | apply preserves_defer_append | apply preserves_mfor
    | apply preserves_mmap | apply preserves_retry
    | case_match ].

(** ** Moves

    [Moves R m]: whatever its result, [m] takes the state along the preorder
    [R]. *)
Definition Moves {W A} (R : relation W) (m : M W A) : Prop := ∀ w, R w (m w).2.

Create HintDb moves discriminated.

Section Moves.
Context {W : Type} (R : relation W) `{!PreOrder R}.
Implicit Types A C : Type.

Lemma moves_run {A} (m : M W A) w r w' : Moves R m → m w = (r, w') → R w w'.
Proof. intros Hm Hw. specialize (Hm w). by rewrite Hw in Hm. Qed.

Lemma moves_ret {A} (a : A) : Moves R (mret a).
Proof. by intros w. Qed.

Lemma moves_fail {A} e : Moves R (fail e : M W A).
Proof. by intros w. Qed.

Lemma moves_panic {A} s : Moves R (panic s : M W A).
Proof. by intros w. Qed.

Lemma moves_of_result {A} (r : result A) : Moves R (of_result r : M W A).
Proof. intros w. by destruct r. Qed.

Lemma moves_bind {A C} (m : M W A) (k : A → M W C) :
  Moves R m → (∀ a, Moves R (k a)) → Moves R (m ≫= k).
Proof.
  intros Hm Hk w. unfold mbind, M_bind. specialize (Hm w).
  destruct (m w) as [[a|e|s|] w1]; try done. etrans; [exact Hm|apply Hk].
Qed.

Lemma moves_catch {A} (m : M W A) : Moves R m → Moves R (catch m).
Proof. intros Hm w. specialize (Hm w). unfold catch. by destruct (m w) as [[] ?]. Qed.

Lemma moves_wrap_err {A} g (m : M W A) : Moves R m → Moves R (wrap_err g m).
Proof. intros Hm w. specialize (Hm w). unfold wrap_err. by destruct (m w) as [[] ?]. Qed.

Lemma moves_error_of (m : M W unit) : Moves R m → Moves R (error_of m).
Proof. intros. by apply moves_bind; [apply moves_catch|intros; apply moves_ret]. Qed.

Lemma moves_on_error {A} c (m : M W A) :
  Moves R m → (∀ e, Moves R (c e)) → Moves R (on_error c m).
Proof.
  intros Hm Hc w. unfold on_error. specialize (Hm w). destruct (m w) as [[a|e|s|] w1]; try done.
  specialize (Hc e w1). destruct (c e w1) as [[] w2]; by etrans.
Qed.

Lemma moves_attempts (g : M W unit) n w r w' : Moves R g → attempts g n w r w' → R w w'.
Proof.
  intros Hg. induction 1 as [w r w' Hw|n w e w1 r w' Hw _ IH].
  - specialize (Hg w). by rewrite Hw in Hg.
  - specialize (Hg w). rewrite Hw in Hg. by etrans.
Qed.
End Moves.

Ltac moves :=
  repeat first
    [ progress intros
    | solve [eauto 3 with moves]
    | match goal with |- PreOrder _ => apply _ end
    | apply moves_ret | apply moves_fail | apply moves_panic | apply moves_of_result
    | apply moves_bind | apply moves_catch | apply moves_wrap_err | apply moves_error_of
    | apply moves_on_error
    | case_match ].

(** ** Programs that do not panic *)

Definition NoPanic {W A} (m : M W A) : Prop :=
  ∀ w, match m w with (Panic _, _) => False | _ => True end.

Create HintDb nopanic discriminated.

Section NoPanic.
Context {W : Type}.
Implicit Types A C : Type.

Lemma NoPanic_run {A} (m : M W A) w s w' : NoPanic m → m w ≠ (Panic s, w').
Proof. intros Hm Hw. specialize (Hm w). by rewrite Hw in Hm. Qed.

Lemma no_panic_ret {A} (a : A) : NoPanic (mret a : M W A).
Proof. done. Qed.

Lemma no_panic_fail {A} e : NoPanic (fail e : M W A).
Proof. done. Qed.

Lemma no_panic_gets {A} (g : W → A) : NoPanic (gets g).
Proof. done. Qed.

Lemma no_panic_modify (g : W → W) : NoPanic (modify g).
Proof. done. Qed.

Lemma no_panic_of_result {A} (r : result A) : NoPanic (of_result r : M W A).
Proof. by destruct r. Qed.

Lemma no_panic_bind {A C} (m : M W A) (k : A → M W C) :
  NoPanic m → (∀ a, NoPanic (k a)) → NoPanic (m ≫= k).
Proof.
  intros Hm Hk w. unfold mbind, M_bind. specialize (Hm w).
  destruct (m w) as [[a| | |] w1]; try done. apply Hk.
Qed.

Lemma no_panic_catch {A} (m : M W A) : NoPanic m → NoPanic (catch m).
Proof. intros Hm w. specialize (Hm w). unfold catch. by destruct (m w) as [[] ?]. Qed.

Lemma no_panic_wrap_err {A} g (m : M W A) : NoPanic m → NoPanic (wrap_err g m).
Proof. intros Hm w. specialize (Hm w). unfold wrap_err. by destruct (m w) as [[] ?]. Qed.

Lemma no_panic_recover {A} g (m : M W A) : NoPanic (recover g m).
Proof. intros w. unfold recover. by destruct (m w) as [[] ?]. Qed.

Lemma no_panic_error_of (m : M W unit) : NoPanic m → NoPanic (error_of m).
Proof. intros. by apply no_panic_bind; [apply no_panic_catch|]. Qed.

Lemma no_panic_mfor {A} (g : A → M W unit) l : (∀ x, NoPanic (g x)) → NoPanic (mfor g l).
Proof. intros Hg. induction l; simpl; [done|]. by apply no_panic_bind. Qed.

Lemma no_panic_mmap {A C} (g : A → M W C) l : (∀ x, NoPanic (g x)) → NoPanic (mmap g l).
Proof.
  intros Hg. induction l; simpl; [done|].
  apply no_panic_bind; [done|]. intros. by apply no_panic_bind.
Qed.

Lemma no_panic_retry `{RetryBound} b (g : M W unit) : NoPanic g → NoPanic (retry_Do b g).
Proof.
  intros Hg w. destruct (retry_Do_bound W b g w) as (n & r & w' & Ha & _ & ->).
  induction Ha as [w r w' Hw|]; [|done].
  specialize (Hg w). rewrite Hw in Hg. by destruct r as [|[]| |].
Qed.

Lemma no_panic_zoom {V A} (get : W → V) set (m : M V A) : NoPanic m → NoPanic (zoom get set m).
Proof. intros Hm w. specialize (Hm (get w)). unfold zoom. by destruct (m (get w)) as [[] v]. Qed.

End NoPanic.

#[export] Hint Resolve no_panic_ret no_panic_fail no_panic_gets no_panic_modify no_panic_of_result
  no_panic_catch no_panic_wrap_err no_panic_recover no_panic_error_of : nopanic.

Ltac no_panic :=
  repeat first
    [ progress intros
    | solve [eauto 3 with nopanic]
    | apply no_panic_bind | apply no_panic_catch | apply no_panic_wrap_err | apply no_panic_error_of
    | apply no_panic_mfor | apply no_panic_mmap | apply no_panic_retry | apply no_panic_zoom
    | case_match ].

(** ** Programs that do not block

    [Runs I m]: from a state where [I] holds, [m] does not block, and [I] holds
    again when it is done. *)
Definition Runs {W A} (I : W → Prop) (m : M W A) : Prop :=
  ∀ w, I w → (m w).1 ≠ Block ∧ I (m w).2.

Create HintDb runs discriminated.

Section Runs.
Context {W : Type} (I : W → Prop).
Implicit Types A C : Type.

Lemma runs_ret {A} (a : A) : Runs I (mret a : M W A).
Proof. by intros w. Qed.

Lemma runs_fail {A} e : Runs I (fail e : M W A).
Proof. by intros w. Qed.

Lemma runs_panic {A} s : Runs I (panic s : M W A).
Proof. by intros w. Qed.

Lemma runs_gets {A} (g : W → A) : Runs I (gets g).
Proof. by intros w. Qed.

Lemma runs_of_result {A} (r : result A) : Runs I (of_result r : M W A).
Proof. intros w. by destruct r. Qed.

Lemma runs_modify g : (∀ w, I w → I (g w)) → Runs I (modify g).
Proof. intros Hg w Hw. split; [done|by apply Hg]. Qed.

Lemma runs_bind {A C} (m : M W A) (k : A → M W C) :
  Runs I m → (∀ a, Runs I (k a)) → Runs I (m ≫= k).
Proof.
  intros Hm Hk w Hw. unfold mbind, M_bind. destruct (Hm w Hw) as [Hb Hw1].
  destruct (m w) as [[a|e|s|] w1]; simpl in *; try done. by apply Hk.
Qed.

#[local] Ltac one_step m := intros Hm w Hw; specialize (Hm w Hw); unfold catch, wrap_err, recover, returning;
  destruct (m w) as [[a|e|s|] w']; simpl in *; destruct Hm; done.

Lemma runs_catch {A} (m : M W A) : Runs I m → Runs I (catch m).
Proof. one_step m. Qed.

Lemma runs_wrap_err {A} g (m : M W A) : Runs I m → Runs I (wrap_err g m).
Proof. one_step m. Qed.

Lemma runs_recover {A} g (m : M W A) : Runs I m → Runs I (recover g m).
Proof. one_step m. Qed.

Lemma runs_returning {A} z (m : M W A) : Runs I m → Runs I (returning z m).
Proof. one_step m. Qed.

Lemma runs_error_of (m : M W unit) : Runs I m → Runs I (error_of m).
Proof. intros. by apply runs_bind; [apply runs_catch|intros; apply runs_ret]. Qed.

Lemma runs_mfor {A} (g : A → M W unit) l : (∀ x, Runs I (g x)) → Runs I (mfor g l).
Proof. intros Hg. induction l; simpl; [apply runs_ret|]. by apply runs_bind. Qed.

Lemma runs_mmap {A C} (g : A → M W C) l : (∀ x, Runs I (g x)) → Runs I (mmap g l).
Proof.
  intros Hg. induction l; simpl; [apply runs_ret|].
  apply runs_bind; [done|]. intros. apply runs_bind; [done|]. intros. apply runs_ret.
Qed.

Lemma runs_retry `{RetryBound} b g : Runs I g → Runs I (retry_Do b g).
Proof.
  intros Hg w Hw. destruct (retry_Do_bound W b g w) as (n & r & w' & Ha & _ & ->).
  assert (r ≠ Block ∧ I w') as [Hr Hw'].
  { induction Ha as [w r w' Hf|n w e w1 r w' Hf _ IH].
    - specialize (Hg w Hw). by rewrite Hf in Hg.
    - specialize (Hg w Hw). rewrite Hf in Hg. apply IH, Hg. }
  split; [|done]. by destruct r as [|[]| |].
Qed.

End Runs.

#[export] Hint Resolve runs_ret runs_fail runs_panic runs_gets runs_of_result : runs.

Ltac runs :=
  repeat first
    [ progress intros
    | solve [eauto 3 with runs]
    | apply runs_bind | apply runs_catch | apply runs_wrap_err | apply runs_recover
    | apply runs_returning | apply runs_error_of | apply runs_mfor | apply runs_mmap | apply runs_retry
    | case_match ].

(** ** Results

    [Yields I P m]: from a state where [I] holds, [m] leaves [I] holding, also
    when it fails or panics, and what it returns satisfies [P]. *)
Definition Yields {W A} (I : W → Prop) (P : A → Prop) (m : M W A) : Prop := ∀ w, I w →
  match m w with
  | (Ok a, w') => I w' ∧ P a
  | (Block, _) => True
  | (_, w') => I w'
  end.

Create HintDb yields discriminated.

Section Yields.
Context {W : Type} (I : W → Prop).
Implicit Types A C : Type.

Lemma yields_ret {A} (P : A → Prop) a : P a → Yields I P (mret a).
Proof. by intros Hp w Hw. Qed.

Lemma yields_fail {A} (P : A → Prop) e : Yields I P (fail e).
Proof. by intros w Hw. Qed.

Lemma yields_panic {A} (P : A → Prop) s : Yields I P (panic s).
Proof. by intros w Hw. Qed.

Lemma yields_gets {A} (P : A → Prop) (g : W → A) : (∀ w, I w → P (g w)) → Yields I P (gets g).
Proof. intros Hg w Hw. split; [done|by apply Hg]. Qed.

Lemma yields_of_outcome {A} (P : A → Prop) (r : outcome A) : (∀ a, r = Ok a → P a) → Yields I P (of_outcome r).
Proof. intros Hr w Hw. unfold of_outcome. destruct r; try done. split; [done|by apply Hr]. Qed.

Lemma yields_bind {A C} (P : A → Prop) (Q : C → Prop) (m : M W A) (k : A → M W C) :
  Yields I P m → (∀ a, P a → Yields I Q (k a)) → Yields I Q (m ≫= k).
Proof.
  intros Hm Hk w Hw. rewrite bind_eq. specialize (Hm w Hw).
  destruct (m w) as [[a|e|s|] w1]; try done. destruct Hm as [Hw1 Ha]. by apply Hk.
Qed.

Lemma yields_weaken {A} (P Q : A → Prop) (m : M W A) : (∀ a, P a → Q a) → Yields I P m → Yields I Q m.
Proof. intros Hpq Hm w Hw. specialize (Hm w Hw). destruct (m w) as [[] ?]; try done. naive_solver. Qed.

Lemma yields_catch {A} (P : A → Prop) (m : M W A) :
  Yields I P m → Yields I (λ r, match r with inl a => P a | inr _ => True end) (catch m).
Proof. intros Hm w Hw. specialize (Hm w Hw). unfold catch. by destruct (m w) as [[] ?]. Qed.

Lemma yields_returning {A} (P : A → Prop) z (m : M W A) :
  P z → Yields I P m → Yields I (λ r, P r.1) (returning z m).
Proof. intros Hz Hm w Hw. specialize (Hm w Hw). unfold returning. by destruct (m w) as [[] ?]. Qed.

Lemma yields_defer_append `{Multierr} {A} (P : A → Prop) (m : M W (A * option error)) c :
  Yields I (λ r, P r.1) m → Yields I (λ _, True) c → Yields I (λ r, P r.1) (defer_append m c).
Proof.
  intros Hm Hc w Hw. specialize (Hm w Hw). unfold defer_append.
  destruct (m w) as [[[a r]|e|s|] w1]; try done.
  - destruct Hm as [Hw1 Ha]. specialize (Hc w1 Hw1). destruct (c w1) as [[] w2]; naive_solver.
  - specialize (Hc w1 Hm). destruct (c w1) as [[] w2]; naive_solver.
  - specialize (Hc w1 Hm). destruct (c w1) as [[] w2]; naive_solver.
Qed.

End Yields.

(** What a preserved view tells. *)
Lemma yields_preserves {W B A} (f : W → B) c (m : M W A) :
  Preserves f m → Yields (λ w, f w = c) (λ _, True) m.
Proof. intros Hm w <-. specialize (Hm w). by destruct (m w) as [[] w']. Qed.

#[export] Hint Resolve yields_fail yields_panic yields_preserves : yields.

(** ** Methods that return their error as a value

    [NoErr m]: [m] does not end with an error of the monad. *)
Definition NoErr {W A} (m : M W A) : Prop := ∀ w, match m w with (Err _, _) => False | _ => True end.

Create HintDb noerr discriminated.

Section NoErr.
Context {W : Type}.
Implicit Types A C : Type.

Lemma no_err_ret {A} (a : A) : NoErr (mret a : M W A).
Proof. done. Qed.

Lemma no_err_modify (g : W → W) : NoErr (modify g).
Proof. done. Qed.

Lemma no_err_catch {A} (m : M W A) : NoErr (catch m).
Proof. intros w. unfold catch. by destruct (m w) as [[] ?]. Qed.

Lemma no_err_returning {A} z (m : M W A) : NoErr (returning z m).
Proof. intros w. unfold returning. by destruct (m w) as [[] ?]. Qed.

Lemma no_err_bind {A C} (m : M W A) (k : A → M W C) : NoErr m → (∀ a, NoErr (k a)) → NoErr (m ≫= k).
Proof.
  intros Hm Hk w. rewrite bind_eq. specialize (Hm w). destruct (m w) as [[a| | |] w1]; try done. apply Hk.
Qed.

Lemma no_err_error_of (m : M W unit) : NoErr (error_of m).
Proof. intros w. rewrite error_of_run. by destruct (m w) as [[] ?]. Qed.
End NoErr.

#[export] Hint Resolve no_err_ret no_err_modify no_err_catch no_err_returning no_err_error_of : noerr.
