(* ===== verification/Resolve.v ===== *)
(** * Version resolution (internal/gooseutil/resolve.go)

    Which versions an up migration applies, given the versions known to the
    provider and the versions recorded in the database. *)

From S2P Require Import Prelude GoStrings.

(** ** Definitions *)

(** The loop over the database versions: the set of applied versions and the
    greatest one (0 when there is none above 0). *)
Definition scan_db (dbVersions : list Z) : gset Z * Z :=
  foldl (λ '(applied, dbMax) v,
           ({[v]} ∪ applied, if v >? dbMax then v else dbMax)) (∅, 0) dbVersions.

Definition dbAppliedVersions (dbVersions : list Z) : gset Z := (scan_db dbVersions).1.
Definition dbMaxVersion (dbVersions : list Z) : Z := (scan_db dbVersions).2.

(** The first loop over the file-system versions. *)
Definition missing_versions (fsysVersions : list Z) (applied : gset Z) (dbMax target : Z) : list Z :=
  foldl (λ missing v,
           if bool_decide (v ∈ applied) then missing
           else if (v <? dbMax) && (v <=? target) then missing ++ [v] else missing) [] fsysVersions.

(** The second loop, appending the new versions to [out]. *)
Definition append_new (out fsysVersions : list Z) (applied : gset Z) (dbMax target : Z) : list Z :=
  foldl (λ out v,
           if bool_decide (v ∈ applied) then out
           else if (v >? dbMax) && (v <=? target) then out ++ [v] else out) out fsysVersions.

Definition newMissingError (missing : list Z) (dbMax target : Z) : error :=
  let missing := slices_Sort missing in
  let collected := map FormatInt missing in
  let many := (1 <? Z.of_nat (length collected)) in
  let msg := if many then "migrations"%string else "migration"%string in
  let versionsMsg :=
    if many then ("versions " +++ Join collected ",")%string
    else ("version " +++ List.hd "" collected)%string in
  let desiredMsg :=
    (("database version (" +++ FormatInt dbMax +++ ")")
     +++ (if bool_decide (target ≠ maxInt64)
          then ", with target version (" +++ FormatInt target +++ ")" else ""))%string in
  EErrorf "detected %d missing (out-of-order) %s lower than %s: %s"
    [AInt (Z.of_nat (length missing)); AStr msg; AStr desiredMsg; AStr versionsMsg].

Definition UpVersions (fsysVersions dbVersions : list Z) (target : Z) (allowMissing : bool)
  : result (list Z) :=
  let fsysVersions := slices_Sort fsysVersions in
  let '(applied, dbMax) := scan_db dbVersions in
  let missing := missing_versions fsysVersions applied dbMax target in
  if (0 <? Z.of_nat (length missing)) && negb allowMissing
  then inr (newMissingError missing dbMax target)
  else
    let out := [] ++ missing in
    let out := append_new out fsysVersions applied dbMax target in
    inl (slices_Sort out).

(** ** The loops as filters *)

Lemma foldl_filter_app {A} (P : A → bool) out l :
  foldl (λ out v, if P v then out ++ [v] else out) out l = out ++ filter P l.
Proof.
  revert out. induction l as [|x l IH]; intros out; simpl; [by rewrite app_nil_r|].
  rewrite IH, filter_cons. case_decide as HP; destruct (P x); try done.
  by rewrite <- app_assoc.
Qed.

Definition is_missing (applied : gset Z) (dbMax target v : Z) : bool :=
  negb (bool_decide (v ∈ applied)) && ((v <? dbMax) && (v <=? target)).
Definition is_new (applied : gset Z) (dbMax target v : Z) : bool :=
  negb (bool_decide (v ∈ applied)) && ((v >? dbMax) && (v <=? target)).

Lemma missing_versions_filter fs applied dbMax target :
  missing_versions fs applied dbMax target = filter (is_missing applied dbMax target) fs.
Proof.
  unfold missing_versions. rewrite <- (app_nil_l (filter _ _)), <- foldl_filter_app.
  apply foldl_ext_eq. intros out v. unfold is_missing.
  by case_bool_decide.
Qed.

Lemma append_new_filter out fs applied dbMax target :
  append_new out fs applied dbMax target = out ++ filter (is_new applied dbMax target) fs.
Proof.
  unfold append_new. rewrite <- foldl_filter_app.
  apply foldl_ext_eq. intros o v. unfold is_new. by case_bool_decide.
Qed.

Lemma scan_db_spec_acc l (applied : gset Z) (m : Z) :
  let r := foldl (λ '(applied, dbMax) v,
             ({[v]} ∪ applied, if v >? dbMax then v else dbMax)) (applied, m) l in
  (∀ v, v ∈ r.1 ↔ v ∈ applied ∨ v ∈ l) ∧ m ≤ r.2 ∧ (∀ v, v ∈ l → v ≤ r.2) ∧
  (r.2 = m ∨ r.2 ∈ l).
Proof.
  revert applied m. induction l as [|x l IH]; intros applied m; simpl.
  - split_and!; [set_solver|lia|set_solver|by left].
  - destruct (IH ({[x]} ∪ applied) (if x >? m then x else m)) as (H1 & H2 & H3 & H4).
    assert (m ≤ (if x >? m then x else m) ∧ x ≤ (if x >? m then x else m))
      by (case_match; zify_bool; lia).
    split_and!.
    + intros v. rewrite H1. set_solver.
    + lia.
    + intros v [->|Hv]%elem_of_cons; [lia|auto].
    + destruct H4 as [->|H4]; [|by right; right].
      case_match; [right; left|left]; done.
Qed.

Lemma dbAppliedVersions_spec l v : v ∈ dbAppliedVersions l ↔ v ∈ l.
Proof. destruct (scan_db_spec_acc l ∅ 0) as [H _]. unfold dbAppliedVersions, scan_db. set_solver. Qed.

Lemma dbMaxVersion_ge l v : v ∈ l → v ≤ dbMaxVersion l.
Proof. destruct (scan_db_spec_acc l ∅ 0) as (_ & _ & H & _). apply H. Qed.

Lemma dbMaxVersion_cases l : dbMaxVersion l = 0 ∨ dbMaxVersion l ∈ l.
Proof. by destruct (scan_db_spec_acc l ∅ 0) as (_ & _ & _ & ?). Qed.

Lemma dbMaxVersion_nonneg l : 0 ≤ dbMaxVersion l.
Proof. by destruct (scan_db_spec_acc l ∅ 0) as (_ & ? & _). Qed.

(** The versions that are still to be applied, in ascending order. *)
Definition pending (fsysVersions dbVersions : list Z) (target : Z) : list Z :=
  filter (λ v, v ∉ dbVersions ∧ v ≤ target) (slices_Sort fsysVersions).

(** The versions older than the newest applied one. *)
Definition missing (fsysVersions dbVersions : list Z) (target : Z) : list Z :=
  filter (λ v, v < dbMaxVersion dbVersions) (pending fsysVersions dbVersions target).

Lemma elem_of_pending v fs db target :
  v ∈ pending fs db target ↔ v ∈ fs ∧ v ∉ db ∧ v ≤ target.
Proof. unfold pending. rewrite list_elem_of_filter, elem_of_slices_Sort. tauto. Qed.

Lemma pending_sorted fs db target : StronglySorted (≤) (pending fs db target).
Proof. apply StronglySorted_filter, slices_Sort_sorted. Qed.

Lemma pending_NoDup fs db target : NoDup fs → NoDup (pending fs db target).
Proof. intros. apply NoDup_filter. by rewrite slices_Sort_perm. Qed.

Lemma missing_versions_spec fs db target :
  missing_versions (slices_Sort fs) (dbAppliedVersions db) (dbMaxVersion db) target
  = missing fs db target.
Proof.
  rewrite missing_versions_filter. unfold missing, pending.
  rewrite list_filter_filter. apply list_filter_iff. intros v.
  unfold is_missing. rewrite andb_True, negb_True, andb_True, !Is_true_true.
  rewrite bool_decide_eq_true, dbAppliedVersions_spec, Z.ltb_lt, Z.leb_le. tauto.
Qed.

(** No pending version equals the greatest applied one, so the pending
    versions split into the missing and the new ones. *)
Lemma pending_split fs db target :
  Forall (λ v, 0 < v) fs →
  missing fs db target
    ++ filter (is_new (dbAppliedVersions db) (dbMaxVersion db) target) (slices_Sort fs)
  = pending fs db target.
Proof.
  intros Hpos. rewrite Forall_forall in Hpos. apply sorted_perm_eq.
  - apply StronglySorted_app_2.
    + apply StronglySorted_filter, pending_sorted.
    + apply StronglySorted_filter, slices_Sort_sorted.
    + intros x y [Hx _]%list_elem_of_filter [Hy _]%list_elem_of_filter.
      unfold is_new in Hy. apply Is_true_true in Hy. zify_bool. lia.
  - apply pending_sorted.
  - unfold missing.
    rewrite <- (filter_app_complement (λ v, v < dbMaxVersion db) (pending fs db target)) at 2.
    apply Permutation_app_head. unfold pending. rewrite list_filter_filter.
    apply reflexive_eq, list_filter_ext_elem. intros v Hv.
    rewrite elem_of_slices_Sort in Hv. specialize (Hpos v Hv).
    unfold is_new. rewrite andb_True, negb_True, andb_True, !Is_true_true.
    rewrite bool_decide_eq_true, dbAppliedVersions_spec, Z.gtb_ltb, Z.ltb_lt, Z.leb_le.
    split; [intros (? & ? & ?); split_and!; (done || lia)|].
    intros (? & ? & ?). split_and!; [done| |lia].
    destruct (dbMaxVersion_cases db) as [E|E]; [lia|].
    assert (v ≠ dbMaxVersion db) by (by intros ->). lia.
Qed.

(** ** Properties *)

Lemma UpVersions_eq fs db target allowMissing :
  Forall (λ v, 0 < v) fs →
  UpVersions fs db target allowMissing
  = if negb allowMissing && negb (bool_decide (missing fs db target = []))
    then inr (newMissingError (missing fs db target) (dbMaxVersion db) target)
    else inl (pending fs db target).
Proof.
  intros Hpos. unfold UpVersions. rewrite (surjective_pairing (scan_db db)).
  fold (dbAppliedVersions db) (dbMaxVersion db).
  rewrite missing_versions_spec, append_new_filter. simpl.
  rewrite pending_split by done.
  rewrite (slices_Sort_id (pending _ _ _)) by apply pending_sorted.
  destruct (missing fs db target), allowMissing; done.
Qed.

Lemma UpVersions_ok fs db target allowMissing vs :
  Forall (λ v, 0 < v) fs → UpVersions fs db target allowMissing = inl vs → vs = pending fs db target.
Proof. intros Hpos. rewrite UpVersions_eq by done. case_match; [done|]. by intros [= <-]. Qed.

Lemma pending_nil fs db target target' :
  pending fs db target = [] → target' ≤ target → pending fs db target' = [].
Proof.
  intros Hp Ht. destruct (pending fs db target') as [|v l] eqn:Hl; [done|].
  assert (v ∈ pending fs db target') as (? & ? & ?)%elem_of_pending by (rewrite Hl; by left).
  assert (v ∈ pending fs db target) as Hv by (apply elem_of_pending; split_and!; [done|done|lia]).
  rewrite Hp in Hv. by apply elem_of_nil in Hv.
Qed.


