(* ===== verification/SqlParser.v ===== *)
(** * The SQL migration parser (internal/sqlparser)

    [parser.go]: the annotation state machine that splits a migration file
    into the statements of one direction; [parse.go]: both directions of one
    file.  The environment substitution ([mfridman/interpolate]) is a
    parameter.  A line or a word of [scanBufSize] bytes or more ends the scan
    as [bufio.Scanner] ends it. *)

From S2P Require Import Prelude GoStrings.

(** ** Data *)

Inductive Direction := DirectionUp | DirectionDown.

#[export] Instance Direction_eq_dec : EqDecision Direction.
Proof. solve_decision. Defined.

Definition FromBool (b : bool) : Direction := if b then DirectionUp else DirectionDown.
Definition Direction_String (d : Direction) : string :=
  match d with DirectionUp => "up" | DirectionDown => "down" end.
Definition ToBool (d : Direction) : bool := bool_decide (d = DirectionUp).

Inductive parserState :=
  | start
  | gooseUp
  | gooseStatementBeginUp
  | gooseStatementEndUp
  | gooseDown
  | gooseStatementBeginDown
  | gooseStatementEndDown.

#[export] Instance parserState_eq_dec : EqDecision parserState.
Proof. solve_decision. Defined.

Definition parserState_num (s : parserState) : Z :=
  match s with
  | start => 0 | gooseUp => 1 | gooseStatementBeginUp => 2 | gooseStatementEndUp => 3
  | gooseDown => 4 | gooseStatementBeginDown => 5 | gooseStatementEndDown => 6
  end.

Definition scanBufSize : Z := 4 * 1024 * 1024.

(** The reader handed to the parser: its bytes and the error it ends with. *)
Record Reader := mkReader { r_bytes : string; r_err : option error }.

(** The local variables of [ParseSQLMigration]. *)
Record parser := mkParser {
  p_state : parserState;
  p_useTx : bool;
  p_useEnvsub : bool;
  p_buf : string;
  p_stmts : list string
}.

Definition set_state (s : parserState) (p : parser) : parser :=
  mkParser s (p_useTx p) (p_useEnvsub p) (p_buf p) (p_stmts p).
Definition set_useTx (b : bool) (p : parser) : parser :=
  mkParser (p_state p) b (p_useEnvsub p) (p_buf p) (p_stmts p).
Definition set_useEnvsub (b : bool) (p : parser) : parser :=
  mkParser (p_state p) (p_useTx p) b (p_buf p) (p_stmts p).
Definition buf_Write (s : string) (p : parser) : parser :=
  mkParser (p_state p) (p_useTx p) (p_useEnvsub p) (p_buf p +++ s) (p_stmts p).
Definition buf_Reset (p : parser) : parser :=
  mkParser (p_state p) (p_useTx p) (p_useEnvsub p) "" (p_stmts p).

(** ** Annotations *)

Inductive annotation :=
  | annotationUp | annotationDown | annotationStatementBegin | annotationStatementEnd
  | annotationNoTransaction | annotationEnvsubOn | annotationEnvsubOff.

Definition annotation_text (a : annotation) : string :=
  match a with
  | annotationUp => "Up"
  | annotationDown => "Down"
  | annotationStatementBegin => "StatementBegin"
  | annotationStatementEnd => "StatementEnd"
  | annotationNoTransaction => "NO TRANSACTION"
  | annotationEnvsubOn => "ENVSUB ON"
  | annotationEnvsubOff => "ENVSUB OFF"
  end.

Definition supportedAnnotations : list annotation :=
  [annotationUp; annotationDown; annotationStatementBegin; annotationStatementEnd;
   annotationNoTransaction; annotationEnvsubOn; annotationEnvsubOff].

Definition tab : string := String (ch 9) "".

Definition extractAnnotation (line : string) : result annotation :=
  if HasPrefix line " " || HasPrefix line tab then
    inr (EErrorf "%q contains leading whitespace: %w"
           [AStr line; AWrap (ESentinel errInvalidAnnotation)])
  else
    let cmd := ReplaceAll line "--" "" in
    let cmd := Replace cmd "+goose" "" 1 in
    if Contains cmd "+goose" then
      inr (EErrorf "%q contains multiple '+goose' annotations: %w"
             [AStr cmd; AWrap (ESentinel errInvalidAnnotation)])
    else
      let cmd := TrimSpace cmd in
      if String.eqb cmd "" then inr (ESentinel errEmptyAnnotation)
      else match List.find (λ s, EqualFold (annotation_text s) cmd) supportedAnnotations with
           | Some s => inl s
           | None => inr (EErrorf "%q not supported: %w"
                            [AStr cmd; AWrap (ESentinel errInvalidAnnotation)])
           end.

Definition missingSemicolonError (state : parserState) (direction : Direction) (s : string) : error :=
  EErrorf "failed to parse migration: state %d, direction: %v: unexpected unfinished SQL query: %q: missing semicolon?"
    [AInt (parserState_num state); AStr (Direction_String direction); AStr s].

Definition cleanupStatement (input : string) : string := TrimSpace input.

(** The last word before a [--] word, [""] if there is none. *)
Fixpoint last_word (prev : string) (ws : list string) : string :=
  match ws with
  | [] => prev
  | w :: ws' =>
      if scanBufSize <=? Z.of_nat (String.length w) then prev
      else if HasPrefix w "--" then prev
      else last_word w ws'
  end.

Definition endsWithSemicolon (line : string) : bool :=
  HasSuffix (last_word "" (words line)) ";".

(** ** The state machine *)

(** The switch over annotations.  The boolean says whether the line is done
    ([continue] in the loop). *)
Definition handle_annotation (direction : Direction) (p : parser) (cmd : annotation)
  : result (parser * bool) :=
  match cmd with
  | annotationUp =>
      match p_state p with
      | start => inl (set_state gooseUp p, true)
      | s => inr (EErrorf "duplicate '-- +goose Up' annotations; stateMachine=%d, see https://github.com/pressly/goose#sql-migrations" [AInt (parserState_num s)])
      end
  | annotationDown =>
      match p_state p with
      | gooseUp | gooseStatementEndUp =>
          let bufferRemaining := TrimSpace (p_buf p) in
          if negb (String.eqb bufferRemaining "")
          then inr (missingSemicolonError (p_state p) direction bufferRemaining)
          else inl (set_state gooseDown p, true)
      | s => inr (EErrorf "must start with '-- +goose Up' annotation, stateMachine=%d, see https://github.com/pressly/goose#sql-migrations" [AInt (parserState_num s)])
      end
  | annotationStatementBegin =>
      match p_state p with
      | gooseUp | gooseStatementEndUp => inl (set_state gooseStatementBeginUp p, true)
      | gooseDown | gooseStatementEndDown => inl (set_state gooseStatementBeginDown p, true)
      | s => inr (EErrorf "'-- +goose StatementBegin' must be defined after '-- +goose Up' or '-- +goose Down' annotation, stateMachine=%d, see https://github.com/pressly/goose#sql-migrations" [AInt (parserState_num s)])
      end
  | annotationStatementEnd =>
      match p_state p with
      | gooseStatementBeginUp => inl (set_state gooseStatementEndUp p, false)
      | gooseStatementBeginDown => inl (set_state gooseStatementEndDown p, false)
      | _ => inr (errors_New "'-- +goose StatementEnd' must be defined after '-- +goose StatementBegin', see https://github.com/pressly/goose#sql-migrations")
      end
  | annotationNoTransaction => inl (set_useTx false p, true)
  | annotationEnvsubOn => inl (set_useEnvsub true p, true)
  | annotationEnvsubOff => inl (set_useEnvsub false p, true)
  end.

(** The last switch: a finished statement is stored and the buffer reset. *)
Definition store_statement (p : parser) (line : string) : parser :=
  let store p := mkParser (p_state p) (p_useTx p) (p_useEnvsub p) ""
                   (p_stmts p ++ [cleanupStatement (p_buf p)]) in
  match p_state p with
  | gooseUp | gooseDown => if endsWithSemicolon line then store p else p
  | gooseStatementEndUp => set_state gooseUp (store p)
  | gooseStatementEndDown => set_state gooseDown (store p)
  | _ => p
  end.

Section Parser.
Context (interpolate : string → result string).

(** The write of a line to the buffer; the line may be substituted. *)
Definition write_line (p : parser) (line : string) : result (parser * string) :=
  match p_state p with
  | gooseStatementEndDown | gooseStatementEndUp => inl (p, line)
  | _ =>
      let? line :=
        (if p_useEnvsub p
         then match interpolate line with
              | inl expanded => inl expanded
              | inr e => inr (EErrorf "variable substitution failed: %w:
%s" [AWrap e; AStr line])
              end
         else inl line) in
      inl (buf_Write (line +++ nl) p, line)
  end.

(** The part of the loop body after the annotations. *)
Definition parse_body (direction : Direction) (p : parser) (line : string) : result parser :=
  if String.eqb (p_buf p) "" && (HasPrefix (TrimSpace line) "--" || String.eqb line "")
  then inl p
  else
    let? (p, line) := write_line p line in
    match p_state p with
    | gooseUp | gooseStatementBeginUp | gooseStatementEndUp =>
        if bool_decide (direction = DirectionDown) then inl (buf_Reset p)
        else inl (store_statement p line)
    | gooseDown | gooseStatementBeginDown | gooseStatementEndDown =>
        if bool_decide (direction = DirectionUp) then inl (buf_Reset p)
        else inl (store_statement p line)
    | s => inr (EErrorf "failed to parse migration: unexpected state %d on line %q, see https://github.com/pressly/goose#sql-migrations" [AInt (parserState_num s); AStr line])
    end.

Definition is_annotation_line (line : string) : bool :=
  HasPrefix (TrimSpace line) "--" && Contains line "+goose".

(** One iteration of the scanning loop. *)
Definition parse_line (direction : Direction) (p : parser) (line : string) : result parser :=
  if bool_decide (p_state p = start) && String.eqb (TrimSpace line) "" then inl p
  else if is_annotation_line line then
    match extractAnnotation line with
    | inr e => inr (EErrorf "failed to parse annotation line %q: %w" [AStr line; AWrap e])
    | inl cmd =>
        let? (p, continue) := handle_annotation direction p cmd in
        if continue then inl p else parse_body direction p line
    end
  else parse_body direction p line.

(** The scanning loop over the raw lines of the input. *)
Fixpoint parse_lines (direction : Direction) (p : parser) (raw : list string)
  : result (parser * option error) :=
  match raw with
  | [] => inl (p, None)
  | l :: raw' =>
      if scanBufSize <=? Z.of_nat (String.length l)
      then inl (p, Some (ESentinel bufio_ErrTooLong))
      else let? p := parse_line direction p (drop_cr l) in
           parse_lines direction p raw'
  end.

Definition init_parser : parser := mkParser start true false "" [].

(** After the last line: [err] is the scanner's error. *)
Definition parse_end (p : parser) (err : option error) (direction : Direction) : result (list string * bool) :=
  match err with
  | Some e => inr (EErrorf "failed to scan migration: %w" [AWrap e])
  | None =>
      match p_state p with
      | start => inr (errors_New "failed to parse migration: must start with '-- +goose Up' annotation, see https://github.com/pressly/goose#sql-migrations")
      | gooseStatementBeginUp | gooseStatementBeginDown =>
          inr (errors_New "failed to parse migration: missing '-- +goose StatementEnd' annotation")
      | s =>
          let bufferRemaining := TrimSpace (p_buf p) in
          if negb (String.eqb bufferRemaining "")
          then inr (missingSemicolonError s direction bufferRemaining)
          else inl (p_stmts p, p_useTx p)
      end
  end.

Definition ParseSQLMigration (r : Reader) (direction : Direction) : result (list string * bool) :=
  let? (p, too_long) := parse_lines direction init_parser (raw_lines (r_bytes r)) in
  parse_end p (match too_long with Some e => Some e | None => r_err r end) direction.

(** ** Both directions of a file (parse.go) *)

Record ParsedSQL := mkParsedSQL { UseTx : bool; Up : list string; Down : list string }.

(** A file system: opening a file yields a reader and the error of closing it. *)
Definition FS := string → result (Reader * option error).

Context `{!Multierr}.

(** [parse] returns its values and its error, which may come from [Close]. *)
Definition parse (fsys : FS) (filename : string) (direction : Direction)
  : list string * bool * option error :=
  match fsys filename with
  | inr e => ([], false, Some e)
  | inl (r, close_err) =>
      match ParseSQLMigration r direction with
      | inr e =>
          ([], false, multierr_Append
             (Some (EErrorf "failed to parse %s: %w" [AStr filename; AWrap e])) close_err)
      | inl (stmts, useTx) => (stmts, useTx, multierr_Append None close_err)
      end
  end.

(** [ParseAllFromFS].  The error group returns the error of the direction
    that fails first; [up_first] is the order of the two failures. *)
Definition ParseAllFromFS (up_first : bool) (fsys : FS) (filename : string) : result ParsedSQL :=
  let '(up, useTx, err_up) := parse fsys filename DirectionUp in
  let '(down, _, err_down) := parse fsys filename DirectionDown in
  match err_up, err_down with
  | Some e1, Some e2 => inr (if up_first then e1 else e2)
  | Some e1, None => inr e1
  | None, Some e2 => inr e2
  | None, None => inl (mkParsedSQL useTx up down)
  end.

End Parser.

(** ** Sections of a file *)

(** The two sections of a file are named by their direction. *)
Definition st_plain (sec : Direction) : parserState :=
  match sec with DirectionUp => gooseUp | DirectionDown => gooseDown end.
Definition st_begin (sec : Direction) : parserState :=
  match sec with DirectionUp => gooseStatementBeginUp | DirectionDown => gooseStatementBeginDown end.
Definition st_end (sec : Direction) : parserState :=
  match sec with DirectionUp => gooseStatementEndUp | DirectionDown => gooseStatementEndDown end.

Definition section_of (s : parserState) : option Direction :=
  match s with
  | start => None
  | gooseUp | gooseStatementBeginUp | gooseStatementEndUp => Some DirectionUp
  | gooseDown | gooseStatementBeginDown | gooseStatementEndDown => Some DirectionDown
  end.

(** States up to the difference between "between two statements" and "just
    after a [StatementEnd]". *)
Definition norm (s : parserState) : parserState :=
  match s with
  | gooseStatementEndUp => gooseUp
  | gooseStatementEndDown => gooseDown
  | s => s
  end.

(** ** The two directions see the same annotations *)

(** What two runs of the parser over the same lines agree on, whatever their
    directions: the transaction mode, the substitution switch and the state up
    to [norm]. *)
Record sim (p1 p2 : parser) : Prop := {
  sim_state : norm (p_state p1) = norm (p_state p2);
  sim_useTx : p_useTx p1 = p_useTx p2;
  sim_useEnvsub : p_useEnvsub p1 = p_useEnvsub p2
}.

Ltac solve_sim := first [done | split; simpl in *; congruence].

#[export] Instance sim_equiv : Equivalence sim.
Proof.
  split.
  - by intros p.
  - by intros p q [].
  - intros p q r [] []. split; congruence.
Qed.

Lemma store_statement_sim p line : sim (store_statement p line) p.
Proof. destruct p as [[] ????]; unfold store_statement; simpl; case_all; done. Qed.

Section ParserProofs.
Context (interpolate : string → result string).

Abbreviation parse_body := (parse_body interpolate).
Abbreviation parse_line := (parse_line interpolate).
Abbreviation parse_lines := (parse_lines interpolate).

Lemma write_line_sim p line p' line' :
  write_line interpolate p line = inl (p', line') → sim p' p.
Proof.
  unfold write_line, rbind. destruct p as [[] ? [] ??]; simpl; intros H; case_all; solve_sim.
Qed.

Lemma parse_body_sim d p line p' : parse_body d p line = inl p' → sim p' p.
Proof.
  unfold SqlParser.parse_body, rbind. intros H. case_match; [by simplify_eq|].
  destruct (write_line interpolate p line) as [[q l]|] eqn:Hw; [|done].
  apply write_line_sim in Hw. rewrite <- Hw.
  case_all; first [apply store_statement_sim | done].
Qed.

Lemma handle_annotation_sim d1 d2 p1 p2 cmd q1 c1 q2 c2 :
  sim p1 p2 →
  handle_annotation d1 p1 cmd = inl (q1, c1) →
  handle_annotation d2 p2 cmd = inl (q2, c2) →
  sim q1 q2 ∧ c1 = c2.
Proof.
  intros [Hs Ht He] H1 H2.
  destruct cmd, p1 as [[] ????], p2 as [[] ????]; simpl in *; case_all; split; solve_sim.
Qed.

Lemma parse_line_sim d1 d2 p1 p2 line q1 q2 :
  sim p1 p2 → parse_line d1 p1 line = inl q1 → parse_line d2 p2 line = inl q2 → sim q1 q2.
Proof.
  intros Hsim. unfold SqlParser.parse_line, rbind.
  assert (bool_decide (p_state p1 = start) = bool_decide (p_state p2 = start)) as ->.
  { destruct Hsim as [Hs _ _]. by destruct (p_state p1), (p_state p2). }
  case_match; [by intros; simplify_eq|]. case_match.
  - destruct (extractAnnotation line) as [cmd|]; [|done].
    destruct (handle_annotation d1 p1 cmd) as [[r1 c1]|] eqn:H1; [|done].
    destruct (handle_annotation d2 p2 cmd) as [[r2 c2]|] eqn:H2; [|done].
    destruct (handle_annotation_sim d1 d2 p1 p2 cmd r1 c1 r2 c2) as [Hr ->]; [done..|].
    destruct c2; intros; simplify_eq; [done|].
    by rewrite (parse_body_sim d1 r1 line q1), (parse_body_sim d2 r2 line q2).
  - intros. by rewrite (parse_body_sim d1 p1 line q1), (parse_body_sim d2 p2 line q2).
Qed.

Lemma parse_lines_sim d1 d2 raw p1 p2 q1 e1 q2 e2 :
  sim p1 p2 → parse_lines d1 p1 raw = inl (q1, e1) → parse_lines d2 p2 raw = inl (q2, e2) →
  sim q1 q2 ∧ e1 = e2.
Proof.
  revert p1 p2. induction raw as [|l raw IH]; intros p1 p2 Hsim; simpl.
  - intros; by simplify_eq.
  - case_match; [by intros; simplify_eq|]. unfold rbind.
    destruct (parse_line d1 p1 _) as [r1|] eqn:H1; [|done].
    destruct (parse_line d2 p2 _) as [r2|] eqn:H2; [|done].
    apply IH. eauto using parse_line_sim.
Qed.

Lemma useTx_agree r ups downs tx_up tx_down :
  ParseSQLMigration interpolate r DirectionUp = inl (ups, tx_up) →
  ParseSQLMigration interpolate r DirectionDown = inl (downs, tx_down) →
  tx_up = tx_down.
Proof.
  unfold ParseSQLMigration, parse_end, rbind. intros H1 H2.
  destruct (parse_lines DirectionUp _ _) as [[p1 e1]|] eqn:E1; [|done].
  destruct (parse_lines DirectionDown _ _) as [[p2 e2]|] eqn:E2; [|done].
  destruct (parse_lines_sim DirectionUp DirectionDown _ _ _ _ _ _ _ (reflexivity init_parser) E1 E2)
    as [[_ Htx _] _].
  case_all; done.
Qed.

(** The up and the down pass over the same file agree on whether the
    migration runs in a transaction, whenever both succeed: the sanity check
    [txUp != txDown] of migrationstats never fails, and the [UseTx] that
    [ParseAllFromFS] keeps from the up pass is that of the file. *)
Theorem useTx_direction_independent r ups downs tx_up tx_down :
  ParseSQLMigration interpolate r DirectionUp = inl (ups, tx_up) →
  ParseSQLMigration interpolate r DirectionDown = inl (downs, tx_down) →
  tx_up = tx_down.
Proof. apply useTx_agree. Qed.

End ParserProofs.

(** ** Rendering a migration file *)

Fixpoint unlines (ls : list string) : string :=
  match ls with [] => "" | l :: ls' => l +++ nl +++ unlines ls' end.

(** A statement of a script: lines ending with a semicolon line, or a block
    between [StatementBegin] and [StatementEnd]. *)
Inductive script_stmt :=
  | SimpleStmt (init : list string) (last : string)
  | BlockStmt (first : string) (rest : list string).

Definition stmt_lines (s : script_stmt) : list string :=
  match s with SimpleStmt init last => init ++ [last] | BlockStmt first rest => first :: rest end.

Definition begin_line : string := "-- +goose StatementBegin".
Definition end_line : string := "-- +goose StatementEnd".
Definition up_line : string := "-- +goose Up".
Definition down_line : string := "-- +goose Down".

Definition render_stmt (s : script_stmt) : list string :=
  match s with
  | SimpleStmt _ _ => stmt_lines s
  | BlockStmt _ _ => begin_line :: stmt_lines s ++ [end_line]
  end.

Definition render (ups downs : list script_stmt) : list string :=
  up_line :: (ups ≫= render_stmt) ++ down_line :: (downs ≫= render_stmt).

(** The statement the parser is expected to return. *)
Definition stmt_text (s : script_stmt) : string := TrimSpace (unlines (stmt_lines s)).

(** A line that the scanner returns unchanged and that is no annotation. *)
Definition line_ok (l : string) : bool :=
  negb (Contains l nl) && String.eqb (drop_cr l) l && negb (is_annotation_line l)
  && (Z.of_nat (String.length l) <? scanBufSize).

(** A line that opens a statement: neither empty nor a comment. *)
Definition opens (l : string) : bool :=
  negb (HasPrefix (TrimSpace l) "--") && negb (String.eqb l "").

Definition stmt_ok (s : script_stmt) : bool :=
  forallb line_ok (stmt_lines s)
  && opens (List.hd "" (stmt_lines s))
  && match s with
     | SimpleStmt init last => forallb (λ l, negb (endsWithSemicolon l)) init && endsWithSemicolon last
     | BlockStmt _ _ => true
     end.

(** ** Lines *)

Lemma append_nil_r (s : string) : s +++ "" = s.
Proof. induction s as [|c s IH]; simpl; [done|]. by rewrite IH. Qed.

Lemma append_nl_not_empty s1 s2 : String.eqb (s1 +++ nl +++ s2) "" = false.
Proof. by destruct s1. Qed.

Lemma raw_lines_app_nl l s :
  Contains l nl = false → raw_lines (l +++ nl +++ s) = l :: raw_lines s.
Proof.
  unfold nl. induction l as [|c l IH]; intros Hl; [done|].
  simpl in Hl. rewrite HasPrefix_empty, andb_true_r in Hl. apply orb_false_iff in Hl as [Hc Hl].
  simpl in IH |- *. rewrite Ascii.eqb_sym, Hc. by rewrite IH.
Qed.

Lemma raw_lines_unlines ls :
  Forall (λ l, Contains l nl = false) ls → raw_lines (unlines ls) = ls.
Proof.
  induction 1 as [|l ls Hl _ IH]; [done|]. cbn [unlines]. by rewrite raw_lines_app_nl, IH.
Qed.

Lemma unlines_app ls1 ls2 : unlines (ls1 ++ ls2) = unlines ls1 +++ unlines ls2.
Proof. induction ls1 as [|l ls1 IH]; [done|]. cbn [unlines app]. by rewrite IH, !append_assoc. Qed.

Section Render.
Context (interpolate : string → result string).

Abbreviation parse_line := (parse_line interpolate).
Abbreviation parse_lines := (parse_lines interpolate).

Lemma line_ok_spec l :
  line_ok l = true →
  Contains l nl = false ∧ drop_cr l = l ∧ is_annotation_line l = false ∧
  (scanBufSize <=? Z.of_nat (String.length l)) = false.
Proof.
  unfold line_ok. intros H. zify_bool. split_and!; [done| |done|].
  - by apply String.eqb_eq.
  - apply Z.leb_gt. lia.
Qed.

Lemma parse_lines_ok d p p' l raw :
  (scanBufSize <=? Z.of_nat (String.length l)) = false →
  parse_line d p (drop_cr l) = inl p' →
  parse_lines d p (l :: raw) = parse_lines d p' raw.
Proof. intros Hl Hp. simpl. rewrite Hl. unfold rbind. by rewrite Hp. Qed.

(** A statement line, in a section of the direction being parsed. *)
Lemma parse_statement_line d st tx buf stmts l :
  st = st_plain d ∨ st = st_begin d →
  line_ok l = true → (buf ≠ "" ∨ opens l = true) →
  parse_line d (mkParser st tx false buf stmts) l
  = inl (store_statement (mkParser st tx false (buf +++ l +++ nl) stmts) l).
Proof.
  intros Hst (_ & _ & Ha & _)%line_ok_spec Hb.
  unfold SqlParser.parse_line, parse_body. simpl.
  rewrite bool_decide_eq_false_2 by (by destruct d, Hst as [->| ->]).
  rewrite Ha. simpl.
  assert (String.eqb buf "" && (HasPrefix (TrimSpace l) "--" || String.eqb l "") = false) as ->.
  { destruct Hb as [Hb|Hb].
    - by apply String.eqb_neq in Hb as ->.
    - unfold opens in Hb. zify_bool. rewrite H, H0. apply andb_false_r. }
  by destruct d, Hst as [->| ->].
Qed.

(** A statement line, in a section of the other direction, is dropped. *)
Lemma parse_other_line d sec st tx stmts l :
  d ≠ sec → st = st_plain sec ∨ st = st_begin sec ∨ st = st_end sec →
  line_ok l = true →
  parse_line d (mkParser st tx false "" stmts) l = inl (mkParser st tx false "" stmts).
Proof.
  intros Hd Hst (_ & _ & Ha & _)%line_ok_spec.
  unfold SqlParser.parse_line, parse_body. simpl.
  rewrite bool_decide_eq_false_2 by (by destruct sec, Hst as [->|[->| ->]]).
  rewrite Ha. simpl. case_match; [done|].
  by destruct d, sec, Hst as [->|[->| ->]].
Qed.

Lemma parse_other_lines d sec st tx stmts ls raw :
  d ≠ sec → st = st_plain sec ∨ st = st_begin sec ∨ st = st_end sec →
  forallb line_ok ls = true →
  parse_lines d (mkParser st tx false "" stmts) (ls ++ raw)
  = parse_lines d (mkParser st tx false "" stmts) raw.
Proof.
  intros Hd Hst. induction ls as [|l ls IH]; intros Hls; [done|].
  simpl in Hls. apply andb_prop in Hls as [Hl Hls].
  pose proof (line_ok_spec l Hl) as (_ & Hcr & _ & Hlen).
  rewrite <- app_comm_cons.
  erewrite parse_lines_ok; [|done|rewrite Hcr; by apply (parse_other_line d sec)]. auto.
Qed.

(** The lines of a block accumulate in the buffer. *)
Lemma parse_block_lines d tx buf stmts ls raw :
  buf ≠ "" → forallb line_ok ls = true →
  parse_lines d (mkParser (st_begin d) tx false buf stmts) (ls ++ raw)
  = parse_lines d (mkParser (st_begin d) tx false (buf +++ unlines ls) stmts) raw.
Proof.
  revert buf. induction ls as [|l ls IH]; intros buf Hbuf Hls; cbn [unlines].
  { by rewrite append_nil_r. }
  simpl in Hls. apply andb_prop in Hls as [Hl Hls].
  pose proof (line_ok_spec l Hl) as (_ & Hcr & _ & Hlen).
  rewrite <- app_comm_cons.
  erewrite parse_lines_ok;
    [|done|rewrite Hcr; apply parse_statement_line; [by right|done|by left]].
  replace (store_statement _ l)
    with (mkParser (st_begin d) tx false (buf +++ l +++ nl) stmts) by (by destruct d).
  rewrite IH; [by rewrite !append_assoc|by destruct buf|done].
Qed.

(** The lines of a simple statement, before the one that ends it. *)
Lemma parse_simple_lines d tx buf stmts ls raw :
  buf ≠ "" ∨ opens (List.hd "" ls) = true →
  forallb line_ok ls = true → forallb (λ l, negb (endsWithSemicolon l)) ls = true →
  parse_lines d (mkParser (st_plain d) tx false buf stmts) (ls ++ raw)
  = parse_lines d (mkParser (st_plain d) tx false (buf +++ unlines ls) stmts) raw.
Proof.
  revert buf. induction ls as [|l ls IH]; intros buf Hbuf Hls Hsemi; cbn [unlines].
  { by rewrite append_nil_r. }
  simpl in Hls, Hsemi. apply andb_prop in Hls as [Hl Hls], Hsemi as [Hs Hsemi].
  pose proof (line_ok_spec l Hl) as (_ & Hcr & _ & Hlen).
  rewrite <- app_comm_cons.
  erewrite parse_lines_ok;
    [|done|rewrite Hcr; apply parse_statement_line; [by left|done|done]].
  apply negb_true_iff in Hs.
  replace (store_statement _ l)
    with (mkParser (st_plain d) tx false (buf +++ l +++ nl) stmts)
    by (unfold store_statement; simpl; destruct d; simpl; by rewrite Hs).
  rewrite IH; [by rewrite !append_assoc|left; by destruct buf, l|done..].
Qed.

(** The annotation lines of a rendered file. *)
Lemma parse_begin_line d sec st tx stmts raw :
  st = st_plain sec ∨ st = st_end sec →
  parse_lines d (mkParser st tx false "" stmts) (begin_line :: raw)
  = parse_lines d (mkParser (st_begin sec) tx false "" stmts) raw.
Proof. intros Hst. by destruct sec, Hst as [->| ->]. Qed.

Lemma parse_end_line d tx buf stmts raw :
  buf ≠ "" →
  parse_lines d (mkParser (st_begin d) tx false buf stmts) (end_line :: raw)
  = parse_lines d (mkParser (st_plain d) tx false "" (stmts ++ [TrimSpace buf])) raw.
Proof. intros Hb. destruct buf; [done|]. by destruct d. Qed.

Lemma parse_end_line_other d sec tx stmts raw :
  parse_lines d (mkParser (st_begin sec) tx false "" stmts) (end_line :: raw)
  = parse_lines d (mkParser (st_end sec) tx false "" stmts) raw.
Proof. by destruct sec. Qed.

Lemma parse_down_line d st tx stmts raw :
  st = gooseUp ∨ st = gooseStatementEndUp →
  parse_lines d (mkParser st tx false "" stmts) (down_line :: raw)
  = parse_lines d (mkParser gooseDown tx false "" stmts) raw.
Proof. by intros [->| ->]. Qed.

(** One rendered statement, in a section of the direction being parsed ... *)
Lemma parse_render_stmt d tx stmts s raw :
  stmt_ok s = true →
  parse_lines d (mkParser (st_plain d) tx false "" stmts) (render_stmt s ++ raw)
  = parse_lines d (mkParser (st_plain d) tx false "" (stmts ++ [stmt_text s])) raw.
Proof.
  destruct s as [init last|first rest]; intros [[Hok Hop]%andb_prop Hs]%andb_prop;
    unfold stmt_text; cbn [stmt_lines render_stmt] in *.
  - apply andb_prop in Hs as [Hinit Hlast].
    rewrite forallb_app in Hok. apply andb_prop in Hok as [Hok Hokl].
    cbn [forallb] in Hokl. rewrite andb_true_r in Hokl.
    pose proof (line_ok_spec last Hokl) as (_ & Hcr & _ & Hlen).
    assert (init = [] ∨ "" +++ unlines init ≠ "" ∧ opens (List.hd "" init) = true) as Hcase.
    { destruct init as [|l init]; [by left|right]. split; [by destruct l|done]. }
    rewrite <- app_assoc. destruct Hcase as [->|[Hne Hop']].
    + rewrite !app_nil_l. cbn [app] in Hop |- *.
      erewrite parse_lines_ok;
        [|done|rewrite Hcr; apply parse_statement_line; [by left|done|by right]].
      unfold store_statement, cleanupStatement. destruct d; simpl; by rewrite Hlast.
    + rewrite parse_simple_lines by auto. cbn [app].
      erewrite parse_lines_ok;
        [|done|rewrite Hcr; apply parse_statement_line; [by left|done|by left]].
      rewrite unlines_app. cbn [unlines]. rewrite append_nil_r.
      unfold store_statement, cleanupStatement. destruct d; simpl; by rewrite Hlast.
  - cbn [forallb List.hd] in Hok, Hop. apply andb_prop in Hok as [Hf Hr].
    pose proof (line_ok_spec first Hf) as (_ & Hcr & _ & Hlen).
    rewrite <- !app_comm_cons, <- app_assoc.
    rewrite (parse_begin_line d d) by (by left).
    erewrite parse_lines_ok;
      [|done|rewrite Hcr; apply parse_statement_line; [by right|done|by right]].
    replace (store_statement _ first)
      with (mkParser (st_begin d) tx false (first +++ nl) stmts) by (by destruct d).
    rewrite parse_block_lines by (done || by destruct first). cbn [app].
    rewrite parse_end_line by (by destruct first).
    cbn [unlines]. by rewrite append_assoc.
Qed.

(** ... and in a section of the other direction. *)
Lemma parse_render_stmt_other d sec st tx stmts s raw :
  d ≠ sec → st = st_plain sec ∨ st = st_end sec → stmt_ok s = true →
  ∃ st', (st' = st_plain sec ∨ st' = st_end sec) ∧
    parse_lines d (mkParser st tx false "" stmts) (render_stmt s ++ raw)
    = parse_lines d (mkParser st' tx false "" stmts) raw.
Proof.
  intros Hd Hst [[Hok _]%andb_prop _]%andb_prop.
  destruct s as [init last|first rest]; cbn [stmt_lines render_stmt] in *.
  - exists st. split; [done|]. apply (parse_other_lines d sec); [done|tauto|done].
  - exists (st_end sec). split; [by right|].
    rewrite <- app_comm_cons, <- app_assoc, (parse_begin_line d sec) by done.
    rewrite (parse_other_lines d sec) by (done || tauto).
    apply parse_end_line_other.
Qed.

Lemma parse_render_section d tx stmts ss raw :
  forallb stmt_ok ss = true →
  parse_lines d (mkParser (st_plain d) tx false "" stmts) ((ss ≫= render_stmt) ++ raw)
  = parse_lines d (mkParser (st_plain d) tx false "" (stmts ++ map stmt_text ss)) raw.
Proof.
  revert stmts. induction ss as [|s ss IH]; intros stmts Hss; simpl.
  { by rewrite app_nil_r. }
  simpl in Hss. apply andb_prop in Hss as [Hs Hss].
  rewrite <- app_assoc, parse_render_stmt by done. rewrite IH by done.
  by rewrite <- app_assoc.
Qed.

Lemma parse_render_section_other d sec st tx stmts ss raw :
  d ≠ sec → st = st_plain sec ∨ st = st_end sec → forallb stmt_ok ss = true →
  ∃ st', (st' = st_plain sec ∨ st' = st_end sec) ∧
    parse_lines d (mkParser st tx false "" stmts) ((ss ≫= render_stmt) ++ raw)
    = parse_lines d (mkParser st' tx false "" stmts) raw.
Proof.
  intros Hd. revert st. induction ss as [|s ss IH]; intros st Hst Hss; [by exists st|].
  simpl in Hss. apply andb_prop in Hss as [Hs Hss].
  destruct (parse_render_stmt_other d sec st tx stmts s ((ss ≫= render_stmt) ++ raw))
    as (st1 & Hst1 & H1); [done..|].
  destruct (IH st1 Hst1 Hss) as (st2 & Hst2 & H2).
  exists st2. split; [done|]. rewrite bind_cons, <- app_assoc. by rewrite H1.
Qed.

Lemma render_no_nl ups downs :
  forallb stmt_ok ups = true → forallb stmt_ok downs = true →
  Forall (λ l, Contains l nl = false) (render ups downs).
Proof.
  assert (∀ ss, forallb stmt_ok ss = true →
    Forall (λ l, Contains l nl = false) (ss ≫= render_stmt)) as Hss.
  { intros ss. rewrite forallb_forall. intros Hok. apply Forall_bind, Forall_forall.
    intros s Hs%list_elem_of_In%Hok. apply andb_prop in Hs as [[Hl _]%andb_prop _].
    assert (Forall (λ l, Contains l nl = false) (stmt_lines s)) as Hls.
    { rewrite forallb_forall in Hl. apply Forall_forall.
      intros l Hin%list_elem_of_In%Hl. by apply line_ok_spec in Hin as [? _]. }
    destruct s; [done|]. constructor; [done|]. apply Forall_app; split; [done|by constructor]. }
  intros Hu Hd. constructor; [done|]. apply Forall_app; split; [by apply Hss|].
  constructor; [done|by apply Hss].
Qed.

(** C18: parsing a rendered migration gives back its statements: for every
    script made of statements ended by a semicolon line and of
    [StatementBegin]/[StatementEnd] blocks, the parser returns, for either
    direction, the trimmed texts of exactly the statements of that direction,
    in order, with transactions on; semicolons inside a block do not split. *)
Theorem parse_render ups downs d :
  forallb stmt_ok ups = true → forallb stmt_ok downs = true →
  ParseSQLMigration interpolate (mkReader (unlines (render ups downs)) None) d
  = inl (map stmt_text (match d with DirectionUp => ups | DirectionDown => downs end), true).
Proof.
  intros Hu Hd. unfold ParseSQLMigration, parse_end. cbn [r_bytes r_err].
  rewrite raw_lines_unlines by (by apply render_no_nl). unfold render.
  change (parse_lines d init_parser (up_line :: ?raw))
    with (parse_lines d (mkParser gooseUp true false "" []) raw).
  destruct d.
  - rewrite (parse_render_section DirectionUp) by done.
    rewrite parse_down_line by (by left).
    rewrite <- (app_nil_r (downs ≫= render_stmt)).
    destruct (parse_render_section_other DirectionUp DirectionDown gooseDown true
      (map stmt_text ups) downs []) as (st & Hst & Hp); [done|by left|done|].
    cbn [app]. rewrite Hp. by destruct Hst as [->| ->].
  - destruct (parse_render_section_other DirectionDown DirectionUp gooseUp true
      [] ups (down_line :: (downs ≫= render_stmt))) as (st & Hst & Hp); [done|by left|done|].
    rewrite Hp, parse_down_line by (by destruct Hst as [->| ->]; [left|right]).
    rewrite <- (app_nil_r (downs ≫= render_stmt)).
    by rewrite (parse_render_section DirectionDown).
Qed.

End Render.

(** ** Sections and transaction mode *)

Definition section_rank (s : parserState) : Z :=
  match section_of s with None => 0 | Some DirectionUp => 1 | Some DirectionDown => 2 end.

(** A line that turns transactions off. *)
Definition no_tx_line (line : string) : bool :=
  is_annotation_line line &&
  match extractAnnotation line with inl annotationNoTransaction => true | _ => false end.

Section Sections.
Context (interpolate : string → result string).

Abbreviation parse_body := (parse_body interpolate).
Abbreviation parse_line := (parse_line interpolate).
Abbreviation parse_lines := (parse_lines interpolate).

Lemma parse_body_stmts d p line p' :
  parse_body d p line = inl p' → p_stmts p' ≠ p_stmts p → section_of (p_state p) = Some d.
Proof.
  unfold SqlParser.parse_body, write_line, store_statement, rbind.
  destruct p as [[] ????], d; simpl; intros; case_all; done.
Qed.

Lemma section_of_norm s : section_of (norm s) = section_of s.
Proof. by destruct s. Qed.

Lemma parse_body_section d p line p' :
  parse_body d p line = inl p' → section_of (p_state p') = section_of (p_state p).
Proof.
  intros H%parse_body_sim. destruct H as [Hs _ _].
  by rewrite <- section_of_norm, Hs, section_of_norm.
Qed.

Lemma handle_annotation_section d p cmd q c :
  handle_annotation d p cmd = inl (q, c) →
  p_stmts q = p_stmts p ∧ section_rank (p_state p) ≤ section_rank (p_state q) ∧
  (c = false → section_of (p_state q) = section_of (p_state p)).
Proof. destruct cmd, p as [[] ????]; simpl; intros; case_all; done. Qed.


Lemma parse_line_useTx d p line p' :
  parse_line d p line = inl p' → p_useTx p' = p_useTx p && negb (no_tx_line line).
Proof.
  unfold SqlParser.parse_line, rbind, no_tx_line. intros H.
  destruct (bool_decide _ && _) eqn:Hb.
  { apply andb_prop in Hb as [_ Hb%String.eqb_eq]. simplify_eq.
    unfold is_annotation_line. rewrite Hb. simpl. by rewrite andb_true_r. }
  destruct (is_annotation_line line); cycle 1.
  { apply parse_body_sim in H. destruct H as [_ -> _]. simpl. by rewrite andb_true_r. }
  destruct (extractAnnotation line) as [cmd|]; [|done].
  destruct (handle_annotation d p cmd) as [[q c]|] eqn:Hq; [|done].
  assert (p_useTx q = p_useTx p && negb match cmd with annotationNoTransaction => true | _ => false end)
    as Htx.
  { destruct cmd, p as [[] ????]; simpl in Hq; case_all;
      rewrite ?andb_true_r, ?andb_false_r; done. }
  destruct c; simplify_eq.
  - by destruct cmd.
  - apply parse_body_sim in H. destruct H as [_ -> _]. by destruct cmd.
Qed.

Lemma parse_lines_useTx d p raw p' :
  parse_lines d p raw = inl (p', None) →
  p_useTx p' = p_useTx p && negb (existsb (λ l, no_tx_line (drop_cr l)) raw).
Proof.
  revert p. induction raw as [|l raw IH]; intros p; simpl.
  { intros [= ->]. by rewrite andb_true_r. }
  case_match; [done|]. unfold rbind.
  destruct (parse_line d p _) as [q|] eqn:Hq; [|done].
  intros Hrest%IH. rewrite Hrest, (parse_line_useTx d p _ q Hq), negb_orb, andb_assoc. done.
Qed.

(** A migration runs in a transaction unless some line of its file is a
    [NO TRANSACTION] annotation, wherever in the file that line stands. *)
Theorem useTx_spec r d stmts tx :
  ParseSQLMigration interpolate r d = inl (stmts, tx) →
  tx = negb (existsb (λ l, no_tx_line (drop_cr l)) (raw_lines (r_bytes r))).
Proof.
  unfold ParseSQLMigration, parse_end, rbind. intros H.
  destruct (parse_lines d init_parser _) as [[p e]|] eqn:Hp; [|done].
  destruct e as [e|]; [done|]. apply parse_lines_useTx in Hp. simpl in Hp.
  rewrite <- Hp. case_all; done.
Qed.

(** A [StatementBegin]/[StatementEnd] pair with nothing between them makes
    the parser lose the statement line that follows: an empty statement is
    returned in its place. *)
Theorem empty_block_loses_statement l :
  line_ok l = true → opens l = true →
  ParseSQLMigration interpolate (mkReader (unlines [up_line; begin_line; end_line; l]) None)
    DirectionUp
  = inl ([""], true).
Proof.
  intros Hok Hop. pose proof (line_ok_spec l Hok) as (Hnl & Hcr & Ha & Hlen).
  unfold ParseSQLMigration, parse_end. cbn [r_bytes r_err].
  rewrite raw_lines_unlines by (repeat constructor; done).
  change (parse_lines DirectionUp init_parser [up_line; begin_line; end_line; l])
    with (parse_lines DirectionUp (mkParser gooseStatementEndUp true false "" []) [l]).
  rewrite (parse_lines_ok interpolate DirectionUp _ (mkParser gooseUp true false "" [""]) l [] Hlen);
    [done|].
  rewrite Hcr. unfold SqlParser.parse_line, SqlParser.parse_body.
  rewrite bool_decide_eq_false_2 by done. cbn [andb p_buf]. rewrite Ha.
  unfold opens in Hop. apply andb_prop in Hop as [Hop1%negb_true_iff Hop2%negb_true_iff].
  by rewrite Hop1, Hop2.
Qed.

End Sections.

(** ** Both directions *)

Section ParseAll.
Context (interpolate : string → result string) `{MultierrLaws}.

(** [ParseAllFromFS] succeeds exactly when the file opens, closes without
    error and parses in both directions; it then returns the statements of
    each direction and the transaction mode common to both. *)
Theorem ParseAllFromFS_spec up_first fsys filename ps :
  ParseAllFromFS interpolate up_first fsys filename = inl ps ↔
  ∃ r, fsys filename = inl (r, None) ∧
    ParseSQLMigration interpolate r DirectionUp = inl (Up ps, UseTx ps) ∧
    ParseSQLMigration interpolate r DirectionDown = inl (Down ps, UseTx ps).
Proof.
  unfold ParseAllFromFS, parse. split.
  - destruct (fsys filename) as [[r close_err]|e]; [|done].
    assert (∀ e, ∃ e', multierr_Append (Some e) close_err = Some e') as Happ.
    { intros e. destruct (multierr_Append (Some e) close_err) eqn:He; [by eexists|].
      by apply append_None in He as [? _]. }
    destruct (ParseSQLMigration interpolate r DirectionUp) as [[ups tx1]|e1] eqn:E1;
      destruct (ParseSQLMigration interpolate r DirectionDown) as [[downs tx2]|e2] eqn:E2;
      rewrite ?append_nil_l;
      repeat match goal with |- context [multierr_Append (Some ?e) _] =>
        destruct (Happ e) as [? ->] end;
      destruct close_err; try done.
    intros [= <-]. exists r. simpl. rewrite E1, E2.
    by rewrite (useTx_agree interpolate r ups downs tx1 tx2).
  - intros (r & -> & -> & ->). rewrite append_nil_l. by destruct ps.
Qed.

End ParseAll.

(** ** Instances *)

Definition sample_ups : list script_stmt :=
  [SimpleStmt ["CREATE TABLE t ("; "  id int"] ");";
   BlockStmt "CREATE FUNCTION f() AS $$" ["  SELECT 1;"; "$$;"]].
Definition sample_downs : list script_stmt := [SimpleStmt [] "DROP TABLE t;"].
Definition sample_reader : Reader := mkReader (unlines (render sample_ups sample_downs)) None.
Definition no_tx_reader : Reader :=
  mkReader (unlines ["-- +goose NO TRANSACTION"; "-- +goose Up"; "SELECT 1;"]) None.

Lemma useTx_direction_independent_witness :
  ParseSQLMigration inl no_tx_reader DirectionUp = inl (["SELECT 1;"], false) ∧ false = false.
Proof.
  split; [by vm_compute|].
  exact (useTx_direction_independent inl no_tx_reader ["SELECT 1;"] [] false false
    ltac:(by vm_compute) ltac:(by vm_compute)).
Defined.

Lemma parse_render_witness :
  ParseSQLMigration inl sample_reader DirectionUp
  = inl (["CREATE TABLE t (
  id int
);"; "CREATE FUNCTION f() AS $$
  SELECT 1;
$$;"], true).
Proof.
  exact (parse_render inl sample_ups sample_downs DirectionUp
    ltac:(by vm_compute) ltac:(by vm_compute)).
Defined.


Lemma useTx_spec_witness :
  false = negb (existsb (λ l, no_tx_line (drop_cr l)) (raw_lines (r_bytes no_tx_reader))).
Proof.
  exact (useTx_spec inl no_tx_reader DirectionUp ["SELECT 1;"] false ltac:(by vm_compute)).
Defined.

Lemma empty_block_loses_statement_witness :
  ParseSQLMigration inl (mkReader (unlines [up_line; begin_line; end_line; "DROP TABLE t;"]) None)
    DirectionUp = inl ([""], true).
Proof.
  exact (empty_block_loses_statement inl "DROP TABLE t;" ltac:(by vm_compute) ltac:(by vm_compute)).
Defined.

Definition sample_fs : FS := λ _, inl (no_tx_reader, None).
Definition no_tx_parsed : ParsedSQL := mkParsedSQL false ["SELECT 1;"] [].

Lemma ParseAllFromFS_spec_witness :
  @ParseAllFromFS inl pair_Append true sample_fs "1_a.sql" = inl no_tx_parsed.
Proof.
  refine (proj2 (@ParseAllFromFS_spec inl pair_Append pair_Append_laws true sample_fs "1_a.sql"
    no_tx_parsed) _).
  exists no_tx_reader. split; [reflexivity|]. split; by vm_compute.
Defined.
