(* ===== verification/Dialects.v ===== *)
(** * SQL dialects (internal/dialects, database/dialects.go)

    The SQL text that each dialect builds for a version table, character for
    character, and the table of the supported dialects. *)

From S2P Require Import Prelude GoStrings.

(** [fmt.Sprintf] on a format whose only verb is %s. *)
Fixpoint sprintf (q : string) (args : list string) : string :=
  match q with
  | EmptyString => EmptyString
  | String c q' =>
      match c, q', args with
      | "%"%char, String "s"%char q'', a :: args' => a +++ sprintf q'' args'
      | _, _, _ => String c (sprintf q' args)
      end
  end.

(** [dialect.Querier]; [q_TableExists] is the optional method of
    [dialect.QuerierExtender]. *)
Record Querier := {
  q_CreateTable : string → string;
  q_InsertVersion : string → string;
  q_DeleteVersion : string → string;
  q_GetMigrationByVersion : string → string;
  q_ListMigrations : string → string;
  q_GetLatestVersion : string → string;
  q_TableExists : option (string → string)
}.

Definition parseTableIdentifier (name : string) : string * string :=
  let '(schema, table, found) := Cut name "." in
  if found then (schema, table) else ("", name).

Definition formatYDBTableName (tableName : string) : string := sprintf "`%s`" [tableName].

Definition NewClickhouse : Querier := {|
  q_CreateTable := λ tableName, sprintf "CREATE TABLE IF NOT EXISTS %s (
		version_id Int64,
		is_applied UInt8,
		date Date default now(),
		tstamp DateTime default now()
	  )
	  ENGINE = MergeTree()
		ORDER BY (date)" [tableName];
  q_InsertVersion := λ tableName, sprintf "INSERT INTO %s (version_id, is_applied) VALUES ($1, $2)" [tableName];
  q_DeleteVersion := λ tableName, sprintf "ALTER TABLE %s DELETE WHERE version_id = $1 SETTINGS mutations_sync = 2" [tableName];
  q_GetMigrationByVersion := λ tableName, sprintf "SELECT tstamp, is_applied FROM %s WHERE version_id = $1 ORDER BY tstamp DESC LIMIT 1" [tableName];
  q_ListMigrations := λ tableName, sprintf "SELECT version_id, is_applied FROM %s ORDER BY version_id DESC" [tableName];
  q_GetLatestVersion := λ tableName, sprintf "SELECT max(version_id) FROM %s" [tableName];
  q_TableExists := None
|}.

Definition NewAuroraDSQL : Querier := {|
  q_CreateTable := λ tableName, sprintf "CREATE TABLE %s (
		id integer PRIMARY KEY,
		version_id bigint NOT NULL,
		is_applied boolean NOT NULL,
		tstamp timestamp NOT NULL DEFAULT now()
	)" [tableName];
  q_InsertVersion := λ tableName, sprintf "INSERT INTO %s (id, version_id, is_applied) 
	      VALUES (
	          COALESCE((SELECT MAX(id) FROM %s), 0) + 1,
	          $1, 
	          $2
	      )" [tableName; tableName];
  q_DeleteVersion := λ tableName, sprintf "DELETE FROM %s WHERE version_id=$1" [tableName];
  q_GetMigrationByVersion := λ tableName, sprintf "SELECT tstamp, is_applied FROM %s WHERE version_id=$1 ORDER BY tstamp DESC LIMIT 1" [tableName];
  q_ListMigrations := λ tableName, sprintf "SELECT version_id, is_applied from %s ORDER BY id DESC" [tableName];
  q_GetLatestVersion := λ tableName, sprintf "SELECT max(version_id) FROM %s" [tableName];
  q_TableExists := Some (λ tableName,
    let '(schemaName, tableName) := parseTableIdentifier tableName in
    if negb (String.eqb schemaName "")
    then sprintf "SELECT EXISTS ( SELECT 1 FROM pg_tables WHERE schemaname = '%s' AND tablename = '%s' )" [schemaName; tableName]
    else sprintf "SELECT EXISTS ( SELECT 1 FROM pg_tables WHERE (current_schema() IS NULL OR schemaname = current_schema()) AND tablename = '%s' )" [tableName])
|}.

Definition NewSqlserver : Querier := {|
  q_CreateTable := λ tableName, sprintf "CREATE TABLE %s (
		id INT NOT NULL IDENTITY(1,1) PRIMARY KEY,
		version_id BIGINT NOT NULL,
		is_applied BIT NOT NULL,
		tstamp DATETIME NULL DEFAULT CURRENT_TIMESTAMP
	)" [tableName];
  q_InsertVersion := λ tableName, sprintf "INSERT INTO %s (version_id, is_applied) VALUES (@p1, @p2)" [tableName];
  q_DeleteVersion := λ tableName, sprintf "DELETE FROM %s WHERE version_id=@p1" [tableName];
  q_GetMigrationByVersion := λ tableName, sprintf "SELECT TOP 1 tstamp, is_applied FROM %s WHERE version_id=@p1 ORDER BY tstamp DESC" [tableName];
  q_ListMigrations := λ tableName, sprintf "SELECT version_id, is_applied FROM %s ORDER BY id DESC" [tableName];
  q_GetLatestVersion := λ tableName, sprintf "SELECT MAX(version_id) FROM %s" [tableName];
  q_TableExists := None
|}.

Definition NewMysql : Querier := {|
  q_CreateTable := λ tableName, sprintf "CREATE TABLE %s (
		id bigint(20) unsigned NOT NULL AUTO_INCREMENT,
		version_id bigint NOT NULL,
		is_applied boolean NOT NULL,
		tstamp timestamp NULL default now(),
		PRIMARY KEY(id)
	)" [tableName];
  q_InsertVersion := λ tableName, sprintf "INSERT INTO %s (version_id, is_applied) VALUES (?, ?)" [tableName];
  q_DeleteVersion := λ tableName, sprintf "DELETE FROM %s WHERE version_id=?" [tableName];
  q_GetMigrationByVersion := λ tableName, sprintf "SELECT tstamp, is_applied FROM %s WHERE version_id=? ORDER BY tstamp DESC LIMIT 1" [tableName];
  q_ListMigrations := λ tableName, sprintf "SELECT version_id, is_applied from %s ORDER BY id DESC" [tableName];
  q_GetLatestVersion := λ tableName, sprintf "SELECT MAX(version_id) FROM %s" [tableName];
  q_TableExists := Some (λ tableName,
    let '(schemaName, tableName) := parseTableIdentifier tableName in
    if negb (String.eqb schemaName "")
    then sprintf "SELECT EXISTS ( SELECT 1 FROM information_schema.tables WHERE table_schema = '%s' AND table_name = '%s' )" [schemaName; tableName]
    else sprintf "SELECT EXISTS ( SELECT 1 FROM information_schema.tables WHERE (database() IS NULL OR table_schema = database()) AND table_name = '%s' )" [tableName])
|}.

Definition NewPostgres : Querier := {|
  q_CreateTable := λ tableName, sprintf "CREATE TABLE %s (
		id integer PRIMARY KEY GENERATED BY DEFAULT AS IDENTITY,
		version_id bigint NOT NULL,
		is_applied boolean NOT NULL,
		tstamp timestamp NOT NULL DEFAULT now()
	)" [tableName];
  q_InsertVersion := λ tableName, sprintf "INSERT INTO %s (version_id, is_applied) VALUES ($1, $2)" [tableName];
  q_DeleteVersion := λ tableName, sprintf "DELETE FROM %s WHERE version_id=$1" [tableName];
  q_GetMigrationByVersion := λ tableName, sprintf "SELECT tstamp, is_applied FROM %s WHERE version_id=$1 ORDER BY tstamp DESC LIMIT 1" [tableName];
  q_ListMigrations := λ tableName, sprintf "SELECT version_id, is_applied from %s ORDER BY id DESC" [tableName];
  q_GetLatestVersion := λ tableName, sprintf "SELECT max(version_id) FROM %s" [tableName];
  q_TableExists := Some (λ tableName,
    let '(schemaName, tableName) := parseTableIdentifier tableName in
    if negb (String.eqb schemaName "")
    then sprintf "SELECT EXISTS ( SELECT 1 FROM pg_tables WHERE schemaname = '%s' AND tablename = '%s' )" [schemaName; tableName]
    else sprintf "SELECT EXISTS ( SELECT 1 FROM pg_tables WHERE (current_schema() IS NULL OR schemaname = current_schema()) AND tablename = '%s' )" [tableName])
|}.

Definition NewRedshift : Querier := {|
  q_CreateTable := λ tableName, sprintf "CREATE TABLE %s (
		id integer NOT NULL identity(1, 1),
		version_id bigint NOT NULL,
		is_applied boolean NOT NULL,
		tstamp timestamp NULL default sysdate,
		PRIMARY KEY(id)
	)" [tableName];
  q_InsertVersion := λ tableName, sprintf "INSERT INTO %s (version_id, is_applied) VALUES ($1, $2)" [tableName];
  q_DeleteVersion := λ tableName, sprintf "DELETE FROM %s WHERE version_id=$1" [tableName];
  q_GetMigrationByVersion := λ tableName, sprintf "SELECT tstamp, is_applied FROM %s WHERE version_id=$1 ORDER BY tstamp DESC LIMIT 1" [tableName];
  q_ListMigrations := λ tableName, sprintf "SELECT version_id, is_applied from %s ORDER BY id DESC" [tableName];
  q_GetLatestVersion := λ tableName, sprintf "SELECT max(version_id) FROM %s" [tableName];
  q_TableExists := None
|}.

Definition NewSqlite3 : Querier := {|
  q_CreateTable := λ tableName, sprintf "CREATE TABLE %s (
		id INTEGER PRIMARY KEY AUTOINCREMENT,
		version_id INTEGER NOT NULL,
		is_applied INTEGER NOT NULL,
		tstamp TIMESTAMP DEFAULT (datetime('now'))
	)" [tableName];
  q_InsertVersion := λ tableName, sprintf "INSERT INTO %s (version_id, is_applied) VALUES (?, ?)" [tableName];
  q_DeleteVersion := λ tableName, sprintf "DELETE FROM %s WHERE version_id=?" [tableName];
  q_GetMigrationByVersion := λ tableName, sprintf "SELECT tstamp, is_applied FROM %s WHERE version_id=? ORDER BY tstamp DESC LIMIT 1" [tableName];
  q_ListMigrations := λ tableName, sprintf "SELECT version_id, is_applied from %s ORDER BY id DESC" [tableName];
  q_GetLatestVersion := λ tableName, sprintf "SELECT MAX(version_id) FROM %s" [tableName];
  q_TableExists := None
|}.

(** [turso] embeds [sqlite3]. *)
Definition NewTurso : Querier := NewSqlite3.

Definition NewSpanner : Querier := {|
  q_CreateTable := λ tableName, sprintf "CREATE TABLE %s (
		version_id INT64 NOT NULL,
		is_applied BOOL NOT NULL,
		tstamp TIMESTAMP DEFAULT (CURRENT_TIMESTAMP()),
	) PRIMARY KEY(version_id)" [tableName];
  q_InsertVersion := λ tableName, sprintf "INSERT INTO %s (version_id, is_applied) VALUES (?, ?)" [tableName];
  q_DeleteVersion := λ tableName, sprintf "DELETE FROM %s WHERE version_id=?" [tableName];
  q_GetMigrationByVersion := λ tableName, sprintf "SELECT tstamp, is_applied FROM %s WHERE version_id=? ORDER BY tstamp DESC LIMIT 1" [tableName];
  q_ListMigrations := λ tableName, sprintf "SELECT version_id, is_applied from %s ORDER BY version_id DESC" [tableName];
  q_GetLatestVersion := λ tableName, sprintf "SELECT MAX(version_id) FROM %s" [tableName];
  q_TableExists := None
|}.

Definition NewStarrocks : Querier := {|
  q_CreateTable := λ tableName, sprintf "CREATE TABLE IF NOT EXISTS %s (
		id bigint NOT NULL AUTO_INCREMENT,
		version_id bigint NOT NULL,
		is_applied boolean NOT NULL,
		tstamp datetime NULL default CURRENT_TIMESTAMP
	)
	PRIMARY KEY (id)
	DISTRIBUTED BY HASH (id)
	ORDER BY (id,version_id)" [tableName];
  q_InsertVersion := λ tableName, sprintf "INSERT INTO %s (version_id, is_applied) VALUES (?, ?)" [tableName];
  q_DeleteVersion := λ tableName, sprintf "DELETE FROM %s WHERE version_id=?" [tableName];
  q_GetMigrationByVersion := λ tableName, sprintf "SELECT tstamp, is_applied FROM %s WHERE version_id=? ORDER BY tstamp DESC LIMIT 1" [tableName];
  q_ListMigrations := λ tableName, sprintf "SELECT version_id, is_applied from %s ORDER BY id DESC" [tableName];
  q_GetLatestVersion := λ tableName, sprintf "SELECT MAX(version_id) FROM %s" [tableName];
  q_TableExists := None
|}.

Definition NewTidb : Querier := {|
  q_CreateTable := λ tableName, sprintf "CREATE TABLE %s (
		id BIGINT UNSIGNED NOT NULL AUTO_INCREMENT UNIQUE,
		version_id bigint NOT NULL,
		is_applied boolean NOT NULL,
		tstamp timestamp NULL default now(),
		PRIMARY KEY(id)
	)" [tableName];
  q_InsertVersion := λ tableName, sprintf "INSERT INTO %s (version_id, is_applied) VALUES (?, ?)" [tableName];
  q_DeleteVersion := λ tableName, sprintf "DELETE FROM %s WHERE version_id=?" [tableName];
  q_GetMigrationByVersion := λ tableName, sprintf "SELECT tstamp, is_applied FROM %s WHERE version_id=? ORDER BY tstamp DESC LIMIT 1" [tableName];
  q_ListMigrations := λ tableName, sprintf "SELECT version_id, is_applied from %s ORDER BY id DESC" [tableName];
  q_GetLatestVersion := λ tableName, sprintf "SELECT MAX(version_id) FROM %s" [tableName];
  q_TableExists := None
|}.

Definition NewVertica : Querier := {|
  q_CreateTable := λ tableName, sprintf "CREATE TABLE %s (
		id identity(1,1) NOT NULL,
		version_id bigint NOT NULL,
		is_applied boolean NOT NULL,
		tstamp timestamp NULL default now(),
		PRIMARY KEY(id)
	)" [tableName];
  q_InsertVersion := λ tableName, sprintf "INSERT INTO %s (version_id, is_applied) VALUES (?, ?)" [tableName];
  q_DeleteVersion := λ tableName, sprintf "DELETE FROM %s WHERE version_id=?" [tableName];
  q_GetMigrationByVersion := λ tableName, sprintf "SELECT tstamp, is_applied FROM %s WHERE version_id=? ORDER BY tstamp DESC LIMIT 1" [tableName];
  q_ListMigrations := λ tableName, sprintf "SELECT version_id, is_applied from %s ORDER BY id DESC" [tableName];
  q_GetLatestVersion := λ tableName, sprintf "SELECT MAX(version_id) FROM %s" [tableName];
  q_TableExists := None
|}.

Definition NewYDB : Querier := {|
  q_CreateTable := λ tableName, sprintf "CREATE TABLE %s (
		version_id Uint64,
		is_applied Bool,
		tstamp Timestamp,

		PRIMARY KEY(version_id)
	)" [formatYDBTableName tableName];
  q_InsertVersion := λ tableName, sprintf "INSERT INTO %s (
		version_id, 
		is_applied, 
		tstamp
	) VALUES (
		CAST($1 AS Uint64), 
		$2, 
		CurrentUtcTimestamp()
	)" [formatYDBTableName tableName];
  q_DeleteVersion := λ tableName, sprintf "DELETE FROM %s WHERE version_id = $1" [formatYDBTableName tableName];
  q_GetMigrationByVersion := λ tableName, sprintf "SELECT tstamp, is_applied FROM %s WHERE version_id = $1 ORDER BY tstamp DESC LIMIT 1" [formatYDBTableName tableName];
  q_ListMigrations := λ tableName, sprintf "
	SELECT version_id, is_applied, tstamp AS __discard_column_tstamp 
	FROM %s ORDER BY __discard_column_tstamp DESC" [formatYDBTableName tableName];
  q_GetLatestVersion := λ tableName, sprintf "SELECT MAX(version_id) FROM %s" [formatYDBTableName tableName];
  q_TableExists := None
|}.

(** ** Dialect names *)

Inductive Dialect :=
  | DialectCustom | DialectClickHouse | DialectAuroraDSQL | DialectMSSQL | DialectMySQL
  | DialectPostgres | DialectRedshift | DialectSQLite3 | DialectSpanner | DialectStarrocks
  | DialectTiDB | DialectTurso | DialectYdB | DialectVertica
  | DialectUnknown (name : string).

#[export] Instance Dialect_eq_dec : EqDecision Dialect.
Proof. solve_decision. Defined.

(** The lookup table of [database.NewStore]. *)
Definition querier_lookup (d : Dialect) : option Querier :=
  match d with
  | DialectClickHouse => Some NewClickhouse
  | DialectAuroraDSQL => Some NewAuroraDSQL
  | DialectMSSQL => Some NewSqlserver
  | DialectMySQL => Some NewMysql
  | DialectPostgres => Some NewPostgres
  | DialectRedshift => Some NewRedshift
  | DialectSQLite3 => Some NewSqlite3
  | DialectSpanner => Some NewSpanner
  | DialectStarrocks => Some NewStarrocks
  | DialectTiDB => Some NewTidb
  | DialectTurso => Some NewTurso
  | DialectVertica => Some NewVertica
  | DialectYdB => Some NewYDB
  | DialectCustom | DialectUnknown _ => None
  end.

(** ** Properties *)

Definition statements (q : Querier) (tableName : string) : list string :=
  [q_CreateTable q tableName; q_InsertVersion q tableName; q_DeleteVersion q tableName;
   q_GetMigrationByVersion q tableName; q_ListMigrations q tableName; q_GetLatestVersion q tableName].

(** In every supported dialect the six statements on a version table are
    pairwise different texts, whatever the table name. *)
Theorem statements_distinct d q tableName :
  querier_lookup d = Some q → NoDup (statements q tableName).
Proof.
  intros Hq. destruct d; simplify_eq/=;
    repeat constructor; unfold statements; cbn;
    rewrite ?list_elem_of_In; cbn;
    intros Hin; repeat destruct Hin as [Hin|Hin]; try discriminate Hin; try done.
Qed.

Lemma statements_distinct_witness :
  querier_lookup DialectPostgres = Some NewPostgres ∧ NoDup (statements NewPostgres "goose_db_version").
Proof. split; [done|]. exact (statements_distinct DialectPostgres NewPostgres "goose_db_version" eq_refl). Defined.
