(* ===== verification/Sql.v ===== *)
(** * database/sql

    The part of the Go standard library's database layer that goose uses: a
    pool of connections that blocks when it is exhausted, transactions that end
    once, and the three handles a statement can run on.  The driver and the
    database behind it are a parameter, [Driver]; [DbLaws] states what the
    theorems rely on of a database with transactions. *)

From S2P Require Import Prelude GoStrings Effects.

(** [*sql.DB], [*sql.Conn] and [*sql.Tx], the implementations of [DBTxConn]. *)
Inductive DBTxConn := HDB | HConn | HTx.

#[export] Instance DBTxConn_eq_dec : EqDecision DBTxConn.
Proof. solve_decision. Defined.

Inductive sqlval := VInt (z : Z) | VBool (b : bool) | VTime (t : Z) | VStr (s : string) | VNull.

Class Driver (D : Type) := {
  drv_connect : D → option error * D;
  drv_release : D → option error * D;
  drv_begin : D → option error * D;
  drv_commit : D → option error * D;
  drv_rollback : D → option error * D;
  drv_exec : DBTxConn → string → list sqlval → D → option error * D;
  drv_query : DBTxConn → string → list sqlval → D → result (list (list sqlval)) * D
}.

(** The pool: the driver state, the number of connections in use, the limit
    ([SetMaxOpenConns], 0 for none) and whether a transaction is open. *)
Record DB (D : Type) := mkDB { drv : D; inUse : Z; maxOpen : Z; txOpen : bool }.
Arguments mkDB {D} _ _ _ _.
Arguments drv {D} _.
Arguments inUse {D} _.
Arguments maxOpen {D} _.
Arguments txOpen {D} _.

Definition set_drv {D} (d : D) (w : DB D) : DB D := mkDB d (inUse w) (maxOpen w) (txOpen w).

Section Sql.
Context {D : Type} `{Driver D}.

Definition ErrTxDone : error := errors_New "sql: transaction has already been committed or rolled back".

Definition drv_call (f : D → option error * D) : M (DB D) unit := λ w,
  match f (drv w) with
  | (None, d) => (Ok tt, set_drv d w)
  | (Some e, d) => (Err e, set_drv d w)
  end.

Definition pool_exhausted (w : DB D) : bool := (0 <? maxOpen w) && (maxOpen w <=? inUse w).

(** [db.Conn]: waits while the pool is exhausted. *)
Definition db_Conn : M (DB D) unit := λ w,
  if pool_exhausted w then (Block, w)
  else match drv_connect (drv w) with
       | (None, d) => (Ok tt, mkDB d (inUse w + 1) (maxOpen w) (txOpen w))
       | (Some e, d) => (Err e, set_drv d w)
       end.

(** [conn.Close]: gives the connection back to the pool. *)
Definition conn_Close : M (DB D) unit := λ w,
  match drv_release (drv w) with
  | (r, d) => (match r with None => Ok tt | Some e => Err e end,
               mkDB d (inUse w - 1) (maxOpen w) (txOpen w))
  end.

Definition set_txOpen (b : bool) (w : DB D) : DB D := mkDB (drv w) (inUse w) (maxOpen w) b.

Definition conn_BeginTx : M (DB D) unit :=
  drv_call drv_begin;; modify (set_txOpen true).

Definition tx_Commit : M (DB D) unit :=
  open ← gets txOpen;
  if open : bool then modify (set_txOpen false);; drv_call drv_commit else fail ErrTxDone.

Definition tx_Rollback : M (DB D) unit :=
  open ← gets txOpen;
  if open : bool then modify (set_txOpen false);; drv_call drv_rollback else fail ErrTxDone.

(** A statement on [*sql.DB] takes a connection of the pool while it runs; one
    on a [*sql.Tx] fails when the transaction has ended. *)
Definition with_handle {A} (db : DBTxConn) (m : M (DB D) A) : M (DB D) A := λ w,
  match db with
  | HDB => if pool_exhausted w then (Block, w) else m w
  | HConn => m w
  | HTx => if txOpen w then m w else (Err ErrTxDone, w)
  end.

Definition ExecContext (db : DBTxConn) (query : string) (args : list sqlval) : M (DB D) unit :=
  with_handle db (drv_call (drv_exec db query args)).

Definition QueryContext (db : DBTxConn) (query : string) (args : list sqlval)
  : M (DB D) (list (list sqlval)) :=
  with_handle db (λ w,
    match drv_query db query args (drv w) with
    | (inl rows, d) => (Ok rows, set_drv d w)
    | (inr e, d) => (Err e, set_drv d w)
    end).

(** [QueryRowContext] followed by [Scan]: the first row, [ErrNoRows] if none. *)
Definition QueryRowContext (db : DBTxConn) (query : string) (args : list sqlval)
  : M (DB D) (list sqlval) :=
  rows ← QueryContext db query args;
  match rows with [] => fail (ESentinel sql_ErrNoRows) | row :: _ => mret row end.

(** ** Transactions of a [*sql.DB] *)

(** [db.BeginTx]: takes a connection and begins a transaction on it. *)
Definition db_BeginTx : M (DB D) unit :=
  db_Conn;;
  r ← catch conn_BeginTx;
  match r with
  | inl _ => mret tt
  | inr err => error_of conn_Close;; fail err
  end.

(** [tx.Commit] and [tx.Rollback] of such a transaction: whatever the driver
    answers, the connection goes back to the pool. *)
Definition end_tx (finish : M (DB D) unit) : M (DB D) unit :=
  open ← gets txOpen;
  r ← catch finish;
  (if open : bool then error_of conn_Close else mret None);;
  of_result r.

Definition dbtx_Commit : M (DB D) unit := end_tx tx_Commit.
Definition dbtx_Rollback : M (DB D) unit := end_tx tx_Rollback.

(** [if err := m; err != nil { _ = tx.Rollback(); return err }]. *)
Definition or_rollback (m : M (DB D) unit) : M (DB D) unit :=
  r ← catch m;
  match r with
  | inl _ => mret tt
  | inr err => error_of dbtx_Rollback;; fail err
  end.

(** [Scan] into a [bool]: the integers 0 and 1 convert. *)
Definition scan_bool (v : sqlval) : result bool :=
  match v with
  | VBool b => inl b
  | VInt 0 => inl false
  | VInt 1 => inl true
  | _ => inr (errors_New "sql: Scan error: unsupported Scan into bool")
  end.

Definition scan_int64 (v : sqlval) : result Z :=
  match v with
  | VInt z => inl z
  | _ => inr (errors_New "sql: Scan error: unsupported Scan into int64")
  end.

Definition scan_NullInt64 (v : sqlval) : result (option Z) :=
  match v with
  | VNull => inl None
  | VInt z => inl (Some z)
  | _ => inr (errors_New "sql: Scan error: unsupported Scan into NullInt64")
  end.

Definition scan_Time (v : sqlval) : result Z :=
  match v with
  | VTime t => inl t
  | _ => inr (errors_New "sql: Scan error: unsupported Scan into time.Time")
  end.

Definition scan_arity {A} : result A := inr (errors_New "sql: expected destination arguments in Scan").

End Sql.

(** ** Databases with transactions *)

(** What the theorems say about a database: the rows of the version table
    (newest first, [None] when the table does not exist) and the rest of the
    contents, as the open session sees them; and, inside a transaction, what a
    rollback goes back to. *)
Class DbModel (D U : Type) := {
  view : D → option (list (Z * bool)) * U;
  snap : D → option (option (list (Z * bool)) * U)
}.

Class DbLaws (D U : Type) `{Driver D, DbModel D U} := {
  connect_view d : view (drv_connect d).2 = view d;
  connect_snap d : snap (drv_connect d).2 = snap d;
  release_view d : view (drv_release d).2 = view d;
  release_snap d : snap (drv_release d).2 = snap d;
  (** A transaction starts from the current contents ... *)
  begin_view d : view (drv_begin d).2 = view d;
  begin_snap d : snap (drv_begin d).2 = match (drv_begin d).1 with None => Some (view d) | _ => snap d end;
  (** ... a commit keeps what was done, or fails and keeps nothing ... *)
  commit_view d v : snap d = Some v →
    view (drv_commit d).2 = match (drv_commit d).1 with None => view d | _ => v end;
  (** ... and a rollback restores the contents of the beginning. *)
  rollback_view d v : snap d = Some v → view (drv_rollback d).2 = v;
  (** A statement that fails has no effect; queries have none. *)
  exec_snap db q args d : snap (drv_exec db q args d).2 = snap d;
  exec_failed db q args d : (drv_exec db q args d).1 ≠ None → view (drv_exec db q args d).2 = view d;
  query_view db q args d : view (drv_query db q args d).2 = view d;
  query_snap db q args d : snap (drv_query db q args d).2 = snap d
}.

Section SqlPreserve.
Context {D : Type} `{Driver D} {B : Type}.

(** Operations that leave the pool alone. *)
Definition pool (w : DB D) : Z * Z := (inUse w, maxOpen w).

Lemma drv_call_pool f : Preserves pool (drv_call f).
Proof. intros w. unfold drv_call. by destruct (f (drv w)) as [[] d]. Qed.

Lemma with_handle_pool {A} db (m : M (DB D) A) : Preserves pool m → Preserves pool (with_handle db m).
Proof. intros Hm w. unfold with_handle. destruct db; [destruct (pool_exhausted w)| |destruct (txOpen w)]; (done || apply Hm). Qed.

Lemma ExecContext_pool db q args : Preserves pool (ExecContext db q args).
Proof. apply with_handle_pool, drv_call_pool. Qed.

Lemma QueryContext_pool db q args : Preserves pool (QueryContext db q args).
Proof.
  apply with_handle_pool. intros w. by destruct (drv_query db q args (drv w)) as [[] d].
Qed.

Lemma QueryRowContext_pool db q args : Preserves pool (QueryRowContext db q args).
Proof. apply preserves_bind; [apply QueryContext_pool|]. by intros []. Qed.

Lemma conn_BeginTx_pool : Preserves pool conn_BeginTx.
Proof. apply preserves_bind; [apply drv_call_pool|]. by intros _ w. Qed.

Lemma tx_Commit_pool : Preserves pool tx_Commit.
Proof.
  apply preserves_bind; [done|]. intros []; [|done].
  apply preserves_bind; [by intros w|]. intros _. apply drv_call_pool.
Qed.

Lemma tx_Rollback_pool : Preserves pool tx_Rollback.
Proof.
  apply preserves_bind; [done|]. intros []; [|done].
  apply preserves_bind; [by intros w|]. intros _. apply drv_call_pool.
Qed.

End SqlPreserve.

#[export] Hint Resolve ExecContext_pool QueryContext_pool QueryRowContext_pool
  conn_BeginTx_pool tx_Commit_pool tx_Rollback_pool : preserve.
