(* ===== verification/Store.v ===== *)
(** * The version-table store (database, internal/controller)

    [database.Store] is the interface through which goose reads and writes its
    version table; [database.store] implements it for any SQL dialect.  Here the
    interface is a record of operations, [StoreSpec] the contract its
    documentation states, and [NewStoreFromQuerier] is shown to meet the
    contract whenever the database gives the dialect's statements their
    meaning ([QuerierSpec]). *)

From S2P Require Import Prelude GoStrings Effects Sql Dialects.

(** ** The interface *)

Record GetMigrationResult := { gm_Timestamp : Z; gm_IsApplied : bool }.
Record ListMigrationsResult := { lm_Version : Z; lm_IsApplied : bool }.

(** [Store], with the optional method [TableExists] of [StoreExtender]. *)
Record Store (D : Type) := {
  Tablename : string;
  CreateVersionTable : DBTxConn → M (DB D) unit;
  Insert : DBTxConn → Z → M (DB D) unit;
  Delete : DBTxConn → Z → M (DB D) unit;
  GetMigration : DBTxConn → Z → M (DB D) GetMigrationResult;
  GetLatestVersion : DBTxConn → M (DB D) Z;
  ListMigrations : DBTxConn → M (DB D) (list ListMigrationsResult);
  s_TableExists : option (DBTxConn → M (DB D) bool)
}.
Arguments Tablename {D} _.
Arguments CreateVersionTable {D} _ _.
Arguments Insert {D} _ _ _.
Arguments Delete {D} _ _ _.
Arguments GetMigration {D} _ _ _.
Arguments GetLatestVersion {D} _ _.
Arguments ListMigrations {D} _ _.
Arguments s_TableExists {D} _.

(** [StoreController.TableExists]. *)
Definition TableExists {D} (c : Store D) (db : DBTxConn) : M (DB D) bool :=
  match s_TableExists c with
  | Some f => f db
  | None => fail (ESentinel ErrUnsupported)
  end.

(** ** The implementation over a [Querier] *)

Section Implementation.
Context {D : Type} `{Driver D} (tableName : string) (querier : Querier).

Definition store_CreateVersionTable (db : DBTxConn) : M (DB D) unit :=
  let q := q_CreateTable querier tableName in
  wrap_err (λ err, EErrorf "failed to create version table %q: %w" [AStr tableName; AWrap err])
    (ExecContext db q []).

Definition store_Insert (db : DBTxConn) (version : Z) : M (DB D) unit :=
  let q := q_InsertVersion querier tableName in
  wrap_err (λ err, EErrorf "failed to insert version %d: %w" [AInt version; AWrap err])
    (ExecContext db q [VInt version; VBool true]).

Definition store_Delete (db : DBTxConn) (version : Z) : M (DB D) unit :=
  let q := q_DeleteVersion querier tableName in
  wrap_err (λ err, EErrorf "failed to delete version %d: %w" [AInt version; AWrap err])
    (ExecContext db q [VInt version]).

Definition scan_migration (row : list sqlval) : result GetMigrationResult :=
  match row with
  | [ts; applied] =>
      let? t := scan_Time ts in
      let? b := scan_bool applied in
      inl {| gm_Timestamp := t; gm_IsApplied := b |}
  | _ => scan_arity
  end.

Definition store_GetMigration (db : DBTxConn) (version : Z) : M (DB D) GetMigrationResult :=
  let q := q_GetMigrationByVersion querier tableName in
  wrap_err (λ err,
      if errors_Is err sql_ErrNoRows
      then EErrorf "%w: %d" [AWrap (ESentinel database_ErrVersionNotFound); AInt version]
      else EErrorf "failed to get migration %d: %w" [AInt version; AWrap err])
    (row ← QueryRowContext db q [VInt version]; of_result (scan_migration row)).

Definition scan_version (row : list sqlval) : result (option Z) :=
  match row with [v] => scan_NullInt64 v | _ => scan_arity end.

Definition store_GetLatestVersion (db : DBTxConn) : M (DB D) Z :=
  let q := q_GetLatestVersion querier tableName in
  version ← wrap_err (λ err, EErrorf "failed to get latest version: %w" [AWrap err])
    (row ← QueryRowContext db q []; of_result (scan_version row));
  match version with
  | None => fail (EErrorf "latest %w" [AWrap (ESentinel database_ErrVersionNotFound)])
  | Some v => mret v
  end.

Definition scan_listed (row : list sqlval) : result ListMigrationsResult :=
  match row with
  | [version; applied] =>
      let? v := scan_int64 version in
      let? b := scan_bool applied in
      inl {| lm_Version := v; lm_IsApplied := b |}
  | _ => scan_arity
  end.

Definition store_ListMigrations (db : DBTxConn) : M (DB D) (list ListMigrationsResult) :=
  let q := q_ListMigrations querier tableName in
  rows ← wrap_err (λ err, EErrorf "failed to list migrations: %w" [AWrap err])
    (QueryContext db q []);
  mmap (λ row, wrap_err (λ err, EErrorf "failed to scan list migrations result: %w" [AWrap err])
    (of_result (scan_listed row))) rows.

(** [queryController.TableExists]: the empty string if the dialect has none. *)
Definition queryController_TableExists : string :=
  match q_TableExists querier with Some f => f tableName | None => "" end.

Definition scan_exists (row : list sqlval) : result bool :=
  match row with [v] => scan_bool v | _ => scan_arity end.

Definition store_TableExists (db : DBTxConn) : M (DB D) bool :=
  let q := queryController_TableExists in
  if String.eqb q "" then fail (ESentinel ErrUnsupported)
  else wrap_err (λ err, EErrorf "failed to check if table exists: %w" [AWrap err])
    (row ← QueryRowContext db q []; of_result (scan_exists row)).

Definition new_store : Store D := {|
  Tablename := tableName;
  CreateVersionTable := store_CreateVersionTable;
  Insert := store_Insert;
  Delete := store_Delete;
  GetMigration := store_GetMigration;
  GetLatestVersion := store_GetLatestVersion;
  ListMigrations := store_ListMigrations;
  s_TableExists := Some store_TableExists
|}.

End Implementation.

Definition NewStoreFromQuerier {D} `{Driver D} (tableName : string) (querier : option Querier)
  : result (Store D) :=
  if String.eqb tableName "" then inr (errors_New "table name must not be empty")
  else match querier with
       | None => inr (errors_New "querier must not be nil")
       | Some q => inl (new_store tableName q)
       end.

Definition NewStore {D} `{Driver D} (d : Dialect) (tableName : string) : result (Store D) :=
  if bool_decide (d = DialectCustom) then inr (errors_New "custom dialect is not supported")
  else match querier_lookup d with
       | None => inr (EErrorf "unknown dialect: %q" [])
       | Some querier => NewStoreFromQuerier tableName (Some querier)
       end.

(** ** The contract *)

(** The greatest version of a table. *)
Definition max_version (l : list (Z * bool)) : option Z :=
  match l.*1 with [] => None | v :: vs => Some (foldl Z.max v vs) end.

(** What identifies a connection and its transaction. *)
Definition session {D U} `{DbModel D U} (w : DB D) :=
  (inUse w, maxOpen w, txOpen w, snap (drv w)).

Definition db_view {D U} `{DbModel D U} (w : DB D) := view (drv w).

Class StoreSpec {D U} `{DbModel D U} (st : Store D) := {
  (** Every operation leaves the connections and the transaction alone. *)
  create_session db : Preserves session (CreateVersionTable st db);
  insert_session db v : Preserves session (Insert st db v);
  delete_session db v : Preserves session (Delete st db v);
  get_session db v : Preserves session (GetMigration st db v);
  latest_session db : Preserves session (GetLatestVersion st db);
  list_session db : Preserves session (ListMigrations st db);
  exists_session db : Preserves session (TableExists st db);
  (** Reads do not change the database; failed writes do not either. *)
  get_view db v : Preserves db_view (GetMigration st db v);
  latest_view db : Preserves db_view (GetLatestVersion st db);
  list_view db : Preserves db_view (ListMigrations st db);
  exists_view db : Preserves db_view (TableExists st db);
  create_err db w e w' : CreateVersionTable st db w = (Err e, w') → db_view w' = db_view w;
  insert_err db v w e w' : Insert st db v w = (Err e, w') → db_view w' = db_view w;
  delete_err db v w e w' : Delete st db v w = (Err e, w') → db_view w' = db_view w;
  (** What successful operations do and return. *)
  create_ok db w w' : CreateVersionTable st db w = (Ok tt, w') →
    db_view w' = (Some (default [] (db_view w).1), (db_view w).2);
  insert_ok db v w w' : Insert st db v w = (Ok tt, w') → ∃ l,
    (db_view w).1 = Some l ∧ db_view w' = (Some ((v, true) :: l), (db_view w).2);
  delete_ok db v w w' : Delete st db v w = (Ok tt, w') → ∃ l,
    (db_view w).1 = Some l ∧ db_view w' = (Some (filter (λ r, r.1 ≠ v) l), (db_view w).2);
  get_ok db v w r w' : GetMigration st db v w = (Ok r, w') → ∃ l b,
    (db_view w).1 = Some l ∧ (v, b) ∈ l ∧ gm_IsApplied r = b;
  get_not_found db v w e w' : GetMigration st db v w = (Err e, w') →
    errors_Is e database_ErrVersionNotFound = true → ∃ l,
    (db_view w).1 = Some l ∧ v ∉ l.*1;
  latest_ok db w v w' : GetLatestVersion st db w = (Ok v, w') → ∃ l,
    (db_view w).1 = Some l ∧ max_version l = Some v;
  latest_not_found db w e w' : GetLatestVersion st db w = (Err e, w') →
    errors_Is e database_ErrVersionNotFound = true → (db_view w).1 = Some [];
  list_ok db w rs w' : ListMigrations st db w = (Ok rs, w') →
    (db_view w).1 = Some (map (λ r, (lm_Version r, lm_IsApplied r)) rs);
  exists_ok db w b w' : TableExists st db w = (Ok b, w') →
    b = bool_decide (is_Some (db_view w).1);
  (** No operation panics. *)
  create_no_panic db w s w' : CreateVersionTable st db w ≠ (Panic s, w');
  insert_no_panic db v w s w' : Insert st db v w ≠ (Panic s, w');
  delete_no_panic db v w s w' : Delete st db v w ≠ (Panic s, w');
  get_no_panic db v w s w' : GetMigration st db v w ≠ (Panic s, w');
  latest_no_panic db w s w' : GetLatestVersion st db w ≠ (Panic s, w');
  list_no_panic db w s w' : ListMigrations st db w ≠ (Panic s, w');
  exists_no_panic db w s w' : TableExists st db w ≠ (Panic s, w')
}.

(** The database executes every statement it can: used to show that goose
    makes progress. *)
Definition can_run {D} (db : DBTxConn) (w : DB D) : bool :=
  match db with HDB => negb (pool_exhausted w) | HConn => true | HTx => txOpen w end.

Class StoreLive {D U} `{DbModel D U} (st : Store D) := {
  create_live db w : can_run db w = true → (db_view w).1 = None →
    ∃ w', CreateVersionTable st db w = (Ok tt, w');
  insert_live db v w l : can_run db w = true → (db_view w).1 = Some l →
    ∃ w', Insert st db v w = (Ok tt, w');
  delete_live db v w l : can_run db w = true → (db_view w).1 = Some l →
    ∃ w', Delete st db v w = (Ok tt, w');
  latest_live db w l v : can_run db w = true → (db_view w).1 = Some l → max_version l = Some v →
    ∃ w', GetLatestVersion st db w = (Ok v, w');
  get_live db v w l : can_run db w = true → (db_view w).1 = Some l →
    ∃ r w', GetMigration st db v w = (r, w') ∧
      match r with
      | Ok _ => v ∈ l.*1
      | Err e => errors_Is e database_ErrVersionNotFound = true ∧ v ∉ l.*1
      | _ => False
      end;
  list_live db w l : can_run db w = true → (db_view w).1 = Some l →
    ∃ rs w', ListMigrations st db w = (Ok rs, w');
  get_no_table db v w : can_run db w = true → (db_view w).1 = None →
    ∃ e w', GetMigration st db v w = (Err e, w');
  exists_live db w : can_run db w = true →
    ∃ r w', TableExists st db w = (r, w') ∧
      match r with
      | Ok b => b = bool_decide (is_Some (db_view w).1)
      | Err e => errors_Is e ErrUnsupported = true
      | _ => False
      end
}.

(** What the database does with the statements of a dialect on table [t]: the
    documented meaning of each method of [dialect.Querier]. *)
Class QuerierSpec {D U} `{Driver D, DbModel D U} (t : string) (q : Querier) := {
  q_create db d : (drv_exec db (q_CreateTable q t) [] d).1 = None →
    view (drv_exec db (q_CreateTable q t) [] d).2 = (Some (default [] (view d).1), (view d).2);
  q_insert db v d : (drv_exec db (q_InsertVersion q t) [VInt v; VBool true] d).1 = None → ∃ l,
    (view d).1 = Some l ∧
    view (drv_exec db (q_InsertVersion q t) [VInt v; VBool true] d).2
    = (Some ((v, true) :: l), (view d).2);
  q_delete db v d : (drv_exec db (q_DeleteVersion q t) [VInt v] d).1 = None → ∃ l,
    (view d).1 = Some l ∧
    view (drv_exec db (q_DeleteVersion q t) [VInt v] d).2
    = (Some (filter (λ r, r.1 ≠ v) l), (view d).2);
  q_get db v d rows : (drv_query db (q_GetMigrationByVersion q t) [VInt v] d).1 = inl rows → ∃ l,
    (view d).1 = Some l ∧
    match filter (λ r, r.1 = v) l with
    | [] => rows = []
    | (_, b) :: _ => ∃ ts x, rows = [[VTime ts; x]] ∧ scan_bool x = inl b
    end;
  q_list db d rows : (drv_query db (q_ListMigrations q t) [] d).1 = inl rows → ∃ l,
    (view d).1 = Some l ∧
    Forall2 (λ row r, ∃ x, row = [VInt r.1; x] ∧ scan_bool x = inl r.2) rows l;
  q_latest db d rows : (drv_query db (q_GetLatestVersion q t) [] d).1 = inl rows → ∃ l,
    (view d).1 = Some l ∧ rows = [[match max_version l with Some v => VInt v | None => VNull end]];
  q_exists f db d rows : q_TableExists q = Some f → (drv_query db (f t) [] d).1 = inl rows →
    ∃ x, rows = [[x]] ∧ scan_bool x = inl (bool_decide (is_Some (view d).1));
  (** Driver errors are not goose's or [database/sql]'s own sentinels. *)
  q_errors db s args d e : (drv_query db s args d).1 = inr e →
    errors_Is e sql_ErrNoRows = false ∧ errors_Is e database_ErrVersionNotFound = false
}.

(** ** The implementation meets the contract *)

Section Session.
Context {D U : Type} `{DbLaws D U}.

Lemma drv_call_session f : (∀ d, snap (f d).2 = snap d) → Preserves session (drv_call f).
Proof.
  intros Hf w. unfold drv_call, session. specialize (Hf (drv w)).
  destruct (f (drv w)) as [[] d]; simpl in *; by rewrite Hf.
Qed.

Lemma with_handle_session {A} db (m : M (DB D) A) :
  Preserves session m → Preserves session (with_handle db m).
Proof. intros Hm w. unfold with_handle. destruct db; [destruct (pool_exhausted w)| |destruct (txOpen w)]; (done || apply Hm). Qed.

Lemma with_handle_view {A} db (m : M (DB D) A) :
  Preserves db_view m → Preserves db_view (with_handle db m).
Proof. intros Hm w. unfold with_handle. destruct db; [destruct (pool_exhausted w)| |destruct (txOpen w)]; (done || apply Hm). Qed.

Lemma ExecContext_session db q args : Preserves session (ExecContext db q args).
Proof. apply with_handle_session, drv_call_session. intros. apply exec_snap. Qed.

Lemma QueryContext_session db q args : Preserves session (QueryContext db q args).
Proof.
  apply with_handle_session. intros w. unfold session. pose proof (query_snap db q args (drv w)) as Hq.
  destruct (drv_query db q args (drv w)) as [[] d]; simpl in *; by rewrite Hq.
Qed.

Lemma QueryContext_view db q args : Preserves db_view (QueryContext db q args).
Proof.
  apply with_handle_view. intros w. unfold db_view. pose proof (query_view db q args (drv w)) as Hq.
  by destruct (drv_query db q args (drv w)) as [[] d].
Qed.

Lemma QueryRowContext_session db q args : Preserves session (QueryRowContext db q args).
Proof. apply preserves_bind; [apply QueryContext_session|]. by intros []. Qed.

Lemma QueryRowContext_view db q args : Preserves db_view (QueryRowContext db q args).
Proof. apply preserves_bind; [apply QueryContext_view|]. by intros []. Qed.

(** What a statement that ran did to the driver. *)
Lemma ExecContext_ok db q args w w' :
  ExecContext db q args w = (Ok tt, w') →
  (drv_exec db q args (drv w)).1 = None ∧ db_view w' = view (drv_exec db q args (drv w)).2.
Proof.
  unfold ExecContext, with_handle, drv_call, db_view. intros Hx.
  destruct (drv_exec db q args (drv w)) as [[] d]; destruct db; case_all; done.
Qed.

Lemma ExecContext_err db q args w e w' :
  ExecContext db q args w = (Err e, w') → db_view w' = db_view w.
Proof.
  unfold ExecContext, with_handle, drv_call, db_view. intros Hx.
  pose proof (exec_failed db q args (drv w)) as Hf.
  destruct (drv_exec db q args (drv w)) as [[] d]; destruct db; case_all; done || by apply Hf.
Qed.

Lemma ExecContext_no_panic db q args : NoPanic (ExecContext db q args).
Proof.
  intros w. unfold ExecContext, with_handle, drv_call.
  destruct (drv_exec db q args (drv w)) as [[] d]; destruct db; by repeat case_match.
Qed.

Lemma QueryContext_no_panic db q args : NoPanic (QueryContext db q args).
Proof.
  intros w. unfold QueryContext, with_handle.
  destruct (drv_query db q args (drv w)) as [[] d]; destruct db; by repeat case_match.
Qed.

Lemma QueryRowContext_no_panic db q args : NoPanic (QueryRowContext db q args).
Proof. apply no_panic_bind; [apply QueryContext_no_panic|]. by intros []. Qed.

Lemma QueryContext_ok db q args w rows w' :
  QueryContext db q args w = (Ok rows, w') → (drv_query db q args (drv w)).1 = inl rows.
Proof.
  unfold QueryContext, with_handle. intros Hx.
  destruct (drv_query db q args (drv w)) as [[] d]; destruct db; case_all; done.
Qed.

Lemma QueryContext_err db q args w e w' :
  QueryContext db q args w = (Err e, w') →
  (drv_query db q args (drv w)).1 = inr e ∨ e = ErrTxDone.
Proof.
  unfold QueryContext, with_handle. intros Hx.
  destruct (drv_query db q args (drv w)) as [[] d]; destruct db; case_all; auto.
Qed.

Lemma QueryRowContext_ok db q args w row w' :
  QueryRowContext db q args w = (Ok row, w') →
  ∃ rows, (drv_query db q args (drv w)).1 = inl (row :: rows).
Proof.
  unfold QueryRowContext. intros Hx. run_inv. destruct x as [|row' rows]; run_inv.
  eauto using QueryContext_ok.
Qed.

Lemma QueryRowContext_err db q args w e w' :
  QueryRowContext db q args w = (Err e, w') →
  ((drv_query db q args (drv w)).1 = inr e ∨ e = ErrTxDone) ∨
  (e = ESentinel sql_ErrNoRows ∧ (drv_query db q args (drv w)).1 = inl []).
Proof.
  unfold QueryRowContext. intros Hx. run_inv; [left; by eapply QueryContext_err|].
  destruct x as [|row' rows]; run_inv. eauto using QueryContext_ok.
Qed.

End Session.

#[export] Hint Resolve ExecContext_session QueryContext_session QueryRowContext_session
  QueryContext_view QueryRowContext_view : preserve.

#[export] Hint Resolve ExecContext_no_panic QueryContext_no_panic QueryRowContext_no_panic : nopanic.

(** A scan error is not one of goose's sentinels. *)
Lemma scan_errors row e s :
  scan_migration row = inr e ∨ scan_version row = inr e → errors_Is e s = false.
Proof.
  unfold scan_migration, scan_version, scan_Time, scan_bool, scan_NullInt64, scan_arity, rbind.
  intros [He|He]; case_all; done.
Qed.

Lemma mmap_scan {D} (rows : list (list sqlval)) (l : list (Z * bool)) (w w' : DB D) rs :
  Forall2 (λ row r, ∃ x, row = [VInt r.1; x] ∧ scan_bool x = inl r.2) rows l →
  mmap (λ row, wrap_err (λ err, EErrorf "failed to scan list migrations result: %w" [AWrap err])
    (of_result (scan_listed row))) rows w = (Ok rs, w') →
  l = map (λ r, (lm_Version r, lm_IsApplied r)) rs ∧ w' = w.
Proof.
  intros Hl. revert rs. induction Hl as [|row [v b] rows l (x & -> & Hx) Hl IH]; intros rs Hrs; simpl in *.
  - run_inv. done.
  - run_inv. unfold scan_listed in *. simpl in *. rewrite Hx in *. simpl in *. simplify_eq/=.
    edestruct IH as [-> ->]; [done|]. done.
Qed.

Section Refinement.
Context {D U : Type} `{DbLaws D U} (t : string) (q : Querier)
  `{!@QuerierSpec D U _ _ t q}.

Lemma store_get_inv db v w r w' : store_GetMigration t q db v w = (Ok r, w') → ∃ l b,
  (db_view w).1 = Some l ∧ (v, b) ∈ l ∧ gm_IsApplied r = b.
Proof.
  unfold store_GetMigration. intros Hg. run_inv.
  rename select (QueryRowContext _ _ _ _ = _) into Hq; apply QueryRowContext_ok in Hq as (rows & Hq).
  apply q_get in Hq as (l & Hl & Hm).
  destruct (filter _ l) as [|[v' b] l'] eqn:Hf; [done|]. destruct Hm as (ts & y & Hrow & Hy).
  simplify_eq/=. unfold scan_migration in *. simpl in *. rewrite Hy in *. simplify_eq/=.
  exists l, b. split_and!; [done| |done].
  assert ((v', b) ∈ filter (λ r, r.1 = v) l) as [<- ?]%list_elem_of_filter by (rewrite Hf; left). done.
Qed.

Lemma store_get_missing db v w e w' : store_GetMigration t q db v w = (Err e, w') →
  errors_Is e database_ErrVersionNotFound = true → ∃ l, (db_view w).1 = Some l ∧ v ∉ l.*1.
Proof.
  unfold store_GetMigration. intros Hg He. run_inv.
  - rename select (QueryRowContext _ _ _ _ = _) into Hq; apply QueryRowContext_err in Hq as [[Hq| ->]|[-> Hq]]; [..|done|].
    + apply q_errors in Hq as [He1 He2]. rewrite He1 in He. simpl in He. by rewrite He2 in He.
    + apply q_get in Hq as (l & Hl & Hm). exists l. split; [done|].
      destruct (filter _ l) as [|[v' b] l'] eqn:Hf; [|by destruct Hm as (? & ? & ? & _)].
      intros (r & -> & Hr)%list_elem_of_fmap.
      assert (r ∈ filter (λ r', r'.1 = r.1) l) as Hin by by apply list_elem_of_filter.
      rewrite Hf in Hin. by apply elem_of_nil in Hin.
  - match goal with Hs : scan_migration _ = inr _ |- _ =>
      rewrite !(scan_errors _ _ _ (or_introl Hs)) in He; simpl in He;
      by rewrite !(scan_errors _ _ _ (or_introl Hs)) in He end.
Qed.

Lemma scan_version_max l r : scan_version [match max_version l with Some v => VInt v | None => VNull end]
  = inl r → r = max_version l.
Proof. simpl. destruct (max_version l); simpl; congruence. Qed.

Lemma store_latest_inv db w v w' : store_GetLatestVersion t q db w = (Ok v, w') →
  ∃ l, (db_view w).1 = Some l ∧ max_version l = Some v.
Proof.
  unfold store_GetLatestVersion. intros Hg. run_inv.
  rename select (QueryRowContext _ _ _ _ = _) into Hq; apply QueryRowContext_ok in Hq as (rows & Hq).
  apply q_latest in Hq as (l & Hl & [= -> ->]). exists l. split; [done|].
  destruct (max_version l) as [m|] eqn:Hmax; simpl in *; simplify_eq/=; run_inv; done.
Qed.

Lemma store_latest_missing db w e w' : store_GetLatestVersion t q db w = (Err e, w') →
  errors_Is e database_ErrVersionNotFound = true → (db_view w).1 = Some [].
Proof.
  unfold store_GetLatestVersion. intros Hg He. run_inv.
  - rename select (QueryRowContext _ _ _ _ = _) into Hq; apply QueryRowContext_err in Hq as [[Hq| ->]|[-> Hq]]; [..|done|].
    + apply q_errors in Hq as [_ He2]. simpl in He. by rewrite He2 in He.
    + by apply q_latest in Hq as (l & Hl & ?).
  - match goal with Hs : scan_version _ = inr _ |- _ =>
      simpl in He; by rewrite !(scan_errors _ _ _ (or_intror Hs)) in He end.
  - rename select (QueryRowContext _ _ _ _ = _) into Hq; apply QueryRowContext_ok in Hq as (rows & Hq).
    apply q_latest in Hq as (l & Hl & [= -> ->]).
    unfold max_version in *. by destruct l as [|[v b] l]; simplify_eq/=.
Qed.

Lemma store_list_inv db w rs w' : store_ListMigrations t q db w = (Ok rs, w') →
  (db_view w).1 = Some (map (λ r, (lm_Version r, lm_IsApplied r)) rs).
Proof.
  unfold store_ListMigrations. intros Hg. run_inv.
  rename select (QueryContext _ _ _ _ = _) into Hq; apply QueryContext_ok, q_list in Hq as (l & Hl & Hrows).
  edestruct (mmap_scan (D:=D)) as [<- _]; [exact Hrows|eassumption|done].
Qed.

Lemma store_exists_inv db w b w' : store_TableExists t q db w = (Ok b, w') →
  b = bool_decide (is_Some (db_view w).1).
Proof.
  unfold store_TableExists, queryController_TableExists. intros Hg.
  destruct (q_TableExists q) as [f|] eqn:Hf; [|done].
  destruct (String.eqb (f t) ""); [done|]. run_inv.
  rename select (QueryRowContext _ _ _ _ = _) into Hq; apply QueryRowContext_ok in Hq as (rows & Hq).
  apply (q_exists f) in Hq as (y & [= -> ->] & Hy); [|done].
  simpl in *. rewrite Hy in *. by simplify_eq.
Qed.

Lemma store_TableExists_session db : Preserves session (store_TableExists t q db).
Proof. unfold store_TableExists. preserve. Qed.

Lemma store_TableExists_view db : Preserves db_view (store_TableExists t q db).
Proof. unfold store_TableExists. preserve. Qed.

Lemma store_TableExists_no_panic db : NoPanic (store_TableExists t q db).
Proof. unfold store_TableExists. no_panic. Qed.

Lemma new_store_spec : StoreSpec (new_store t q).
Proof.
  split; simpl; unfold TableExists; simpl;
    eauto using store_get_inv, store_get_missing, store_latest_inv, store_latest_missing,
      store_list_inv, store_exists_inv, store_TableExists_session, store_TableExists_view;
    unfold store_CreateVersionTable, store_Insert, store_Delete, store_GetMigration,
      store_GetLatestVersion, store_ListMigrations; intros; try solve [preserve].
  1-3: run_inv; eauto using ExecContext_err.
  1-3: run_inv; rename select (ExecContext _ _ _ _ = _) into Hx;
         apply ExecContext_ok in Hx as [Hx ->].
  4-10: apply NoPanic_run; try apply store_TableExists_no_panic; no_panic.
  - by apply q_create.
  - by apply q_insert.
  - by apply q_delete.
Qed.

End Refinement.

(** ** Progress *)

(** The database executes the dialect's statements when the table is there. *)
Class QuerierLive {D U} `{Driver D, DbModel D U} (t : string) (q : Querier) := {
  q_create_live db d : (view d).1 = None → (drv_exec db (q_CreateTable q t) [] d).1 = None;
  q_insert_live db v d l : (view d).1 = Some l →
    (drv_exec db (q_InsertVersion q t) [VInt v; VBool true] d).1 = None;
  q_delete_live db v d l : (view d).1 = Some l →
    (drv_exec db (q_DeleteVersion q t) [VInt v] d).1 = None;
  q_get_live db v d l : (view d).1 = Some l →
    ∃ rows, (drv_query db (q_GetMigrationByVersion q t) [VInt v] d).1 = inl rows;
  q_list_live db d l : (view d).1 = Some l →
    ∃ rows, (drv_query db (q_ListMigrations q t) [] d).1 = inl rows;
  q_latest_live db d l : (view d).1 = Some l →
    ∃ rows, (drv_query db (q_GetLatestVersion q t) [] d).1 = inl rows;
  q_exists_live f db d : q_TableExists q = Some f →
    f t ≠ "" ∧ ∃ rows, (drv_query db (f t) [] d).1 = inl rows
}.

Section Progress.
Context {D U : Type} `{DbLaws D U}.

Lemma ExecContext_live db q args w :
  can_run db w = true → (drv_exec db q args (drv w)).1 = None →
  ∃ w', ExecContext db q args w = (Ok tt, w').
Proof.
  unfold ExecContext, with_handle, drv_call, can_run. intros Hc Hx.
  destruct (drv_exec db q args (drv w)) as [r d]; simpl in Hx; subst r.
  destruct db; try apply negb_true_iff in Hc; rewrite ?Hc; eauto.
Qed.

Lemma QueryContext_live db q args w rows :
  can_run db w = true → (drv_query db q args (drv w)).1 = inl rows →
  ∃ w', QueryContext db q args w = (Ok rows, w').
Proof.
  unfold QueryContext, with_handle, can_run. intros Hc Hx.
  destruct (drv_query db q args (drv w)) as [r d]; simpl in Hx; subst r.
  destruct db; try apply negb_true_iff in Hc; rewrite ?Hc; eauto.
Qed.

Lemma QueryContext_total db q args w : can_run db w = true →
  (∃ rows w', QueryContext db q args w = (Ok rows, w')) ∨
  ∃ e w', QueryContext db q args w = (Err e, w').
Proof.
  unfold QueryContext, with_handle, can_run. intros Hc.
  destruct (drv_query db q args (drv w)) as [[rows|e] d];
    destruct db; try apply negb_true_iff in Hc; rewrite ?Hc; eauto.
Qed.

Lemma QueryRowContext_live db q args w row rows :
  can_run db w = true → (drv_query db q args (drv w)).1 = inl (row :: rows) →
  ∃ w', QueryRowContext db q args w = (Ok row, w').
Proof.
  intros Hc Hx. destruct (QueryContext_live _ _ _ _ _ Hc Hx) as [w' Hw'].
  exists w'. unfold QueryRowContext. by rewrite (bind_run _ _ _ _ _ Hw').
Qed.

Lemma QueryRowContext_none db q args w :
  can_run db w = true → (drv_query db q args (drv w)).1 = inl [] →
  ∃ w', QueryRowContext db q args w = (Err (ESentinel sql_ErrNoRows), w').
Proof.
  intros Hc Hx. destruct (QueryContext_live _ _ _ _ _ Hc Hx) as [w' Hw'].
  exists w'. unfold QueryRowContext. by rewrite (bind_run _ _ _ _ _ Hw').
Qed.

Lemma wrap_err_run {W A} g (m : M W A) w a w' :
  m w = (Ok a, w') → wrap_err g m w = (Ok a, w').
Proof. intros. by apply wrap_err_ok. Qed.

Context (t : string) (q : Querier) `{!@QuerierSpec D U _ _ t q, !@QuerierLive D U _ _ t q}.

Lemma mmap_scan_live (rows : list (list sqlval)) (l : list (Z * bool)) (w : DB D) :
  Forall2 (λ row r, ∃ x, row = [VInt r.1; x] ∧ scan_bool x = inl r.2) rows l →
  ∃ rs, mmap (λ row, wrap_err (λ err, EErrorf "failed to scan list migrations result: %w" [AWrap err])
    (of_result (scan_listed row))) rows w = (Ok rs, w).
Proof.
  induction 1 as [|row [v b] rows l (x & -> & Hx) Hl [rs Hrs]]; simpl in *; [by eexists|].
  eexists. erewrite bind_run.
  2: { apply wrap_err_run. unfold scan_listed. simpl. by rewrite Hx. }
  by rewrite (bind_run _ _ _ _ _ Hrs).
Qed.

Lemma store_get_live db v w l : can_run db w = true → (db_view w).1 = Some l →
  ∃ r w', store_GetMigration t q db v w = (r, w') ∧
    match r with
    | Ok _ => v ∈ l.*1
    | Err e => errors_Is e database_ErrVersionNotFound = true ∧ v ∉ l.*1
    | _ => False
    end.
Proof.
  intros Hc Hl. destruct (q_get_live db v _ _ Hl) as [rows Hrows].
  destruct (q_get _ _ _ _ Hrows) as (l' & Hl' & Hm). unfold db_view in Hl. rewrite Hl' in Hl. simplify_eq.
  unfold store_GetMigration. destruct (filter _ l) as [|[v' b] l''] eqn:Hf.
  - subst rows. destruct (QueryRowContext_none _ _ _ _ Hc Hrows) as [w' Hw'].
    eexists _, w'. split; [unfold wrap_err, mbind, M_bind; by rewrite Hw'|]. split; [done|].
    intros (r & -> & Hr)%list_elem_of_fmap.
    assert (r ∈ filter (λ r', r'.1 = r.1) l) as Hin by by apply list_elem_of_filter.
    rewrite Hf in Hin. by apply elem_of_nil in Hin.
  - destruct Hm as (ts & y & -> & Hy).
    destruct (QueryRowContext_live _ _ _ _ _ _ Hc Hrows) as [w' Hw'].
    eexists _, w'. split.
    + apply wrap_err_run. rewrite (bind_run _ _ _ _ _ Hw'). unfold scan_migration. simpl. by rewrite Hy.
    + simpl. assert ((v', b) ∈ filter (λ r, r.1 = v) l) as [<- Hin]%list_elem_of_filter
        by (rewrite Hf; by left). apply list_elem_of_fmap. by exists (v', b).
Qed.

Lemma store_get_no_table db v w : can_run db w = true → (db_view w).1 = None →
  ∃ e w', store_GetMigration t q db v w = (Err e, w').
Proof.
  intros Hc Hl. unfold store_GetMigration, QueryRowContext.
  destruct (QueryContext_total db (q_GetMigrationByVersion q t) [VInt v] w Hc)
    as [(rows & w' & Hw')|(e & w' & Hw')].
  - apply QueryContext_ok, q_get in Hw' as (l & Hl' & _). unfold db_view in Hl. congruence.
  - unfold wrap_err, mbind, M_bind. rewrite Hw'. eauto.
Qed.

Lemma store_latest_live db w l v : can_run db w = true → (db_view w).1 = Some l →
  max_version l = Some v → ∃ w', store_GetLatestVersion t q db w = (Ok v, w').
Proof.
  intros Hc Hl Hv. destruct (q_latest_live db _ _ Hl) as [rows Hrows].
  destruct (q_latest _ _ _ Hrows) as (l' & Hl' & ->). unfold db_view in Hl. rewrite Hl' in Hl. simplify_eq.
  destruct (QueryRowContext_live _ _ _ _ _ _ Hc Hrows) as [w' Hw'].
  exists w'. unfold store_GetLatestVersion. rewrite (bind_run _ _ _ (Some v) w'); [done|].
  apply wrap_err_run. rewrite (bind_run _ _ _ _ _ Hw'). simpl. by rewrite Hv.
Qed.

Lemma store_list_live db w l : can_run db w = true → (db_view w).1 = Some l →
  ∃ rs w', store_ListMigrations t q db w = (Ok rs, w').
Proof.
  intros Hc Hl. destruct (q_list_live db _ _ Hl) as [rows Hrows].
  destruct (q_list _ _ _ Hrows) as (l' & Hl' & Hfa).
  destruct (QueryContext_live _ _ _ _ _ Hc Hrows) as [w' Hw'].
  destruct (mmap_scan_live rows l' w' Hfa) as [rs Hrs].
  exists rs, w'. unfold store_ListMigrations.
  rewrite (bind_run _ _ _ rows w'); [done|]. by apply wrap_err_run.
Qed.

Lemma store_exists_live db w : can_run db w = true →
  ∃ r w', store_TableExists t q db w = (r, w') ∧
    match r with
    | Ok b => b = bool_decide (is_Some (db_view w).1)
    | Err e => errors_Is e ErrUnsupported = true
    | _ => False
    end.
Proof.
  intros Hc. unfold store_TableExists, queryController_TableExists.
  destruct (q_TableExists q) as [f|] eqn:Hf; [|by do 2 eexists].
  destruct (q_exists_live f db (drv w) Hf) as [Hne [rows Hrows]].
  destruct (q_exists _ _ _ _ Hf Hrows) as (y & -> & Hy).
  apply String.eqb_neq in Hne. rewrite Hne.
  destruct (QueryRowContext_live _ _ _ _ _ _ Hc Hrows) as [w' Hw'].
  eexists (Ok _), w'. split; [|reflexivity].
  apply wrap_err_run. rewrite (bind_run _ _ _ _ _ Hw'). simpl. rewrite Hy. done.
Qed.

Lemma new_store_live : StoreLive (new_store t q).
Proof.
  split; simpl; unfold TableExists; simpl;
    eauto using store_get_live, store_get_no_table, store_latest_live, store_list_live, store_exists_live.
  - intros db w Hc Hn. destruct (ExecContext_live db (q_CreateTable q t) [] w Hc) as [w' Hw'];
      [by apply q_create_live|exists w'; by apply wrap_err_run].
  - intros db v w l Hc Hl. destruct (ExecContext_live db (q_InsertVersion q t) [VInt v; VBool true] w Hc)
      as [w' Hw']; [by eapply q_insert_live|exists w'; by apply wrap_err_run].
  - intros db v w l Hc Hl. destruct (ExecContext_live db (q_DeleteVersion q t) [VInt v] w Hc)
      as [w' Hw']; [by eapply q_delete_live|exists w'; by apply wrap_err_run].
Qed.

End Progress.

(** C19: a store made from a table name and a querier is for that table, and
    meets the contract of [database.Store] whenever the database gives the
    querier's statements their documented meaning; when the database also
    executes them, the store makes progress. *)
Theorem NewStoreFromQuerier_refines {D U} `{DbLaws D U} t q (st : Store D) :
  NewStoreFromQuerier t (Some q) = inl st → QuerierSpec (U:=U) t q →
  t ≠ "" ∧ Tablename st = t ∧ StoreSpec (U:=U) st ∧
  (QuerierLive (U:=U) t q → StoreLive (U:=U) st).
Proof.
  unfold NewStoreFromQuerier. intros Hs Hq.
  destruct (String.eqb t "") eqn:Ht; simplify_eq/=.
  apply String.eqb_neq in Ht. split_and!; [done|done|by apply new_store_spec|].
  intros ?. by apply new_store_live.
Qed.
