(* ===== verification/MemDB.v ===== *)
(** * A concrete database

    A small in-memory database with transactions that executes the statements
    of the Postgres dialect on the default table and records the others.  It
    is the concrete instance of the assumptions on drivers and databases
    ([DbLaws], [QuerierSpec], [QuerierLive]) at which the witnesses evaluate
    the theorems; it models no code of the repository. *)

From S2P Require Import Prelude GoStrings Effects Dialects Sql Store.

Definition mem_table : string := "goose_db_version".

(** The version table, the statements of migrations executed so far, the
    contents at the beginning of the open transaction, and the statements that
    fail (a [COMMIT] among them fails the commit). *)
Record mem := mkMem {
  m_tbl : option (list (Z * bool));
  m_log : list string;
  m_saved : option (option (list (Z * bool)) * list string);
  m_fail : list string
}.

Inductive statement_kind := KCreate | KInsert | KDelete | KGet | KList | KLatest | KExists | KOther.

Definition mem_kinds : list (string * statement_kind) :=
  let q := NewPostgres in let t := mem_table in
  [(q_CreateTable q t, KCreate); (q_InsertVersion q t, KInsert); (q_DeleteVersion q t, KDelete);
   (q_GetMigrationByVersion q t, KGet); (q_ListMigrations q t, KList);
   (q_GetLatestVersion q t, KLatest);
   (match q_TableExists q with Some f => f t | None => "" end, KExists)].

Definition mem_kind (s : string) : statement_kind :=
  match List.find (λ p, String.eqb s p.1) mem_kinds with
  | Some (_, k) => k
  | None => KOther
  end.

Definition mem_set (tbl : option (list (Z * bool))) (d : mem) : mem :=
  mkMem tbl (m_log d) (m_saved d) (m_fail d).

Definition mem_error : error := EExternal 1.

Definition mem_exec (s : string) (args : list sqlval) (d : mem) : option error * mem :=
  match mem_kind s, args, m_tbl d with
  | KCreate, [], None => (None, mem_set (Some []) d)
  | KInsert, [VInt v; VBool b], Some l => (None, mem_set (Some ((v, b) :: l)) d)
  | KDelete, [VInt v], Some l => (None, mem_set (Some (filter (λ r, r.1 ≠ v) l)) d)
  | KOther, _, _ =>
      if existsb (String.eqb s) (m_fail d) then (Some mem_error, d)
      else (None, mkMem (m_tbl d) (m_log d ++ [s]) (m_saved d) (m_fail d))
  | _, _, _ => (Some mem_error, d)
  end.

Definition mem_query (s : string) (args : list sqlval) (d : mem) : result (list (list sqlval)) :=
  match mem_kind s, args, m_tbl d with
  | KGet, [VInt v], Some l =>
      match filter (λ r, r.1 = v) l with
      | [] => inl []
      | (_, b) :: _ => inl [[VTime 0; VBool b]]
      end
  | KList, [], Some l => inl (map (λ r, [VInt r.1; VBool r.2]) l)
  | KLatest, [], Some l => inl [[match max_version l with Some v => VInt v | None => VNull end]]
  | KExists, [], _ => inl [[VBool (bool_decide (is_Some (m_tbl d)))]]
  | _, _, _ => inr mem_error
  end.

Definition mem_restore (d : mem) : mem :=
  match m_saved d with
  | Some (tbl, log) => mkMem tbl log None (m_fail d)
  | None => d
  end.

#[export] Instance mem_driver : Driver mem := {
  drv_connect d := (None, d);
  drv_release d := (None, d);
  drv_begin d := (None, mkMem (m_tbl d) (m_log d) (Some (m_tbl d, m_log d)) (m_fail d));
  drv_commit d :=
    if existsb (String.eqb "COMMIT") (m_fail d) then (Some mem_error, mem_restore d)
    else (None, mkMem (m_tbl d) (m_log d) None (m_fail d));
  drv_rollback d := (None, mem_restore d);
  drv_exec _ s args d := mem_exec s args d;
  drv_query _ s args d := (mem_query s args d, d)
}.

#[export] Instance mem_model : DbModel mem (list string) := {
  view d := (m_tbl d, m_log d);
  snap := m_saved
}.

Lemma mem_exec_cases s args d :
  (mem_exec s args d).1 = None ∨ mem_exec s args d = (Some mem_error, d).
Proof. unfold mem_exec. case_all; auto. Qed.

#[export] Instance mem_laws : DbLaws mem (list string).
Proof.
  split; try done; simpl; intros.
  - case_match; simpl; [|done]. unfold mem_restore. by destruct (m_saved d) as [[]|]; simplify_eq/=.
  - unfold mem_restore. by destruct (m_saved d) as [[]|]; simplify_eq/=.
  - unfold mem_exec. case_all; done.
  - destruct (mem_exec_cases q args d) as [|Hd]; [done|]. by rewrite Hd.
Qed.

Lemma kind_create : mem_kind (q_CreateTable NewPostgres mem_table) = KCreate.
Proof. by vm_compute. Qed.
Lemma kind_insert : mem_kind (q_InsertVersion NewPostgres mem_table) = KInsert.
Proof. by vm_compute. Qed.
Lemma kind_delete : mem_kind (q_DeleteVersion NewPostgres mem_table) = KDelete.
Proof. by vm_compute. Qed.
Lemma kind_get : mem_kind (q_GetMigrationByVersion NewPostgres mem_table) = KGet.
Proof. by vm_compute. Qed.
Lemma kind_list : mem_kind (q_ListMigrations NewPostgres mem_table) = KList.
Proof. by vm_compute. Qed.
Lemma kind_latest : mem_kind (q_GetLatestVersion NewPostgres mem_table) = KLatest.
Proof. by vm_compute. Qed.
Lemma kind_exists f : q_TableExists NewPostgres = Some f →
  f mem_table ≠ "" ∧ mem_kind (f mem_table) = KExists.
Proof. intros Hf. vm_compute in Hf. injection Hf as <-. split; by vm_compute. Qed.

#[local] Ltac by_kind :=
  intros; cbn [drv_exec drv_query mem_driver] in *; unfold mem_exec, mem_query in *;
  rewrite ?kind_create, ?kind_insert, ?kind_delete, ?kind_get, ?kind_list, ?kind_latest in *;
  simpl in *.

#[export] Instance mem_querier_spec : QuerierSpec (D:=mem) mem_table NewPostgres.
Proof.
  split.
  - by_kind. case_all; done.
  - by_kind. case_all; eauto.
  - by_kind. case_all; eauto.
  - by_kind. destruct (m_tbl d) as [l|]; [|done]. exists l. split; [done|].
    destruct (filter _ l) as [|[]]; simplify_eq; eauto.
  - by_kind. destruct (m_tbl d) as [l|]; [|done]. exists l. split; [done|]. simplify_eq.
    induction l as [|[v b] l IH]; simpl; constructor; eauto.
  - by_kind. destruct (m_tbl d) as [l|]; [|done]. simplify_eq. eauto.
  - intros f db d rows Hf Hrows. destruct (kind_exists f Hf) as [_ Hk].
    simpl in *. unfold mem_query in Hrows. rewrite Hk in Hrows. simplify_eq. eauto.
  - intros db s args d e He. simpl in He. unfold mem_query in He.
    assert (e = mem_error) as -> by (case_all; done). done.
Qed.

#[export] Instance mem_querier_live : QuerierLive (D:=mem) mem_table NewPostgres.
Proof.
  split; [by_kind; rewrite H; eauto..|].
  - destruct (filter _ l) as [|[]]; eauto.
  - intros f db d Hf. destruct (kind_exists f Hf) as [Hne Hk]. split; [done|].
    cbn [drv_query mem_driver]. unfold mem_query. rewrite Hk. simpl. eauto.
Qed.

(** The store of the default table, and a pool over the database. *)
Definition mem_store : Store mem := new_store mem_table NewPostgres.

Lemma mem_store_spec : StoreSpec (U:=list string) mem_store.
Proof. apply new_store_spec; apply _. Qed.

Lemma mem_store_live : StoreLive (U:=list string) mem_store.
Proof. apply new_store_live; apply _. Qed.

Definition mem_open (tbl : option (list (Z * bool))) (failing : list string) (max : Z) : DB mem :=
  mkDB (mkMem tbl [] None failing) 0 max false.

Lemma NewStoreFromQuerier_refines_witness :
  mem_table ≠ "" ∧ Tablename mem_store = mem_table ∧ StoreSpec (U:=list string) mem_store ∧
  (QuerierLive (U:=list string) mem_table NewPostgres → StoreLive (U:=list string) mem_store).
Proof.
  exact (NewStoreFromQuerier_refines mem_table NewPostgres mem_store eq_refl mem_querier_spec).
Defined.
