(* ===== verification/Migration.v ===== *)
(** * Migrations and the registry of Go migrations

    [migration.go]: the [Migration] value, its constructor and the version
    number of a file name; [globals.go] and [register.go]: the checks on Go
    migrations and the global registry.  A Go function is named by an
    identifier; what it does is a parameter of the components that run it. *)

From S2P Require Import Prelude GoStrings Effects.

(** ** Data *)

(** [TransactionMode]: 0 is unset. *)
Definition TransactionEnabled : Z := 1.
Definition TransactionDisabled : Z := 2.

Definition TransactionMode_String (m : Z) : string :=
  if m =? TransactionEnabled then "transaction_enabled"
  else if m =? TransactionDisabled then "transaction_disabled"
  else "unknown transaction mode (" +++ FormatInt m +++ ")".

Record GoFunc := mkGoFunc { RunTx : option Z; RunDB : option Z; Mode : Z }.

Record sqlMigration := mkSqlMigration {
  sql_Parsed : bool; sql_UseTx : bool; sql_Up : list string; sql_Down : list string
}.

Record Migration := mkMigration {
  m_Type : MigrationType;
  m_Version : Z;
  m_Source : string;
  m_UpFnContext : option Z; m_DownFnContext : option Z;
  m_UpFnNoTxContext : option Z; m_DownFnNoTxContext : option Z;
  m_Registered : bool;
  m_UseTx : bool;
  m_Next : Z; m_Previous : Z;
  m_UpFn : option Z; m_DownFn : option Z; m_UpFnNoTx : option Z; m_DownFnNoTx : option Z;
  m_noVersioning : bool;
  m_construct : bool;
  m_goUp : option GoFunc; m_goDown : option GoFunc;
  m_sql : sqlMigration
}.

Definition set_Source (s : string) (m : Migration) : Migration :=
  let 'mkMigration t v _ a b c d r u n p e f g h nv k gu gd q := m in
  mkMigration t v s a b c d r u n p e f g h nv k gu gd q.
Definition set_UseTx (u : bool) (m : Migration) : Migration :=
  let 'mkMigration t v s a b c d r _ n p e f g h nv k gu gd q := m in
  mkMigration t v s a b c d r u n p e f g h nv k gu gd q.
Definition set_links (next previous : Z) (m : Migration) : Migration :=
  let 'mkMigration t v s a b c d r u _ _ e f g h nv k gu gd q := m in
  mkMigration t v s a b c d r u next previous e f g h nv k gu gd q.
Definition set_noVersioning (nv : bool) (m : Migration) : Migration :=
  let 'mkMigration t v s a b c d r u n p e f g h _ k gu gd q := m in
  mkMigration t v s a b c d r u n p e f g h nv k gu gd q.
Definition set_sql (q : sqlMigration) (m : Migration) : Migration :=
  let 'mkMigration t v s a b c d r u n p e f g h nv k gu gd _ := m in
  mkMigration t v s a b c d r u n p e f g h nv k gu gd q.

Definition MigrationType_String (t : MigrationType) : string :=
  match t with TypeGo => "go" | TypeSQL => "sql" | TypeOther s => s end.

(** [ref]: how log and error messages name a migration. *)
Definition ref (m : Migration) : string :=
  "(type:" +++ MigrationType_String (m_Type m) +++ ",version:" +++ FormatInt (m_Version m) +++ ")".

Definition is_nil {A} (o : option A) : bool := match o with None => true | Some _ => false end.

(** [withContext], [withoutContext]: nil stays nil, a function keeps its
    behaviour. *)
Definition withContext (fn : option Z) : option Z := fn.
Definition withoutContext (fn : option Z) : option Z := fn.

(** [updateMode]: the mode follows the function that is set. *)
Definition updateMode (f : GoFunc) : GoFunc :=
  if Mode f =? 0 then
    let mode := Mode f in
    let mode := if negb (is_nil (RunTx f)) && is_nil (RunDB f) then TransactionEnabled else mode in
    let mode := if is_nil (RunTx f) && negb (is_nil (RunDB f)) then TransactionDisabled else mode in
    let mode := if is_nil (RunDB f) && is_nil (RunTx f) then TransactionEnabled else mode in
    mkGoFunc (RunTx f) (RunDB f) mode
  else f.

Definition NewGoMigration (version : Z) (up down : option GoFunc) : Migration :=
  let default := mkGoFunc None None TransactionEnabled in
  let run sel (f : option GoFunc) : option Z := f ≫= sel in
  {| m_Type := TypeGo;
     m_Version := version;
     m_Source := "";
     m_UpFnContext := run RunTx up; m_DownFnContext := run RunTx down;
     m_UpFnNoTxContext := run RunDB up; m_DownFnNoTxContext := run RunDB down;
     m_Registered := true;
     m_UseTx := negb (is_nil (run RunTx up)) || negb (is_nil (run RunTx down));
     m_Next := -1; m_Previous := -1;
     m_UpFn := withoutContext (run RunTx up); m_DownFn := withoutContext (run RunTx down);
     m_UpFnNoTx := withoutContext (run RunDB up); m_DownFnNoTx := withoutContext (run RunDB down);
     m_noVersioning := false;
     m_construct := true;
     m_goUp := Some (match up with Some f => updateMode f | None => default end);
     m_goDown := Some (match down with Some f => updateMode f | None => default end);
     m_sql := mkSqlMigration false false [] [] |}.

(** ** The version of a file name *)

Definition NumericComponent (filename : string) : result Z :=
  let base := filepath_Base filename in
  let ext := filepath_Ext base in
  if negb (String.eqb ext ".go") && negb (String.eqb ext ".sql")
  then inr (errors_New "migration file does not have .sql or .go file extension")
  else
    let '(before, _, ok) := Cut base "_" in
    if negb ok then inr (errors_New "no filename separator '_' found")
    else match ParseInt before with
         | inr err => inr (EErrorf "failed to parse version from migration file: %s: %w" [AStr base; AWrap err])
         | inl n =>
             if n <? 1 then inr (errors_New "migration version must be greater than zero")
             else inl n
         end.

(** ** Checks on Go migrations *)

Definition checkGoFunc (f : GoFunc) : option error :=
  if negb (is_nil (RunTx f)) && negb (is_nil (RunDB f))
  then Some (errors_New "must specify exactly one of RunTx or RunDB")
  else if negb ((Mode f =? TransactionEnabled) || (Mode f =? TransactionDisabled))
  then Some (EErrorf "invalid mode: %d" [AInt (Mode f)])
  else if negb (is_nil (RunDB f)) && negb (Mode f =? TransactionDisabled)
  then Some (errors_New "transaction mode must be disabled or unspecified when RunDB is set")
  else if negb (is_nil (RunTx f)) && negb (Mode f =? TransactionEnabled)
  then Some (errors_New "transaction mode must be enabled or unspecified when RunTx is set")
  else None.

Definition nil_deref : string := "invalid memory address or nil pointer dereference".

(** The check of a source path against the version. *)
Definition checkSource (m : Migration) : option error :=
  if String.eqb (m_Source m) "" then None
  else if negb (String.eqb (filepath_Ext (m_Source m)) ".go")
  then Some (EErrorf "source must have .go extension: %q" [AStr (m_Source m)])
  else match NumericComponent (m_Source m) with
       | inr err => Some (EErrorf "invalid source: %w" [AWrap err])
       | inl version =>
           if negb (version =? m_Version m)
           then Some (EErrorf "version:%d does not match numeric component in source %q"
                        [AInt (m_Version m); AStr (m_Source m)])
           else None
       end.

Definition checkGoMigration (m : Migration) : outcome unit :=
  if negb (m_construct m) then Err (errors_New "must use NewGoMigration to construct migrations")
  else if negb (m_Registered m) then Err (errors_New "must be registered")
  else if negb (bool_decide (m_Type m = TypeGo)) then Err (EErrorf "type must be %q" [AStr "go"])
  else if m_Version m <? 1 then Err (errors_New "version must be greater than zero")
  else match checkSource m with
  | Some err => Err err
  | None =>
  match m_goUp m with None => Panic nil_deref | Some goUp =>
  match checkGoFunc goUp with
  | Some err => Err (EErrorf "up function: %w" [AWrap err])
  | None =>
  match m_goDown m with None => Panic nil_deref | Some goDown =>
  match checkGoFunc goDown with
  | Some err => Err (EErrorf "down function: %w" [AWrap err])
  | None =>
      if negb (is_nil (m_UpFnContext m)) && negb (is_nil (m_UpFnNoTxContext m))
      then Err (errors_New "must specify exactly one of UpFnContext or UpFnNoTxContext")
      else if negb (is_nil (m_UpFn m)) && negb (is_nil (m_UpFnNoTx m))
      then Err (errors_New "must specify exactly one of UpFn or UpFnNoTx")
      else if negb (is_nil (m_DownFnContext m)) && negb (is_nil (m_DownFnNoTxContext m))
      then Err (errors_New "must specify exactly one of DownFnContext or DownFnNoTxContext")
      else if negb (is_nil (m_DownFn m)) && negb (is_nil (m_DownFnNoTx m))
      then Err (errors_New "must specify exactly one of DownFn or DownFnNoTx")
      else Ok tt
  end end end end end.

(** ** The global registry *)

Abbreviation registry := (gmap Z Migration).

Definition ResetGlobalMigrations : M registry unit := modify (λ _, ∅).

Definition already_registered (version : Z) : error :=
  EErrorf "go migration with version %d already registered" [AInt version].

(** One step of [SetGlobalMigrations]; [WithGoMigrations] has the same loop. *)
Definition SetGlobalMigration (m : Migration) : M registry unit :=
  registered ← gets id;
  match registered !! m_Version m with
  | Some _ => fail (already_registered (m_Version m))
  | None =>
      wrap_err (λ err, EErrorf "invalid go migration: %w" [AWrap err])
        (of_outcome (checkGoMigration m));;
      modify <[m_Version m := m]>
  end.

Definition SetGlobalMigrations (migrations : list Migration) : M registry unit :=
  mfor SetGlobalMigration migrations.

Definition register (filename : string) (useTx : bool) (up down : option GoFunc)
  : M registry unit :=
  let v := match NumericComponent filename with inl v => v | inr _ => 0 end in
  registered ← gets id;
  match registered !! v with
  | Some existing =>
      fail (EErrorf "failed to add migration %q: version %d conflicts with %q"
              [AStr filename; AInt v; AStr (m_Source existing)])
  | None =>
      let m := NewGoMigration v up down in
      let m := set_Source filename m in
      let m := set_UseTx useTx m in
      modify <[v := m]>
  end.

(** [panic(err)]: the message of the error is left abstract. *)
Definition or_panic (m : M registry unit) : M registry unit := λ w,
  match m w with (Err _, w') => (Panic "failed to add migration", w') | r => r end.

Definition AddNamedMigrationContext (filename : string) (up down : option Z) : M registry unit :=
  or_panic (register filename true
    (Some (mkGoFunc up None TransactionEnabled)) (Some (mkGoFunc down None TransactionEnabled))).

Definition AddNamedMigrationNoTxContext (filename : string) (up down : option Z) : M registry unit :=
  or_panic (register filename false
    (Some (mkGoFunc None up TransactionDisabled)) (Some (mkGoFunc None down TransactionDisabled))).

(** The [Add] functions without a name take the file of their caller. *)
Definition AddMigrationContext (caller : string) (up down : option Z) : M registry unit :=
  AddNamedMigrationContext caller up down.
Definition AddMigrationNoTxContext (caller : string) (up down : option Z) : M registry unit :=
  AddNamedMigrationNoTxContext caller up down.
Definition AddNamedMigration (filename : string) (up down : option Z) : M registry unit :=
  AddNamedMigrationContext filename (withContext up) (withContext down).
Definition AddMigration (caller : string) (up down : option Z) : M registry unit :=
  AddNamedMigrationContext caller (withContext up) (withContext down).
Definition AddNamedMigrationNoTx (filename : string) (up down : option Z) : M registry unit :=
  AddNamedMigrationNoTxContext filename (withContext up) (withContext down).
Definition AddMigrationNoTx (caller : string) (up down : option Z) : M registry unit :=
  AddNamedMigrationNoTxContext caller (withContext up) (withContext down).

(** ** Durations *)

Definition Microsecond : Z := 1000.
Definition Millisecond : Z := 1000 * Microsecond.
Definition Second : Z := 1000 * Millisecond.

(** [time.Duration.Round]: to the nearest multiple, halves away from zero,
    saturating. *)
Definition Duration_Round (d m : Z) : Z :=
  if m <=? 0 then d
  else
    let r := Z.rem d m in
    if d <? 0 then
      let r := - r in
      if 2 * r <? m then d + r
      else if minInt64 <=? d - m + r then d - m + r else minInt64
    else if 2 * r <? m then d - r
    else if d + m - r <=? maxInt64 then d + m - r else maxInt64.

Fixpoint truncate_at (d : Z) (units : list Z) : Z :=
  match units with
  | [] => d
  | v :: units' => if d >? v then Duration_Round d (Z.quot v 100) else truncate_at d units'
  end.

Definition truncateDuration (d : Z) : Z := truncate_at d [Second; Millisecond; Microsecond].

(** ** Properties *)

(** The name that goose gives to the file of a migration. *)
Definition migration_name (n : Z) (name ext : string) : string :=
  Sprintf_05v n +++ "_" +++ name +++ ext.

Definition migration_ext (ext : string) : Prop := ext = ".sql" ∨ ext = ".go".

Lemma migration_name_ext n name ext :
  migration_ext ext → 0 ≤ n → lacks "/" name = true →
  filepath_Ext (migration_name n name ext) = ext ∧
  lacks "/" (migration_name n name ext) = true ∧ migration_name n name ext ≠ "".
Proof.
  intros He Hn Hname. unfold migration_name, filepath_Ext.
  assert (lacks "/" (Sprintf_05v n) = true) as Hs by by apply lacks_Sprintf_05v.
  split_and!.
  - rewrite <- !append_assoc. apply ext_from_app.
    + rewrite !lacks_app, Hs, Hname. done.
    + by destruct He as [-> | ->].
  - rewrite !lacks_app, Hs, Hname. by destruct He as [-> | ->].
  - by destruct (Sprintf_05v n).
Qed.

Lemma NumericComponent_name n name ext path :
  migration_ext ext → 1 ≤ n ≤ maxInt64 → filepath_Base path = migration_name n name ext →
  lacks "/" name = true → NumericComponent path = inl n.
Proof.
  intros He Hn Hb Hname. unfold NumericComponent.
  destruct (migration_name_ext n name ext) as (Hext & _ & _); [done|lia|done|].
  rewrite Hb, Hext.
  replace (negb (String.eqb ext ".go") && negb (String.eqb ext ".sql")) with false
    by by destruct He as [-> | ->].
  unfold migration_name. change ("_" +++ name +++ ext) with (String "_" (name +++ ext)).
  rewrite Cut_found by (apply lacks_Sprintf_05v; [done|lia]).
  rewrite ParseInt_Sprintf_05v by lia. cbn [negb].
  by rewrite (proj2 (Z.ltb_ge n 1)) by lia.
Qed.

Lemma NumericComponent_bounds filename n :
  NumericComponent filename = inl n →
  1 ≤ n ≤ maxInt64 ∧ migration_ext (filepath_Ext (filepath_Base filename)).
Proof.
  unfold NumericComponent, migration_ext. intros Hn.
  destruct (negb _ && negb _) eqn:Hext; [done|].
  destruct (Cut _ _) as [[before after] ok]. destruct (negb ok); [done|].
  destruct (ParseInt before) as [m|] eqn:Hm; [|done].
  apply ParseInt_bounds in Hm. unfold is_int64 in Hm.
  destruct (m <? 1) eqn:H1; [done|]. simplify_eq. apply Z.ltb_ge in H1.
  split; [lia|]. apply andb_false_iff in Hext.
  destruct Hext as [?%negb_false_iff%String.eqb_eq|?%negb_false_iff%String.eqb_eq]; auto.
Qed.

(** C36: a file named after a version, in any directory, has that version; and
    the version of a file name, when it has one, is a positive [int64], and the
    name ends in .go or .sql. *)
Theorem NumericComponent_spec :
  (∀ n name ext dir, migration_ext ext → 1 ≤ n ≤ maxInt64 → lacks "/" name = true →
     NumericComponent (migration_name n name ext) = inl n ∧
     NumericComponent (dir +++ "/" +++ migration_name n name ext) = inl n) ∧
  (∀ filename n, NumericComponent filename = inl n →
     1 ≤ n ≤ maxInt64 ∧ migration_ext (filepath_Ext (filepath_Base filename))).
Proof.
  split.
  - intros n name ext dir He Hn Hname.
    destruct (migration_name_ext n name ext) as (_ & Hl & Hne); [done|lia|done|].
    split; apply (NumericComponent_name n name ext); try done.
    + by apply filepath_Base_id.
    + by apply filepath_Base_app.
  - apply NumericComponent_bounds.
Qed.

(** What a user may pass for one direction: at most one function, and a mode
    that is unset or the one of the function. *)
Definition go_func_ok (f : option GoFunc) : bool :=
  match f with
  | None => true
  | Some f =>
      match RunTx f, RunDB f with
      | Some _, Some _ => false
      | Some _, None => (Mode f =? 0) || (Mode f =? TransactionEnabled)
      | None, Some _ => (Mode f =? 0) || (Mode f =? TransactionDisabled)
      | None, None => (Mode f =? 0) || (Mode f =? TransactionEnabled) || (Mode f =? TransactionDisabled)
      end
  end.

Lemma checkGoFunc_updateMode f :
  checkGoFunc (updateMode f) = None ↔ go_func_ok (Some f) = true.
Proof.
  destruct f as [tx db mode]. unfold checkGoFunc, updateMode, go_func_ok.
  cbn [RunTx RunDB Mode].
  destruct (Z.eqb_spec mode 0) as [->|H0]; [by destruct tx, db|].
  cbn [RunTx RunDB Mode].
  destruct (Z.eqb_spec mode TransactionEnabled) as [->|H1];
    [|destruct (Z.eqb_spec mode TransactionDisabled) as [->|H2]]; by destruct tx, db.
Qed.

Lemma updateMode_funcs f : RunTx (updateMode f) = RunTx f ∧ RunDB (updateMode f) = RunDB f.
Proof. unfold updateMode. by case_match. Qed.

Definition go_func_of (f : option GoFunc) : GoFunc :=
  match f with Some f => updateMode f | None => mkGoFunc None None TransactionEnabled end.

Lemma checkGoFunc_of f : checkGoFunc (go_func_of f) = None ↔ go_func_ok f = true.
Proof. destruct f; [apply checkGoFunc_updateMode|done]. Qed.

Lemma go_func_ok_exclusive f :
  go_func_ok f = true → is_nil (f ≫= RunTx) = true ∨ is_nil (f ≫= RunDB) = true.
Proof. destruct f as [[[] [] mode]|]; auto. Qed.

(** A Go migration made by [NewGoMigration] passes the registration check
    exactly when its version is positive and each direction has at most one
    function, with a mode that fits it; a rejected one is an error, never a
    panic. *)
Theorem NewGoMigration_valid version up down :
  (checkGoMigration (NewGoMigration version up down) = Ok tt ↔
     1 ≤ version ∧ go_func_ok up = true ∧ go_func_ok down = true) ∧
  (∀ s, checkGoMigration (NewGoMigration version up down) ≠ Panic s).
Proof.
  assert (∀ f, checkGoFunc (go_func_of f) = None → is_nil (f ≫= RunTx) = true ∨ is_nil (f ≫= RunDB) = true)
    as Hex by (intros f Hf%checkGoFunc_of; by apply go_func_ok_exclusive).
  unfold checkGoMigration. cbn -[Z.ltb is_nil checkGoFunc go_func_ok].
  change (match up with Some f => updateMode f | None => _ end) with (go_func_of up).
  change (match down with Some f => updateMode f | None => _ end) with (go_func_of down).
  destruct (Z.ltb_spec version 1).
  { split; [|done]. split; [done|]. intros [? _]; lia. }
  destruct (checkGoFunc (go_func_of up)) as [e|] eqn:Hup.
  { split; [|done]. split; [done|]. intros (_ & Hu%checkGoFunc_of & _). congruence. }
  destruct (checkGoFunc (go_func_of down)) as [e|] eqn:Hdown.
  { split; [|done]. split; [done|]. intros (_ & _ & Hd%checkGoFunc_of). congruence. }
  pose proof (proj1 (checkGoFunc_of up) Hup) as Hu. pose proof (proj1 (checkGoFunc_of down) Hdown) as Hd.
  unfold withoutContext.
  destruct (Hex up Hup) as [-> | ->], (Hex down Hdown) as [-> | ->];
    rewrite ?andb_false_r; cbn [negb andb]; rewrite ?andb_false_r; done.
Qed.

(** *** The registry *)

(** Every migration is stored under its version. *)
Definition registry_ok (w : registry) : Prop := map_Forall (λ v m, m_Version m = v) w.

(** What can be registered next. *)
Definition can_register (w : registry) (m : Migration) : Prop :=
  w !! m_Version m = None ∧ checkGoMigration m = Ok tt.

(** [registers w ms w']: registering [ms] one after the other leads to [w']. *)
Fixpoint registers (w : registry) (ms : list Migration) (w' : registry) : Prop :=
  match ms with
  | [] => w' = w
  | m :: ms => can_register w m ∧ registers (<[m_Version m := m]> w) ms w'
  end.

Lemma SetGlobalMigration_run m w :
  SetGlobalMigration m w =
    match w !! m_Version m with
    | Some _ => (Err (already_registered (m_Version m)), w)
    | None =>
        match checkGoMigration m with
        | Ok _ => (Ok tt, <[m_Version m := m]> w)
        | Err e => (Err (EErrorf "invalid go migration: %w" [AWrap e]), w)
        | Panic s => (Panic s, w)
        | Block => (Block, w)
        end
    end.
Proof.
  unfold SetGlobalMigration, of_outcome, gets, mbind, M_bind, wrap_err, fail, modify, id.
  destruct (w !! m_Version m); [done|]. by destruct (checkGoMigration m).
Qed.

Lemma registers_lookup w ms w' :
  registers w ms w' →
  w ⊆ w' ∧ NoDup (m_Version <$> ms) ∧
  (∀ m, m ∈ ms → w !! m_Version m = None ∧ w' !! m_Version m = Some m ∧ checkGoMigration m = Ok tt).
Proof.
  revert w. induction ms as [|m ms IH]; intros w; simpl.
  { intros ->. split_and!; [done|constructor|]. by intros m ?%elem_of_nil. }
  intros [[Hfree Hok] Hr]. destruct (IH _ Hr) as (Hsub & Hnd & Hin). split_and!.
  - etrans; [by apply insert_subseteq|done].
  - constructor; [|done]. intros (m' & Hv & Hm')%list_elem_of_fmap.
    destruct (Hin m' Hm') as [Hn _]. rewrite <- Hv in Hn. by rewrite lookup_insert_eq in Hn.
  - intros m' [->|Hm']%elem_of_cons.
    + split_and!; [done| |done]. eapply lookup_weaken; [apply lookup_insert_eq|done].
    + destruct (Hin m' Hm') as (Hn & ? & ?). split_and!; [|done..].
      destruct (decide (m_Version m = m_Version m')) as [He|]; [|by rewrite lookup_insert_ne in Hn].
      rewrite He in Hn. by rewrite lookup_insert_eq in Hn.
Qed.

Lemma registers_ok w ms w' : registers w ms w' → registry_ok w → registry_ok w'.
Proof.
  revert w. induction ms as [|m ms IH]; intros w; simpl; [by intros ->|].
  intros [_ Hr] Hw. apply (IH _ Hr). by apply map_Forall_insert_2.
Qed.

(** [SetGlobalMigrations] registers the migrations up to the first one
    that is invalid or whose version is taken, and reports that one; it never
    replaces a registered migration, and keeps each under its own version. *)
Theorem SetGlobalMigrations_spec ms w :
  ∃ pre post w', ms = pre ++ post ∧ registers w pre w' ∧
    w ⊆ w' ∧ (registry_ok w → registry_ok w') ∧
    (∀ m, m ∈ pre → w' !! m_Version m = Some m) ∧
    match post with
    | [] => SetGlobalMigrations ms w = (Ok tt, w')
    | m :: _ => ¬ can_register w' m ∧
        (SetGlobalMigrations ms w).2 = w' ∧ (SetGlobalMigrations ms w).1 ≠ Ok tt
    end.
Proof.
  assert (∃ pre post w', ms = pre ++ post ∧ registers w pre w' ∧
    match post with
    | [] => SetGlobalMigrations ms w = (Ok tt, w')
    | m :: _ => ¬ can_register w' m ∧
        (SetGlobalMigrations ms w).2 = w' ∧ (SetGlobalMigrations ms w).1 ≠ Ok tt
    end) as (pre & post & w' & -> & Hr & Hpost).
  { unfold SetGlobalMigrations. revert w. induction ms as [|m ms IH]; intros w.
    { by exists [], [], w. }
    cbn [mfor]. unfold mbind, M_bind, can_register. pose proof (SetGlobalMigration_run m w) as Hm.
    destruct (w !! m_Version m) as [m'|] eqn:Hfree.
    { exists [], (m :: ms), w. rewrite Hm. split_and!; try done. by intros [? _]; congruence. }
    destruct (checkGoMigration m) as [[]|e|s|] eqn:Hok;
      try by (exists [], (m :: ms), w; rewrite Hm; split_and!; try done; by intros [_ ?]; congruence).
    destruct (IH (<[m_Version m := m]> w)) as (pre & post & w' & -> & Hr & Hpost).
    exists (m :: pre), post, w'. rewrite Hm. split_and!; [done| |done]. by split. }
  destruct (registers_lookup _ _ _ Hr) as (Hsub & _ & Hin).
  exists pre, post, w'. split_and!; [done..| | |done].
  - by eapply registers_ok.
  - intros m Hm. by apply Hin.
Qed.

(** *** Printed durations *)

Lemma Duration_Round_near d m :
  0 < m → 0 ≤ d → d + m ≤ maxInt64 →
  Z.abs (Duration_Round d m - d) * 2 ≤ m ∧ Z.rem (Duration_Round d m) m = 0.
Proof.
  intros Hm Hd Hb. unfold Duration_Round.
  rewrite (proj2 (Z.leb_gt m 0)), (proj2 (Z.ltb_ge d 0)) by lia.
  rewrite Z.rem_mod_nonneg by lia. pose proof (Z.mod_pos_bound d m Hm).
  pose proof (Z.div_mod d m ltac:(lia)) as Hdm. pose proof (Z.mod_le d m Hd Hm).
  case_match; zify_bool.
  - split; [lia|]. rewrite Z.rem_mod_nonneg by lia.
    replace (d - d mod m) with (d / m * m) by lia. by apply Z.mod_mul; lia.
  - rewrite (proj2 (Z.leb_le _ _)) by lia. split; [lia|].
    rewrite Z.rem_mod_nonneg by lia.
    replace (d + m - d mod m) with ((d / m + 1) * m) by lia. apply Z.mod_mul; lia.
Qed.

(** The duration that is printed differs from the measured one by at most
    half a percent, and durations of at most a microsecond are exact; rounding
    does not overflow. *)
Theorem truncateDuration_precise d :
  0 ≤ d ≤ maxInt64 - Second →
  200 * Z.abs (truncateDuration d - d) ≤ d ∧ (d ≤ Microsecond → truncateDuration d = d) ∧
  is_int64 (truncateDuration d).
Proof.
  intros Hd. unfold truncateDuration, is_int64, minInt64. cbn [truncate_at].
  assert (∀ v, 1000 ≤ v ≤ Second → v < d → Z.rem v 200 = 0 →
    200 * Z.abs (Duration_Round d (Z.quot v 100) - d) ≤ d ∧ (d ≤ Microsecond → Duration_Round d (Z.quot v 100) = d) ∧
    - 2 ^ 63 ≤ Duration_Round d (Z.quot v 100) ≤ maxInt64) as Hv.
  { unfold Second, Millisecond, Microsecond, maxInt64 in *. intros v Hv1 Hv2 Hv3.
    pose proof (Z.quot_rem' v 200).
    assert (Z.quot v 100 = 2 * Z.quot v 200) as Hq.
    { symmetry. apply Z.quot_unique with (r := 0); lia. }
    destruct (Duration_Round_near d (Z.quot v 100)) as [Hn _]; [lia|lia|unfold maxInt64; lia|].
    split_and!; lia. }
  case_match eqn:H1; [apply Hv; zify_bool; unfold Second, Millisecond, Microsecond in *; lia || done|].
  case_match eqn:H2; [apply Hv; zify_bool; unfold Second, Millisecond, Microsecond in *; lia || done|].
  case_match eqn:H3; [apply Hv; zify_bool; unfold Second, Millisecond, Microsecond in *; lia || done|].
  unfold maxInt64 in *. split_and!; [lia|done|lia|unfold Second, Millisecond, Microsecond in *; lia].
Qed.

Lemma truncateDuration_precise_witness :
  200 * Z.abs (truncateDuration 1234567890 - 1234567890) ≤ 1234567890.
Proof. apply (truncateDuration_precise 1234567890). split; [lia|]. by vm_compute. Defined.
