(* ===== verification/Options.v ===== *)
(** * Provider configuration (provider_options.go)

    The [config] record, the options that change it, and the interfaces of
    the lockers it may hold (lock/locker.go). *)

From S2P Require Import Prelude GoStrings Effects Sql Store Migration.

Definition DefaultTablename : string := "goose_db_version".

Record SessionLocker (D : Type) := mkSessionLocker {
  SessionLock : M (DB D) unit;
  SessionUnlock : M (DB D) unit
}.
Arguments SessionLock {D} _.
Arguments SessionUnlock {D} _.

Record Locker (D : Type) := mkLocker { Lock : M (DB D) unit; Unlock : M (DB D) unit }.
Arguments Lock {D} _.
Arguments Unlock {D} _.

(** The maps from names and versions to [true] are sets; a logger is named by
    an identifier. *)
Record config (D : Type) := mkConfig {
  c_tableName : string;
  c_store : option (Store D);
  c_verbose : bool;
  c_excludePaths : gset string;
  c_excludeVersions : gset Z;
  c_registered : registry;
  c_lockEnabled : bool;
  c_sessionLocker : option (SessionLocker D);
  c_locker : option (Locker D);
  c_disableVersioning : bool;
  c_allowMissing : bool;
  c_disableGlobalRegistry : bool;
  c_isolateDDL : bool;
  c_logger : option Z;
  c_slogger : option Z
}.
Arguments mkConfig {D} _ _ _ _ _ _ _ _ _ _ _ _ _ _ _.
Arguments c_tableName {D} _.
Arguments c_store {D} _.
Arguments c_verbose {D} _.
Arguments c_excludePaths {D} _.
Arguments c_excludeVersions {D} _.
Arguments c_registered {D} _.
Arguments c_lockEnabled {D} _.
Arguments c_sessionLocker {D} _.
Arguments c_locker {D} _.
Arguments c_disableVersioning {D} _.
Arguments c_allowMissing {D} _.
Arguments c_disableGlobalRegistry {D} _.
Arguments c_isolateDDL {D} _.
Arguments c_logger {D} _.
Arguments c_slogger {D} _.

Section Options.
Context {D : Type}.
Implicit Types c : config D.

(** The configuration [NewProvider] starts from. *)
Definition empty_config : config D :=
  mkConfig "" None false ∅ ∅ ∅ false None None false false false false None None.

Definition set_tableName x c := let 'mkConfig _ b d e f g h i j k l m n o p := c in
  mkConfig (D:=D) x b d e f g h i j k l m n o p.
Definition set_store x c := let 'mkConfig a _ d e f g h i j k l m n o p := c in
  mkConfig (D:=D) a x d e f g h i j k l m n o p.
Definition set_verbose x c := let 'mkConfig a b _ e f g h i j k l m n o p := c in
  mkConfig (D:=D) a b x e f g h i j k l m n o p.
Definition set_excludePaths x c := let 'mkConfig a b d _ f g h i j k l m n o p := c in
  mkConfig (D:=D) a b d x f g h i j k l m n o p.
Definition set_excludeVersions x c := let 'mkConfig a b d e _ g h i j k l m n o p := c in
  mkConfig (D:=D) a b d e x g h i j k l m n o p.
Definition set_registered x c := let 'mkConfig a b d e f _ h i j k l m n o p := c in
  mkConfig (D:=D) a b d e f x h i j k l m n o p.
Definition set_sessionLocker x c := let 'mkConfig a b d e f g _ _ j k l m n o p := c in
  mkConfig (D:=D) a b d e f g true (Some x) j k l m n o p.
Definition set_locker x c := let 'mkConfig a b d e f g _ i _ k l m n o p := c in
  mkConfig (D:=D) a b d e f g true i (Some x) k l m n o p.
Definition set_disableVersioning x c := let 'mkConfig a b d e f g h i j _ l m n o p := c in
  mkConfig (D:=D) a b d e f g h i j x l m n o p.
Definition set_allowMissing x c := let 'mkConfig a b d e f g h i j k _ m n o p := c in
  mkConfig (D:=D) a b d e f g h i j k x m n o p.
Definition set_disableGlobalRegistry x c := let 'mkConfig a b d e f g h i j k l _ n o p := c in
  mkConfig (D:=D) a b d e f g h i j k l x n o p.
Definition set_isolateDDL x c := let 'mkConfig a b d e f g h i j k l m _ o p := c in
  mkConfig (D:=D) a b d e f g h i j k l m x o p.
Definition set_logger x c := let 'mkConfig a b d e f g h i j k l m n _ p := c in
  mkConfig (D:=D) a b d e f g h i j k l m n (Some x) p.
Definition set_slogger x c := let 'mkConfig a b d e f g h i j k l m n o _ := c in
  mkConfig (D:=D) a b d e f g h i j k l m n o (Some x).

(** An option updates the configuration or fails. *)
Definition configFunc : Type := M (config D) unit.

Definition when_none {A} (o : option A) (e : error) : configFunc :=
  match o with Some _ => fail e | None => mret tt end.

Definition WithStore (store : option (Store D)) : configFunc :=
  c ← gets id;
  when_none (c_store c) (errors_New "store already set: %T");;
  match store with
  | None => fail (errors_New "store must not be nil")
  | Some st =>
      if String.eqb (Tablename st) "" then fail (errors_New "store implementation must set the table name")
      else modify (set_store (Some st))
  end.

Definition WithTableName (name : string) : configFunc :=
  if String.eqb name "" then fail (errors_New "table name must not be empty")
  else modify (set_tableName name).

Definition WithVerbose (b : bool) : configFunc := modify (set_verbose b).

Definition WithSessionLocker (locker : option (SessionLocker D)) : configFunc :=
  c ← gets id;
  if c_lockEnabled c then fail (errors_New "lock already enabled") else
  when_none (c_sessionLocker c) (errors_New "session locker already set");;
  when_none (c_locker c) (errors_New "locker already set; cannot use both SessionLocker and Locker");;
  match locker with
  | None => fail (errors_New "session locker must not be nil")
  | Some l => modify (set_sessionLocker l)
  end.

Definition WithLocker (locker : option (Locker D)) : configFunc :=
  c ← gets id;
  if c_lockEnabled c then fail (errors_New "lock already enabled") else
  when_none (c_locker c) (errors_New "locker already set");;
  when_none (c_sessionLocker c)
    (errors_New "session locker already set; cannot use both SessionLocker and Locker");;
  match locker with
  | None => fail (errors_New "locker must not be nil")
  | Some l => modify (set_locker l)
  end.

Definition exclude_name (name : string) : configFunc :=
  c ← gets id;
  if bool_decide (name ∈ c_excludePaths c)
  then fail (EErrorf "duplicate exclude file name: %s" [AStr name])
  else modify (set_excludePaths ({[name]} ∪ c_excludePaths c)).

Definition WithExcludeNames (excludes : list string) : configFunc := mfor exclude_name excludes.

Definition exclude_version (version : Z) : configFunc :=
  if version <? 1 then fail (ESentinel errInvalidVersion) else
  c ← gets id;
  if bool_decide (version ∈ c_excludeVersions c)
  then fail (EErrorf "duplicate excludes version: %d" [AInt version])
  else modify (set_excludeVersions ({[version]} ∪ c_excludeVersions c)).

Definition WithExcludeVersions (versions : list Z) : configFunc := mfor exclude_version versions.

Definition WithGoMigrations (migrations : list Migration) : configFunc :=
  zoom c_registered set_registered (SetGlobalMigrations migrations).

Definition WithDisableGlobalRegistry (b : bool) : configFunc := modify (set_disableGlobalRegistry b).
Definition WithAllowOutofOrder (b : bool) : configFunc := modify (set_allowMissing b).
Definition WithDisableVersioning (b : bool) : configFunc := modify (set_disableVersioning b).
Definition WithIsolateDDL (b : bool) : configFunc := modify (set_isolateDDL b).

Definition WithLogger (l : option Z) : configFunc :=
  match l with
  | None => fail (errors_New "logger must not be nil")
  | Some l =>
      c ← gets id;
      when_none (c_slogger c) (errors_New "cannot use both WithLogger and WithSlog");;
      modify (set_logger l)
  end.

Definition WithSlog (logger : option Z) : configFunc :=
  match logger with
  | None => fail (errors_New "slog logger must not be nil")
  | Some l =>
      c ← gets id;
      when_none (c_logger c) (errors_New "cannot use both WithLogger and WithSlog");;
      modify (set_slogger l)
  end.

(** The exported options. *)
Inductive ProviderOption :=
  | OStore (st : option (Store D)) | OTableName (name : string) | OVerbose (b : bool)
  | OSessionLocker (l : option (SessionLocker D)) | OLocker (l : option (Locker D))
  | OExcludeNames (l : list string) | OExcludeVersions (l : list Z)
  | OGoMigrations (l : list Migration) | ODisableGlobalRegistry (b : bool)
  | OAllowOutofOrder (b : bool) | ODisableVersioning (b : bool)
  | OLogger (l : option Z) | OSlog (l : option Z) | OIsolateDDL (b : bool).

Definition apply_option (o : ProviderOption) : configFunc :=
  match o with
  | OStore st => WithStore st
  | OTableName n => WithTableName n
  | OVerbose b => WithVerbose b
  | OSessionLocker l => WithSessionLocker l
  | OLocker l => WithLocker l
  | OExcludeNames l => WithExcludeNames l
  | OExcludeVersions l => WithExcludeVersions l
  | OGoMigrations l => WithGoMigrations l
  | ODisableGlobalRegistry b => WithDisableGlobalRegistry b
  | OAllowOutofOrder b => WithAllowOutofOrder b
  | ODisableVersioning b => WithDisableVersioning b
  | OLogger l => WithLogger l
  | OSlog l => WithSlog l
  | OIsolateDDL b => WithIsolateDDL b
  end.

Definition apply_options (opts : list ProviderOption) : configFunc := mfor apply_option opts.

(** ** The invariant of configurations *)

Record config_ok c : Prop := {
  (** at most one kind of lock, and locking is on exactly when there is one *)
  ok_one_lock : c_sessionLocker c = None ∨ c_locker c = None;
  ok_enabled : c_lockEnabled c = negb (is_nil (c_sessionLocker c) && is_nil (c_locker c));
  ok_one_logger : c_logger c = None ∨ c_slogger c = None;
  ok_store : ∀ st, c_store c = Some st → Tablename st ≠ "";
  ok_versions : ∀ v, v ∈ c_excludeVersions c → 1 ≤ v;
  ok_registered : map_Forall (λ v m, m_Version m = v ∧ checkGoMigration m = Ok tt) (c_registered c)
}.

Lemma empty_config_ok : config_ok empty_config.
Proof.
  split; simpl; by auto.
Qed.

(** An operation that keeps the invariant, however it ends. *)
Definition Keeps {W} (I : W → Prop) {A} (m : M W A) : Prop := ∀ w, I w → I (m w).2.

Lemma keeps_bind {W} (I : W → Prop) {A B} (m : M W A) (k : A → M W B) :
  Keeps I m → (∀ a, Keeps I (k a)) → Keeps I (m ≫= k).
Proof.
  intros Hm Hk w Hw. unfold mbind, M_bind. specialize (Hm w Hw).
  destruct (m w) as [[] w1]; try done. by apply Hk.
Qed.

Lemma keeps_mfor {W} (I : W → Prop) {A} (f : A → M W unit) l :
  (∀ x, Keeps I (f x)) → Keeps I (mfor f l).
Proof. intros Hf. induction l; simpl; [by intros w|]. by apply keeps_bind. Qed.

Definition registered_ok (w : registry) : Prop :=
  map_Forall (λ v m, m_Version m = v ∧ checkGoMigration m = Ok tt) w.

Lemma SetGlobalMigrations_keeps ms : Keeps registered_ok (SetGlobalMigrations ms).
Proof.
  apply keeps_mfor. intros m w Hw. rewrite SetGlobalMigration_run.
  destruct (w !! m_Version m); [done|].
  destruct (checkGoMigration m) as [[]|e|s|] eqn:Hm; try done.
  by apply map_Forall_insert_2.
Qed.

Lemma apply_option_keeps o : Keeps config_ok (apply_option o).
Proof.
  destruct o as [st| | |l|l|l|l|l| | | |l|l| ]; cbn [apply_option].
  all: try (intros c Hc; destruct c, Hc; split; simpl in *; done).
  - intros c Hc. unfold WithStore, mbind, M_bind, gets, when_none, id.
    destruct (c_store c); [done|]. destruct st as [st|]; [|done]. simpl.
    destruct (String.eqb (Tablename st) "") eqn:Ht; [done|]. apply String.eqb_neq in Ht.
    destruct c, Hc; split; simpl in *; try done. by intros ? [= <-].
  - intros c Hc. unfold WithTableName. case_match; [done|]. destruct c, Hc; split; simpl in *; done.
  - intros c Hc. unfold WithSessionLocker, mbind, M_bind, gets, when_none, id.
    destruct c as [?????? [] [] [] ??????], Hc; simpl in *; try done;
      destruct l; split; simpl in *; done || by auto.
  - intros c Hc. unfold WithLocker, mbind, M_bind, gets, when_none, id.
    destruct c as [?????? [] [] [] ??????], Hc; simpl in *; try done;
      destruct l; split; simpl in *; done || by auto.
  - apply keeps_mfor. intros x c Hc. unfold exclude_name, mbind, M_bind, gets, id.
    case_match; [done|]. destruct c, Hc; split; simpl in *; done.
  - apply keeps_mfor. intros x c Hc. unfold exclude_version, mbind, M_bind, gets, id.
    case_match eqn:Hx; [done|]. case_match; [done|]. apply Z.ltb_ge in Hx.
    destruct c, Hc; split; simpl in *; try done. set_solver.
  - intros c Hc. unfold WithGoMigrations, zoom.
    pose proof (SetGlobalMigrations_keeps l (c_registered c) (ok_registered _ Hc)) as Hr.
    destruct (SetGlobalMigrations l (c_registered c)) as [r w'].
    destruct c, Hc; split; simpl in *; done.
  - intros c Hc. unfold WithLogger. destruct l as [l|]; [|done]. unfold mbind, M_bind, gets, when_none, id.
    destruct (c_slogger c) eqn:Hs; [done|]. destruct c, Hc; split; simpl in *; auto.
  - intros c Hc. unfold WithSlog. destruct l as [l|]; [|done]. unfold mbind, M_bind, gets, when_none, id.
    destruct (c_logger c) eqn:Hs; [done|]. destruct c, Hc; split; simpl in *; auto.
Qed.

(** C37: whatever options a provider is given, in whatever order, its
    configuration holds at most one kind of locker, has locking enabled exactly
    when it holds one, has at most one logger, and its registered migrations
    are valid and stored under their own versions. *)
Theorem apply_options_ok opts c' r :
  apply_options opts empty_config = (r, c') → config_ok c'.
Proof.
  intros Ho. pose proof (keeps_mfor config_ok apply_option opts apply_option_keeps
    empty_config empty_config_ok) as Hk.
  unfold apply_options in Ho. by rewrite Ho in Hk.
Qed.

End Options.

Definition sample_options : list (ProviderOption (D:=unit)) :=
  [OSessionLocker (Some (mkSessionLocker unit (mret tt) (mret tt))); OExcludeVersions [3; 4];
   OLogger (Some 1); OSlog (Some 2)].

Lemma apply_options_ok_witness :
  let c := (apply_options sample_options empty_config).2 in
  c_lockEnabled c = true ∧ c_slogger c = None ∧ config_ok c.
Proof.
  split; [by vm_compute|]. split; [by vm_compute|].
  exact (apply_options_ok sample_options _ _ (surjective_pairing (apply_options sample_options empty_config))).
Defined.
