(* ===== verification/Collect.v ===== *)
(** * Collecting migrations (provider_collect.go) and making a provider

    The migration files of a file system are merged with the registered Go
    migrations into the list of migrations of a provider ([collect], [merge]);
    [NewProvider] checks its arguments and options and calls them. *)

From S2P Require Import Prelude GoStrings Effects SqlParser Dialects Sql Store MemDB Migration.
From S2P Require Import Options.

(** A file system: opening a file, and [fs.Glob], which may be the file
    system's own. *)
Record FileSystem := mkFileSystem {
  fs_Open : FS;
  fs_Glob : string → result (list string)
}.

(** [noopFS]: no file exists. *)
Definition noopFS : FileSystem :=
  mkFileSystem (λ _, inr (ESentinel fs_ErrNotExist)) (λ _, inl []).

(** ** Sources *)

Record fileSources := mkFileSources { sqlSources : list Source; goSources : list Source }.

Section Collect.
Context (strict : bool) (excludePaths : gset string) (excludeVersions : gset Z).

(** One iteration of the inner loop: the sources and the versions seen. *)
Definition collect_file (st : fileSources * gmap Z string) (fullpath : string)
  : result (fileSources * gmap Z string) :=
  let '(sources, versionToBaseLookup) := st in
  let base := filepath_Base fullpath in
  if HasSuffix base "_test.go" then inl st
  else if bool_decide (base ∈ excludePaths) then inl st
  else match NumericComponent base with
  | inr err =>
      if strict then inr (EErrorf "failed to parse numeric component from %q: %w" [AStr base; AWrap err])
      else inl st
  | inl version =>
      if bool_decide (version ∈ excludeVersions) then inl st
      else match versionToBaseLookup !! version with
      | Some existing =>
          inr (EErrorf "found duplicate migration version %d:
	existing:%v
	current:%v" [AInt version; AStr existing; AStr base])
      | None =>
          let lookup := <[version := base]> versionToBaseLookup in
          if String.eqb (filepath_Ext base) ".sql" then
            inl (mkFileSources (sqlSources sources ++ [mkSource TypeSQL fullpath version])
                   (goSources sources), lookup)
          else if String.eqb (filepath_Ext base) ".go" then
            inl (mkFileSources (sqlSources sources)
                   (goSources sources ++ [mkSource TypeGo fullpath version]), lookup)
          else inr (EErrorf "invalid file extension: %q" [AStr base])
      end
  end.

Fixpoint collect_files (st : fileSources * gmap Z string) (files : list string)
  : result (fileSources * gmap Z string) :=
  match files with
  | [] => inl st
  | f :: files => let? st := collect_file st f in collect_files st files
  end.

Fixpoint collect_patterns (fsys : FileSystem) (st : fileSources * gmap Z string)
    (patterns : list string) : result (fileSources * gmap Z string) :=
  match patterns with
  | [] => inl st
  | pattern :: patterns =>
      match fs_Glob fsys pattern with
      | inr err => inr (EErrorf "failed to glob pattern %q: %w" [AStr pattern; AWrap err])
      | inl files =>
          let? st := collect_files st files in collect_patterns fsys st patterns
      end
  end.

Definition collectFilesystemSources (fsys : option FileSystem) : result fileSources :=
  match fsys with
  | None => inl (mkFileSources [] [])
  | Some fsys =>
      let? (sources, _) := collect_patterns fsys (mkFileSources [] [], ∅) ["*.sql"; "*.go"] in
      inl sources
  end.

End Collect.

(** ** Merging with the registered Go migrations *)

Definition newSQLMigration (source : Source) : Migration :=
  {| m_Type := src_Type source;
     m_Version := src_Version source;
     m_Source := src_Path source;
     m_UpFnContext := None; m_DownFnContext := None;
     m_UpFnNoTxContext := None; m_DownFnNoTxContext := None;
     m_Registered := false; m_UseTx := false;
     m_Next := -1; m_Previous := -1;
     m_UpFn := None; m_DownFn := None; m_UpFnNoTx := None; m_DownFnNoTx := None;
     m_noVersioning := false;
     m_construct := true;
     m_goUp := None; m_goDown := None;
     m_sql := mkSqlMigration false false [] [] |}.

Definition unregisteredError (unregistered : list string) : error :=
  let f := if (1 <? Z.of_nat (length unregistered)) then "files" else "file" in
  errors_New ("error: detected " +++ FormatInt (Z.of_nat (length unregistered)) +++ " unregistered Go "
    +++ f +++ ":" +++ nl
    +++ foldr (λ name acc, tab +++ name +++ nl +++ acc)
          ("hint: go functions must be registered and built into a custom binary see:" +++ nl
           +++ "https://github.com/pressly/goose/tree/master/examples/go-migrations" +++ nl)
          unregistered).

(** The loop over the Go files: the paths that are not registered, and the
    registered migrations, whose sources are filled in (they are shared with
    the registry they come from). *)
Definition match_go_sources (goSources : list Source) (registered : registry)
  : list string * registry :=
  foldl (λ '(unregistered, registered) s,
    match registered !! src_Version s with
    | None => (unregistered ++ [src_Path s], registered)
    | Some m => (unregistered, <[src_Version s := set_Source (src_Path s) m]> registered)
    end) ([], registered) goSources.

Definition version_le (m1 m2 : Migration) : Prop := m_Version m1 ≤ m_Version m2.
#[export] Instance version_le_dec : RelDecision version_le.
Proof. intros m1 m2. unfold version_le. apply _. Defined.

(** [sort.Slice] by version. *)
Definition sort_by_version (l : list Migration) : list Migration := merge_sort version_le l.

(** The loop over the registered migrations, in the order the map is ranged
    over; [lookup] holds the source of each version seen. *)
Fixpoint add_registered (migrations : list Migration) (lookup : gmap Z string)
    (entries : list (Z * Migration)) : result (list Migration) :=
  match entries with
  | [] => inl migrations
  | (version, r) :: entries =>
      match lookup !! version with
      | Some existing =>
          let fullpath := if String.eqb (m_Source r) "" then "no source path" else m_Source r in
          inr (EErrorf "found duplicate migration version %d:
	existing:%v
	current:%v" [AInt version; AStr existing; AStr fullpath])
      | None => add_registered (migrations ++ [r]) (<[version := m_Source r]> lookup) entries
      end
  end.

(** [merge] ranges over a Go map: [range] is the order it visits the entries
    in.  The second result is the map, changed through the pointers it holds. *)
Definition merge (range : registry → list (Z * Migration)) (sources : fileSources)
    (registered : registry) : result (list Migration) * registry :=
  let migrations := map newSQLMigration (sqlSources sources) in
  let lookup : gmap Z string :=
    foldl (λ l s, <[src_Version s := src_Path s]> l) ∅ (sqlSources sources) in
  if Nat.eqb (length (goSources sources)) 0 && bool_decide (registered = ∅)
  then (inl migrations, registered)
  else
    let '(unregistered, registered) := match_go_sources (goSources sources) registered in
    if (0 <? Z.of_nat (length unregistered)) then (inr (unregisteredError unregistered), registered)
    else (let? migrations := add_registered migrations lookup (range registered) in
          inl (sort_by_version migrations), registered).

(** ** Providers *)

(** What a [Provider] holds from its construction on; its mutable state is in
    the component that runs migrations. *)
Record Provider (D : Type) := mkProvider {
  p_store : Store D;
  p_fsys : FileSystem;
  p_cfg : config D;
  p_migrations : list Migration
}.
Arguments mkProvider {D} _ _ _ _.
Arguments p_store {D} _.
Arguments p_fsys {D} _.
Arguments p_cfg {D} _.
Arguments p_migrations {D} _.

Section NewProvider.
Context {D : Type} `{Driver D} (range : registry → list (Z * Migration)).

(** The loop over the global registry. *)
Fixpoint add_global (versionToGoMigration : registry) (entries : list (Z * Migration))
  : result registry :=
  match entries with
  | [] => inl versionToGoMigration
  | (version, m) :: entries =>
      match versionToGoMigration !! version with
      | Some _ => inr (EErrorf "global go migration conflicts with provider-registered go migration with version %d" [AInt version])
      | None => add_global (<[version := m]> versionToGoMigration) entries
      end
  end.

Definition newProvider (store : Store D) (fsys : FileSystem) (cfg : config D) (global : registry)
  : result (Provider D) :=
  let? filesystemSources :=
    collectFilesystemSources false (c_excludePaths cfg) (c_excludeVersions cfg) (Some fsys) in
  let? versionToGoMigration :=
    (if c_disableGlobalRegistry cfg then inl (c_registered cfg)
     else add_global (c_registered cfg) (range global)) in
  let? migrations := (merge range filesystemSources versionToGoMigration).1 in
  if Nat.eqb (length migrations) 0 then inr (ESentinel ErrNoMigrations)
  else inl (mkProvider store fsys cfg migrations).

(** The [db] argument is not nil here; the default logger is number 0. *)
Definition NewProvider (dialect : Dialect) (fsys : option FileSystem)
    (opts : list ProviderOption) (global : registry) : outcome (Provider D) :=
  let fsys := match fsys with Some f => f | None => noopFS end in
  match apply_options opts empty_config with
  | (Err err, _) => Err err
  | (Panic s, _) => Panic s
  | (Block, _) => Block
  | (Ok _, cfg) =>
      let custom := bool_decide (dialect = DialectCustom) in
      if custom && is_nil (c_store cfg) then
        Err (errors_New "custom store must be supplied when using a custom dialect, make sure to pass WithStore option")
      else if negb custom && negb (is_nil (c_store cfg)) then
        Err (errors_New "custom store must not be specified when using one of the default dialects, use DialectCustom instead")
      else if negb (String.eqb (c_tableName cfg) "") && negb (is_nil (c_store cfg)) then
        Err (errors_New "WithTableName cannot be used with WithStore; set the table name directly on your custom store")
      else
        let cfg := if is_nil (c_slogger cfg) && is_nil (c_logger cfg) then set_logger 0 cfg else cfg in
        let table := if String.eqb (c_tableName cfg) "" then DefaultTablename else c_tableName cfg in
        let store :=
          if negb custom then NewStore dialect table
          else match c_store cfg with Some st => inl st | None => inr (errors_New nil_deref) end in
        match store with
        | inr err => Err err
        | inl store =>
            if String.eqb (Tablename store) ""
            then Err (errors_New "invalid store implementation: table name must not be empty")
            else match newProvider store fsys cfg global with inl p => Ok p | inr err => Err err end
        end
  end.

End NewProvider.

(** ** What is collected *)

(** The source a file stands for, if it is a migration that is not excluded. *)
Definition source_of (excludePaths : gset string) (excludeVersions : gset Z) (fullpath : string)
  : option Source :=
  let base := filepath_Base fullpath in
  if HasSuffix base "_test.go" || bool_decide (base ∈ excludePaths) then None
  else match NumericComponent base with
  | inr _ => None
  | inl version =>
      if bool_decide (version ∈ excludeVersions) then None
      else Some (mkSource (if String.eqb (filepath_Ext base) ".sql" then TypeSQL else TypeGo)
                   fullpath version)
  end.

Definition add_sources (sources : fileSources) (found : list Source) : fileSources :=
  mkFileSources (sqlSources sources ++ filter (λ s, src_Type s = TypeSQL) found)
    (goSources sources ++ filter (λ s, src_Type s ≠ TypeSQL) found).

Lemma filepath_Base_lacks path : lacks "/" (after_last_slash path) = true.
Proof.
  induction path as [|c path IH]; [done|]. cbn [after_last_slash]. rewrite Contains_byte.
  destruct (lacks "/" path) eqn:Hl; cbn [negb]; [|done].
  destruct (Ascii.eqb c "/") eqn:Hc; [done|]. cbn [lacks]. by rewrite Hc, Hl.
Qed.

Section CollectSpec.
Context (excludePaths : gset string) (excludeVersions : gset Z).
Abbreviation source_of := (source_of excludePaths excludeVersions).
Abbreviation collect_file := (collect_file false excludePaths excludeVersions).
Abbreviation collect_files := (collect_files false excludePaths excludeVersions).

Lemma base_base path n : NumericComponent (filepath_Base path) = inl n →
  filepath_Base (filepath_Base path) = filepath_Base path.
Proof.
  intros Hn. unfold filepath_Base at 2 3. case_match eqn:Hp; [done|].
  case_match eqn:Hs; [done|]. apply filepath_Base_id; [apply filepath_Base_lacks|].
  by apply String.eqb_neq.
Qed.

Lemma collect_file_eq sources lookup f :
  match source_of f with
  | None => collect_file (sources, lookup) f = inl (sources, lookup)
  | Some s =>
      if lookup !! src_Version s is Some _ then ∃ e, collect_file (sources, lookup) f = inr e
      else ∃ base, collect_file (sources, lookup) f
             = inl (add_sources sources [s], <[src_Version s := base]> lookup)
  end.
Proof.
  unfold Collect.source_of, Collect.collect_file.
  destruct (HasSuffix _ _); [done|]. cbn [orb]. case_bool_decide; [done|].
  destruct (NumericComponent _) as [v|] eqn:Hn; [|done].
  case_bool_decide; [done|]. cbn [src_Version].
  destruct (lookup !! v) as [existing|]; [by eexists|]. exists (filepath_Base f).
  pose proof (base_base _ _ Hn) as Hb.
  apply NumericComponent_bounds in Hn as [_ Hext]. rewrite Hb in Hext.
  unfold add_sources. rewrite !filter_cons, !filter_nil.
  destruct Hext as [-> | ->]; cbn; by rewrite !app_nil_r.
Qed.

Lemma collect_files_found files sources lookup :
  NoDup (src_Version <$> omap source_of files) →
  (∀ v, v ∈ src_Version <$> omap source_of files → lookup !! v = None) →
  ∃ lookup', collect_files (sources, lookup) files
             = inl (add_sources sources (omap source_of files), lookup') ∧
    ∀ v, lookup' !! v = None ↔ lookup !! v = None ∧ v ∉ src_Version <$> omap source_of files.
Proof.
  revert sources lookup. induction files as [|f files IH]; intros sources lookup Hnd Hfresh; simpl.
  { exists lookup. unfold add_sources. rewrite !filter_nil, !app_nil_r. destruct sources.
    split; [done|]. set_solver. }
  pose proof (collect_file_eq sources lookup f) as Hf. simpl in Hnd, Hfresh.
  destruct (source_of f) as [s|]; simpl in *.
  2: { rewrite Hf. simpl. by apply IH. }
  rewrite (Hfresh (src_Version s)) in Hf by by left. destruct Hf as [base ->]. simpl.
  apply NoDup_cons in Hnd as [Hs Hnd].
  destruct (IH (add_sources sources [s]) (<[src_Version s := base]> lookup) Hnd) as (lk & -> & Hlk).
  { intros v Hv. rewrite lookup_insert_ne by (by intros Heq; subst v). apply Hfresh. by right. }
  exists lk. split.
  - unfold add_sources. simpl. rewrite <- !app_assoc, <- !filter_app. done.
  - intros v. rewrite Hlk, lookup_insert_None, not_elem_of_cons. naive_solver.
Qed.

Lemma collect_files_inv files sources lookup st :
  collect_files (sources, lookup) files = inl st →
  NoDup (src_Version <$> omap source_of files) ∧
  (∀ v, v ∈ src_Version <$> omap source_of files → lookup !! v = None).
Proof.
  revert sources lookup. induction files as [|f files IH]; intros sources lookup; simpl.
  { intros _. split; [constructor|]. by intros v ?%elem_of_nil. }
  pose proof (collect_file_eq sources lookup f) as Hf.
  destruct (source_of f) as [s|]; simpl in *.
  2: { rewrite Hf. simpl. apply IH. }
  destruct (lookup !! src_Version s) eqn:Hs; [by destruct Hf as [? ->]|].
  destruct Hf as [base ->]. simpl. intros [Hnd Hfresh]%IH. split.
  - constructor; [|done]. intros Hin%Hfresh. by rewrite lookup_insert_eq in Hin.
  - intros v [->|Hv]%elem_of_cons; [done|].
    apply Hfresh in Hv. by apply lookup_insert_None in Hv as [? _].
Qed.

Lemma collectFilesystemSources_found fsys sqls gos :
  fs_Glob fsys "*.sql" = inl sqls → fs_Glob fsys "*.go" = inl gos →
  let found := omap source_of (sqls ++ gos) in
  match collectFilesystemSources false excludePaths excludeVersions (Some fsys) with
  | inl sources => NoDup (src_Version <$> found) ∧
      sqlSources sources = filter (λ s, src_Type s = TypeSQL) found ∧
      goSources sources = filter (λ s, src_Type s ≠ TypeSQL) found
  | inr _ => ¬ NoDup (src_Version <$> found)
  end.
Proof.
  intros Hs Hg found. unfold collectFilesystemSources, collect_patterns. rewrite Hs, Hg.
  assert (∀ st : fileSources * gmap Z string, (let? st := collect_files st sqls in let? st := collect_files st gos in inl st)
    = collect_files st (sqls ++ gos)) as Happ.
  { clear. induction sqls as [|f fs IH]; intros st; simpl.
    - by destruct (collect_files st gos).
    - destruct (collect_file st f); simpl; [apply IH|done]. }
  specialize (Happ (mkFileSources [] [], ∅)). unfold rbind in *.
  destruct (collect_files (mkFileSources [] [], ∅) (sqls ++ gos)) as [st|e] eqn:Hall.
  - rewrite Happ. destruct st as [sources lk].
    destruct (collect_files_inv _ _ _ _ Hall) as [Hnd _]. split; [done|].
    destruct (collect_files_found (sqls ++ gos) (mkFileSources [] []) ∅) as (lk' & Hf & _); [done|done|].
    rewrite Hall in Hf. by simplify_eq.
  - rewrite Happ. intros Hnd.
    destruct (collect_files_found (sqls ++ gos) (mkFileSources [] []) ∅) as (lk' & Hf & _); [done|done|].
    by rewrite Hall in Hf.
Qed.

(** Collecting the migration files of a directory returns one source per
    file that is named after a version, is not a test and is not excluded, in
    the order of the directory and with the SQL and the Go files apart; it
    fails exactly when two such files have the same version. *)
Theorem collectFilesystemSources_spec fsys sqls gos :
  fs_Glob fsys "*.sql" = inl sqls → fs_Glob fsys "*.go" = inl gos →
  let found := omap source_of (sqls ++ gos) in
  match collectFilesystemSources false excludePaths excludeVersions (Some fsys) with
  | inl sources => NoDup (src_Version <$> found) ∧
      sqlSources sources = filter (λ s, src_Type s = TypeSQL) found ∧
      goSources sources = filter (λ s, src_Type s ≠ TypeSQL) found
  | inr _ => ¬ NoDup (src_Version <$> found)
  end.
Proof. apply collectFilesystemSources_found. Qed.

End CollectSpec.

(** ** What merging returns *)

(** A map is ranged over in some order. *)
Definition range_ok (range : registry → list (Z * Migration)) : Prop :=
  ∀ m, range m ≡ₚ map_to_list m.

Lemma set_Source_Version s m : m_Version (set_Source s m) = m_Version m.
Proof. by destruct m. Qed.

(** What filling in the sources does to a registered migration. *)
Definition sourced (gos : list Source) (v : Z) (m m' : Migration) : Prop :=
  m' = m ∨ ∃ s, s ∈ gos ∧ src_Version s = v ∧ m' = set_Source (src_Path s) m.

Lemma set_Source_twice s s' m : set_Source s (set_Source s' m) = set_Source s m.
Proof. by destruct m. Qed.

Lemma sourced_cons s gos v m m' m'' :
  m' = m ∨ (v = src_Version s ∧ m' = set_Source (src_Path s) m) →
  sourced gos v m' m'' → sourced (s :: gos) v m m''.
Proof.
  unfold sourced. intros [->|[-> ->]] [->|(s' & Hin & Hv & ->)].
  - by left.
  - right. exists s'. split_and!; [by right|done..].
  - right. exists s. split_and!; [by left|done..].
  - right. exists s'. rewrite set_Source_twice. split_and!; [by right|done..].
Qed.

Lemma match_go_sources_spec gos (u : list string) (reg : registry) (u' : list string) (reg' : registry) :
  foldl (λ '(unregistered, registered) s,
    match registered !! src_Version s with
    | None => (unregistered ++ [src_Path s], registered)
    | Some m => (unregistered, <[src_Version s := set_Source (src_Path s) m]> registered)
    end) (u, reg) gos = (u', reg') →
  (u' = [] ↔ u = [] ∧ ∀ s, s ∈ gos → is_Some (reg !! src_Version s)) ∧
  (∀ v, match reg !! v, reg' !! v with
        | Some m, Some m' => sourced gos v m m'
        | None, None => True
        | _, _ => False
        end).
Proof.
  revert u reg. induction gos as [|s gos IH]; intros u reg; simpl.
  { intros [= <- <-]. split; [|intros v; destruct (reg !! v); [by left|done]].
    split; [|by intros []]. intros ->. split; [done|]. by intros s ?%elem_of_nil. }
  destruct (reg !! src_Version s) as [m|] eqn:Hs.
  - intros [Hu Hreg]%IH. split.
    + rewrite Hu. split; intros [-> Hall]; split; try done; intros s' Hs'.
      * apply elem_of_cons in Hs' as [->|Hs']; [by eexists|]. apply Hall in Hs'.
        destruct (decide (src_Version s = src_Version s')) as [<-|Hne]; [by eexists|].
        by rewrite lookup_insert_ne in Hs'.
      * destruct (decide (src_Version s = src_Version s')) as [<-|Hne].
        -- rewrite lookup_insert_eq. by eexists.
        -- rewrite lookup_insert_ne by done. apply Hall. by right.
    + intros v. specialize (Hreg v).
      destruct (decide (src_Version s = v)) as [<-|Hne].
      * rewrite lookup_insert_eq in Hreg. rewrite Hs. destruct (reg' !! _); [|done].
        eapply sourced_cons; [|done]. by right.
      * rewrite lookup_insert_ne in Hreg by done. destruct (reg !! v), (reg' !! v); try done.
        eapply sourced_cons; [|done]. by left.
  - intros [Hu Hreg]%IH. split.
    + rewrite Hu. split; [by intros [[_ ?]%app_eq_nil _]|].
      intros [_ Hall]. specialize (Hall s ltac:(by left)). rewrite Hs in Hall. by destruct Hall.
    + intros v. specialize (Hreg v). destruct (reg !! v), (reg' !! v); try done.
      eapply sourced_cons; [|done]. by left.
Qed.

Lemma add_registered_spec entries ms lookup :
  NoDup entries.*1 →
  match add_registered ms lookup entries with
  | inl ms' => ms' = ms ++ entries.*2 ∧ ∀ v, v ∈ entries.*1 → lookup !! v = None
  | inr _ => ∃ v, v ∈ entries.*1 ∧ is_Some (lookup !! v)
  end.
Proof.
  revert ms lookup. induction entries as [|[v m] entries IH]; intros ms lookup; simpl.
  { intros _. split; [by rewrite app_nil_r|]. by intros v ?%elem_of_nil. }
  intros [Hv Hnd]%NoDup_cons.
  destruct (lookup !! v) as [existing|] eqn:Hl.
  { exists v. split; [by left|by eexists]. }
  specialize (IH (ms ++ [m]) (<[v := m_Source m]> lookup) Hnd).
  destruct (add_registered _ _ _) as [ms'|e].
  - destruct IH as [-> Hfresh]. split; [by rewrite <- app_assoc|].
    intros v' [->|Hv']%elem_of_cons; [done|].
    by apply Hfresh, lookup_insert_None in Hv' as [? _].
  - destruct IH as (v' & Hv' & Hl'). exists v'. split; [by right|].
    rewrite lookup_insert_ne in Hl' by (intros Heq; by subst). done.
Qed.

Lemma sql_lookup_None (sqls : list Source) lookup v :
  foldl (λ (l : gmap Z string) s, <[src_Version s := src_Path s]> l) lookup sqls !! v = None ↔
  lookup !! v = None ∧ v ∉ src_Version <$> sqls.
Proof.
  revert lookup. induction sqls as [|s sqls IH]; intros lookup; simpl; [set_solver|].
  rewrite IH, lookup_insert_None, not_elem_of_cons. naive_solver.
Qed.

Lemma sort_by_version_perm l : sort_by_version l ≡ₚ l.
Proof. apply merge_sort_Permutation. Qed.

#[local] Instance version_le_total : Total version_le.
Proof. intros m1 m2. unfold version_le. lia. Qed.
#[local] Instance version_le_trans : Transitive version_le.
Proof. intros m1 m2 m3. unfold version_le. lia. Qed.

Lemma sort_by_version_sorted l :
  NoDup (m_Version <$> l) → StronglySorted (<) (m_Version <$> sort_by_version l).
Proof.
  intros Hnd. apply sorted_strict; [by rewrite sort_by_version_perm|].
  apply StronglySorted_fmap, (StronglySorted_merge_sort version_le).
Qed.

(** Sorted lists of the same migrations with different versions are equal. *)
Lemma sort_by_version_unique l1 l2 :
  l1 ≡ₚ l2 → NoDup (m_Version <$> l1) → sort_by_version l1 = sort_by_version l2.
Proof.
  intros Hp Hnd. apply (sorted_by_key m_Version version_le).
  - unfold version_le. lia.
  - by rewrite sort_by_version_perm.
  - apply (StronglySorted_merge_sort _).
  - apply (StronglySorted_merge_sort _).
  - by rewrite !sort_by_version_perm.
Qed.

Definition versions (l : list Migration) : list Z := m_Version <$> l.

Lemma versions_sql (l : list Source) : versions (map newSQLMigration l) = src_Version <$> l.
Proof. unfold versions. induction l as [|s l IH]; [done|]. cbn. f_equal. exact IH. Qed.

Section MergeSpec.
Context (range : registry → list (Z * Migration)) (Hrange : range_ok range).

Lemma range_keys reg : (range reg).*1 ≡ₚ (map_to_list reg).*1.
Proof. by rewrite (Hrange reg). Qed.

Lemma range_NoDup reg : NoDup (range reg).*1.
Proof. rewrite range_keys. apply NoDup_fst_map_to_list. Qed.

Lemma elem_of_range reg v : v ∈ (range reg).*1 ↔ is_Some (reg !! v).
Proof.
  rewrite range_keys, list_elem_of_fmap. split.
  - intros ([v' m] & -> & Hin%elem_of_map_to_list). by eexists.
  - intros [m Hm]. exists (v, m). by rewrite elem_of_map_to_list.
Qed.

Lemma range_versions reg : registry_ok reg → versions (range reg).*2 = (range reg).*1.
Proof.
  intros Hok. unfold versions. rewrite <- !list_fmap_compose. apply list_fmap_ext.
  intros i [v m] Hin. apply list_elem_of_lookup_2 in Hin. rewrite (Hrange reg) in Hin.
  apply elem_of_map_to_list in Hin. by apply Hok in Hin.
Qed.

Lemma sourced_registry_ok gos (reg reg' : registry) :
  (∀ v, match reg !! v, reg' !! v with
        | Some m, Some m' => sourced gos v m m' | None, None => True | _, _ => False end) →
  registry_ok reg → registry_ok reg'.
Proof.
  intros Hs Hok v m' Hm'. specialize (Hs v). rewrite Hm' in Hs.
  destruct (reg !! v) as [m|] eqn:Hm; [|done]. apply Hok in Hm.
  destruct Hs as [->|(s & _ & _ & ->)]; [done|]. by rewrite set_Source_Version.
Qed.

(** The result of a merge, before it is sorted. *)
Definition unsorted (sources : fileSources) (registered : registry) : list Migration :=
  map newSQLMigration (sqlSources sources)
  ++ (range (match_go_sources (goSources sources) registered).2).*2.

Lemma merge_cases sources registered :
  registry_ok registered →
  match (merge range sources registered).1 with
  | inl ms =>
      (∀ s, s ∈ goSources sources → is_Some (registered !! src_Version s)) ∧
      (∀ s, s ∈ sqlSources sources → registered !! src_Version s = None) ∧
      (goSources sources = [] ∧ registered = ∅ ∧ ms = map newSQLMigration (sqlSources sources) ∨
       (goSources sources ≠ [] ∨ registered ≠ ∅) ∧ ms = sort_by_version (unsorted sources registered))
  | inr _ =>
      (∃ s, s ∈ goSources sources ∧ registered !! src_Version s = None) ∨
      (∃ s, s ∈ sqlSources sources ∧ is_Some (registered !! src_Version s))
  end.
Proof.
  intros Hok. unfold merge, unsorted.
  destruct (Nat.eqb _ 0 && _) eqn:Hempty; simpl.
  { apply andb_prop in Hempty as [H1%Nat.eqb_eq H2%bool_decide_eq_true_1].
    apply nil_length_inv in H1. rewrite H1, H2. split_and!; [by intros s ?%elem_of_nil|done|by left]. }
  apply andb_false_iff in Hempty.
  destruct (match_go_sources _ _) as [u reg'] eqn:Hgo.
  destruct (match_go_sources_spec _ _ _ _ _ Hgo) as [Hu Hreg].
  destruct (Z.ltb_spec 0 (Z.of_nat (length u))) as [Hlen|Hlen]; simpl.
  { left. destruct (decide (Exists (λ s, registered !! src_Version s = None) (goSources sources)))
      as [He|He]; [by apply Exists_exists in He as (s & ? & ?); exists s|].
    assert (u = []) as ->; [|done]. apply Hu. split; [done|]. intros s Hs.
    destruct (registered !! src_Version s) eqn:Hv; [by eexists|].
    destruct He. apply Exists_exists. eauto. }
  assert (u = []) as Hnil by (destruct u; [done|simpl in Hlen; lia]).
  apply Hu in Hnil as [_ Hall].
  assert (∀ v, is_Some (reg' !! v) ↔ is_Some (registered !! v)) as Hdom.
  { intros v. specialize (Hreg v). destruct (registered !! v), (reg' !! v); try done. }
  pose proof (add_registered_spec (range reg') (map newSQLMigration (sqlSources sources))
    (foldl (λ l s, <[src_Version s := src_Path s]> l) ∅ (sqlSources sources)) (range_NoDup reg')) as Hadd.
  destruct (add_registered _ _ _) as [ms|e]; simpl.
  - destruct Hadd as [-> Hfresh]. split_and!; [done| |].
    + intros s Hs. destruct (registered !! src_Version s) eqn:Hv; [|done].
      assert (src_Version s ∈ (range reg').*1) as Hin by (apply elem_of_range, Hdom; by eexists).
      apply Hfresh, sql_lookup_None in Hin as [_ []]. by apply list_elem_of_fmap_2.
    + right. split; [|done]. destruct Hempty as [H1%Nat.eqb_neq|H2%bool_decide_eq_false_1]; [left|by right].
      by destruct (goSources sources).
  - destruct Hadd as (v & Hv%elem_of_range%Hdom & Hl). right.
    destruct (decide (v ∈ src_Version <$> sqlSources sources)) as [(s & -> & Hs)%list_elem_of_fmap|Hn];
      [by exists s|]. destruct Hl as [x Hl].
    assert (foldl (λ (l : gmap Z string) s, <[src_Version s := src_Path s]> l) ∅ (sqlSources sources) !! v = None)
      as Hnone by by apply sql_lookup_None. congruence.
Qed.

Lemma match_go_sources_dom gos reg v :
  is_Some ((match_go_sources gos reg).2 !! v) ↔ is_Some (reg !! v).
Proof.
  destruct (match_go_sources gos reg) as [u reg'] eqn:Hgo.
  destruct (match_go_sources_spec _ _ _ _ _ Hgo) as [_ Hreg]. specialize (Hreg v). simpl.
  by destruct (reg !! v), (reg' !! v).
Qed.

Lemma match_go_sources_ok gos reg : registry_ok reg → registry_ok (match_go_sources gos reg).2.
Proof.
  destruct (match_go_sources gos reg) as [u reg'] eqn:Hgo.
  destruct (match_go_sources_spec _ _ _ _ _ Hgo) as [_ Hreg]. by eapply sourced_registry_ok.
Qed.

Lemma unsorted_versions sources reg :
  registry_ok reg →
  versions (unsorted sources reg)
  = (src_Version <$> sqlSources sources) ++ (range (match_go_sources (goSources sources) reg).2).*1.
Proof.
  intros Hok. unfold unsorted, versions at 1. rewrite fmap_app. fold versions.
  f_equal; [apply versions_sql|]. by apply range_versions, match_go_sources_ok.
Qed.

Lemma unsorted_NoDup sources reg :
  registry_ok reg → NoDup (src_Version <$> sqlSources sources) →
  (∀ s, s ∈ sqlSources sources → reg !! src_Version s = None) →
  NoDup (versions (unsorted sources reg)).
Proof.
  intros Hok Hnd Hdis. rewrite unsorted_versions by done. apply NoDup_app. split_and!; [done| |apply range_NoDup].
  intros v (s & -> & Hs)%list_elem_of_fmap Hin%elem_of_range%match_go_sources_dom.
  rewrite Hdis in Hin by done. by destruct Hin.
Qed.

(** Merging succeeds exactly when every Go file is registered and no SQL
    file has the version of a registered migration; the result then has one
    migration per version, of the SQL files and of the registry, ascending by
    version whenever there is a Go file or a registered migration. *)
Theorem merge_spec sources registered :
  registry_ok registered → NoDup (src_Version <$> sqlSources sources) →
  match (merge range sources registered).1 with
  | inl ms =>
      (∀ s, s ∈ goSources sources → is_Some (registered !! src_Version s)) ∧
      (∀ s, s ∈ sqlSources sources → registered !! src_Version s = None) ∧
      NoDup (versions ms) ∧
      (∀ v, v ∈ versions ms ↔ v ∈ src_Version <$> sqlSources sources ∨ is_Some (registered !! v)) ∧
      (goSources sources ≠ [] ∨ registered ≠ ∅ → StronglySorted (<) (versions ms))
  | inr _ =>
      (∃ s, s ∈ goSources sources ∧ registered !! src_Version s = None) ∨
      (∃ s, s ∈ sqlSources sources ∧ is_Some (registered !! src_Version s))
  end.
Proof.
  intros Hok Hnd. pose proof (merge_cases sources registered Hok) as Hm.
  destruct (merge range sources registered).1 as [ms|]; [|done].
  destruct Hm as (Hgo & Hsql & [(Hg & Hr & ->)|[Hne ->]]).
  - split_and!; [done..|by rewrite versions_sql| |].
    + intros v. rewrite versions_sql, Hr, lookup_empty. split; [by left|]. by intros [?|[? ?]].
    + by intros [?|?].
  - pose proof (unsorted_NoDup sources registered Hok Hnd Hsql) as Hnd'.
    assert (versions (sort_by_version (unsorted sources registered))
      ≡ₚ versions (unsorted sources registered)) as Hp by (unfold versions; by rewrite sort_by_version_perm).
    split_and!; [done..|by rewrite Hp| |intros _; by apply sort_by_version_sorted].
    intros v. rewrite Hp, unsorted_versions, elem_of_app, elem_of_range, match_go_sources_dom by done.
    done.
Qed.

End MergeSpec.

(** The order in which Go ranges over the map of registered migrations
    does not matter: a merge that succeeds in one order succeeds with the same
    list in every order. *)
Theorem merge_range_irrelevant range1 range2 sources registered ms :
  range_ok range1 → range_ok range2 → registry_ok registered →
  NoDup (src_Version <$> sqlSources sources) →
  (merge range1 sources registered).1 = inl ms → (merge range2 sources registered).1 = inl ms.
Proof.
  intros H1 H2 Hok Hnd Hm. pose proof (merge_cases range1 H1 sources registered Hok) as Hc1.
  pose proof (merge_cases range2 H2 sources registered Hok) as Hc2. rewrite Hm in Hc1.
  destruct Hc1 as (Hgo & Hsql & Hms).
  destruct (merge range2 sources registered).1 as [ms'|e].
  - f_equal. destruct Hc2 as (_ & _ & Hms').
    destruct Hms as [(Hg & Hr & ->)|[Hne ->]], Hms' as [(Hg' & Hr' & ->)|[Hne' ->]]; try done;
      try (by destruct Hne); try (by destruct Hne').
    apply sort_by_version_unique; [|by apply unsorted_NoDup].
    unfold unsorted. by rewrite (H1 _), (H2 _).
  - destruct Hc2 as [(s & Hs & Hn)|(s & Hs & Hn)].
    + apply Hgo in Hs. rewrite Hn in Hs. by destruct Hs.
    + rewrite Hsql in Hn by done. by destruct Hn.
Qed.

(** ** Providers are well formed *)

Record provider_ok {D} (p : Provider D) : Prop := {
  ok_migrations : p_migrations p ≠ [];
  ok_unique : NoDup (versions (p_migrations p));
  ok_config : config_ok (p_cfg p);
  ok_table : Tablename (p_store p) ≠ ""
}.

Lemma collect_NoDup ep ev fsys sources :
  collectFilesystemSources false ep ev (Some fsys) = inl sources →
  NoDup (src_Version <$> sqlSources sources).
Proof.
  intros Hc. destruct (fs_Glob fsys "*.sql") as [sqls|e] eqn:Hs.
  2: { unfold collectFilesystemSources, collect_patterns in Hc. by rewrite Hs in Hc. }
  destruct (fs_Glob fsys "*.go") as [gos|e] eqn:Hg.
  2: { unfold collectFilesystemSources, collect_patterns, rbind in Hc. rewrite Hs, Hg in Hc.
       by destruct (collect_files _ _ _ _ sqls). }
  pose proof (collectFilesystemSources_found ep ev fsys sqls gos Hs Hg) as Hf.
  rewrite Hc in Hf. destruct Hf as (Hnd & -> & _). eapply sublist_NoDup; [done|].
  apply fmap_sublist, sublist_filter.
Qed.

Section NewProviderSpec.
Context {D : Type} `{Driver D} (range : registry → list (Z * Migration)) (Hrange : range_ok range).

Lemma add_global_ok reg entries reg' :
  registry_ok reg → Forall (λ e, m_Version e.2 = e.1) entries →
  add_global reg entries = inl reg' → registry_ok reg'.
Proof.
  revert reg. induction entries as [|[v m] entries IH]; intros reg Hok; simpl; [by intros _ [= <-]|].
  intros [Hv Hf]%Forall_cons. destruct (reg !! v); [done|]. apply IH; [|done].
  by apply map_Forall_insert_2.
Qed.

Lemma newProvider_ok (store : Store D) fsys cfg global p :
  config_ok cfg → registry_ok global → Tablename store ≠ "" →
  newProvider range store fsys cfg global = inl p → provider_ok p.
Proof.
  intros Hcfg Hglobal Htable. unfold newProvider, rbind.
  destruct (collectFilesystemSources _ _ _ _) as [sources|] eqn:Hc; [|done].
  destruct (if c_disableGlobalRegistry cfg then _ else _) as [reg|] eqn:Hr; [|done].
  assert (registry_ok reg) as Hreg.
  { assert (registry_ok (c_registered cfg)) as Hcr.
    { intros v m Hm. by apply (ok_registered _ Hcfg) in Hm as [? _]. }
    destruct (c_disableGlobalRegistry cfg); [by simplify_eq|].
    eapply add_global_ok; [done| |done]. apply Forall_forall. intros [v m] Hin.
    rewrite (Hrange global) in Hin. apply elem_of_map_to_list in Hin. by apply Hglobal in Hin. }
  pose proof (merge_cases range Hrange sources reg Hreg) as Hm.
  pose proof (collect_NoDup _ _ _ _ Hc) as Hnd.
  destruct (merge range sources reg).1 as [ms|]; [|done].
  destruct (Nat.eqb _ _) eqn:Hlen; [done|]. intros [= <-]. split; simpl; try done.
  - apply Nat.eqb_neq in Hlen. by destruct ms.
  - destruct Hm as (Hgo & Hsql & [(_ & _ & ->)|[_ ->]]); [by rewrite versions_sql|].
    unfold versions. rewrite sort_by_version_perm. by apply unsorted_NoDup.
Qed.

Lemma NewStore_table dialect table (st : Store D) :
  NewStore dialect table = inl st → Tablename st ≠ "".
Proof.
  unfold NewStore, NewStoreFromQuerier. intros Hs. case_bool_decide; [done|].
  destruct (querier_lookup dialect); [|done].
  destruct (String.eqb table "") eqn:Ht; simplify_eq/=. by apply String.eqb_neq.
Qed.

(** A provider that [NewProvider] returns has at least one migration, no
    two with the same version, a consistent configuration and a store with a
    table name, whatever the dialect, the file system, the options and the
    global registry. *)
Theorem NewProvider_ok dialect fsys opts global p :
  registry_ok global → NewProvider range dialect fsys opts global = Ok p → provider_ok p.
Proof.
  intros Hglobal. unfold NewProvider.
  pose proof (keeps_mfor config_ok apply_option opts apply_option_keeps empty_config empty_config_ok) as Hk.
  fold (apply_options opts) in Hk.
  destruct (apply_options opts empty_config) as [[] cfg]; try done. simpl in Hk.
  cbv zeta. set (cfg' := if is_nil (c_slogger cfg) && is_nil (c_logger cfg) then set_logger 0 cfg else cfg).
  assert (config_ok cfg') as Hcfg'.
  { unfold cfg'. destruct (c_slogger cfg) eqn:Hsl, (c_logger cfg) eqn:Hl; try exact Hk.
    destruct cfg, Hk; split; simpl in *; auto. }
  clearbody cfg'. cbv zeta. do 3 (case_match; [done|]).
  destruct (if negb _ then _ else _) as [st|]; [|done].
  destruct (String.eqb (Tablename st) "") eqn:Ht; [done|]. apply String.eqb_neq in Ht.
  destruct (newProvider range st _ cfg' global) as [p'|] eqn:Hp; [|done].
  intros [= <-]. by eapply newProvider_ok.
Qed.

(** With SQL files only, the migrations of a provider keep the order of
    the directory: [10_b.sql] sorts before [9_a.sql], and version 9 is the
    last migration, although the provider's migrations are said to be in
    ascending order. *)
Theorem sql_only_directory_order (fsys : FileSystem) :
  fs_Glob fsys "*.sql" = inl ["10_b.sql"; "9_a.sql"] → fs_Glob fsys "*.go" = inl [] →
  ∃ p, NewProvider range DialectPostgres (Some fsys) [] ∅ = Ok p ∧
    versions (p_migrations p) = [10; 9].
Proof.
  intros Hs Hg. unfold NewProvider, newProvider, collectFilesystemSources, collect_patterns.
  cbn -[collect_files add_global merge]. rewrite Hs. cbn -[add_global merge]. rewrite Hg.
  cbn -[add_global merge].
  assert (range ∅ = []) as ->.
  { apply Permutation_nil_r. by rewrite (Hrange ∅), map_to_list_empty. }
  cbn. by eexists.
Qed.

End NewProviderSpec.

(** ** Instances *)

Lemma map_to_list_range_ok : range_ok map_to_list.
Proof. by intros m. Qed.

Definition sample_dir (sqls gos : list string) : FileSystem :=
  mkFileSystem sample_fs (λ pattern, inl (if String.eqb pattern "*.sql" then sqls else gos)).

Definition sample_sqls : list string := ["00001_a.sql"; "00003_c.sql"; "notes.sql"].
Definition sample_gos : list string := ["00002_b.go"; "00002_b_test.go"].
Definition sample_sources : fileSources :=
  mkFileSources [mkSource TypeSQL "00001_a.sql" 1; mkSource TypeSQL "00003_c.sql" 3]
    [mkSource TypeGo "00002_b.go" 2].
Definition sample_registry : registry := {[ 2 := NewGoMigration 2 None None ]}.

Lemma collectFilesystemSources_spec_witness :
  collectFilesystemSources false ∅ ∅ (Some (sample_dir sample_sqls sample_gos)) = inl sample_sources ∧
  goSources sample_sources
  = filter (λ s, src_Type s ≠ TypeSQL) (omap (source_of ∅ ∅) (sample_sqls ++ sample_gos)).
Proof.
  split; [by vm_compute|].
  pose proof (collectFilesystemSources_spec ∅ ∅ (sample_dir sample_sqls sample_gos) sample_sqls sample_gos
    eq_refl eq_refl) as Hspec.
  replace (collectFilesystemSources false ∅ ∅ (Some (sample_dir sample_sqls sample_gos)))
    with (inl sample_sources : result fileSources) in Hspec by by vm_compute.
  exact (proj2 (proj2 Hspec)).
Defined.

Lemma sample_registry_ok : registry_ok sample_registry.
Proof. by apply map_Forall_singleton. Qed.

Lemma sample_sources_NoDup : NoDup (src_Version <$> sqlSources sample_sources).
Proof. apply (bool_decide_unpack _). by vm_compute. Qed.

Definition sample_merged : list Migration :=
  [newSQLMigration (mkSource TypeSQL "00001_a.sql" 1);
   set_Source "00002_b.go" (NewGoMigration 2 None None);
   newSQLMigration (mkSource TypeSQL "00003_c.sql" 3)].

Lemma merge_spec_witness :
  (merge map_to_list sample_sources sample_registry).1 = inl sample_merged ∧
  StronglySorted (<) (versions sample_merged).
Proof.
  assert ((merge map_to_list sample_sources sample_registry).1 = inl sample_merged) as Hm by by vm_compute.
  split; [done|].
  pose proof (merge_spec map_to_list map_to_list_range_ok sample_sources sample_registry
    sample_registry_ok sample_sources_NoDup) as Hspec.
  rewrite Hm in Hspec. apply Hspec. by left.
Defined.

Lemma merge_range_irrelevant_witness :
  (merge (reverse ∘ map_to_list) sample_sources sample_registry).1 = inl sample_merged.
Proof.
  apply (merge_range_irrelevant map_to_list (reverse ∘ map_to_list) sample_sources sample_registry sample_merged).
  - apply map_to_list_range_ok.
  - intros m. apply reverse_Permutation.
  - apply sample_registry_ok.
  - apply sample_sources_NoDup.
  - by vm_compute.
Defined.

Definition unpadded_dir : FileSystem := sample_dir ["10_b.sql"; "9_a.sql"] [].

Lemma sql_only_directory_order_witness :
  ∃ p : Provider mem, NewProvider map_to_list DialectPostgres (Some unpadded_dir) [] ∅ = Ok p ∧
    versions (p_migrations p) = [10; 9].
Proof. exact (sql_only_directory_order map_to_list map_to_list_range_ok unpadded_dir eq_refl eq_refl). Defined.

Definition sample_provider : outcome (Provider mem) :=
  NewProvider map_to_list DialectPostgres (Some (sample_dir sample_sqls sample_gos))
    [OAllowOutofOrder true; OExcludeNames ["00009_z.sql"]] sample_registry.

Lemma NewProvider_ok_witness :
  match sample_provider with
  | Ok p => versions (p_migrations p) = [1; 2; 3] ∧ provider_ok p
  | _ => False
  end.
Proof.
  destruct sample_provider as [p|e|s|] eqn:Hp.
  2-4: exfalso; vm_compute in Hp; discriminate Hp.
  split.
  - vm_compute in Hp. injection Hp as <-. reflexivity.
  - exact (NewProvider_ok map_to_list map_to_list_range_ok DialectPostgres _ _ sample_registry p
      sample_registry_ok Hp).
Defined.
