(* ===== verification/Runner.v ===== *)
(** * Running one migration (provider_run.go, the part below the provider)

    Transactions, Go functions with [recover], SQL statements, the record in
    the version table, and the creation of the version table.  All of it works
    on the database state only; the provider's own state is in [Provider]. *)

From S2P Require Import Prelude GoStrings Effects SqlParser Sql Store Migration Options Collect.

Section Runner.
Context {D : Type} `{Driver D, Multierr, Retry}.

(** What a user's Go function does, by its identifier, with the handle it is
    given. *)
Context (goFn : Z → DBTxConn → M (DB D) unit).

Implicit Types m : Migration.

(** [return multierr.Append(err, other)]. *)
Definition fail_append {A} (err : error) (other : option error) (zero : A) : M (DB D) A :=
  match multierr_Append (Some err) other with Some e => fail e | None => mret zero end.

Definition beginTx (fn : M (DB D) unit) : M (DB D) unit :=
  conn_BeginTx;;
  retErr ← error_of (fn;; tx_Commit);
  match retErr with
  | None => mret tt
  | Some err => re ← error_of tx_Rollback; fail_append err re tt
  end.

Definition useTx m (direction : bool) : outcome bool :=
  match m_Type m with
  | TypeGo =>
      match m_goUp m with None => Panic nil_deref | Some up =>
      if Mode up =? 0 then Err (errors_New "go migrations must have a mode set") else
      match m_goDown m with None => Panic nil_deref | Some down =>
      if Mode down =? 0 then Err (errors_New "go migrations must have a mode set")
      else Ok (if direction then Mode up =? TransactionEnabled else Mode down =? TransactionEnabled)
      end end
  | TypeSQL =>
      if negb (sql_Parsed (m_sql m)) then Err (errors_New "sql migrations must be parsed")
      else Ok (sql_UseTx (m_sql m))
  | TypeOther t => Err (EErrorf "use tx: invalid migration type: %q" [AStr t])
  end.

(** Reading a field through a pointer. *)
Definition go_empty (f : option GoFunc) : outcome bool :=
  match f with Some f => Ok (is_nil (RunTx f) && is_nil (RunDB f)) | None => Panic nil_deref end.

Definition isEmpty m (direction : bool) : outcome bool :=
  match m_Type m with
  | TypeGo => if direction then go_empty (m_goUp m) else go_empty (m_goDown m)
  | TypeSQL =>
      Ok (if direction then bool_decide (sql_Up (m_sql m) = []) else bool_decide (sql_Down (m_sql m) = []))
  | TypeOther _ => Ok true
  end.

Definition call_go (f : option Z) (db : DBTxConn) : M (DB D) unit :=
  match f with Some id => goFn id db | None => mret tt end.

Definition runGo (db : DBTxConn) m (direction : bool) : M (DB D) unit :=
  recover (λ r, EErrorf "panic: %v
%s" [AStr r])
    match db with
    | HConn => fail (errors_New "go migrations are not supported with *sql.Conn")
    | HDB =>
        match (if direction then m_goUp m else m_goDown m) with
        | Some f => call_go (RunDB f) db
        | None => panic nil_deref
        end
    | HTx =>
        match (if direction then m_goUp m else m_goDown m) with
        | Some f => call_go (RunTx f) db
        | None => panic nil_deref
        end
    end.

Definition runSQL (db : DBTxConn) m (direction : bool) : M (DB D) unit :=
  if negb (sql_Parsed (m_sql m)) then fail (errors_New "sql migrations must be parsed")
  else
    let statements := if direction then sql_Up (m_sql m) else sql_Down (m_sql m) in
    mfor (λ stmt, ExecContext db stmt []) statements.

Definition runMigration (db : DBTxConn) m (direction : bool) : M (DB D) unit :=
  match m_Type m with
  | TypeGo => runGo db m direction
  | TypeSQL => runSQL db m direction
  | TypeOther t => fail (EErrorf "invalid migration type: %q" [AStr t])
  end.

Section WithStore.
Context (store : Store D) (disableVersioning isolateDDL : bool).

Definition maybeInsertOrDelete (db : DBTxConn) (version : Z) (direction : bool) : M (DB D) unit :=
  if disableVersioning then mret tt
  else if direction then Insert store db version
  else Delete store db version.

Definition runIndividually m (direction : bool) : M (DB D) unit :=
  tx ← of_outcome (useTx m direction);
  if tx && negb isolateDDL then
    beginTx (runMigration HTx m direction;; maybeInsertOrDelete HTx (m_Version m) direction)
  else match m_Type m with
  | TypeGo => runMigration HDB m direction;; maybeInsertOrDelete HDB (m_Version m) direction
  | TypeSQL => runMigration HConn m direction;; maybeInsertOrDelete HConn (m_Version m) direction
  | TypeOther t => fail (EErrorf "failed to run individual migration: neither sql or go: %v" [])
  end.

(** One attempt at making sure that the version table exists. *)
Definition create_version_table : M (DB D) unit :=
  if isolateDDL then
    wrap_err (λ err, ERetryable (EErrorf "create version table: %w" [AWrap err]))
      (CreateVersionTable store HConn);;
    wrap_err (λ err, ERetryable (EErrorf "insert zero version: %w" [AWrap err]))
      (Insert store HConn 0)
  else
    wrap_err (λ err, ERetryable (EErrorf "create version table: %w" [AWrap err]))
      (beginTx (CreateVersionTable store HTx;; Insert store HTx 0)).

Definition ensure_attempt : M (DB D) unit :=
  exists_ ← catch (TableExists store HConn);
  match exists_ with
  | inl true => mret tt
  | inl false => create_version_table
  | inr err =>
      if errors_Is err ErrUnsupported then
        res ← catch (GetMigration store HConn 0);
        match res with inl _ => mret tt | inr _ => create_version_table end
      else fail (EErrorf "check if version table exists: %w" [AWrap err])
  end.

Definition tryEnsureVersionTable : M (DB D) unit :=
  retry_Do (mkBackoff 3 Second) ensure_attempt.

(** [getDBMaxVersion] on a connection. *)
Definition getDBMaxVersion_conn : M (DB D) Z :=
  wrap_err (λ err, if errors_Is err database_ErrVersionNotFound then ESentinel errMissingZeroVersion else err)
    (GetLatestVersion store HConn).

End WithStore.
End Runner.
