(* ===== verification/Provider.v ===== *)
(** * The provider (provider.go, provider_run.go)

    The mutable state of a provider - its mutex, its [sync.Once], its
    migrations (parsed lazily, shared through pointers) and the database - and
    the operations on it: preparing and running migrations, acquiring and
    releasing the connection and the locks, and the exported methods. *)

From S2P Require Import Prelude GoStrings Effects Resolve SqlParser Sql Store Migration Options.
From S2P Require Import Collect Runner.

(** ** State *)

(** A pointer to a migration is its index in [w_migs]. *)
Record PW (D : Type) := mkPW {
  w_db : DB D;
  w_mu : bool;
  w_once : bool;
  w_migs : list Migration
}.
Arguments mkPW {D} _ _ _ _.
Arguments w_db {D} _.
Arguments w_mu {D} _.
Arguments w_once {D} _.
Arguments w_migs {D} _.

Definition set_db {D} (d : DB D) (w : PW D) : PW D := mkPW d (w_mu w) (w_once w) (w_migs w).
Definition set_mu {D} (b : bool) (w : PW D) : PW D := mkPW (w_db w) b (w_once w) (w_migs w).
Definition set_once {D} (b : bool) (w : PW D) : PW D := mkPW (w_db w) (w_mu w) b (w_migs w).
Definition set_migs {D} (l : list Migration) (w : PW D) : PW D := mkPW (w_db w) (w_mu w) (w_once w) l.

Inductive State := StatePending | StateApplied.
Record MigrationStatus := mkMigrationStatus { st_Source : Source; st_State : State; st_AppliedAt : Z }.

Definition source_info (m : Migration) : Source := mkSource (m_Type m) (m_Source m) (m_Version m).

Section Provider.
Context {D : Type} `{Driver D, Multierr, Retry}.
Context (goFn : Z → DBTxConn → M (DB D) unit).
Context (interpolate : string → result string) (up_first : string → bool).
Context (p : Provider D).

Abbreviation cfg := (p_cfg p).
Abbreviation store := (p_store p).

Definition lift {A} (m : M (DB D) A) : M (PW D) A := zoom w_db set_db m.

(** Dereferencing a pointer. *)
Definition deref (i : nat) : M (PW D) Migration :=
  migs ← gets w_migs;
  match migs !! i with Some m => mret m | None => panic nil_deref end.

Definition sql_migration (parsed : ParsedSQL) : sqlMigration :=
  mkSqlMigration true (UseTx parsed) (Up parsed) (Down parsed).

Definition prepareMigration (i : nat) (direction : bool) : M (PW D) unit :=
  m ← deref i;
  match m_Type m with
  | TypeGo =>
      match m_goUp m with None => panic nil_deref | Some goUp =>
      if Mode goUp =? 0 then fail (errors_New "go up migration mode is not set") else
      match m_goDown m with None => panic nil_deref | Some goDown =>
      if Mode goDown =? 0 then fail (errors_New "go down migration mode is not set") else
      let useTx := if direction then Mode goUp =? TransactionEnabled else Mode goDown =? TransactionEnabled in
      max ← gets (maxOpen ∘ w_db);
      if c_lockEnabled cfg && negb (is_nil (c_sessionLocker cfg)) && (max =? 1) && negb useTx
      then fail (errors_New "potential deadlock detected: cannot run Go migration without a transaction when max open connections set to 1")
      else mret tt
      end end
  | TypeSQL =>
      if sql_Parsed (m_sql m) then mret tt
      else
        parsed ← of_result (ParseAllFromFS interpolate (up_first (m_Source m)) (fs_Open (p_fsys p)) (m_Source m));
        modify (λ w, set_migs (<[i := set_sql (sql_migration parsed) m]> (w_migs w)) w)
  | TypeOther t => fail (EErrorf "invalid migration type: %+v" [])
  end.

(** ** Running migrations *)

Definition run_one (m : Migration) (direction : bool) : M (PW D) unit :=
  lift (runIndividually goFn store (c_disableVersioning cfg) (c_isolateDDL cfg) m direction).

(** The loop that runs the prepared migrations; [results] are those of the
    migrations that were run. *)
Fixpoint run_loop (results : list MigrationResult) (apply : list nat) (direction : Direction)
  : M (PW D) (list MigrationResult) :=
  match apply with
  | [] => mret results
  | i :: apply =>
      m ← deref i;
      empty ← of_outcome (isEmpty m (ToBool direction));
      let result err := mkMigrationResult (source_info m) (Direction_String direction) empty err in
      r ← catch (run_one m (ToBool direction));
      match r with
      | inr err => fail (EPartial results (result (Some err)) err)
      | inl _ => run_loop (results ++ [result None]) apply direction
      end
  end.

Definition runMigrations (migrations : list nat) (direction : Direction) (byOne : bool)
  : M (PW D) (list MigrationResult) :=
  match migrations with
  | [] =>
      if negb (c_disableVersioning cfg)
      then lift (getDBMaxVersion_conn store);; mret []
      else mret []
  | first :: _ =>
      let apply := if byOne then [first] else migrations in
      mfor (λ i, m ← deref i;
        wrap_err (λ err, EErrorf "failed to prepare migration %s: %w" [AStr (ref m); AWrap err])
          (prepareMigration i (ToBool direction))) apply;;
      results ← run_loop [] apply direction;
      if negb (c_disableVersioning cfg) && negb byOne
      then lift (getDBMaxVersion_conn store);; mret results
      else mret results
  end.

(** ** Connection, mutex and locks *)

Definition mu_Lock : M (PW D) unit := λ w, if w_mu w then (Block, w) else (Ok tt, set_mu true w).
Definition mu_Unlock : M (PW D) unit := modify (set_mu false).

Definition ensureVersionTable : M (PW D) unit :=
  once ← gets w_once;
  if once : bool then mret tt
  else modify (set_once true);; lift (tryEnsureVersionTable store (c_isolateDDL cfg)).

(** [return nil, nil, multierr.Append(err, cleanup())]. *)
Definition fail_cleanup {A} (err : error) (cleanup : M (PW D) (option error)) : M (PW D) A :=
  ce ← cleanup;
  match multierr_Append (Some err) ce with Some e => fail e | None => fail err end.

Definition cleanup_conn : M (PW D) (option error) :=
  mu_Unlock;; error_of (lift conn_Close).

Definition cleanup_lock (unlock : M (DB D) unit) : M (PW D) (option error) :=
  mu_Unlock;;
  e1 ← error_of (lift unlock);
  e2 ← error_of (lift conn_Close);
  mret (multierr_Append e1 e2).

(** [initialize] returns the clean-up function. *)
Definition initialize (useLocker : bool) : M (PW D) (M (PW D) (option error)) :=
  mu_Lock;;
  conn ← catch (lift db_Conn);
  match conn with
  | inr err => mu_Unlock;; fail err
  | inl _ =>
  cleanup ←
    (if useLocker && c_lockEnabled cfg then
       match c_sessionLocker cfg with
       | None => mret cleanup_conn
       | Some l =>
           r ← catch (lift (SessionLock l));
           match r with
           | inr err => fail_cleanup err cleanup_conn
           | inl _ => mret (cleanup_lock (SessionUnlock l))
           end
       end
     else mret cleanup_conn);
  cleanup ←
    (if useLocker && c_lockEnabled cfg then
       match c_locker cfg with
       | None => mret cleanup
       | Some l =>
           r ← catch (lift (Lock l));
           match r with
           | inr err => fail_cleanup err cleanup
           | inl _ => mret (cleanup_lock (Unlock l))
           end
       end
     else mret cleanup);
  if c_disableVersioning cfg then mret cleanup
  else
    r ← catch ensureVersionTable;
    match r with
    | inr err => fail_cleanup err cleanup
    | inl _ => mret cleanup
    end
  end.

(** The frame of the methods below: initialize, run the body, clean up in a
    deferred call. *)
Definition with_conn {A} (zero : A) (useLocker : bool) (wrap : error → error)
    (body : M (PW D) (A * option error)) : M (PW D) (A * option error) :=
  init ← catch (initialize useLocker);
  match init with
  | inr err => mret (zero, Some (wrap err))
  | inl cleanup => defer_append body cleanup
  end.

Definition failed_to_initialize (err : error) : error :=
  EErrorf "failed to initialize: %w" [AWrap err].

(** ** Methods *)

Definition results_t : Type := list MigrationResult * option error.

(** [getMigration]: the pointer to the first migration of that version. *)
Definition getMigration (version : Z) : M (PW D) nat :=
  migs ← gets w_migs;
  match list_find (λ m, m_Version m = version) migs with
  | Some (i, _) => mret i
  | None => fail (ESentinel ErrVersionNotFound)
  end.

Definition getVersionsFromMigrations (l : list Migration) : list Z := map m_Version l.
Definition getVersionsFromListMigrations (l : list ListMigrationsResult) : list Z := map lm_Version l.

Definition all_pointers : M (PW D) (list nat) := gets (λ w, seq 0 (length (w_migs w))).

Definition up_body (byOne : bool) (version : Z) : M (PW D) (list MigrationResult) :=
  migs ← gets w_migs;
  if Nat.eqb (length migs) 0 then mret []
  else
    apply ←
      (if c_disableVersioning cfg then
         if byOne then fail (errors_New "up-by-one not supported when versioning is disabled")
         else all_pointers
       else
         dbMigrations ← lift (ListMigrations store HConn);
         if Nat.eqb (length dbMigrations) 0 then fail (ESentinel errMissingZeroVersion)
         else
           vs ← of_result (UpVersions (getVersionsFromMigrations migs)
                             (getVersionsFromListMigrations dbMigrations) version (c_allowMissing cfg));
           mmap getMigration vs);
    runMigrations apply DirectionUp byOne.

Definition up (byOne : bool) (version : Z) : M (PW D) results_t :=
  if version <? 1 then mret ([], Some (ESentinel errInvalidVersion))
  else with_conn [] true failed_to_initialize (returning [] (up_body byOne version)).

(** The loop of [down] over the database migrations, newest first. *)
Fixpoint down_collect (version : Z) (dbMigrations : list ListMigrationsResult) : M (PW D) (list nat) :=
  match dbMigrations with
  | [] => mret []
  | dbMigration :: dbMigrations =>
      if lm_Version dbMigration <=? version then mret []
      else i ← getMigration (lm_Version dbMigration);
           rest ← down_collect version dbMigrations;
           mret (i :: rest)
  end.

Definition down_body (byOne : bool) (version : Z) : M (PW D) (list MigrationResult) :=
  migs ← gets w_migs;
  if Nat.eqb (length migs) 0 then mret []
  else if c_disableVersioning cfg then
    let all := seq 0 (length migs) in
    runMigrations (if byOne then [(length migs - 1)%nat] else all) DirectionDown byOne
  else
    dbMigrations ← lift (ListMigrations store HConn);
    match dbMigrations with
    | [] => fail (ESentinel errMissingZeroVersion)
    | newest :: _ =>
        if lm_Version newest =? 0 then mret []
        else apply ← down_collect version dbMigrations;
             runMigrations apply DirectionDown byOne
    end.

Definition down (byOne : bool) (version : Z) : M (PW D) results_t :=
  with_conn [] true failed_to_initialize (returning [] (down_body byOne version)).

Definition apply_body (i : nat) (version : Z) (direction : bool) : M (PW D) (list MigrationResult) :=
  let d := if direction then DirectionUp else DirectionDown in
  if c_disableVersioning cfg then runMigrations [i] d true
  else
    r ← catch (lift (GetMigration store HConn version));
    found ← (match r with
             | inl _ => mret true
             | inr err => if errors_Is err database_ErrVersionNotFound then mret false else fail err
             end);
    if direction && found then fail (EErrorf "version %d: %w" [AInt version; AWrap (ESentinel ErrAlreadyApplied)])
    else if negb direction && negb found
    then fail (EErrorf "version %d: %w" [AInt version; AWrap (ESentinel ErrNotApplied)])
    else runMigrations [i] d true.

Definition apply (version : Z) (direction : bool) : M (PW D) results_t :=
  if version <? 1 then mret ([], Some (ESentinel errInvalidVersion))
  else
    m ← catch (getMigration version);
    match m with
    | inr err => mret ([], Some err)
    | inl i => with_conn [] true failed_to_initialize (returning [] (apply_body i version direction))
    end.

(** [getDBMaxVersion] with a nil connection. *)
Definition getDBMaxVersion : M (PW D) (Z * option error) :=
  with_conn 0 true id
    (latest ← catch (lift (GetLatestVersion store HConn));
     mret (match latest with
           | inl v => (v, None)
           | inr err => if errors_Is err database_ErrVersionNotFound
                        then (0, Some (ESentinel errMissingZeroVersion)) else (-1, Some err)
           end)).

Definition hasPending_body : M (PW D) bool :=
  if c_disableVersioning cfg then mret true
  else
    dbMigrations ← lift (ListMigrations store HConn);
    migs ← gets w_migs;
    apply ← of_result (UpVersions (getVersionsFromMigrations migs)
                         (getVersionsFromListMigrations dbMigrations) maxInt64 (c_allowMissing cfg));
    mret (0 <? Z.of_nat (length apply)).

Definition HasPending : M (PW D) (bool * option error) :=
  with_conn false false failed_to_initialize (returning false hasPending_body).

(** The last migration of the list. *)
Definition target_version : M (PW D) Z :=
  migs ← gets w_migs;
  match last migs with Some m => mret (m_Version m) | None => panic "index out of range [-1]" end.

Definition getVersions_body : M (PW D) (Z * Z * option error) :=
  target ← target_version;
  if c_disableVersioning cfg then mret (-1, target, None)
  else
    current ← catch (lift (GetLatestVersion store HConn));
    mret (match current with
          | inl v => (v, target, None)
          | inr err => (-1, target, Some (if errors_Is err database_ErrVersionNotFound
                                          then ESentinel errMissingZeroVersion else err))
          end).

Definition GetVersions : M (PW D) (Z * Z * option error) :=
  with_conn (-1, -1) false failed_to_initialize getVersions_body.

Definition status_one (m : Migration) : M (PW D) MigrationStatus :=
  if c_disableVersioning cfg then mret (mkMigrationStatus (source_info m) StatePending 0)
  else
    r ← catch (lift (GetMigration store HConn (m_Version m)));
    match r with
    | inl dbResult => mret (mkMigrationStatus (source_info m) StateApplied (gm_Timestamp dbResult))
    | inr err =>
        if errors_Is err database_ErrVersionNotFound
        then mret (mkMigrationStatus (source_info m) StatePending 0)
        else fail err
    end.

Definition Status : M (PW D) (list MigrationStatus * option error) :=
  with_conn [] true failed_to_initialize (returning [] (migs ← gets w_migs; mmap status_one migs)).

Definition GetDBVersion : M (PW D) (Z * option error) :=
  if c_disableVersioning cfg
  then mret (-1, Some (errors_New "getting database version not supported when versioning is disabled"))
  else getDBMaxVersion.

Definition ListSources : M (PW D) (list Source) := gets (map source_info ∘ w_migs).

(** The exactly-one check of the methods that run one migration. *)
Definition exactly_one (msg : string) (none : option error) (r : results_t)
  : option MigrationResult * option error :=
  match r with
  | (_, Some err) => (None, Some err)
  | ([], None) =>
      (None, match none with Some e => Some e | None => Some (EErrorf msg [AStr ""]) end)
  | ([res], None) => (Some res, None)
  | (res, None) =>
      (None, Some (EErrorf msg [AStr (Join (map (λ r, FormatInt (src_Version (res_Source r))) res) ",")]))
  end.

Definition ApplyVersion (version : Z) (direction : bool) : M (PW D) (option MigrationResult * option error) :=
  r ← apply version direction;
  mret (exactly_one "unexpected number of migrations applied running apply, expecting exactly one result: %v" None r).

(** [hasPending, err := p.HasPending(ctx)], then [run] when something is pending. *)
Definition when_pending {A} (none : A) (failed : error → A) (run : M (PW D) A) : M (PW D) A :=
  '(pending, err) ← HasPending;
  match err with
  | Some e => mret (failed e)
  | None => if pending : bool then run else mret none
  end.

Definition Provider_Up : M (PW D) results_t :=
  when_pending ([], None) (λ e, ([], Some e)) (up false maxInt64).

Definition UpTo (version : Z) : M (PW D) results_t :=
  when_pending ([], None) (λ e, ([], Some e)) (up false version).

Definition UpByOne : M (PW D) (option MigrationResult * option error) :=
  when_pending (None, Some (ESentinel ErrNoNextVersion)) (λ e, (None, Some e))
    (r ← up true maxInt64;
     mret (exactly_one "unexpected number of migrations applied running up-by-one, expecting exactly one result: %v"
             (Some (ESentinel ErrNoNextVersion)) r)).

Definition Provider_Down : M (PW D) (option MigrationResult * option error) :=
  r ← down true 0;
  mret (exactly_one "unexpected number of migrations applied running down, expecting exactly one result: %v"
          (Some (ESentinel ErrNoNextVersion)) r).

Definition DownTo (version : Z) : M (PW D) results_t :=
  if version <? 0
  then mret ([], Some (EErrorf "invalid version: must be a valid number or zero: %d" [AInt version]))
  else down false version.

(** The methods, for statements about all of them; a call yields its error. *)
Inductive Call :=
  | CUp | CUpByOne | CUpTo (version : Z) | CDown | CDownTo (version : Z)
  | CApplyVersion (version : Z) (direction : bool)
  | CStatus | CHasPending | CGetVersions | CGetDBVersion | CListSources.

Definition run_call (c : Call) : M (PW D) (option error) :=
  match c with
  | CUp => snd <$> Provider_Up
  | CUpByOne => snd <$> UpByOne
  | CUpTo v => snd <$> UpTo v
  | CDown => snd <$> Provider_Down
  | CDownTo v => snd <$> DownTo v
  | CApplyVersion v d => snd <$> ApplyVersion v d
  | CStatus => snd <$> Status
  | CHasPending => snd <$> HasPending
  | CGetVersions => snd <$> GetVersions
  | CGetDBVersion => snd <$> GetDBVersion
  | CListSources => ListSources;; mret None
  end.

End Provider.
