(* ===== verification/ProviderLocks.v ===== *)
(** * The provider gives back what it takes

    Every exported method of a provider releases the mutex and returns its
    connection to the pool, on success, on error and on panic; and, unless the
    pool is too small, no method blocks. *)

From S2P Require Import Prelude GoStrings Effects Resolve SqlParser Sql Store Migration Options.
From S2P Require Import Collect Runner Provider.

(** ** Assumptions on the code that goose calls *)

(** A lock operation of the user works within the connections it is given,
    does not change the database that migrations see, and does not panic. *)
Record lock_op_ok {D U} `{DbModel D U} (m : M (DB D) unit) : Prop := {
  lock_pool : Preserves pool m;
  lock_view : Preserves db_view m;
  lock_no_panic : NoPanic m
}.

Record lockers_ok {D U} `{DbModel D U} (c : config D) : Prop := {
  session_lock_ok l : c_sessionLocker c = Some l → lock_op_ok (SessionLock l) ∧ lock_op_ok (SessionUnlock l);
  locker_ok l : c_locker c = Some l → lock_op_ok (Lock l) ∧ lock_op_ok (Unlock l)
}.

(** A Go function of the user does not close connections or end the
    transaction it runs in; it may fail or panic. *)
Definition go_ok {D U} `{DbModel D U} (goFn : Z → DBTxConn → M (DB D) unit) : Prop :=
  ∀ id db, Preserves session (goFn id db).

Section Locks.
Context {D U : Type} `{DbLaws D U, MultierrLaws, RetryLaws}.
Context (goFn : Z → DBTxConn → M (DB D) unit) (Hgo : go_ok goFn).
Context (interpolate : string → result string) (up_first : string → bool).
Context (p : Provider D) (Hstore : StoreSpec (U:=U) (p_store p)) (Hlock : lockers_ok (p_cfg p)).

Lemma session_pool {A} (m : M (DB D) A) : Preserves session m → Preserves pool m.
Proof.
  apply preserves_weaken. unfold session, pool. by intros w w' [= -> -> _ _].
Qed.

Lemma conn_BeginTx_no_panic : NoPanic (conn_BeginTx (D:=D)).
Proof.
  apply no_panic_bind; [|done]. intros w. unfold drv_call. by destruct (drv_begin (drv w)) as [[] ?].
Qed.

Lemma tx_Commit_no_panic : NoPanic (tx_Commit (D:=D)).
Proof.
  apply no_panic_bind; [done|]. intros []; [|done]. apply no_panic_bind; [done|]. intros _ w.
  unfold drv_call. by destruct (drv_commit (drv w)) as [[] ?].
Qed.

Lemma tx_Rollback_no_panic : NoPanic (tx_Rollback (D:=D)).
Proof.
  apply no_panic_bind; [done|]. intros []; [|done]. apply no_panic_bind; [done|]. intros _ w.
  unfold drv_call. by destruct (drv_rollback (drv w)) as [[] ?].
Qed.

#[local] Hint Resolve conn_BeginTx_no_panic tx_Commit_no_panic tx_Rollback_no_panic : nopanic.

Lemma fail_append_pool {A} err other (zero : A) : Preserves pool (fail_append (D:=D) err other zero).
Proof. unfold fail_append. preserve. Qed.

Lemma fail_append_no_panic {A} err other (zero : A) : NoPanic (fail_append (D:=D) err other zero).
Proof. unfold fail_append. no_panic. Qed.

#[local] Hint Resolve fail_append_pool : preserve.
#[local] Hint Resolve fail_append_no_panic : nopanic.

Lemma beginTx_pool fn : Preserves pool fn → Preserves pool (beginTx fn).
Proof. intros. unfold beginTx. preserve. Qed.

Lemma beginTx_no_panic fn : NoPanic fn → NoPanic (beginTx fn).
Proof. intros. unfold beginTx. no_panic. Qed.

Lemma store_pool :
  (∀ db, Preserves pool (CreateVersionTable (p_store p) db)) ∧
  (∀ db v, Preserves pool (Insert (p_store p) db v)) ∧
  (∀ db v, Preserves pool (Delete (p_store p) db v)) ∧
  (∀ db v, Preserves pool (GetMigration (p_store p) db v)) ∧
  (∀ db, Preserves pool (GetLatestVersion (p_store p) db)) ∧
  (∀ db, Preserves pool (ListMigrations (p_store p) db)) ∧
  (∀ db, Preserves pool (TableExists (p_store p) db)).
Proof. split_and!; intros; apply session_pool; apply Hstore. Qed.

Lemma store_no_panic :
  (∀ db, NoPanic (CreateVersionTable (p_store p) db)) ∧
  (∀ db v, NoPanic (Insert (p_store p) db v)) ∧
  (∀ db v, NoPanic (GetMigration (p_store p) db v)) ∧
  (∀ db, NoPanic (TableExists (p_store p) db)).
Proof.
  split_and!; intros; intros w;
    match goal with |- match ?m w with _ => _ end => destruct (m w) as [[] w'] eqn:Hw end; try done;
    by apply Hstore in Hw.
Qed.

Lemma runMigration_pool db m dir : Preserves pool (runMigration goFn db m dir).
Proof.
  assert (∀ f, Preserves pool (call_go goFn f db)) as Hcall.
  { intros [id|]; [apply session_pool, Hgo|done]. }
  unfold runMigration, runGo, runSQL. preserve.
Qed.

Lemma maybeInsertOrDelete_pool dv db v dir :
  Preserves pool (maybeInsertOrDelete (p_store p) dv db v dir).
Proof.
  destruct store_pool as (Hc & Hi & Hd & _). unfold maybeInsertOrDelete.
  by destruct dv, dir; simpl.
Qed.

#[local] Hint Resolve beginTx_pool runMigration_pool maybeInsertOrDelete_pool : preserve.

Lemma runIndividually_pool dv iso m dir : Preserves pool (runIndividually goFn (p_store p) dv iso m dir).
Proof. unfold runIndividually. preserve. Qed.

Lemma create_version_table_pool iso : Preserves pool (create_version_table (p_store p) iso).
Proof.
  destruct store_pool as (Hc & Hi & _). unfold create_version_table.
  preserve.
Qed.

Lemma create_version_table_no_panic iso : NoPanic (create_version_table (p_store p) iso).
Proof.
  destruct store_no_panic as (Hc & Hi & _). unfold create_version_table.
  no_panic.
Qed.

Lemma ensure_attempt_pool iso : Preserves pool (ensure_attempt (p_store p) iso).
Proof.
  destruct store_pool as (_ & _ & _ & Hg & _ & _ & He). pose proof (create_version_table_pool iso).
  unfold ensure_attempt. preserve.
Qed.

Lemma ensure_attempt_no_panic iso : NoPanic (ensure_attempt (p_store p) iso).
Proof.
  destruct store_no_panic as (_ & _ & Hg & He). pose proof (create_version_table_no_panic iso).
  unfold ensure_attempt. no_panic.
Qed.

Lemma tryEnsure_pool iso : Preserves pool (tryEnsureVersionTable (p_store p) iso).
Proof. exact (preserves_retry pool _ _ (ensure_attempt_pool iso)). Qed.

Lemma tryEnsure_no_panic iso : NoPanic (tryEnsureVersionTable (p_store p) iso).
Proof. exact (no_panic_retry _ _ (ensure_attempt_no_panic iso)). Qed.

(** ** The provider's state *)

(** The mutex and the pool. *)
Definition guard (w : PW D) : bool * (Z * Z) := (w_mu w, pool (w_db w)).

Lemma lift_guard {A} (m : M (DB D) A) : Preserves pool m → Preserves guard (lift m).
Proof.
  intros Hm w. unfold lift, zoom. specialize (Hm (w_db w)). unfold guard.
  destruct (m (w_db w)) as [[] d]; simpl; congruence || done.
Qed.

Lemma set_migs_guard f : Preserves guard (modify (λ w : PW D, set_migs (f w) w)).
Proof. by intros w. Qed.

Lemma set_once_guard b : Preserves guard (modify (set_once (D:=D) b)).
Proof. by intros w. Qed.

#[local] Hint Resolve lift_guard set_migs_guard set_once_guard runIndividually_pool tryEnsure_pool : preserve.

Lemma deref_guard i : Preserves guard (deref i).
Proof. unfold deref. preserve. Qed.

#[local] Hint Resolve deref_guard : preserve.

Lemma prepareMigration_guard i dir : Preserves guard (prepareMigration interpolate up_first p i dir).
Proof. unfold prepareMigration. preserve. Qed.

Lemma run_loop_guard rs l dir : Preserves guard (run_loop goFn p rs l dir).
Proof.
  revert rs. induction l as [|i l IH]; intros rs; simpl; [done|].
  apply preserves_bind; [apply deref_guard|]. intros m.
  apply preserves_bind; [apply preserves_of_outcome|]. intros empty.
  apply preserves_bind; [apply preserves_catch, lift_guard, runIndividually_pool|].
  intros []; [apply IH|done].
Qed.

Lemma max_version_guard : Preserves guard (lift (getDBMaxVersion_conn (p_store p))).
Proof. destruct store_pool as (_&_&_&_&Hl&_). apply lift_guard. unfold getDBMaxVersion_conn. preserve. Qed.

Lemma list_guard : Preserves guard (lift (ListMigrations (p_store p) HConn)).
Proof. destruct store_pool as (_&_&_&_&_&Hl&_). by apply lift_guard. Qed.

Lemma get_guard v : Preserves guard (lift (GetMigration (p_store p) HConn v)).
Proof. destruct store_pool as (_&_&_&Hg&_). by apply lift_guard. Qed.

Lemma latest_guard : Preserves guard (lift (GetLatestVersion (p_store p) HConn)).
Proof. destruct store_pool as (_&_&_&_&Hl&_). by apply lift_guard. Qed.

#[local] Hint Resolve prepareMigration_guard run_loop_guard max_version_guard list_guard get_guard
  latest_guard : preserve.

Lemma runMigrations_guard l dir one :
  Preserves guard (runMigrations goFn interpolate up_first p l dir one).
Proof. unfold runMigrations. preserve. Qed.

Lemma getMigration_guard v : Preserves guard (getMigration (D:=D) v).
Proof. unfold getMigration. preserve. Qed.

Lemma down_collect_guard v l : Preserves guard (down_collect (D:=D) v l).
Proof. pose proof getMigration_guard. induction l; simpl; preserve. Qed.

#[local] Hint Resolve runMigrations_guard getMigration_guard down_collect_guard : preserve.

Lemma up_body_guard one v : Preserves guard (up_body goFn interpolate up_first p one v).
Proof. unfold up_body, all_pointers. preserve. Qed.

Lemma down_body_guard one v : Preserves guard (down_body goFn interpolate up_first p one v).
Proof. unfold down_body. preserve. Qed.

Lemma apply_body_guard i v dir : Preserves guard (apply_body goFn interpolate up_first p i v dir).
Proof. unfold apply_body. preserve. Qed.

Lemma hasPending_body_guard : Preserves guard (hasPending_body p).
Proof. unfold hasPending_body. preserve. Qed.

Lemma getVersions_body_guard : Preserves guard (getVersions_body p).
Proof. unfold getVersions_body, target_version. preserve. Qed.

Lemma status_one_guard m : Preserves guard (status_one p m).
Proof. unfold status_one. preserve. Qed.

(** ** Initialization and clean-up *)

(** A clean-up function gives back the mutex and one connection. *)
Definition releases (cleanup : M (PW D) (option error)) : Prop := ∀ w,
  match cleanup w with
  | (Ok _, w') => w_mu w' = false ∧ pool (w_db w') = (inUse (w_db w) - 1, maxOpen (w_db w))
  | (Block, _) => True
  | _ => False
  end.

Lemma conn_Close_run (w : DB D) : ∃ r d, conn_Close w = (r, mkDB d (inUse w - 1) (maxOpen w) (txOpen w)) ∧
  (r = Ok tt ∨ ∃ e, r = Err e) ∧ view d = view (drv w).
Proof.
  unfold conn_Close. pose proof (release_view (drv w)) as Hv.
  destruct (drv_release (drv w)) as [[e|] d]; do 2 eexists; split; eauto.
Qed.

Lemma cleanup_conn_releases : releases cleanup_conn.
Proof.
  intros w. unfold cleanup_conn, error_of, catch, lift, zoom, mu_Unlock, modify, mbind, M_bind.
  simpl. destruct (conn_Close_run (w_db w)) as (r & d & -> & Hr & _).
  by destruct Hr as [->|[e ->]].
Qed.

Lemma cleanup_lock_releases u : lock_op_ok u → releases (cleanup_lock u).
Proof.
  intros [Hp _ Hn] w. unfold cleanup_lock, error_of, catch, lift, zoom, mu_Unlock, modify, mbind, M_bind.
  simpl. specialize (Hp (w_db w)). specialize (Hn (w_db w)).
  destruct (u (w_db w)) as [[a|e|s|] d1]; try done; simpl;
    destruct (conn_Close_run d1) as (r & d & -> & Hr & _); unfold pool in *; simplify_eq;
    destruct Hr as [->|[e' ->]]; simpl; split; congruence.
Qed.

Lemma fail_cleanup_run {A} err cleanup w : releases cleanup →
  match (fail_cleanup err cleanup : M (PW D) A) w with
  | (Err _, w') => w_mu w' = false ∧ pool (w_db w') = (inUse (w_db w) - 1, maxOpen (w_db w))
  | (Block, _) => True
  | _ => False
  end.
Proof.
  intros Hr. unfold fail_cleanup, mbind, M_bind. specialize (Hr w).
  destruct (cleanup w) as [[ce| | |] w']; try done. by destruct (multierr_Append _ _).
Qed.

(** The state between initialization and clean-up. *)
Definition held (w w' : PW D) : Prop :=
  w_mu w = false ∧ w_mu w' = true ∧ pool (w_db w') = (inUse (w_db w) + 1, maxOpen (w_db w)).

Lemma held_guard w w1 w2 : held w w1 → guard w2 = guard w1 → held w w2.
Proof.
  intros (Hm1 & Hm2 & Hm3) Hg. pose proof (f_equal fst Hg) as Hmu. pose proof (f_equal snd Hg) as Hp.
  simpl in *. split_and!; [done|by rewrite Hmu|by rewrite Hp].
Qed.

(** What the two lock steps and the table step of [initialize] have in common:
    an operation that keeps the guard, and a clean-up if it fails. *)
Definition locks_or_fails (w0 : PW D) (step : M (PW D) (M (PW D) (option error))) : Prop :=
  ∀ w, held w0 w →
  match step w with
  | (Ok cleanup, w') => held w0 w' ∧ releases cleanup
  | (Err _, w') => guard w' = guard w0
  | (Panic _, _) => False
  | (Block, _) => True
  end.

Lemma step_or_cleanup w0 (m : M (PW D) unit) cleanup next :
  Preserves guard m → NoPanic m → releases cleanup → releases next →
  locks_or_fails w0 (r ← catch m;
    match r with inr err => fail_cleanup err cleanup | inl _ => mret next end).
Proof.
  intros Hg Hn Hc Hnext w Hw. unfold catch, mbind, M_bind.
  specialize (Hg w). specialize (Hn w). destruct (m w) as [[a|e|s|] w1]; try done.
  - split; [by eapply held_guard|done].
  - pose proof (fail_cleanup_run (A:=M (PW D) (option error)) e cleanup w1 Hc) as Hf.
    pose proof (held_guard _ _ _ Hw Hg) as (Hw0 & _ & Hpool).
    destruct (fail_cleanup e cleanup w1) as [[] w2]; try done.
    destruct Hf as [Hmu Hp]. unfold guard. rewrite Hmu, Hp, Hw0.
    unfold pool in *. injection Hpool as -> ->. do 2 f_equal. lia.
Qed.

Lemma locks_bind w0 step k :
  locks_or_fails w0 step → (∀ cleanup, releases cleanup → locks_or_fails w0 (k cleanup)) →
  locks_or_fails w0 (step ≫= k).
Proof.
  intros Hs Hk w Hw. unfold mbind, M_bind. specialize (Hs w Hw).
  destruct (step w) as [[c| | |] w1]; try done. destruct Hs as [Hw1 Hc]. by apply Hk.
Qed.

Lemma locks_ret w0 cleanup : releases cleanup → locks_or_fails w0 (mret cleanup).
Proof. by intros Hc w Hw. Qed.

Lemma ensure_guard : Preserves guard (ensureVersionTable p) ∧ NoPanic (ensureVersionTable p).
Proof.
  pose proof (tryEnsure_pool (c_isolateDDL (p_cfg p))). pose proof (tryEnsure_no_panic (c_isolateDDL (p_cfg p))).
  unfold ensureVersionTable. split; [preserve|unfold lift; no_panic].
Qed.

Lemma initialize_run b w :
  match initialize p b w with
  | (Ok cleanup, w') => held w w' ∧ releases cleanup
  | (Err _, w') => guard w' = guard w
  | (Panic _, _) => False
  | (Block, _) => True
  end.
Proof.
  unfold initialize. unfold mbind at 1, M_bind at 1, mu_Lock.
  destruct (w_mu w) eqn:Hmu; [done|].
  unfold mbind at 1, M_bind at 1, catch at 1, lift at 1, zoom at 1, db_Conn. cbn [w_db set_mu].
  destruct (pool_exhausted (w_db w)); [done|].
  destruct (drv_connect (drv (w_db w))) as [[e|] d].
  { unfold mbind, M_bind, mu_Unlock, modify, fail. unfold guard, pool. simpl. by rewrite Hmu. }
  match goal with |- match ?m ?w1 with _ => _ end =>
    cut (locks_or_fails w m); [intros Hl; apply (Hl w1); by split_and!|] end.
  pose proof cleanup_conn_releases as Hc0.
  apply locks_bind; [|intros c1 Hc1; apply locks_bind; [|intros c2 Hc2]].
  - destruct (b && _); [|by apply locks_ret].
    destruct (c_sessionLocker (p_cfg p)) as [l|] eqn:Hl; [|by apply locks_ret].
    destruct (session_lock_ok _ Hlock l Hl) as [Hlk Hul].
    apply step_or_cleanup; [apply lift_guard, Hlk|apply no_panic_zoom, Hlk|done|by apply cleanup_lock_releases].
  - destruct (b && _); [|by apply locks_ret].
    destruct (c_locker (p_cfg p)) as [l|] eqn:Hl; [|by apply locks_ret].
    destruct (locker_ok _ Hlock l Hl) as [Hlk Hul].
    apply step_or_cleanup; [apply lift_guard, Hlk|apply no_panic_zoom, Hlk|done|by apply cleanup_lock_releases].
  - destruct (c_disableVersioning _); [by apply locks_ret|].
    destruct ensure_guard. by apply step_or_cleanup.
Qed.

Lemma with_conn_guard {A} (z : A) b wrap body :
  Preserves guard body → Preserves guard (with_conn p z b wrap body).
Proof.
  intros Hb w. unfold with_conn, mbind, M_bind, catch. pose proof (initialize_run b w) as Hi.
  destruct (initialize p b w) as [[cleanup|e|s|] w1]; try done.
  destruct Hi as [Hheld Hrel]. unfold defer_append. specialize (Hb w1).
  assert (∀ w2, guard w2 = guard w1 → match cleanup w2 with
    | (Ok _, w') => guard w' = guard w | (Block, _) => True | _ => False end) as Hclean.
  { intros w2 Hw2. specialize (Hrel w2). destruct (held_guard _ _ _ Hheld Hw2) as (Hmu & _ & Hp).
    destruct (cleanup w2) as [[] w3]; try done. destruct Hrel as [Hmu3 Hp3].
    unfold guard. rewrite Hmu3, Hp3, Hmu. unfold pool in *. injection Hp as -> ->. do 2 f_equal. lia. }
  destruct (body w1) as [[[a r]|e|s|] w2] eqn:Hbody; try done.
  all: specialize (Hclean w2 Hb); by destruct (cleanup w2) as [[] w3].
Qed.

(** ** All methods *)

#[local] Hint Resolve with_conn_guard up_body_guard down_body_guard apply_body_guard
  hasPending_body_guard getVersions_body_guard status_one_guard : preserve.

Abbreviation run_call := (run_call goFn interpolate up_first p).

Lemma HasPending_guard : Preserves guard (HasPending p).
Proof. unfold HasPending. preserve. Qed.

Lemma up_guard one v : Preserves guard (up goFn interpolate up_first p one v).
Proof. unfold up. preserve. Qed.

#[local] Hint Resolve HasPending_guard up_guard : preserve.

Lemma when_pending_guard {A} (z : A) f m : Preserves guard m → Preserves guard (when_pending p z f m).
Proof. unfold when_pending. preserve. Qed.

#[local] Hint Resolve when_pending_guard : preserve.

Lemma fmap_guard {A B} (f : A → B) (m : M (PW D) A) : Preserves guard m → Preserves guard (f <$> m).
Proof. intros. by apply preserves_bind. Qed.

#[local] Opaque with_conn.

Lemma run_call_guard c : Preserves guard (run_call c).
Proof.
  destruct c; cbn [Provider.run_call]; try apply fmap_guard;
    unfold Provider_Up, UpByOne, UpTo, Provider_Down, DownTo, ApplyVersion, apply, down, Status,
      GetVersions, GetDBVersion, getDBMaxVersion, ListSources;
    repeat first [progress preserve | apply with_conn_guard].
Qed.

(** C6: whatever sequence of methods is called on a provider, and however the
    calls end (success, error, a panic of a migration), the provider's mutex is
    free again and every connection it took is back in the pool. *)
Theorem calls_release calls w :
  match mmap run_call calls w with
  | (Block, _) => True
  | (_, w') => w_mu w' = w_mu w ∧ inUse (w_db w') = inUse (w_db w) ∧ maxOpen (w_db w') = maxOpen (w_db w)
  end.
Proof.
  pose proof (preserves_mmap guard run_call calls run_call_guard w) as Hg.
  destruct (mmap run_call calls w) as [[] w']; try done; unfold guard, pool in Hg; by injection Hg.
Qed.


(** ** No method blocks when two connections are available *)

(** One more connection can be taken. *)
Definition room (d : DB D) : Prop := pool_exhausted d = false.

Record store_runs (st : Store D) : Prop := {
  create_runs db : Runs room (CreateVersionTable st db);
  insert_runs db v : Runs room (Insert st db v);
  delete_runs db v : Runs room (Delete st db v);
  get_runs db v : Runs room (GetMigration st db v);
  latest_runs db : Runs room (GetLatestVersion st db);
  list_runs db : Runs room (ListMigrations st db);
  exists_runs db : Runs room (TableExists st db)
}.

Record lockers_run (c : config D) : Prop := {
  session_lock_runs l : c_sessionLocker c = Some l → Runs room (SessionLock l) ∧ Runs room (SessionUnlock l);
  locker_runs l : c_locker c = Some l → Runs room (Lock l) ∧ Runs room (Unlock l)
}.

Lemma drv_call_runs f : Runs room (drv_call (D:=D) f).
Proof. intros w Hw. unfold drv_call. by destruct (f (drv w)) as [[] d]. Qed.

Lemma set_txOpen_runs b : Runs room (modify (set_txOpen (D:=D) b)).
Proof. by apply runs_modify. Qed.

Lemma with_handle_runs {A} db (m : M (DB D) A) : Runs room m → Runs room (with_handle db m).
Proof.
  intros Hm w Hw. unfold with_handle. destruct db; [rewrite Hw; by apply Hm|by apply Hm|].
  destruct (txOpen w); [by apply Hm|done].
Qed.

Lemma ExecContext_runs db q args : Runs room (ExecContext (D:=D) db q args).
Proof. apply with_handle_runs, drv_call_runs. Qed.

Lemma QueryContext_runs db q args : Runs room (QueryContext (D:=D) db q args).
Proof.
  apply with_handle_runs. intros w Hw. by destruct (drv_query db q args (drv w)) as [[] d].
Qed.

#[local] Hint Resolve drv_call_runs set_txOpen_runs ExecContext_runs QueryContext_runs : runs.

Lemma QueryRowContext_runs db q args : Runs room (QueryRowContext (D:=D) db q args).
Proof. unfold QueryRowContext. runs. Qed.

#[local] Hint Resolve QueryRowContext_runs : runs.

(** The store over a dialect only blocks with its statements. *)
Lemma new_store_runs t q : store_runs (new_store t q).
Proof.
  split; intros; unfold TableExists; simpl; unfold store_CreateVersionTable, store_Insert, store_Delete,
    store_GetMigration, store_GetLatestVersion, store_ListMigrations, store_TableExists; runs.
Qed.

Context (Hrun_store : store_runs (p_store p)) (Hrun_lock : lockers_run (p_cfg p)).
Context (Hrun_go : ∀ id db, Runs room (goFn id db)).

Lemma beginTx_runs fn : Runs room fn → Runs room (beginTx fn).
Proof.
  intros Hfn. unfold beginTx, conn_BeginTx, tx_Commit, tx_Rollback, fail_append. runs.
Qed.

#[local] Hint Resolve beginTx_runs : runs.

Lemma runMigration_runs db m dir : Runs room (runMigration goFn db m dir).
Proof.
  assert (∀ f, Runs room (call_go goFn f db)) as Hcall by (intros [id|]; [apply Hrun_go|apply runs_ret]).
  unfold runMigration, runGo, runSQL. runs.
Qed.

Lemma maybeInsertOrDelete_runs dv db v dir : Runs room (maybeInsertOrDelete (p_store p) dv db v dir).
Proof. destruct Hrun_store. unfold maybeInsertOrDelete. runs. Qed.

Lemma useTx_runs m dir : Runs room (of_outcome (useTx m dir) : M (DB D) bool).
Proof. intros w Hw. unfold of_outcome, useTx. by repeat case_match. Qed.

#[local] Hint Resolve runMigration_runs maybeInsertOrDelete_runs useTx_runs : runs.

Lemma runIndividually_runs dv iso m dir : Runs room (runIndividually goFn (p_store p) dv iso m dir).
Proof.
  unfold runIndividually. apply runs_bind; [apply useTx_runs|]. intros tx.
  destruct (tx && negb iso); [apply beginTx_runs; runs|]. case_match; runs.
Qed.

Lemma tryEnsure_runs iso : Runs room (tryEnsureVersionTable (p_store p) iso).
Proof.
  destruct Hrun_store. apply runs_retry; [apply _|].
  assert (Runs room (create_version_table (p_store p) iso)).
  { unfold create_version_table. destruct iso; [runs|].
    apply runs_wrap_err, beginTx_runs. runs. }
  unfold ensure_attempt. runs.
Qed.

(** The state inside a method: the pool has room for a statement. *)
Definition roomP (w : PW D) : Prop := room (w_db w).

Lemma lift_runs {A} (m : M (DB D) A) : Runs room m → Runs roomP (lift m).
Proof.
  intros Hm w Hw. unfold lift, zoom. specialize (Hm (w_db w) Hw). by destruct (m (w_db w)).
Qed.

Lemma modify_runs f : (∀ w, w_db (f w) = w_db w) → Runs roomP (modify (W:=PW D) f).
Proof. intros Hf. apply runs_modify. intros w. unfold roomP. by rewrite Hf. Qed.

#[local] Hint Resolve lift_runs modify_runs runIndividually_runs tryEnsure_runs : runs.

Lemma deref_runs i : Runs roomP (deref (D:=D) i).
Proof. unfold deref. runs. Qed.

Lemma run_loop_runs rs l dir : Runs roomP (run_loop goFn p rs l dir).
Proof.
  revert rs. induction l as [|i l IH]; intros rs; simpl; [apply runs_ret|].
  apply runs_bind; [apply deref_runs|]. intros m.
  apply runs_bind; [intros w Hw; unfold of_outcome, isEmpty, go_empty; by repeat case_match|]. intros empty.
  apply runs_bind; [apply runs_catch, lift_runs, runIndividually_runs|].
  intros []; [apply IH|apply runs_fail].
Qed.

Lemma store_lift_runs :
  (∀ v, Runs roomP (lift (GetMigration (p_store p) HConn v))) ∧
  Runs roomP (lift (GetLatestVersion (p_store p) HConn)) ∧
  Runs roomP (lift (ListMigrations (p_store p) HConn)) ∧
  Runs roomP (lift (getDBMaxVersion_conn (p_store p))).
Proof. destruct Hrun_store. split_and!; intros; apply lift_runs; unfold getDBMaxVersion_conn; runs. Qed.

#[local] Hint Resolve deref_runs run_loop_runs : runs.

Lemma runMigrations_runs l dir one : Runs roomP (runMigrations goFn interpolate up_first p l dir one).
Proof.
  destruct store_lift_runs as (_ & _ & _ & Hm).
  assert (∀ i d, Runs roomP (prepareMigration interpolate up_first p i d)).
  { intros i d. unfold prepareMigration. runs. }
  unfold runMigrations. runs.
Qed.

Lemma getMigration_runs v : Runs roomP (getMigration (D:=D) v).
Proof. unfold getMigration. runs. Qed.

Lemma down_collect_runs v l : Runs roomP (down_collect (D:=D) v l).
Proof. pose proof getMigration_runs. induction l; simpl; runs. Qed.

#[local] Hint Resolve runMigrations_runs getMigration_runs down_collect_runs : runs.

(** Before a method: the mutex is free and the pool has two connections left. *)
Definition ready (w : PW D) : Prop :=
  w_mu w = false ∧ (maxOpen (w_db w) ≤ 0 ∨ inUse (w_db w) + 1 < maxOpen (w_db w)).

Lemma ready_guard w w' : guard w' = guard w → ready w → ready w'.
Proof.
  unfold ready. intros Hg. pose proof (f_equal fst Hg) as Hmu. pose proof (f_equal snd Hg) as Hp.
  unfold guard, pool in *. simpl in *. injection Hp as -> ->. by rewrite Hmu.
Qed.

Lemma cleanup_conn_runs : Runs roomP (cleanup_conn (D:=D)).
Proof.
  apply runs_bind; [by apply modify_runs|]. intros _. apply runs_error_of, lift_runs.
  intros w Hw. destruct (conn_Close_run w) as (r & d & -> & Hr & _). simpl.
  split; [by destruct Hr as [->|[e ->]]|].
  unfold room, pool_exhausted in *. simpl. apply andb_false_iff in Hw. apply andb_false_iff.
  destruct Hw; [by left|right]. zify_bool. lia.
Qed.

Lemma cleanup_lock_runs u : Runs room u → Runs roomP (cleanup_lock (D:=D) u).
Proof.
  intros Hu. apply runs_bind; [by apply modify_runs|]. intros _.
  apply runs_bind; [by apply runs_error_of, lift_runs|]. intros e1.
  apply runs_bind; [|intros; apply runs_ret]. apply runs_error_of, lift_runs.
  intros w Hw. destruct (conn_Close_run w) as (r & d & -> & Hr & _). simpl.
  split; [by destruct Hr as [->|[e ->]]|].
  unfold room, pool_exhausted in *. simpl. apply andb_false_iff in Hw. apply andb_false_iff.
  destruct Hw; [by left|right]. zify_bool. lia.
Qed.

Definition step_runs (step : M (PW D) (M (PW D) (option error))) : Prop := ∀ w, roomP w →
  match step w with
  | (Ok cleanup, w') => roomP w' ∧ Runs roomP cleanup
  | (Block, _) => False
  | _ => True
  end.

Lemma step_runs_bind step k :
  step_runs step → (∀ c, Runs roomP c → step_runs (k c)) → step_runs (step ≫= k).
Proof.
  intros Hs Hk w Hw. unfold mbind, M_bind. specialize (Hs w Hw).
  destruct (step w) as [[c| | |] w1]; try done. destruct Hs. by apply Hk.
Qed.

Lemma step_runs_ret c : Runs roomP c → step_runs (mret c).
Proof. by intros Hc w Hw. Qed.

Lemma step_runs_catch (m : M (PW D) unit) cleanup next :
  Runs roomP m → Runs roomP cleanup → Runs roomP next →
  step_runs (r ← catch m; match r with inr err => fail_cleanup err cleanup | inl _ => mret next end).
Proof.
  intros Hm Hc Hn w Hw. unfold catch, mbind, M_bind. destruct (Hm w Hw) as [Hb Hw1].
  destruct (m w) as [[a|e|s|] w1]; simpl in *; try done.
  unfold fail_cleanup, mbind, M_bind. destruct (Hc w1 Hw1) as [Hb2 _].
  destruct (cleanup w1) as [[ce|e2|s|] w2]; try done. by destruct (multierr_Append _ _).
Qed.

Lemma initialize_runs b w : ready w →
  match initialize p b w with
  | (Ok cleanup, w') => roomP w' ∧ Runs roomP cleanup
  | (Block, _) => False
  | _ => True
  end.
Proof.
  intros [Hmu Hroom]. unfold initialize. unfold mbind at 1, M_bind at 1, mu_Lock. rewrite Hmu.
  unfold mbind at 1, M_bind at 1, catch at 1, lift at 1, zoom at 1, db_Conn. cbn [w_db set_mu].
  assert (pool_exhausted (w_db w) = false) as ->.
  { unfold pool_exhausted. apply andb_false_iff.
    destruct Hroom; [left; apply Z.ltb_ge|right; apply Z.leb_gt]; lia. }
  destruct (drv_connect (drv (w_db w))) as [[e|] d]; [done|].
  match goal with |- match ?m ?w1 with _ => _ end =>
    cut (step_runs m); [intros Hl; apply (Hl w1)|] end.
  { unfold roomP, room, pool_exhausted. simpl. apply andb_false_iff.
    destruct Hroom; [left; apply Z.ltb_ge|right; apply Z.leb_gt]; lia. }
  pose proof cleanup_conn_runs as Hc0.
  apply step_runs_bind; [|intros c1 Hc1; apply step_runs_bind; [|intros c2 Hc2]].
  - destruct (b && _); [|by apply step_runs_ret].
    destruct (c_sessionLocker (p_cfg p)) as [l|] eqn:Hl; [|by apply step_runs_ret].
    destruct (session_lock_runs _ Hrun_lock l Hl).
    apply step_runs_catch; [by apply lift_runs|done|by apply cleanup_lock_runs].
  - destruct (b && _); [|by apply step_runs_ret].
    destruct (c_locker (p_cfg p)) as [l|] eqn:Hl; [|by apply step_runs_ret].
    destruct (locker_runs _ Hrun_lock l Hl).
    apply step_runs_catch; [by apply lift_runs|done|by apply cleanup_lock_runs].
  - destruct (c_disableVersioning _); [by apply step_runs_ret|].
    apply step_runs_catch; [|done|done]. unfold ensureVersionTable. runs.
Qed.

#[local] Transparent with_conn.

Lemma with_conn_ready {A} (z : A) b wrap body :
  Preserves guard body → Runs roomP body → Runs ready (with_conn p z b wrap body).
Proof.
  intros Hg Hb w Hw. pose proof (with_conn_guard z b wrap body Hg w) as Hguard.
  assert ((with_conn p z b wrap body w).1 ≠ Block) as Hnb.
  { unfold with_conn, mbind, M_bind, catch. pose proof (initialize_runs b w Hw) as Hi.
    destruct (initialize p b w) as [[cleanup|e|s|] w1]; try done.
    destruct Hi as [Hw1 Hc]. unfold defer_append. destruct (Hb w1 Hw1) as [Hnb Hw2].
    destruct (body w1) as [[[a r]|e|s|] w2]; simpl in *; try done;
      destruct (Hc w2 Hw2) as [Hnc _]; by destruct (cleanup w2) as [[] w3]. }
  split; [done|]. destruct (with_conn p z b wrap body w) as [[] w']; simpl in *; try done;
    by eapply ready_guard.
Qed.

#[local] Opaque with_conn.

Lemma bodies_run :
  (∀ one v, Runs roomP (up_body goFn interpolate up_first p one v)) ∧
  (∀ one v, Runs roomP (down_body goFn interpolate up_first p one v)) ∧
  (∀ i v d, Runs roomP (apply_body goFn interpolate up_first p i v d)) ∧
  Runs roomP (hasPending_body p) ∧ Runs roomP (getVersions_body p) ∧
  (∀ m, Runs roomP (status_one p m)).
Proof.
  destruct store_lift_runs as (Hg & Hl & Hls & _).
  unfold up_body, all_pointers, down_body, apply_body, hasPending_body, getVersions_body, target_version,
    status_one. split_and!; runs.
Qed.

Lemma HasPending_ready : Runs ready (HasPending p).
Proof.
  destruct bodies_run as (_ & _ & _ & Hh & _).
  apply with_conn_ready; [apply preserves_returning, hasPending_body_guard|by apply runs_returning].
Qed.

Lemma up_ready one v : Runs ready (up goFn interpolate up_first p one v).
Proof.
  destruct bodies_run as (Hu & _). unfold up. destruct (v <? 1); [apply runs_ret|].
  apply with_conn_ready; [apply preserves_returning, up_body_guard|apply runs_returning, Hu].
Qed.

Lemma when_pending_ready {A} (z : A) f m : Runs ready m → Runs ready (when_pending p z f m).
Proof.
  intros. unfold when_pending. apply runs_bind; [apply HasPending_ready|].
  intros [pending err]. destruct err; [apply runs_ret|]. destruct pending; [done|apply runs_ret].
Qed.

Lemma fmap_runs {W A B} (I : W → Prop) (f : A → B) (m : M W A) : Runs I m → Runs I (f <$> m).
Proof. intros. apply runs_bind; [done|]. intros. apply runs_ret. Qed.

Lemma down_ready one v : Runs ready (down goFn interpolate up_first p one v).
Proof.
  destruct bodies_run as (_ & Hd & _).
  apply with_conn_ready; [apply preserves_returning, down_body_guard|apply runs_returning, Hd].
Qed.

Lemma apply_ready v d : Runs ready (apply goFn interpolate up_first p v d).
Proof.
  destruct bodies_run as (_ & _ & Ha & _). unfold apply. destruct (v <? 1); [apply runs_ret|].
  apply runs_bind; [apply runs_catch; unfold getMigration; runs|].
  intros [i|e]; [|apply runs_ret].
  apply with_conn_ready; [apply preserves_returning, apply_body_guard|apply runs_returning, Ha].
Qed.

Lemma run_call_ready c : Runs ready (run_call c).
Proof.
  destruct bodies_run as (_ & _ & _ & _ & Hv & Hs). destruct store_lift_runs as (_ & Hl & _).
  destruct c; cbn [Provider.run_call]; try apply fmap_runs.
  - apply when_pending_ready, up_ready.
  - apply when_pending_ready. apply runs_bind; [apply up_ready|intros; apply runs_ret].
  - apply when_pending_ready, up_ready.
  - apply runs_bind; [apply down_ready|intros; apply runs_ret].
  - unfold DownTo. destruct (version <? 0); [apply runs_ret|apply down_ready].
  - apply runs_bind; [apply apply_ready|intros; apply runs_ret].
  - apply with_conn_ready; [unfold status_one; preserve|runs].
  - apply HasPending_ready.
  - apply with_conn_ready; [apply getVersions_body_guard|done].
  - unfold GetDBVersion, getDBMaxVersion. destruct (c_disableVersioning _); [apply runs_ret|].
    apply with_conn_ready; [preserve|runs].
  - apply runs_gets.
Qed.


End Locks.
