(* ===== verification/RunnerSpec.v ===== *)
(** * What running a migration does to the version table

    A migration that runs in a transaction is all or nothing; whatever the
    mode, its version is recorded exactly when it is reported as run. *)

From S2P Require Import Prelude GoStrings Effects SqlParser Sql Store Migration Options Collect.
From S2P Require Import Runner.

(** The rows of the version table. *)
Definition table {D U} `{DbModel D U} (w : DB D) : option (list (Z * bool)) := (db_view w).1.

(** What recording version [v] does to the rows: a new row, or no row left. *)
Definition record (direction : bool) (v : Z) (t : list (Z * bool)) : list (Z * bool) :=
  if direction then (v, true) :: t else filter (λ r, r.1 ≠ v) t.

Definition record_all (direction : bool) (vs : list Z) (t : list (Z * bool)) : list (Z * bool) :=
  foldl (λ t v, record direction v t) t vs.

Lemma record_all_app dir vs vs' t : record_all dir (vs ++ vs') t = record_all dir vs' (record_all dir vs t).
Proof. apply foldl_app. Qed.

Lemma record_all_up vs t : record_all true vs t = reverse (map (λ v, (v, true)) vs) ++ t.
Proof.
  revert t. induction vs as [|v vs IH]; intros t; [done|].
  change (record_all true (v :: vs) t) with (record_all true vs ((v, true) :: t)).
  rewrite IH. cbn [map]. by rewrite reverse_cons, <- app_assoc.
Qed.

Lemma record_all_down vs t : record_all false vs t = filter (λ r, r.1 ∉ vs) t.
Proof.
  revert t. induction vs as [|v vs IH]; intros t.
  { simpl. induction t as [|r t IH]; [done|]. rewrite filter_cons_True by (intros []%elem_of_nil).
    by rewrite <- IH. }
  change (record_all false (v :: vs) t) with (record_all false vs (filter (λ r, r.1 ≠ v) t)).
  rewrite IH, list_filter_filter. apply list_filter_ext_elem. intros r _.
  rewrite not_elem_of_cons. tauto.
Qed.

(** The assumptions on the user's code: its statements and functions leave the
    version table to goose, and its functions leave the transaction to goose. *)
Class UserLaws {D U} `{Driver D, DbModel D U} (user_stmt : string → Prop)
    (goFn : Z → DBTxConn → M (DB D) unit) := {
  user_sql db q d : user_stmt q → (view (drv_exec db q [] d).2).1 = (view d).1;
  user_go_session id db : Preserves session (goFn id db);
  user_go_table id db : Preserves table (goFn id db)
}.

(** The statements of a migration, once parsed, are the user's. *)
Definition stmts_ok (user_stmt : string → Prop) (m : Migration) : Prop :=
  Forall user_stmt (sql_Up (m_sql m)) ∧ Forall user_stmt (sql_Down (m_sql m)).

Section RunnerSpec.
Context {D U : Type} `{DbLaws D U, MultierrLaws}.

(** ** Transactions *)

Lemma fail_append_err {A} err other (zero : A) (w : DB D) r w' :
  fail_append err other zero w = (r, w') → (∃ e, r = Err e) ∧ w' = w.
Proof.
  unfold fail_append. destruct (multierr_Append (Some err) other) eqn:Ha.
  - intros [= <- <-]. eauto.
  - by apply append_None in Ha as [? _].
Qed.

(** The connection's state inside the transaction that [conn_BeginTx] opened. *)
Lemma conn_BeginTx_ok (w w1 : DB D) :
  conn_BeginTx w = (Ok tt, w1) →
  db_view w1 = db_view w ∧ txOpen w1 = true ∧ snap (drv w1) = Some (db_view w).
Proof.
  unfold conn_BeginTx, drv_call, modify, mbind, M_bind, db_view. intros Hb.
  pose proof (begin_view (drv w)) as Hv. pose proof (begin_snap (drv w)) as Hs.
  destruct (drv_begin (drv w)) as [[e|] d]; simplify_eq/=. done.
Qed.

Lemma conn_BeginTx_err (w w1 : DB D) e : conn_BeginTx w = (Err e, w1) → db_view w1 = db_view w.
Proof.
  unfold conn_BeginTx, drv_call, modify, mbind, M_bind, db_view. intros Hb.
  pose proof (begin_view (drv w)) as Hv.
  destruct (drv_begin (drv w)) as [[e'|] d]; by simplify_eq/=.
Qed.

Lemma conn_BeginTx_cases (w : DB D) r w1 : conn_BeginTx w = (r, w1) → r = Ok tt ∨ ∃ e, r = Err e.
Proof.
  unfold conn_BeginTx, drv_call, modify, mbind, M_bind.
  destruct (drv_begin (drv w)) as [[e'|] d]; intros; simplify_eq; eauto.
Qed.

Lemma tx_Rollback_open (w : DB D) v :
  txOpen w = true → snap (drv w) = Some v →
  ∃ r w', error_of tx_Rollback w = (Ok r, w') ∧ db_view w' = v.
Proof.
  intros Ho Hs. unfold error_of, catch, tx_Rollback, gets, drv_call, modify, mbind, M_bind, db_view.
  rewrite Ho. simpl. pose proof (rollback_view (drv w) v Hs) as Hr.
  destruct (drv_rollback (drv w)) as [[e|] d]; simpl in *; eauto.
Qed.

Lemma tx_Rollback_done (w : DB D) :
  txOpen w = false → error_of tx_Rollback w = (Ok (Some ErrTxDone), w).
Proof.
  intros Ho. unfold error_of, catch, tx_Rollback, gets, mbind, M_bind. by rewrite Ho.
Qed.

Lemma tx_Commit_open (w : DB D) v :
  txOpen w = true → snap (drv w) = Some v →
  (∃ w', tx_Commit w = (Ok tt, w') ∧ db_view w' = db_view w) ∨
  (∃ e w', tx_Commit w = (Err e, w') ∧ db_view w' = v ∧ txOpen w' = false).
Proof.
  intros Ho Hs. unfold tx_Commit, gets, drv_call, modify, mbind, M_bind, db_view.
  rewrite Ho. simpl. pose proof (commit_view (drv w) v Hs) as Hr.
  destruct (drv_commit (drv w)) as [[e|] d]; simpl in *; eauto 8.
Qed.

(** A transaction commits what its body did, or leaves the database as it was. *)
Lemma beginTx_run fn (w : DB D) :
  Preserves session fn →
  match beginTx fn w with
  | (Ok _, w') => ∃ w1 w2, fn w1 = (Ok tt, w2) ∧ db_view w1 = db_view w ∧ db_view w' = db_view w2
  | (Err _, w') => db_view w' = db_view w
  | _ => True
  end.
Proof.
  intros Hfn. unfold beginTx. rewrite bind_eq.
  destruct (conn_BeginTx w) as [r w1] eqn:Hb.
  destruct (conn_BeginTx_cases _ _ _ Hb) as [->|[e ->]]; [|by eapply conn_BeginTx_err].
  destruct (conn_BeginTx_ok _ _ Hb) as (Hv & Ho & Hs).
  rewrite bind_eq, error_of_run, bind_eq.
  specialize (Hfn w1). destruct (fn w1) as [[[]|e|s|] w2] eqn:Hw2; [| |exact I|exact I];
    unfold session in Hfn; injection Hfn as _ _ Ho2 Hs2; rewrite Ho in Ho2; rewrite Hs in Hs2.
  - destruct (tx_Commit_open w2 _ Ho2 Hs2) as [(w3 & -> & Hw3)|(e & w3 & -> & Hw3 & Ho3)].
    + exists w1, w2. done.
    + rewrite bind_eq, (tx_Rollback_done _ Ho3).
      destruct (fail_append e (Some ErrTxDone) tt w3) as [r w4] eqn:Hf.
      apply fail_append_err in Hf as [[e' ->] ->]. by rewrite Hw3.
  - destruct (tx_Rollback_open w2 _ Ho2 Hs2) as (re & w3 & Hre & Hw3). rewrite bind_eq, Hre.
    destruct (fail_append e re tt w3) as [r w4] eqn:Hf.
    apply fail_append_err in Hf as [[e' ->] ->]. by rewrite Hw3.
Qed.

(** ** One migration *)

Context `{Retry}.
Context (user_stmt : string → Prop) (goFn : Z → DBTxConn → M (DB D) unit)
  `{!UserLaws user_stmt goFn}.
Context (store : Store D) (Hstore : StoreSpec (U:=U) store).

Lemma call_go_table f db : Preserves table (call_go goFn f db) ∧ Preserves session (call_go goFn f db).
Proof.
  destruct f as [id|]; simpl; [|by split; apply preserves_ret].
  split; [apply user_go_table|apply user_go_session].
Qed.

Lemma ExecContext_table db q : user_stmt q → Preserves table (ExecContext (D:=D) db q []).
Proof.
  intros Hq w. unfold ExecContext, with_handle, drv_call, table, db_view.
  pose proof (user_sql (U:=U) db q (drv w) Hq) as Hx.
  destruct (drv_exec db q [] (drv w)) as [[] d]; destruct db, (pool_exhausted w), (txOpen w);
    simpl in *; done.
Qed.

Lemma preserves_mfor_elem {W B A} (f : W → B) (g : A → M W unit) l :
  (∀ x, x ∈ l → Preserves f (g x)) → Preserves f (mfor g l).
Proof.
  intros Hg. induction l as [|x l IH]; simpl; [done|].
  apply preserves_bind; [apply Hg; by left|]. intros _. apply IH. intros; apply Hg. by right.
Qed.

Lemma runMigration_table db m dir :
  stmts_ok user_stmt m → Preserves table (runMigration goFn db m dir).
Proof.
  intros [Hup Hdown]. unfold runMigration. destruct (m_Type m); [| |done].
  - unfold runGo. apply preserves_recover. destruct db; [|done|]; case_match; try done; apply call_go_table.
  - unfold runSQL. destruct (negb _); [done|]. apply preserves_mfor_elem. intros q Hq.
    apply ExecContext_table. rewrite Forall_forall in Hup, Hdown. destruct dir; auto.
Qed.

Lemma runMigration_session db m dir : Preserves session (runMigration goFn db m dir).
Proof.
  unfold runMigration. destruct (m_Type m); [| |done].
  - unfold runGo. apply preserves_recover. destruct db; [|done|]; case_match; try done; apply call_go_table.
  - unfold runSQL. destruct (negb _); [done|]. apply preserves_mfor. intros q. apply ExecContext_session.
Qed.

Lemma maybeInsertOrDelete_run dv db v dir (w : DB D) :
  match maybeInsertOrDelete store dv db v dir w with
  | (Ok _, w') => if dv then table w' = table w
                  else ∃ t, table w = Some t ∧ table w' = Some (record dir v t)
  | (Err _, w') => db_view w' = db_view w
  | (Panic _, _) => False
  | (Block, _) => True
  end.
Proof.
  unfold maybeInsertOrDelete. destruct dv; [done|]. unfold table, record.
  destruct dir.
  - destruct (Insert store db v w) as [[[]|e|s|] w'] eqn:Hi; [| | |done].
    + destruct (insert_ok _ _ _ _ Hi) as (l & Hl & ->). eauto.
    + by eapply insert_err.
    + by eapply insert_no_panic.
  - destruct (Delete store db v w) as [[[]|e|s|] w'] eqn:Hi; [| | |done].
    + destruct (delete_ok _ _ _ _ Hi) as (l & Hl & ->). eauto.
    + by eapply delete_err.
    + by eapply delete_no_panic.
Qed.

Lemma maybeInsertOrDelete_session dv db v dir : Preserves session (maybeInsertOrDelete store dv db v dir).
Proof.
  unfold maybeInsertOrDelete. destruct dv; [done|].
  destruct dir; [apply insert_session|apply delete_session].
Qed.

(** The two parts of running a migration, on one handle. *)
Lemma run_and_record dv db m dir (w : DB D) :
  stmts_ok user_stmt m →
  match (runMigration goFn db m dir;; maybeInsertOrDelete store dv db (m_Version m) dir) w with
  | (Ok _, w') => if dv then table w' = table w
                  else ∃ t, table w = Some t ∧ table w' = Some (record dir (m_Version m) t)
  | (Err _, w') => table w' = table w
  | _ => True
  end.
Proof.
  intros Hm. unfold mbind, M_bind. pose proof (runMigration_table db m dir Hm w) as Ht.
  destruct (runMigration goFn db m dir w) as [[a|e|s|] w1]; try done.
  pose proof (maybeInsertOrDelete_run dv db (m_Version m) dir w1) as Hr.
  destruct (maybeInsertOrDelete store dv db (m_Version m) dir w1) as [[a'|e|s|] w2]; try done.
  - by rewrite <- Ht.
  - unfold table in *. by rewrite Hr.
Qed.

(** Recording is part of running: the version table changes exactly when the
    migration succeeds, in every mode. *)
Lemma runIndividually_table dv iso m dir (w : DB D) :
  stmts_ok user_stmt m →
  match runIndividually goFn store dv iso m dir w with
  | (Ok _, w') => if dv then table w' = table w
                  else ∃ t, table w = Some t ∧ table w' = Some (record dir (m_Version m) t)
  | (Err _, w') => table w' = table w
  | _ => True
  end.
Proof.
  intros Hm. unfold runIndividually. unfold mbind at 1, M_bind at 1, of_outcome.
  destruct (useTx m dir) as [tx|e|s|]; try done.
  destruct (tx && negb iso).
  - pose proof (beginTx_run (runMigration goFn HTx m dir;;
      maybeInsertOrDelete store dv HTx (m_Version m) dir) w) as Hb.
    destruct (beginTx _ w) as [[a|e|s|] w']; try done.
    + destruct Hb as (w1 & w2 & Hrun & Hv1 & Hv2).
      { apply preserves_bind; [apply runMigration_session|intros; apply maybeInsertOrDelete_session]. }
      pose proof (run_and_record dv HTx m dir w1 Hm) as Hr. rewrite Hrun in Hr.
      unfold table in *. by rewrite Hv2, <- Hv1.
    + unfold table. rewrite Hb; [done|].
      apply preserves_bind; [apply runMigration_session|intros; apply maybeInsertOrDelete_session].
  - destruct (m_Type m); [by apply run_and_record..|done].
Qed.

(** C16: a migration that runs in a transaction and fails, in whatever way
    (a statement, the user's function, a panic in it, the record of the version,
    the commit), leaves the database exactly as it was. *)
Theorem failed_tx_rolls_back dv m dir w e w' :
  useTx m dir = Ok true →
  runIndividually goFn store dv false m dir w = (Err e, w') → db_view w' = db_view w.
Proof.
  intros Htx. unfold runIndividually. unfold mbind at 1, M_bind at 1, of_outcome. rewrite Htx. simpl.
  intros Hrun. pose proof (beginTx_run (runMigration goFn HTx m dir;;
    maybeInsertOrDelete store dv HTx (m_Version m) dir) w) as Hb.
  rewrite Hrun in Hb. apply Hb.
  apply preserves_bind; [apply runMigration_session|intros; apply maybeInsertOrDelete_session].
Qed.

End RunnerSpec.
