(* ===== verification/ProviderSpec.v ===== *)
(** * What the provider's methods do to the database

    The contract of the exported methods in terms of the rows of the version
    table: which migrations are run, in which order, what is recorded, and what
    the error says when one fails. *)

From S2P Require Import Prelude GoStrings Effects Resolve SqlParser Sql Store Migration Options.
From S2P Require Import Collect Runner Provider ProviderLocks RunnerSpec.

Definition ptable {D U} `{DbModel D U} (w : PW D) : option (list (Z * bool)) := table (w_db w).
Definition pversions {D} (w : PW D) : list Z := versions (w_migs w).

(** The table after a provider made sure that it exists. *)
Definition ensured (t : option (list (Z * bool))) : list (Z * bool) := default [(0, true)] t.

(** The store can tell whether the table exists, as that of most dialects. *)
Definition tells_existence {D} (st : Store D) : Prop := ∀ db w e w',
  TableExists st db w = (Err e, w') → errors_Is e ErrUnsupported = false.

Section ProviderSpec.
Context {D U : Type} `{DbLaws D U, MultierrLaws, RetryLaws}.
Context (user_stmt : string → Prop) (goFn : Z → DBTxConn → M (DB D) unit)
  `{!UserLaws (U:=U) user_stmt goFn}.
Context (interpolate : string → result string) (up_first : string → bool).
Context (p : Provider D) (Hstore : StoreSpec (U:=U) (p_store p)) (Hlock : lockers_ok (U:=U) (p_cfg p)).
Context (Hexists : tells_existence (p_store p)).
Context (Hparsed : ∀ up_first name ps,
  ParseAllFromFS interpolate up_first (fs_Open (p_fsys p)) name = inl ps →
  Forall user_stmt (Up ps) ∧ Forall user_stmt (Down ps)).

Abbreviation store := (p_store p).
Abbreviation cfg := (p_cfg p).
Abbreviation ptable := (ptable (U:=U)).
Abbreviation table := (table (U:=U)).

(** ** The version table is created once *)

Lemma create_version_table_run (w : DB D) :
  match create_version_table store false w with
  | (Ok _, w') => table w' = Some ((0, true) :: default [] (table w))
  | (Err e, w') => db_view w' = db_view w ∧ ∃ e', e = ERetryable e'
  | _ => True
  end.
Proof.
  unfold create_version_table.
  pose proof (beginTx_run (CreateVersionTable store HTx;; Insert store HTx 0) w) as Hb.
  unfold wrap_err. destruct (beginTx _ w) as [[a|e|s|] w']; try done.
  - destruct Hb as (w1 & w2 & Hrun & Hv1 & Hv2).
    { apply preserves_bind; [apply create_session|intros; apply insert_session]. }
    apply bind_ok in Hrun as ([] & w3 & Hc & Hi).
    apply create_ok in Hc. apply insert_ok in Hi as (l & Hl & Hi).
    unfold RunnerSpec.table. rewrite Hv2, Hi. simpl. rewrite Hc in Hl. simpl in Hl. simplify_eq.
    by rewrite Hv1.
  - split; [|eauto]. apply Hb. apply preserves_bind; [apply create_session|intros; apply insert_session].
Qed.

Lemma ensure_attempt_run iso (w : DB D) :
  iso = false ∨ is_Some (table w) →
  match ensure_attempt store iso w with
  | (Ok _, w') => table w' = Some (ensured (table w))
  | (Err e, w') => table w' = table w
  | _ => True
  end.
Proof.
  intros Hiso. unfold ensure_attempt. rewrite bind_eq, catch_run.
  pose proof (exists_view HConn w) as Hv.
  destruct (TableExists store HConn w) as [[b|e|s|] w1] eqn:He; try exact I.
  - apply exists_ok in He as ->. destruct (table w) as [t|] eqn:Ht; unfold RunnerSpec.table in *.
    + rewrite Ht. simpl. rewrite Hv. by rewrite Ht.
    + rewrite Ht. simpl. destruct Hiso as [->|[? ?]]; [|done].
      pose proof (create_version_table_run w1) as Hc. unfold RunnerSpec.table in Hc.
      destruct (create_version_table store false w1) as [[[]|e|s|] w2]; try done.
      * by rewrite Hc, Hv, Ht.
      * destruct Hc as [-> _]. by rewrite Hv.
  - rewrite (Hexists _ _ _ _ He). unfold RunnerSpec.table. simpl. by rewrite Hv.
Qed.

Lemma tryEnsure_run iso (w : DB D) :
  iso = false ∨ is_Some (table w) →
  match tryEnsureVersionTable store iso w with
  | (Ok _, w') => table w' = Some (ensured (table w))
  | (Err _, w') => table w' = table w
  | _ => True
  end.
Proof.
  intros Hiso. unfold tryEnsureVersionTable.
  destruct (retry_Do_spec _ (mkBackoff 3 Second) (ensure_attempt store iso) w) as (n & r & w' & Ha & _ & -> & _).
  assert (match r with
    | Ok _ => table w' = Some (ensured (table w))
    | Err _ => table w' = table w | _ => True end) as Hr.
  { induction Ha as [w r w' Hf|n w e w1 r w' Hf _ IH];
      pose proof (ensure_attempt_run iso w Hiso) as Hrun; rewrite Hf in Hrun; [done|].
    rewrite Hrun in IH. by apply IH. }
  by destruct r as [|[]| |].
Qed.

(** ** Initialization *)

(** What is left alone between the operations on the version table. *)
Definition pframe (w : PW D) := (db_view (w_db w) : option (list (Z * bool)) * U, w_migs w, w_once w).

Lemma lift_frame {A} (m : M (DB D) A) : Preserves db_view m → Preserves pframe (lift m).
Proof.
  intros Hm w. unfold lift, zoom. specialize (Hm (w_db w)). unfold pframe.
  destruct (m (w_db w)) as [[] d]; simpl; congruence || done.
Qed.

Lemma mu_Unlock_frame : Preserves pframe mu_Unlock.
Proof. by intros w. Qed.

Lemma conn_Close_view : Preserves db_view (conn_Close (D:=D)).
Proof.
  intros w. destruct (conn_Close_run w) as (r & d & -> & Hr & Hv). unfold db_view.
  by destruct Hr as [->|[e ->]].
Qed.

#[local] Hint Resolve lift_frame mu_Unlock_frame conn_Close_view : preserve.

Lemma cleanup_conn_frame : Preserves pframe (cleanup_conn (D:=D)).
Proof. unfold cleanup_conn. preserve. Qed.

Lemma cleanup_lock_frame u : lock_op_ok (U:=U) u → Preserves pframe (cleanup_lock u).
Proof. intros [_ Hu _]. unfold cleanup_lock. preserve. Qed.

Lemma fail_cleanup_frame {A} err c : Preserves pframe c → Preserves pframe (fail_cleanup err c : M (PW D) A).
Proof. intros. unfold fail_cleanup. preserve. Qed.

Definition frame_step (step : M (PW D) (M (PW D) (option error))) : Prop :=
  Preserves pframe step ∧ ∀ w c w', step w = (Ok c, w') → Preserves pframe c.

Lemma frame_step_bind step k :
  frame_step step → (∀ c, Preserves pframe c → frame_step (k c)) → frame_step (step ≫= k).
Proof.
  intros [Hs Hc] Hk. split.
  - intros w. rewrite bind_eq. specialize (Hs w).
    destruct (step w) as [[c|e|s|] w1] eqn:Hw; try done.
    pose proof (proj1 (Hk c (Hc _ _ _ Hw)) w1) as Hw1. destruct (k c w1) as [[] w2]; congruence || done.
  - intros w c' w' (c & w1 & Hw & Hk')%bind_ok. eapply Hk; [by eapply Hc|done].
Qed.

Lemma frame_step_ret c : Preserves pframe c → frame_step (mret c).
Proof. intros Hc. split; [done|]. by intros w c' w' [= <- _]. Qed.

Lemma frame_step_catch (m : M (PW D) unit) cleanup next :
  Preserves pframe m → Preserves pframe cleanup → Preserves pframe next →
  frame_step (r ← catch m; match r with inr err => fail_cleanup err cleanup | inl _ => mret next end).
Proof.
  intros Hm Hc Hn. split.
  - apply preserves_bind; [by apply preserves_catch|]. intros []; [done|by apply fail_cleanup_frame].
  - intros w c w'. rewrite bind_eq, catch_run. destruct (m w) as [[a|e|s|] w1]; try done.
    + by intros [= <- _].
    + intros Hf. unfold fail_cleanup in Hf. apply bind_ok in Hf as (ce & w2 & _ & Hf).
      by destruct (multierr_Append _ _).
Qed.

(** The once-flag is only set when the table was made sure to exist, unless a
    first attempt failed. *)
Definition once_ok (w : PW D) : Prop := w_once w = true → is_Some (ptable w).

(** Creating the table is one transaction, or the table is there. *)
Definition creatable (w : PW D) : Prop :=
  c_disableVersioning cfg = true ∨ (once_ok w ∧ (c_isolateDDL cfg = false ∨ is_Some (ptable w))).

(** The table a method's body starts from. *)
Definition start_table (w : PW D) : option (list (Z * bool)) :=
  if c_disableVersioning cfg then ptable w else Some (ensured (ptable w)).

Lemma frame_table w w' : pframe w' = pframe w → ptable w' = ptable w ∧ w_migs w' = w_migs w ∧ w_once w' = w_once w.
Proof. unfold pframe, ProviderSpec.ptable, RunnerSpec.table. by intros [= -> -> ->]. Qed.

Lemma frame_step_run step w : frame_step step →
  match step w with
  | (Ok c, w') => pframe w' = pframe w ∧ Preserves pframe c
  | (Err _, w') => pframe w' = pframe w
  | _ => True
  end.
Proof.
  intros [Hs Hc]. specialize (Hs w). destruct (step w) as [[c|e|s|] w'] eqn:Hw; try done.
  split; [done|by eapply Hc].
Qed.

(** The last step of [initialize]. *)
Lemma ensure_step_run cleanup w :
  creatable w → Preserves pframe cleanup →
  match (if c_disableVersioning cfg then mret cleanup
         else r ← catch (ensureVersionTable p);
              match r with inr err => fail_cleanup err cleanup | inl _ => mret cleanup end) w with
  | (Ok c, w') => ptable w' = start_table w ∧ w_migs w' = w_migs w ∧ c = cleanup
  | (Err _, w') => ptable w' = ptable w ∧ w_migs w' = w_migs w
  | _ => True
  end.
Proof.
  unfold creatable, start_table. intros Hcr Hc. destruct (c_disableVersioning cfg); [done|].
  destruct Hcr as [?|[Honce Hiso]]; [done|].
  rewrite bind_eq, catch_run. unfold ensureVersionTable. rewrite bind_eq. unfold gets at 1.
  destruct (w_once w) eqn:Ho.
  { cbn. destruct (Honce Ho) as [t Ht]. by rewrite Ht. }
  rewrite bind_eq. cbn [modify]. unfold lift, zoom.
  pose proof (tryEnsure_run (c_isolateDDL cfg) (w_db w) Hiso) as Hrun. cbn [w_db set_once].
  destruct (tryEnsureVersionTable store (c_isolateDDL cfg) (w_db w)) as [[a|e|s|] d]; try exact I.
  { done. }
  set (w1 := set_db d (set_once true w)).
  pose proof (fail_cleanup_frame (A:=M (PW D) (option error)) e cleanup Hc w1) as Hf.
  destruct (fail_cleanup e cleanup w1) as [[c|e'|s|] w2] eqn:Hfc; try exact I.
  - exfalso. unfold fail_cleanup in Hfc. apply bind_ok in Hfc as (ce & w3 & _ & Hfc).
    by destruct (multierr_Append _ _).
  - apply frame_table in Hf as (Ht & Hm & _). rewrite Ht, Hm. done.
Qed.

Lemma db_Conn_view : Preserves db_view (db_Conn (D:=D)).
Proof.
  intros d. unfold db_Conn, db_view. destruct (pool_exhausted d); [done|].
  pose proof (connect_view (drv d)) as Hc. by destruct (drv_connect (drv d)) as [[] d'].
Qed.

Lemma initialize_table b w :
  creatable w →
  match initialize p b w with
  | (Ok cleanup, w') => ptable w' = start_table w ∧ w_migs w' = w_migs w ∧ Preserves pframe cleanup
  | (Err _, w') => ptable w' = ptable w ∧ w_migs w' = w_migs w
  | _ => True
  end.
Proof.
  intros Hcr. unfold initialize. rewrite bind_eq. unfold mu_Lock.
  destruct (w_mu w); [exact I|]. rewrite bind_eq, catch_run.
  pose proof (lift_frame _ db_Conn_view (set_mu true w)) as Hf.
  destruct (lift db_Conn (set_mu true w)) as [[a|e|s|] w1]; try exact I.
  2: { apply frame_table in Hf as (Ht & Hm & _). done. }
  pose proof cleanup_conn_frame as Hc0.
  match goal with |- match (?A ≫= ?K) ?w1 with _ => _ end => assert (frame_step A) as HA end.
  { destruct (b && _); [|by apply frame_step_ret].
    destruct (c_sessionLocker cfg) as [l|] eqn:Hl; [|by apply frame_step_ret].
    destruct (session_lock_ok _ Hlock l Hl) as [[_ Hlk _] Hul].
    apply frame_step_catch; [by apply lift_frame|done|by apply cleanup_lock_frame]. }
  rewrite bind_eq. apply (frame_step_run _ w1) in HA.
  match goal with HA : match ?A w1 with _ => _ end |- _ => destruct (A w1) as [[c1|e|s|] w2]; try exact I end.
  2: { rewrite Hf in HA. apply frame_table in HA as (Ht & Hm & _). done. }
  destruct HA as [Hw2 Hc1]. rewrite Hf in Hw2.
  match goal with |- match (?A ≫= ?K) ?w1 with _ => _ end => assert (frame_step A) as HA end.
  { destruct (b && _); [|by apply frame_step_ret].
    destruct (c_locker cfg) as [l|] eqn:Hl; [|by apply frame_step_ret].
    destruct (locker_ok _ Hlock l Hl) as [[_ Hlk _] Hul].
    apply frame_step_catch; [by apply lift_frame|done|by apply cleanup_lock_frame]. }
  rewrite bind_eq. apply (frame_step_run _ w2) in HA.
  match goal with HA : match ?A w2 with _ => _ end |- _ => destruct (A w2) as [[c2|e|s|] w3]; try exact I end.
  2: { rewrite Hw2 in HA. apply frame_table in HA as (Ht & Hm & _). done. }
  destruct HA as [Hw3 Hc2]. rewrite Hw2 in Hw3. apply frame_table in Hw3 as (Ht & Hm & Ho).
  cbn in Ht, Hm, Ho. assert (creatable w3 ∧ start_table w3 = start_table w) as [Hcr3 Hst].
  { unfold creatable, once_ok, start_table in *. rewrite Ht, Ho. done. }
  pose proof (ensure_step_run c2 w3 Hcr3 Hc2) as He.
  match goal with He : match ?m with _ => _ end |- _ => destruct m as [[c3|e|s|] w4]; try done end.
  - destruct He as (Ht4 & Hm4 & ->). rewrite Ht4, Hm4, Hst. done.
  - destruct He as (Ht4 & Hm4). by rewrite Ht4, Hm4, Ht.
Qed.

(** ** The frame of a method *)

Lemma with_conn_table {A} (z : A) b wrap body w :
  creatable w →
  match with_conn p z b wrap body w with
  | (Ok (a, err), w') =>
      (a = z ∧ err ≠ None ∧ ptable w' = ptable w ∧ w_migs w' = w_migs w) ∨
      ∃ w1 w2 berr, ptable w1 = start_table w ∧ w_migs w1 = w_migs w ∧
        body w1 = (Ok (a, berr), w2) ∧ (err = None → berr = None) ∧
        ptable w' = ptable w2 ∧ w_migs w' = w_migs w2
  | _ => True
  end.
Proof.
  intros Hcr. unfold with_conn. rewrite bind_eq, catch_run. pose proof (initialize_table b w Hcr) as Hi.
  destruct (initialize p b w) as [[cleanup|e|s|] w1]; try exact I; [|left; by destruct Hi].
  destruct Hi as (Ht & Hm & Hc). unfold defer_append.
  destruct (body w1) as [[[a berr]|e|s|] w2] eqn:Hbody.
  2-4: destruct (cleanup w2) as [[] w3]; exact I.
  specialize (Hc w2). destruct (cleanup w2) as [[ce|e|s|] w3]; try exact I.
  apply frame_table in Hc as (Ht3 & Hm3 & _).
  right. exists w1, w2, berr. split_and!; try done. intros Hnone. by apply append_None in Hnone as [? _].
Qed.


(** ** Running a list of migrations *)

Definition migs_ok (w : PW D) : Prop := Forall (stmts_ok user_stmt) (w_migs w).

(** The pointers [l] are those of migrations with the versions [vs]. *)
Definition points_to (w : PW D) (l : list nat) (vs : list Z) : Prop :=
  Forall2 (λ i v, pversions w !! i = Some v) l vs.

Definition res_version (r : MigrationResult) : Z := src_Version (res_Source r).

Lemma pversions_lookup (w : PW D) i m : w_migs w !! i = Some m → pversions w !! i = Some (m_Version m).
Proof. intros Hm. unfold pversions, versions. by rewrite list_lookup_fmap, Hm. Qed.

Lemma deref_run i (w : PW D) :
  deref i w = match w_migs w !! i with Some m => (Ok m, w) | None => (Panic nil_deref, w) end.
Proof. unfold deref. rewrite bind_eq. unfold gets. by destruct (w_migs w !! i). Qed.

(** Preparing changes nothing but the parsed statements of a migration. *)
Lemma prepareMigration_run i dir (w : PW D) :
  let w' := (prepareMigration interpolate up_first p i dir w).2 in
  w_db w' = w_db w ∧ w_once w' = w_once w ∧ pversions w' = pversions w ∧ (migs_ok w → migs_ok w').
Proof.
  unfold prepareMigration. rewrite bind_eq, deref_run. cbn zeta.
  destruct (w_migs w !! i) as [m|] eqn:Hm; [|done].
  destruct (m_Type m); [| |done].
  - destruct (m_goUp m) as [up|]; [|done]. destruct (Mode up =? 0); [done|].
    destruct (m_goDown m) as [down|]; [|done]. destruct (Mode down =? 0); [done|].
    rewrite bind_eq. unfold gets. by destruct (_ && _).
  - destruct (sql_Parsed (m_sql m)); [done|]. rewrite bind_eq. unfold of_result.
    destruct (ParseAllFromFS _ _ _ _) as [parsed|e] eqn:Hp; [|done]. cbn.
    destruct (Hparsed _ _ _ Hp) as [Hup Hdown]. split_and!; [done|done| |].
    + unfold pversions, versions. cbn. rewrite list_fmap_insert.
      apply list_insert_id. rewrite list_lookup_fmap, Hm. by destruct m.
    + intros Hok. unfold migs_ok. cbn. apply Forall_insert; [done|].
      unfold stmts_ok. by destruct m.
Qed.

Definition unprepared (i : nat) (dir : bool) : M (PW D) unit :=
  m ← deref i;
  wrap_err (λ err, EErrorf "failed to prepare migration %s: %w" [AStr (ref m); AWrap err])
    (prepareMigration interpolate up_first p i dir).

Lemma prepare_all_run l dir (w : PW D) :
  let w' := (mfor (λ i, unprepared i dir) l w).2 in
  w_db w' = w_db w ∧ w_once w' = w_once w ∧ pversions w' = pversions w ∧ (migs_ok w → migs_ok w').
Proof.
  revert w. induction l as [|i l IH]; intros w; [done|]. cbn [mfor]. rewrite bind_eq.
  assert (let w' := (unprepared i dir w).2 in
    w_db w' = w_db w ∧ w_once w' = w_once w ∧ pversions w' = pversions w ∧ (migs_ok w → migs_ok w')) as Hi.
  { unfold unprepared. rewrite bind_eq, deref_run. destruct (w_migs w !! i) as [m|]; [|done].
    pose proof (prepareMigration_run i dir w) as Hp. unfold wrap_err.
    by destruct (prepareMigration _ _ _ _ _ w) as [[] w1]. }
  destruct (unprepared i dir w) as [[[]|e|s|] w1]; try exact Hi. cbn in Hi.
  specialize (IH w1). cbn in IH. destruct (mfor _ l w1) as [r w2]. cbn in *.
  destruct Hi as (H1' & H2' & H3' & H4'), IH as (H1'' & H2'' & H3'' & H4'').
  split_and!; [congruence..|auto].
Qed.

Lemma run_one_table m dir w :
  c_disableVersioning cfg = false → stmts_ok user_stmt m →
  match run_one goFn p m dir w with
  | (Ok _, w') => (∃ t, ptable w = Some t ∧ ptable w' = Some (record dir (m_Version m) t)) ∧ w_migs w' = w_migs w
  | (Err _, w') => ptable w' = ptable w ∧ w_migs w' = w_migs w
  | _ => True
  end.
Proof.
  intros Hdv Hm. unfold run_one, lift, zoom. rewrite Hdv.
  pose proof (runIndividually_table user_stmt goFn store Hstore false (c_isolateDDL cfg) m dir (w_db w) Hm) as Hr.
  by destruct (runIndividually _ _ _ _ _ _ _) as [[] d].
Qed.

Lemma points_to_migs (w w' : PW D) l vs : w_migs w' = w_migs w → points_to w l vs → points_to w' l vs.
Proof. unfold points_to, pversions. by intros ->. Qed.

(** What a result says of a migration that succeeded. *)
Definition succeeded (dir : Direction) (r : MigrationResult) : Prop :=
  res_Error r = None ∧ res_Direction r = Direction_String dir.

Lemma isEmpty_no_err m dir e : isEmpty m dir ≠ Err e.
Proof. unfold isEmpty, go_empty. destruct (m_Type m), dir, (m_goUp m), (m_goDown m); done. Qed.

Lemma run_loop_table dir l results w vs t :
  c_disableVersioning cfg = false → migs_ok w → points_to w l vs → ptable w = Some t →
  match run_loop goFn p results l dir w with
  | (Ok rs, w') => ∃ rs', rs = results ++ rs' ∧ map res_version rs' = vs ∧ Forall (succeeded dir) rs' ∧
      ptable w' = Some (record_all (ToBool dir) vs t) ∧ w_migs w' = w_migs w
  | (Err e, w') => ∃ pre v post rs' failed err, vs = pre ++ v :: post ∧
      e = EPartial (results ++ rs') failed err ∧ map res_version rs' = pre ∧ Forall (succeeded dir) rs' ∧
      res_version failed = v ∧ res_Error failed = Some err ∧
      ptable w' = Some (record_all (ToBool dir) pre t) ∧ w_migs w' = w_migs w
  | _ => True
  end.
Proof.
  intros Hdv. revert results w vs t. induction l as [|i l IH]; intros results w vs t Hok Hp Ht.
  { apply Forall2_nil_inv_l in Hp as ->. exists []. rewrite app_nil_r. by split_and!. }
  apply Forall2_cons_inv_l in Hp as (v & vs' & Hv & Hp & ->). cbn [run_loop].
  rewrite bind_eq, deref_run. destruct (w_migs w !! i) as [m|] eqn:Hm; [|exact I].
  rewrite (pversions_lookup _ _ _ Hm) in Hv. injection Hv as Hv.
  assert (stmts_ok user_stmt m) as Hst by (eapply Forall_lookup_1 in Hok; eauto).
  rewrite bind_eq. unfold of_outcome. destruct (isEmpty m (ToBool dir)) as [empty|e|s|] eqn:Hem; try exact I.
  2: { by apply isEmpty_no_err in Hem. }
  rewrite bind_eq, catch_run. pose proof (run_one_table m (ToBool dir) w Hdv Hst) as Hr.
  destruct (run_one goFn p m (ToBool dir) w) as [[[]|e|s|] w1]; try exact I.
  - destruct Hr as [(t' & Ht' & Ht1) Hm1]. rewrite Ht in Ht'. injection Ht' as <-.
    assert (migs_ok w1) as Hok1 by (unfold migs_ok; by rewrite Hm1).
    specialize (IH (results ++ [mkMigrationResult (source_info m) (Direction_String dir)
      empty None]) w1 vs' _ Hok1 (points_to_migs _ _ _ _ Hm1 Hp) Ht1).
    destruct (run_loop _ _ _ _ _ w1) as [[rs|e|s|] w2]; try exact I.
    + destruct IH as (rs' & -> & Hvs & Hs & Ht2 & Hm2). eexists. rewrite <- app_assoc. split; [done|].
      rewrite Hm2, Hm1, <- Hv. split_and!; [cbn; by rewrite Hvs|by constructor|done|done].
    + destruct IH as (pre & v' & post & rs' & failed & err & -> & -> & Hpre & Hs & Hf & Hfe & Ht2 & Hm2).
      eexists (v :: pre), v', post, _, failed, err. rewrite <- app_assoc. rewrite Hm2, Hm1, <- Hv.
      split_and!; [done|done|cbn; by rewrite Hpre|by constructor|done|done|done|done].
  - destruct Hr as [Ht1 Hm1]. exists [], v, vs', [], (mkMigrationResult (source_info m) (Direction_String dir)
      empty (Some e)), e. rewrite app_nil_r. split_and!; try done. by rewrite Ht1.
Qed.


(** The versions that [runMigrations] is to run. *)
Definition selected (byOne : bool) (vs : list Z) : list Z := if byOne then take 1 vs else vs.

Lemma runMigrations_unfold i l dir one :
  runMigrations goFn interpolate up_first p (i :: l) dir one
  = (let apply := if one then [i] else i :: l in
     mfor (λ i, unprepared i (ToBool dir)) apply;;
     results ← run_loop goFn p [] apply dir;
     if negb (c_disableVersioning cfg) && negb one
     then lift (getDBMaxVersion_conn store);; mret results
     else mret results).
Proof. done. Qed.

Lemma max_version_frame : Preserves pframe (lift (getDBMaxVersion_conn store)).
Proof. apply lift_frame. unfold getDBMaxVersion_conn. apply preserves_wrap_err, latest_view. Qed.

Lemma final_max_run (rs : list MigrationResult) one w :
  match (if negb (c_disableVersioning cfg) && negb one
         then lift (getDBMaxVersion_conn store);; mret rs else mret rs) w with
  | (Ok rs', w') => rs' = rs ∧ pframe w' = pframe w
  | (Err e, w') => one = false ∧ pframe w' = pframe w
  | _ => True
  end.
Proof.
  destruct (c_disableVersioning cfg), one; try done. cbn [andb negb]. rewrite bind_eq.
  pose proof (max_version_frame w) as Hf.
  by destruct (lift (getDBMaxVersion_conn store) w) as [[] w'].
Qed.

(** How running the versions [vs] can fail: nothing was run, a prefix was run
    and the error says which, or everything was run and only the final query of
    the version failed. *)
Inductive run_failed (w : PW D) (dir : bool) (vs : list Z) (t : list (Z * bool)) (e : error) (w' : PW D) : Prop :=
  | failed_prepare : w_db w' = w_db w → run_failed w dir vs t e w'
  | failed_partial pre v post applied failed err :
      vs = pre ++ v :: post → e = EPartial applied failed err →
      map res_version applied = pre → res_version failed = v → res_Error failed = Some err →
      ptable w' = Some (record_all dir pre t) → run_failed w dir vs t e w'
  | failed_query : ptable w' = Some (record_all dir vs t) → run_failed w dir vs t e w'.

Lemma runMigrations_run l dir one w vs t :
  c_disableVersioning cfg = false → migs_ok w → points_to w l vs → ptable w = Some t →
  match runMigrations goFn interpolate up_first p l dir one w with
  | (Ok rs, w') => map res_version rs = selected one vs ∧ Forall (succeeded dir) rs ∧
      ptable w' = Some (record_all (ToBool dir) (selected one vs) t) ∧
      pversions w' = pversions w ∧ migs_ok w'
  | (Err e, w') => run_failed w (ToBool dir) (selected one vs) t e w' ∧
      pversions w' = pversions w ∧ migs_ok w'
  | _ => True
  end.
Proof.
  intros Hdv Hok Hp Ht. destruct l as [|i l].
  { apply Forall2_nil_inv_l in Hp as ->. assert (selected one [] = []) as -> by by destruct one.
    unfold runMigrations. rewrite Hdv. cbn [negb]. rewrite bind_eq.
    pose proof (max_version_frame w) as Hf. destruct (lift (getDBMaxVersion_conn store) w) as [[v|e|s|] w1];
      try exact I; apply frame_table in Hf as (Ht1 & Hm1 & _).
    - unfold migs_ok, pversions. cbn. rewrite Hm1, Ht1. by split_and!.
    - unfold migs_ok, pversions. rewrite Hm1. split_and!; [|done|done].
      apply failed_query. cbn. by rewrite Ht1. }
  rewrite runMigrations_unfold. cbv zeta.
  assert (points_to w (if one then [i] else i :: l) (selected one vs)) as Hp'.
  { apply Forall2_cons_inv_l in Hp as (v & vs' & Hv & Hp & ->). destruct one; by repeat constructor. }
  set (ap := if one then [i] else i :: l) in *. clearbody ap. rewrite bind_eq.
  pose proof (prepare_all_run ap (ToBool dir) w) as Hprep. cbn zeta in Hprep.
  destruct (mfor (λ i, unprepared i (ToBool dir)) ap w) as [[[]|e|s|] w1]; try exact I; cbn [snd] in Hprep;
    destruct Hprep as (Hdb & _ & Hv & Hok1).
  2: { split_and!; [by apply failed_prepare|done|by apply Hok1]. }
  assert (ptable w1 = Some t) as Ht1 by (unfold ProviderSpec.ptable in *; by rewrite Hdb).
  assert (points_to w1 ap (selected one vs)) as Hp1 by (unfold points_to in *; by rewrite Hv).
  pose proof (run_loop_table dir ap [] w1 _ t Hdv (Hok1 Hok) Hp1 Ht1) as Hloop. rewrite bind_eq.
  destruct (run_loop _ _ [] ap dir w1) as [[rs|e|s|] w2]; try exact I.
  - destruct Hloop as (rs' & -> & Hvs & Hs & Ht2 & Hm2).
    pose proof (final_max_run ([] ++ rs') one w2) as Hfin.
    assert (pversions w2 = pversions w ∧ migs_ok w2) as [Hv2 Hok2].
    { unfold pversions, migs_ok in *. rewrite Hm2. split; [done|by apply Hok1]. }
    match type of Hfin with match ?m with _ => _ end => destruct m as [[rs|e|s|] w3] end; try exact I.
    + destruct Hfin as [-> Hf]. apply frame_table in Hf as (Ht3 & Hm3 & _).
      unfold pversions, migs_ok in *. rewrite Hm3, Ht3. by split_and!.
    + destruct Hfin as [_ Hf]. apply frame_table in Hf as (Ht3 & Hm3 & _).
      unfold pversions, migs_ok in *. rewrite Hm3. split_and!; [|done|done]. apply failed_query. by rewrite Ht3.
  - destruct Hloop as (pre & v & post & rs' & failed & err & Hsel & -> & Hpre & Hs & Hf & Hfe & Ht2 & Hm2).
    assert (pversions w2 = pversions w ∧ migs_ok w2) as [Hv2 Hok2].
    { unfold pversions, migs_ok in *. rewrite Hm2. split; [done|by apply Hok1]. }
    split_and!; [|done|done]. by eapply failed_partial.
Qed.

(** C8: running a list of migrations runs the selected ones in order, each
    once, stopping at the first that fails.  On success the results are theirs
    and the version table has changed by exactly their versions.  On an error
    either nothing was run, or the error is a [PartialError] whose applied
    results are the prefix that was run and recorded and whose failed result is
    the next migration, or all were run and the final query failed. *)
Theorem runMigrations_spec l dir one w vs t :
  c_disableVersioning cfg = false → migs_ok w → points_to w l vs → ptable w = Some t →
  match runMigrations goFn interpolate up_first p l dir one w with
  | (Ok rs, w') => map res_version rs = selected one vs ∧ Forall (succeeded dir) rs ∧
      ptable w' = Some (record_all (ToBool dir) (selected one vs) t)
  | (Err e, w') => run_failed w (ToBool dir) (selected one vs) t e w'
  | _ => True
  end.
Proof.
  intros Hdv Hok Hp Ht. pose proof (runMigrations_run l dir one w vs t Hdv Hok Hp Ht) as Hr.
  destruct (runMigrations _ _ _ _ _ _ _ w) as [[rs|e|s|] w']; try done; tauto.
Qed.

(** Whether a migration can be prepared depends on it and on the pool only. *)
Lemma unprepared_local i dir (w1 w : PW D) :
  w_db w1 = w_db w → w_migs w1 !! i = w_migs w !! i → (unprepared i dir w1).1 = (unprepared i dir w).1.
Proof.
  intros Hdb Hm. unfold unprepared. rewrite !bind_eq, !deref_run, Hm.
  destruct (w_migs w !! i) as [m|] eqn:Hw; [|done]. unfold wrap_err, prepareMigration.
  rewrite !bind_eq, !deref_run, Hm, Hw. destruct (m_Type m); [| |done].
  - destruct (m_goUp m) as [up|]; [|done]. destruct (Mode up =? 0); [done|].
    destruct (m_goDown m) as [down|]; [|done]. destruct (Mode down =? 0); [done|].
    rewrite !bind_eq. unfold gets. cbn [compose]. rewrite Hdb. by destruct (_ && _).
  - destruct (sql_Parsed (m_sql m)); [done|]. rewrite !bind_eq. unfold of_result.
    by destruct (ParseAllFromFS _ _ _ _).
Qed.

Lemma unprepared_other i j dir (w : PW D) :
  i ≠ j → w_migs (unprepared j dir w).2 !! i = w_migs w !! i.
Proof.
  intros Hij. unfold unprepared. rewrite bind_eq, deref_run. destruct (w_migs w !! j) as [m|] eqn:Hm; [|done].
  assert (w_migs (prepareMigration interpolate up_first p j dir w).2 !! i = w_migs w !! i) as Hp.
  { unfold prepareMigration. rewrite bind_eq, deref_run, Hm. destruct (m_Type m); [| |done].
    - destruct (m_goUp m) as [up|]; [|done]. destruct (Mode up =? 0); [done|].
      destruct (m_goDown m) as [down|]; [|done]. destruct (Mode down =? 0); [done|].
      rewrite bind_eq. unfold gets. by destruct (_ && _).
    - destruct (sql_Parsed (m_sql m)); [done|]. rewrite bind_eq. unfold of_result.
      destruct (ParseAllFromFS _ _ _ _); [|done]. cbn. by rewrite list_lookup_insert_ne. }
  unfold wrap_err. by destruct (prepareMigration _ _ _ j dir w) as [[] w1].
Qed.

Lemma prepare_all_fails (l : list nat) dir (w : PW D) i :
  NoDup l → i ∈ l → (unprepared i dir w).1 ≠ Ok tt → (mfor (λ i, unprepared i dir) l w).1 ≠ Ok tt.
Proof.
  revert w. induction l as [|j l IH]; intros w Hnd Hin Hbad; [by apply elem_of_nil in Hin|].
  apply NoDup_cons in Hnd as [Hj Hnd]. cbn [mfor]. rewrite bind_eq.
  destruct (decide (i = j)) as [->|Hij]; [by destruct (unprepared j dir w) as [[[]| | |] w1]|].
  apply elem_of_cons in Hin as [|Hin]; [done|].
  pose proof (unprepared_other i j dir w Hij) as Ho. pose proof (prepare_all_run [j] dir w) as Hr.
  cbn zeta in Hr. cbn [mfor] in Hr. rewrite bind_eq in Hr.
  destruct (unprepared j dir w) as [[[]| | |] w1]; try done. cbn in Ho, Hr. destruct Hr as (Hdb & _).
  apply IH; [done..|]. by rewrite (unprepared_local i dir w1 w).
Qed.

(** C15: every selected migration is prepared - SQL files are read and parsed -
    before the first one runs: when one of them cannot be prepared, nothing has
    been done to the database, not even a query. *)
Theorem prepare_before_run (l : list nat) dir (one : bool) (w : PW D) (i : nat) e (w' : PW D) :
  NoDup l → i ∈ (if one then take 1 l else l) → (unprepared i (ToBool dir) w).1 ≠ Ok tt →
  runMigrations goFn interpolate up_first p l dir one w = (Err e, w') → w_db w' = w_db w.
Proof.
  intros Hnd Hi Hbad. destruct l as [|i0 l]; [by destruct one; apply elem_of_nil in Hi|].
  rewrite runMigrations_unfold. cbv zeta.
  set (ap := if one then [i0] else i0 :: l).
  assert (i ∈ ap ∧ NoDup ap) as [Hap Hnd'].
  { destruct one; cbn; split; try done. apply NoDup_singleton. }
  clearbody ap. rewrite bind_eq.
  pose proof (prepare_all_run ap (ToBool dir) w) as Hprep. cbn zeta in Hprep.
  pose proof (prepare_all_fails ap (ToBool dir) w i Hnd' Hap Hbad) as Hne.
  destruct (mfor (λ i, unprepared i (ToBool dir)) ap w) as [[[]|e'|s|] w1]; try done.
  intros [= _ <-]. apply Hprep.
Qed.

(** ** The bodies of the methods *)

(** A prefix of [vs] has been run and recorded. *)
Definition recorded_prefix (dir : bool) (vs : list Z) (t : list (Z * bool)) (w' : PW D) : Prop :=
  ∃ pre, pre `prefix_of` vs ∧ ptable w' = Some (record_all dir pre t).

Lemma run_failed_prefix w dir vs t e w' :
  ptable w = Some t → run_failed w dir vs t e w' → recorded_prefix dir vs t w'.
Proof.
  intros Ht [Hdb|pre v post applied failed err -> _ _ _ _ Ht'|Ht'].
  - exists []. split; [apply prefix_nil|]. unfold ProviderSpec.ptable in *. by rewrite Hdb.
  - exists pre. split; [|done]. by apply prefix_app_r.
  - exists vs. done.
Qed.

Lemma nothing_recorded dir vs t (w' : PW D) : ptable w' = Some t → recorded_prefix dir vs t w'.
Proof. exists []. split; [apply prefix_nil|done]. Qed.

(** What a body that runs the versions [vs] from the rows [t] does. *)
Definition body_spec (dir : Direction) (vs : list Z) (t : list (Z * bool)) (w : PW D)
    (r : outcome (list MigrationResult) * PW D) : Prop :=
  match r with
  | (Ok rs, w') => map res_version rs = vs ∧ Forall (succeeded dir) rs ∧
      ptable w' = Some (record_all (ToBool dir) vs t) ∧ pversions w' = pversions w ∧ migs_ok w'
  | (Err e, w') => recorded_prefix (ToBool dir) vs t w' ∧ pversions w' = pversions w ∧ migs_ok w'
  | _ => True
  end.

Lemma runMigrations_body l dir one w vs t :
  c_disableVersioning cfg = false → migs_ok w → points_to w l vs → ptable w = Some t →
  body_spec dir (selected one vs) t w (runMigrations goFn interpolate up_first p l dir one w).
Proof.
  intros Hdv Hok Hp Ht. pose proof (runMigrations_run l dir one w vs t Hdv Hok Hp Ht) as Hr.
  unfold body_spec. destruct (runMigrations _ _ _ _ _ _ _ w) as [[rs|e|s|] w']; try done.
  destruct Hr as (Hf & ? & ?). split_and!; [|done|done]. by eapply run_failed_prefix.
Qed.

Lemma body_spec_frame dir vs t w w1 r :
  pversions w1 = pversions w → body_spec dir vs t w1 r → body_spec dir vs t w r.
Proof. unfold body_spec. by intros ->. Qed.

Lemma getMigration_run v (w : PW D) :
  match getMigration v w with
  | (Ok i, w') => w' = w ∧ pversions w !! i = Some v
  | (Err e, w') => w' = w ∧ e = ESentinel ErrVersionNotFound ∧ v ∉ pversions w
  | _ => False
  end.
Proof.
  unfold getMigration. rewrite bind_eq. unfold gets.
  destruct (list_find (λ m, m_Version m = v) (w_migs w)) as [[i m]|] eqn:Hf; cbn.
  - apply list_find_Some in Hf as (Hm & <- & _). split; [done|]. by apply pversions_lookup.
  - split_and!; [done..|]. apply list_find_None in Hf. rewrite Forall_forall in Hf.
    intros (m & -> & Hm)%list_elem_of_fmap. by apply (Hf m Hm).
Qed.

Lemma getMigrations_run vs (w : PW D) :
  match mmap getMigration vs w with
  | (Ok l, w') => w' = w ∧ points_to w l vs
  | (Err e, w') => w' = w
  | _ => False
  end.
Proof.
  induction vs as [|v vs IH]; [split; [done|constructor]|]. cbn [mmap]. rewrite bind_eq.
  pose proof (getMigration_run v w) as Hv. destruct (getMigration v w) as [[i|e|s|] w1]; try done.
  2: { by destruct Hv as [-> _]. }
  destruct Hv as [-> Hi]. rewrite bind_eq. destruct (mmap getMigration vs w) as [[l|e|s|] w1]; try done.
  destruct IH as [-> Hl]. split; [done|by constructor].
Qed.

Lemma list_run (w : PW D) :
  match lift (ListMigrations store HConn) w with
  | (Ok rs, w') => ptable w' = ptable w ∧ w_migs w' = w_migs w ∧
      ptable w = Some (map (λ r, (lm_Version r, lm_IsApplied r)) rs)
  | (Err e, w') => ptable w' = ptable w ∧ w_migs w' = w_migs w
  | (Panic _, _) => False
  | (Block, _) => True
  end.
Proof.
  pose proof (lift_frame _ (list_view HConn) w) as Hf. unfold lift, zoom in *.
  pose proof (list_ok HConn (w_db w)) as Hl.
  destruct (ListMigrations store HConn (w_db w)) as [[rs|e|s|] d] eqn:Hls; try done.
  - apply frame_table in Hf as (Ht & Hm & _). split_and!; [done..|]. by apply (Hl rs d).
  - by apply frame_table in Hf as (Ht & Hm & _).
  - by apply list_no_panic in Hls.
Qed.

Lemma listed_versions (rs : list ListMigrationsResult) :
  (map (λ r, (lm_Version r, lm_IsApplied r)) rs).*1 = getVersionsFromListMigrations rs.
Proof. unfold getVersionsFromListMigrations. induction rs as [|r rs IH]; [done|]. cbn. f_equal. exact IH. Qed.

Lemma up_body_run one v w t :
  c_disableVersioning cfg = false → migs_ok w → Forall (λ v, 0 < v) (pversions w) → ptable w = Some t →
  body_spec DirectionUp (selected one (pending (pversions w) t.*1 v)) t w
    (up_body goFn interpolate up_first p one v w).
Proof.
  intros Hdv Hok Hpos Ht. unfold up_body. rewrite bind_eq. unfold gets at 1.
  destruct (Nat.eqb (length (w_migs w)) 0) eqn:Hlen.
  { apply Nat.eqb_eq, nil_length_inv in Hlen.
    assert (selected one (pending (pversions w) t.*1 v) = []) as ->.
    { unfold pversions, versions. rewrite Hlen. by destruct one. }
    by split_and!. }
  rewrite Hdv, bind_eq, bind_eq. pose proof (list_run w) as Hl.
  destruct (lift (ListMigrations store HConn) w) as [[rs|e|s|] w1]; try exact I.
  2: { destruct Hl as [Ht1 Hm1]. unfold body_spec, pversions, migs_ok. rewrite Hm1.
       split_and!; [|done|done]. apply nothing_recorded. by rewrite Ht1. }
  destruct Hl as (Ht1 & Hm1 & Hrs). rewrite Ht in Hrs, Ht1. injection Hrs as Hrs.
  assert (∀ e, body_spec DirectionUp (selected one (pending (pversions w) t.*1 v)) t w (Err e, w1)) as Herr.
  { intros e. unfold body_spec, pversions, migs_ok. rewrite Hm1. split_and!; [|done|done].
    by apply nothing_recorded. }
  destruct (Nat.eqb (length rs) 0); [apply Herr|]. rewrite bind_eq.
  destruct (UpVersions _ _ _ _) as [vs|e] eqn:Hup; [|apply Herr].
  rewrite <- (listed_versions rs), <- Hrs in Hup.
  apply UpVersions_ok in Hup as ->; [|exact Hpos]. cbn [of_result].
  pose proof (getMigrations_run (pending (pversions w) t.*1 v) w1) as Hg. unfold getVersionsFromMigrations.
  change (map m_Version (w_migs w)) with (pversions w).
  destruct (mmap getMigration _ w1) as [[l|e|s|] w2]; try done.
  - destruct Hg as [-> Hl]. apply (body_spec_frame _ _ _ _ w1).
    { unfold pversions. by rewrite Hm1. }
    apply runMigrations_body; [done| |done|done]. unfold migs_ok. by rewrite Hm1.
  - subst w2. apply Herr.
Qed.

(** The versions newer in order than the target: those that [DownTo] undoes. *)
Definition to_undo (target : Z) (t : list (Z * bool)) : list Z := take_while (λ v, target <? v) t.*1.

Lemma down_collect_run target rs (w : PW D) :
  match down_collect target rs w with
  | (Ok l, w') => w' = w ∧
      points_to w l (take_while (λ v, target <? v) (getVersionsFromListMigrations rs))
  | (Err e, w') => w' = w ∧ e = ESentinel ErrVersionNotFound
  | _ => False
  end.
Proof.
  induction rs as [|r rs IH]; [split; [done|constructor]|]. cbn [down_collect].
  cbn [getVersionsFromListMigrations map take_while].
  destruct (Z.leb_spec (lm_Version r) target).
  { rewrite (proj2 (Z.ltb_ge _ _)) by done. split; [done|constructor]. }
  rewrite (proj2 (Z.ltb_lt _ _)) by done. rewrite bind_eq.
  pose proof (getMigration_run (lm_Version r) w) as Hv.
  destruct (getMigration (lm_Version r) w) as [[i|e|s|] w1]; try done.
  2: { by destruct Hv as (-> & -> & _). }
  destruct Hv as [-> Hi]. rewrite bind_eq. destruct (down_collect target rs w) as [[l|e|s|] w1]; try done.
  destruct IH as [-> Hl]. split; [done|by constructor].
Qed.

Lemma down_body_run one target w t :
  c_disableVersioning cfg = false → migs_ok w → w_migs w ≠ [] → 0 ≤ target → ptable w = Some t →
  body_spec DirectionDown (selected one (to_undo target t)) t w
    (down_body goFn interpolate up_first p one target w).
Proof.
  intros Hdv Hok Hne Htarget Ht. unfold down_body. rewrite bind_eq. unfold gets at 1.
  destruct (w_migs w) as [|m ms] eqn:Hms; [done|]. cbn [length Nat.eqb]. rewrite <- Hms in *.
  rewrite Hdv, bind_eq. pose proof (list_run w) as Hl.
  destruct (lift (ListMigrations store HConn) w) as [[rs|e|s|] w1]; try exact I.
  2: { destruct Hl as [Ht1 Hm1]. unfold body_spec, pversions, migs_ok. rewrite Hm1.
       split_and!; [|done|done]. apply nothing_recorded. by rewrite Ht1. }
  destruct Hl as (Ht1 & Hm1 & Hrs). rewrite Ht in Hrs, Ht1. injection Hrs as Hrs.
  assert (∀ e, body_spec DirectionDown (selected one (to_undo target t)) t w (Err e, w1)) as Herr.
  { intros e. unfold body_spec, pversions, migs_ok. rewrite Hm1. split_and!; [|done|done].
    by apply nothing_recorded. }
  assert (to_undo target t = take_while (λ v, target <? v) (getVersionsFromListMigrations rs)) as Hundo.
  { unfold to_undo. by rewrite Hrs, listed_versions. }
  destruct rs as [|newest rs]; [apply Herr|].
  destruct (Z.eqb_spec (lm_Version newest) 0) as [Hz|Hz].
  { assert (to_undo target t = []) as ->.
    { rewrite Hundo. cbn. rewrite Hz. by rewrite (proj2 (Z.ltb_ge target 0)). }
    assert (selected one [] = []) as -> by by destruct one.
    unfold body_spec, pversions, migs_ok. cbn. rewrite Hm1. by split_and!. }
  rewrite bind_eq. pose proof (down_collect_run target (newest :: rs) w1) as Hc. rewrite <- Hundo in Hc.
  destruct (down_collect target (newest :: rs) w1) as [[l|e|s|] w2]; try done.
  - destruct Hc as [-> Hl]. apply (body_spec_frame _ _ _ _ w1).
    { unfold pversions. by rewrite Hm1. }
    apply runMigrations_body; [done| |done|done]. unfold migs_ok. by rewrite Hm1.
  - destruct Hc as [-> ->]. apply Herr.
Qed.


(** ** The exported methods *)

(** What a method that runs the versions [vs] from the rows [t] does: without
    an error all of them are run and recorded, with one a prefix of them, or the
    provider could not even be initialized. *)
Definition method_spec (dir : Direction) (vs : list Z) (t : list (Z * bool)) (w : PW D)
    (r : outcome results_t * PW D) : Prop :=
  match r with
  | (Ok (rs, None), w') => map res_version rs = vs ∧ Forall (succeeded dir) rs ∧
      ptable w' = Some (record_all (ToBool dir) vs t)
  | (Ok (rs, Some e), w') => ptable w' = ptable w ∨ recorded_prefix (ToBool dir) vs t w'
  | _ => True
  end.

(** The state stays one in which the provider works as specified. *)
Definition well_formed (w : PW D) : Prop :=
  migs_ok w ∧ creatable w ∧ Forall (λ v, 0 < v) (pversions w).

Lemma record_all_is_Some w' dir vs t : recorded_prefix dir vs t w' → is_Some (ptable w').
Proof. intros (pre & _ & ->). by eexists. Qed.

Lemma creatable_Some (w : PW D) : is_Some (ptable w) → creatable w.
Proof. intros Hs. right. split; [by intros _|by right]. Qed.

Lemma method_run dir vs b wrap body w :
  c_disableVersioning cfg = false → well_formed w →
  (∀ w1, ptable w1 = Some (ensured (ptable w)) → w_migs w1 = w_migs w →
     body_spec dir vs (ensured (ptable w)) w1 (body w1)) →
  let r := with_conn p [] b wrap (returning [] body) w in
  method_spec dir vs (ensured (ptable w)) w r ∧
  match r with (Ok (_, None), w') => well_formed w' ∧ pversions w' = pversions w | _ => True end.
Proof.
  intros Hdv (Hok & Hcr & Hpos) Hbody. cbn zeta.
  pose proof (with_conn_table [] b wrap (returning [] body) w Hcr) as Hc.
  destruct (with_conn p [] b wrap (returning [] body) w) as [[[rs err]|e|s|] w']; try done.
  destruct Hc as [(-> & Herr & Ht & Hm)|(w1 & w2 & berr & Ht1 & Hm1 & Hrun & Hnone & Ht & Hm)].
  { destruct err; [|done]. split; [by left|done]. }
  unfold start_table in Ht1. rewrite Hdv in Ht1. specialize (Hbody w1 Ht1 Hm1).
  assert (pversions w1 = pversions w) as Hv1 by (unfold pversions; by rewrite Hm1).
  apply returning_run in Hrun as [[-> Hb]|(e & -> & -> & Hb)]; rewrite Hb in Hbody; cbn in Hbody.
  - destruct Hbody as (Hrs & Hs & Ht2 & Hv2 & Hok2). destruct err as [e|]; cbn.
    { split; [|done]. right. exists vs. split; [done|]. by rewrite Ht, Ht2. }
    rewrite Ht, Ht2. split; [done|]. unfold well_formed, migs_ok, pversions in *. rewrite Hm.
    split; [|congruence]. split_and!; [done| |congruence]. apply creatable_Some. rewrite Ht, Ht2. by eexists.
  - destruct Hbody as (Hpre & _). destruct err as [e'|]; [|by specialize (Hnone eq_refl)]. cbn.
    split; [|done]. right. unfold recorded_prefix in *. by rewrite Ht.
Qed.

Lemma HasPending_run w :
  c_disableVersioning cfg = false → well_formed w →
  match HasPending p w with
  | (Ok (b, None), w') => ptable w' = Some (ensured (ptable w)) ∧ w_migs w' = w_migs w ∧ well_formed w' ∧
      (b = true ↔ pending (pversions w) (ensured (ptable w)).*1 maxInt64 ≠ [])
  | (Ok (b, Some e), w') => ptable w' = ptable w ∨ ptable w' = Some (ensured (ptable w))
  | _ => True
  end.
Proof.
  intros Hdv (Hok & Hcr & Hpos). unfold HasPending.
  pose proof (with_conn_table false false failed_to_initialize (returning false (hasPending_body p)) w Hcr) as Hc.
  destruct (with_conn p false false _ _ w) as [[[b err]|e|s|] w']; try done.
  destruct Hc as [(-> & Herr & Ht & Hm)|(w1 & w2 & berr & Ht1 & Hm1 & Hrun & Hnone & Ht & Hm)].
  { destruct err; [by left|done]. }
  unfold start_table in Ht1. rewrite Hdv in Ht1.
  assert (ptable w2 = Some (ensured (ptable w)) ∧ w_migs w2 = w_migs w ∧
    (berr = None → b = true ↔ pending (pversions w) (ensured (ptable w)).*1 maxInt64 ≠ [])) as (Ht2 & Hm2 & Hb).
  { apply returning_run in Hrun as Hrun'. unfold hasPending_body in Hrun'. rewrite Hdv, bind_eq in Hrun'.
    pose proof (list_run w1) as Hl. destruct (lift (ListMigrations store HConn) w1) as [[rs|e|s|] w3]; [| |done|].
    3: { by destruct Hrun' as [[_ ?]|(? & _ & _ & ?)]. }
    2: { destruct Hl as [Hl1 Hl2]. destruct Hrun' as [[_ ?]|(? & -> & _ & [= <- <-])]; [done|].
         rewrite Hl1, Hl2, Ht1, Hm1. done. }
    destruct Hl as (Hl1 & Hl2 & Hrs). rewrite Ht1 in Hrs, Hl1. injection Hrs as Hrs.
    rewrite bind_eq in Hrun'. unfold gets in Hrun'. rewrite bind_eq in Hrun'.
    destruct (UpVersions _ _ _ _) as [vs|e] eqn:Hup; cbn in Hrun'.
    2: { destruct Hrun' as [[_ ?]|(? & -> & _ & [= <- <-])]; [done|]. rewrite Hl1, Hl2, Hm1. done. }
    destruct Hrun' as [[-> [= <- <-]]|(? & _ & _ & ?)]; [|done].
    rewrite Hl1, Hl2, Hm1. split_and!; [done|done|]. intros _.
    rewrite <- (listed_versions rs), <- Hrs in Hup. unfold getVersionsFromMigrations in Hup.
    rewrite Hl2, Hm1 in Hup. apply UpVersions_ok in Hup as ->; [|exact Hpos].
    unfold pversions, versions. change (map m_Version (w_migs w)) with (m_Version <$> w_migs w).
    destruct (pending _ _ _); cbn; split; done. }
  destruct err as [e|]; [right; by rewrite Ht|]. rewrite Ht, Hm, Ht2, Hm2.
  split_and!; [done|done| |by apply Hb, Hnone].
  unfold well_formed, migs_ok, pversions in *. rewrite Hm, Hm2. split_and!; [done| |done].
  apply creatable_Some. rewrite Ht, Ht2. by eexists.
Qed.

Lemma method_spec_start dir vs t w w1 r :
  ptable w1 = Some t → method_spec dir vs t w1 r → method_spec dir vs t w r.
Proof.
  unfold method_spec. destruct r as [[[rs [e|]]|e|s|] w']; try done. intros Ht [Hw|Hw]; right; [|done].
  apply nothing_recorded. by rewrite Hw.
Qed.

Lemma UpTo_run v w :
  c_disableVersioning cfg = false → well_formed w → v ≤ maxInt64 →
  let t := ensured (ptable w) in
  let r := UpTo goFn interpolate up_first p v w in
  method_spec DirectionUp (pending (pversions w) t.*1 v) t w r ∧
  match r with (Ok (_, None), w') => well_formed w' ∧ pversions w' = pversions w | _ => True end.
Proof.
  intros Hdv Hwf Hv. cbn zeta. unfold UpTo, when_pending. rewrite bind_eq.
  pose proof (HasPending_run w Hdv Hwf) as Hh.
  destruct (HasPending p w) as [[[b [e|]]|e|s|] w1]; try done.
  { cbn. split; [|done]. destruct Hh as [Hh|Hh]; [by left|right]. by apply nothing_recorded. }
  destruct Hh as (Ht1 & Hm1 & Hwf1 & Hb).
  assert (pversions w1 = pversions w) as Hv1 by (unfold pversions; by rewrite Hm1).
  assert (ensured (ptable w1) = ensured (ptable w)) as He1 by by rewrite Ht1.
  destruct b.
  - unfold up. destruct (v <? 1) eqn:Hlt.
    { cbn. split; [|done]. right. by apply nothing_recorded. }
    pose proof (method_run DirectionUp (pending (pversions w) (ensured (ptable w)).*1 v) true failed_to_initialize
      (up_body goFn interpolate up_first p false v) w1 Hdv Hwf1) as Hmr. cbn zeta in Hmr.
    rewrite He1, Hv1 in Hmr. destruct Hmr as [Hs Hn].
    + intros w2 Ht2 Hm2. assert (pversions w2 = pversions w) as Hv2 by (unfold pversions; by rewrite Hm2, Hm1).
      rewrite <- Hv2. destruct Hwf1 as (Hok1 & _ & Hpos1). apply (up_body_run false v w2); [done| | |done].
      * unfold migs_ok in *. by rewrite Hm2.
      * by rewrite Hv2, <- Hv1.
    + split; [|done]. by eapply method_spec_start.
  - assert (pending (pversions w) (ensured (ptable w)).*1 maxInt64 = []) as Hnil.
    { destruct (decide (pending (pversions w) (ensured (ptable w)).*1 maxInt64 = [])) as [|Hn]; [done|].
      by apply Hb in Hn. }
    rewrite (pending_nil _ _ _ v Hnil Hv). cbn. done.
Qed.

Lemma DownTo_run v w :
  c_disableVersioning cfg = false → well_formed w → w_migs w ≠ [] →
  let t := ensured (ptable w) in
  let r := DownTo goFn interpolate up_first p v w in
  method_spec DirectionDown (to_undo v t) t w r ∧
  match r with (Ok (_, None), w') => well_formed w' ∧ pversions w' = pversions w | _ => True end.
Proof.
  intros Hdv Hwf Hne. cbn zeta. unfold DownTo. destruct (Z.ltb_spec v 0); [cbn; by split; [left|]|].
  apply (method_run DirectionDown (to_undo v (ensured (ptable w))) true failed_to_initialize _ w Hdv Hwf).
  intros w1 Ht1 Hm1. apply (down_body_run false v w1); [done| |by rewrite Hm1|done|done].
  unfold migs_ok. rewrite Hm1. apply Hwf.
Qed.

(** C1: [UpTo] (and [Up], with the greatest version) runs exactly the pending
    versions up to the target, in ascending order, and records each of them;
    when it returns an error, it has run and recorded a prefix of them. *)
Theorem UpTo_spec v w :
  c_disableVersioning cfg = false → well_formed w → v ≤ maxInt64 →
  let t := ensured (ptable w) in
  method_spec DirectionUp (pending (pversions w) t.*1 v) t w (UpTo goFn interpolate up_first p v w).
Proof. intros. by apply UpTo_run. Qed.

(** C2: [DownTo] rolls back the applied versions from the most recently
    applied one on, in that order, until it meets one that is not above the
    target, and removes their records; on an error a prefix of that. *)
Theorem DownTo_spec v w :
  c_disableVersioning cfg = false → well_formed w → w_migs w ≠ [] →
  let t := ensured (ptable w) in
  method_spec DirectionDown (to_undo v t) t w (DownTo goFn interpolate up_first p v w).
Proof. intros. by apply DownTo_run. Qed.

Lemma fst_rows vs : (map (λ v : Z, (v, true)) vs).*1 = vs.
Proof. induction vs as [|v vs IH]; [done|]. cbn. f_equal. exact IH. Qed.

Lemma undo_fresh vs : Forall (λ v, 0 < v) vs →
  to_undo 0 (reverse (map (λ v, (v, true)) vs) ++ [(0, true)]) = reverse vs.
Proof.
  intros Hpos. unfold to_undo. rewrite fmap_app, fmap_reverse, fst_rows, take_while_all; [cbn; by rewrite app_nil_r|].
  apply forallb_forall. intros v Hv%list_elem_of_In. rewrite elem_of_reverse in Hv.
  apply Z.ltb_lt. rewrite Forall_forall in Hpos. by apply Hpos.
Qed.

Lemma fresh_again vs : Forall (λ v, 0 < v) vs →
  record_all false (reverse vs) (reverse (map (λ v, (v, true)) vs) ++ [(0, true)]) = [(0, true)].
Proof.
  intros Hpos. rewrite record_all_down, filter_app.
  assert (filter (λ r : Z * bool, r.1 ∉ reverse vs) (reverse (map (λ v, (v, true)) vs)) = []) as ->.
  { destruct (filter _ _) as [|r l] eqn:Hf; [done|].
    assert (r ∈ r :: l) as Hr by by left. rewrite <- Hf in Hr.
    apply list_elem_of_filter in Hr as [Hn Hr]. destruct Hn. apply elem_of_reverse.
    rewrite elem_of_reverse in Hr. apply (list_elem_of_fmap_2 fst) in Hr. by rewrite fst_rows in Hr. }
  rewrite filter_cons_True, filter_nil; [done|]. cbn. rewrite elem_of_reverse. intros Hin.
  rewrite Forall_forall in Hpos. specialize (Hpos 0 Hin). lia.
Qed.

Lemma filter_slices_Sort (P : Z → Prop) `{∀ v, Decision (P v)} l :
  slices_Sort (filter P l) = filter P (slices_Sort l).
Proof.
  apply sorted_perm_eq; [apply slices_Sort_sorted|apply StronglySorted_filter, slices_Sort_sorted|].
  by rewrite !slices_Sort_perm.
Qed.

(** C3: [Up] followed by [DownTo 0] on a fresh database: when both succeed,
    every migration was run once up, in ascending order, and once down, in the
    reverse order, and the version table is as it was created. *)
Theorem Up_DownTo_roundtrip w rs1 w1 rs2 w2 :
  c_disableVersioning cfg = false → well_formed w → w_migs w ≠ [] →
  (ptable w = None ∨ ptable w = Some [(0, true)]) →
  Provider_Up goFn interpolate up_first p w = (Ok (rs1, None), w1) →
  DownTo goFn interpolate up_first p 0 w1 = (Ok (rs2, None), w2) →
  map res_version rs1 = slices_Sort (filter (λ v, v ≤ maxInt64) (pversions w)) ∧
  map res_version rs2 = reverse (map res_version rs1) ∧ ptable w2 = Some [(0, true)].
Proof.
  intros Hdv Hwf Hne Hfresh Hup Hdown.
  assert (ensured (ptable w) = [(0, true)]) as Hens by by destruct Hfresh as [-> | ->].
  destruct (UpTo_run maxInt64 w Hdv Hwf ltac:(done)) as [Hs Hw1].
  unfold Provider_Up in Hup. unfold UpTo in Hs, Hw1. rewrite Hup, Hens in Hs. rewrite Hup in Hw1.
  destruct Hs as (Hrs1 & _ & Ht1), Hw1 as [Hwf1 Hv1]. cbn [ToBool] in Ht1.
  change (ToBool DirectionUp) with true in Ht1. rewrite record_all_up in Ht1.
  set (vs := pending (pversions w) [(0, true)].*1 maxInt64) in *.
  assert (Forall (λ v, 0 < v) vs) as Hpos.
  { apply Forall_forall. intros v (Hin & _ & _)%elem_of_pending. destruct Hwf as (_ & _ & Hp).
    rewrite Forall_forall in Hp. by apply Hp. }
  assert (w_migs w1 ≠ []) as Hne1.
  { intros Hnil. unfold pversions in Hv1. rewrite Hnil in Hv1. by destruct (w_migs w). }
  destruct (DownTo_run 0 w1 Hdv Hwf1 Hne1) as [Hd _]. rewrite Hdown, Ht1 in Hd.
  destruct Hd as (Hrs2 & _ & Ht2). cbn [ensured default] in Hrs2, Ht2.
  change (ToBool DirectionDown) with false in Ht2.
  unfold ensured in Hrs2, Ht2. cbn [default from_option] in Hrs2, Ht2. unfold id in Hrs2, Ht2.
  rewrite (undo_fresh vs Hpos) in Hrs2, Ht2. rewrite (fresh_again vs Hpos) in Ht2.
  rewrite Hrs1. split_and!; [|done|done]. unfold vs, pending.
  rewrite filter_slices_Sort. apply list_filter_ext_elem. intros v Hin. rewrite elem_of_slices_Sort in Hin.
  destruct Hwf as (_ & _ & Hp). rewrite Forall_forall in Hp. specialize (Hp v Hin).
  split; [by intros [_ ?]|]. intros ?. split; [|done]. cbn. intros ->%list_elem_of_singleton. lia.
Qed.

End ProviderSpec.
