(* ===== verification/ProviderQueries.v ===== *)
(** * Status, single versions, and two limits of the provider

    [Status], [GetVersions], [GetDBVersion], [UpByOne] and [ApplyVersion] in terms
    of the version table; and two situations in which the provider does not do
    what it means to: a version table that could not be created is not created
    later, and a Go migration without a transaction waits forever for the only
    connection. *)

From S2P Require Import Prelude GoStrings Effects Resolve SqlParser Dialects Sql Store Migration.
From S2P Require Import Options Collect Runner Provider ProviderLocks RunnerSpec ProviderSpec.

(** ** Pending versions after a part of them has been recorded *)

Lemma recorded_versions pre t : (record_all true pre t).*1 = reverse pre ++ t.*1.
Proof. rewrite record_all_up, fmap_app, fmap_reverse. by rewrite fst_rows. Qed.

Lemma filter_none {A} (P : A → Prop) `{∀ x, Decision (P x)} (l : list A) :
  (∀ x, x ∈ l → ¬ P x) → filter P l = [].
Proof.
  induction l as [|x l IH]; intros Hl; [done|]. rewrite filter_cons_False by (apply Hl; by left).
  apply IH. intros y Hy. apply Hl. by right.
Qed.

Lemma pending_rest vers t pre suf target : NoDup vers →
  pending vers t.*1 target = pre ++ suf →
  pending vers (record_all true pre t).*1 target = suf.
Proof.
  intros Hnd Hp. pose proof (pending_NoDup vers t.*1 target Hnd) as Hnp. rewrite Hp in Hnp.
  apply NoDup_app in Hnp as (_ & Hdisj & _). rewrite recorded_versions.
  assert (pending vers (reverse pre ++ t.*1) target = filter (λ v, v ∉ pre) (pending vers t.*1 target)) as ->.
  { unfold pending. rewrite list_filter_filter. apply list_filter_ext_elem. intros v _.
    rewrite not_elem_of_app, elem_of_reverse. tauto. }
  rewrite Hp, filter_app. rewrite (filter_id _ suf) by (intros v Hv Hv'; by apply (Hdisj v)).
  rewrite (filter_none _ pre); [done|]. by intros v Hv Hn.
Qed.

Section Queries.
Context {D U : Type} `{DbLaws D U, MultierrLaws, RetryLaws}.
Context (user_stmt : string → Prop) (goFn : Z → DBTxConn → M (DB D) unit)
  `{!UserLaws (U:=U) user_stmt goFn}.
Context (interpolate : string → result string) (up_first : string → bool).
Context (p : Provider D) (Hstore : StoreSpec (U:=U) (p_store p)) (Hlock : lockers_ok (U:=U) (p_cfg p)).
Context (Hexists : tells_existence (p_store p)).
Context (Hparsed : ∀ up_first name ps,
  ParseAllFromFS interpolate up_first (fs_Open (p_fsys p)) name = inl ps →
  Forall user_stmt (Up ps) ∧ Forall user_stmt (Down ps)).

Abbreviation store := (p_store p).
Abbreviation cfg := (p_cfg p).
Abbreviation ptable := (ptable (U:=U)).
Abbreviation well_formed := (well_formed (U:=U) user_stmt p).

(** A query of one version on the connection. *)
Lemma get_run v (w : PW D) t :
  ptable w = Some t →
  match lift (GetMigration store HConn v) w with
  | (Ok r, w') => ptable w' = Some t ∧ w_migs w' = w_migs w ∧ v ∈ t.*1
  | (Err e, w') => ptable w' = Some t ∧ w_migs w' = w_migs w ∧
      (errors_Is e database_ErrVersionNotFound = true → v ∉ t.*1)
  | (Panic _, _) => False
  | (Block, _) => True
  end.
Proof.
  intros Ht. pose proof (lift_frame (U:=U) _ (get_view HConn v) w) as Hf. unfold lift, zoom in *.
  destruct (GetMigration store HConn v (w_db w)) as [[r|e|s|] d] eqn:Hg; try done.
  - apply frame_table in Hf as (Ht1 & Hm & _). rewrite Ht1, Ht, Hm. split_and!; [done..|].
    apply get_ok in Hg as (l & b & Hl & Hin & _). unfold ProviderSpec.ptable, table in Ht.
    rewrite Ht in Hl. injection Hl as <-. by apply (list_elem_of_fmap_2 fst) in Hin.
  - apply frame_table in Hf as (Ht1 & Hm & _). rewrite Ht1, Ht, Hm. split_and!; [done..|]. intros He.
    destruct (get_not_found _ _ _ _ _ Hg He) as (l & Hl & Hn). unfold ProviderSpec.ptable, table in Ht.
    rewrite Ht in Hl. by injection Hl as <-.
  - by apply get_no_panic in Hg.
Qed.

(** ** Status *)

(** The status of a migration agrees with the version table. *)
Definition status_of (t : list (Z * bool)) (m : Migration) (st : MigrationStatus) : Prop :=
  st_Source st = source_info m ∧ (st_State st = StateApplied ↔ m_Version m ∈ t.*1).

Lemma status_one_run m (w : PW D) t :
  c_disableVersioning cfg = false → ptable w = Some t →
  match status_one p m w with
  | (Ok st, w') => ptable w' = Some t ∧ w_migs w' = w_migs w ∧ status_of t m st
  | (Err e, w') => ptable w' = Some t
  | _ => True
  end.
Proof.
  intros Hdv Ht. unfold status_one. rewrite Hdv, bind_eq, catch_run.
  pose proof (get_run (m_Version m) w t Ht) as Hg.
  destruct (lift _ w) as [[r|e|s|] w1]; try done.
  - destruct Hg as (Ht1 & Hm & Hin). cbn. by split_and!.
  - destruct Hg as (Ht1 & Hm & Hn). destruct (errors_Is e database_ErrVersionNotFound); [|done].
    cbn. split; [done|]. split; [done|]. split; [done|]. cbn. split; [done|]. intros Hin. by apply Hn in Hin.
Qed.

Lemma statuses_run ms (w : PW D) t :
  c_disableVersioning cfg = false → ptable w = Some t →
  match mmap (status_one p) ms w with
  | (Ok sts, w') => ptable w' = Some t ∧ w_migs w' = w_migs w ∧ Forall2 (status_of t) ms sts
  | (Err e, w') => ptable w' = Some t
  | _ => True
  end.
Proof.
  intros Hdv. revert w. induction ms as [|m ms IH]; intros w Ht; [by split_and!|].
  cbn [mmap]. rewrite bind_eq. pose proof (status_one_run m w t Hdv Ht) as Hm.
  destruct (status_one p m w) as [[st|e|s|] w1]; try done. destruct Hm as (Ht1 & Hm1 & Hst).
  rewrite bind_eq. specialize (IH w1 Ht1). destruct (mmap (status_one p) ms w1) as [[sts|e|s|] w2]; try done.
  destruct IH as (Ht2 & Hm2 & Hsts). cbn. rewrite Hm2, Hm1. split_and!; [done..|by constructor].
Qed.

(** [Status] lists every migration of the provider once, in its order, as
    applied exactly when its version is recorded in the version table. *)
Theorem Status_spec w sts w' :
  c_disableVersioning cfg = false → well_formed w →
  Status p w = (Ok (sts, None), w') →
  Forall2 (status_of (ensured (ptable w))) (w_migs w) sts ∧ ptable w' = Some (ensured (ptable w)).
Proof.
  intros Hdv (Hok & Hcr & Hpos) Hst. unfold Status in Hst.
  pose proof (with_conn_table p Hstore Hlock Hexists [] true failed_to_initialize
    (returning [] (migs ← gets w_migs; mmap (status_one p) migs)) w Hcr) as Hc.
  rewrite Hst in Hc. destruct Hc as [(_ & ? & _)|(w1 & w2 & berr & Ht1 & Hm1 & Hrun & Hnone & Ht & Hm)]; [done|].
  rewrite (Hnone eq_refl) in Hrun. unfold start_table in Ht1. rewrite Hdv in Ht1.
  apply returning_run in Hrun as [[_ Hrun]|(e & ? & _)]; [|done].
  rewrite bind_eq in Hrun. unfold gets in Hrun.
  pose proof (statuses_run (w_migs w1) w1 _ Hdv Ht1) as Hs. rewrite Hrun in Hs.
  destruct Hs as (Ht2 & _ & Hs). rewrite Ht, Ht2, <- Hm1. done.
Qed.

(** ** Versions *)

(** [GetVersions] returns the greatest version of the version table and,
    as the target, the version of the last migration of the provider's list. *)
Theorem GetVersions_spec w current target w' :
  c_disableVersioning cfg = false → well_formed w →
  GetVersions p w = (Ok (current, target, None), w') →
  max_version (ensured (ptable w)) = Some current ∧ last (pversions w) = Some target ∧
  ptable w' = Some (ensured (ptable w)).
Proof.
  intros Hdv (Hok & Hcr & Hpos) Hv. unfold GetVersions in Hv.
  pose proof (with_conn_table p Hstore Hlock Hexists (-1, -1) false
    failed_to_initialize (getVersions_body p) w Hcr) as Hc.
  rewrite Hv in Hc. destruct Hc as [(_ & ? & _)|(w1 & w2 & berr & Ht1 & Hm1 & Hrun & Hnone & Ht & Hm)]; [done|].
  rewrite (Hnone eq_refl) in Hrun. unfold start_table in Ht1. rewrite Hdv in Ht1.
  unfold getVersions_body, target_version in Hrun. rewrite bind_eq, bind_eq in Hrun. unfold gets at 1 in Hrun.
  destruct (last (w_migs w1)) as [m|] eqn:Hlast; [|done]. cbn in Hrun. rewrite Hdv in Hrun.
  rewrite bind_eq, catch_run in Hrun. pose proof (lift_frame (U:=U) _ (latest_view HConn) w1) as Hf.
  unfold lift, zoom in *.
  destruct (GetLatestVersion store HConn (w_db w1)) as [[v|e|s|] d] eqn:Hl; try done.
  apply latest_ok in Hl as (l & Hl & Hmax). unfold ProviderSpec.ptable, table in *. rewrite Ht1 in Hl.
  injection Hl as <-. injection Hrun as <- <- <-. split_and!; [done| |].
  - unfold pversions, versions. by rewrite <- Hm1, fmap_last, Hlast.
  - rewrite Ht. cbn. apply frame_table in Hf as (Ht2 & _ & _). cbn in Ht2.
    unfold ProviderSpec.ptable, table in Ht2. cbn in Ht2. by rewrite Ht2.
Qed.

(** [GetDBVersion] returns the greatest version of the table. *)
Lemma GetDBVersion_run w : c_disableVersioning cfg = false → well_formed w →
  match GetDBVersion p w with
  | (Ok (v, None), w') => max_version (ensured (ptable w)) = Some v ∧
      ptable w' = Some (ensured (ptable w)) ∧ w_migs w' = w_migs w
  | (Ok (_, Some _), w') => ptable w' = ptable w ∨ ptable w' = Some (ensured (ptable w))
  | _ => True
  end.
Proof.
  intros Hdv (_ & Hcr & _). unfold GetDBVersion, getDBMaxVersion. rewrite Hdv.
  match goal with |- context [with_conn p 0 true id ?b] => set (body := b) end.
  pose proof (with_conn_table p Hstore Hlock Hexists 0 true id body w Hcr) as Hc.
  destruct (with_conn p 0 true id body w) as [[[v err]|e|s|] w']; try done.
  destruct Hc as [(-> & Herr & Ht & Hm)|(w1 & w2 & berr & Ht1 & Hm1 & Hrun & Hnone & Ht & Hm)].
  { destruct err; [by left|done]. }
  unfold start_table in Ht1. rewrite Hdv in Ht1. unfold body in Hrun. rewrite bind_eq, catch_run in Hrun.
  pose proof (lift_frame (U:=U) _ (latest_view HConn) w1) as Hf. unfold lift, zoom in *.
  destruct (GetLatestVersion (p_store p) HConn (w_db w1)) as [[l|e|s|] d] eqn:Hl; try done;
    apply frame_table in Hf as (Ht2 & Hm2 & _).
  - injection Hrun as Hv Hb Hw. rewrite Ht, <- Hw, Ht2, Ht1.
    apply latest_ok in Hl as (rows & Hrows & Hmax). unfold ProviderSpec.ptable, RunnerSpec.table in *.
    rewrite Ht1 in Hrows. injection Hrows as <-. rewrite Hm, <- Hw, Hm2, <- Hv. destruct err; [by right|done].
  - assert (berr ≠ None ∧ w2 = set_db d w1) as [Hb ->] by (destruct (errors_Is e _); by injection Hrun as _ <- <-).
    rewrite Ht, Ht2, Ht1. destruct err; [by right|]. by specialize (Hnone eq_refl).
Qed.

(** ** One version after the other *)

(** A state in which the table holds rows already is kept in order. *)
Lemma well_formed_kept w w' :
  well_formed w → is_Some (ptable w') → w_migs w' = w_migs w → well_formed w'.
Proof.
  intros (Hok & _ & Hpos) Hs Hm. unfold ProviderSpec.well_formed, migs_ok, pversions in *. rewrite Hm.
  split_and!; [done|by apply creatable_Some|done].
Qed.

Lemma up_run one v w : c_disableVersioning cfg = false → well_formed w → 1 ≤ v →
  let t := ensured (ptable w) in
  let r := up goFn interpolate up_first p one v w in
  method_spec (U:=U) DirectionUp (selected one (pending (pversions w) t.*1 v)) t w r ∧
  match r with (Ok (_, None), w') => well_formed w' ∧ pversions w' = pversions w | _ => True end.
Proof.
  intros Hdv Hwf Hv. cbn zeta. unfold up. rewrite (proj2 (Z.ltb_ge v 1)) by done.
  apply (method_run user_stmt p Hstore Hlock Hexists DirectionUp _ true failed_to_initialize _ w Hdv Hwf).
  intros w1 Ht1 Hm1. destruct Hwf as (Hok & _ & Hpos).
  assert (pversions w1 = pversions w) as Hv1 by (unfold pversions; by rewrite Hm1).
  rewrite <- Hv1. apply (up_body_run user_stmt goFn interpolate up_first p Hstore Hparsed one v w1); [done| | |done].
  - unfold migs_ok in *. by rewrite Hm1.
  - by rewrite Hv1.
Qed.

Lemma exactly_one_err msg none rs e : exactly_one msg none (rs, Some e) = (None, Some e).
Proof. by destruct rs as [|r []]. Qed.

(** [UpByOne] runs and records the first pending version; without one it
    returns [ErrNoNextVersion]. *)
Lemma UpByOne_run w : c_disableVersioning cfg = false → well_formed w →
  let t := ensured (ptable w) in
  match UpByOne goFn interpolate up_first p w with
  | (Ok (res, None), w') => ∃ r v vs, res = Some r ∧ pending (pversions w) t.*1 maxInt64 = v :: vs ∧
      res_version r = v ∧ ptable w' = Some (record true v t) ∧ well_formed w' ∧ pversions w' = pversions w
  | (Ok (res, Some e), _) => res = None
  | _ => True
  end.
Proof.
  intros Hdv Hwf. cbn zeta. unfold UpByOne, when_pending. rewrite bind_eq.
  pose proof (HasPending_run user_stmt p Hstore Hlock Hexists w Hdv Hwf) as Hh.
  destruct (HasPending p w) as [[[b [e|]]|e|s|] w1]; try done.
  destruct Hh as (Ht1 & Hm1 & Hwf1 & Hb). destruct b; [|done]. rewrite bind_eq.
  destruct (up_run true maxInt64 w1 Hdv Hwf1 ltac:(done)) as [Hs Hn].
  assert (ensured (ptable w1) = ensured (ptable w)) as He1 by by rewrite Ht1.
  assert (pversions w1 = pversions w) as Hv1 by (unfold pversions; by rewrite Hm1).
  rewrite He1, Hv1 in *.
  destruct (up goFn interpolate up_first p true maxInt64 w1) as [[[rs [e|]]|e|s|] w2]; try done.
  { cbn [mret M_ret]. by rewrite exactly_one_err. }
  destruct Hs as (Hrs & _ & Ht2), Hn as [Hwf2 Hv2].
  destruct (pending (pversions w) (ensured (ptable w)).*1 maxInt64) as [|v vs] eqn:Hp; [by destruct (proj1 Hb eq_refl)|].
  destruct rs as [|r [|]]; try done. injection Hrs as Hr. cbn. by exists r, v, vs.
Qed.

(** ** One version *)

Lemma apply_body_run i v dir w t :
  c_disableVersioning cfg = false → migs_ok user_stmt w → pversions w !! i = Some v → ptable w = Some t →
  match apply_body goFn interpolate up_first p i v dir w with
  | (Ok rs, w') => (v ∈ t.*1 ↔ dir = false) ∧ map res_version rs = [v] ∧ ptable w' = Some (record dir v t)
  | (Err e, w') => recorded_prefix dir [v] t w'
  | _ => True
  end.
Proof.
  intros Hdv Hok Hi Ht. unfold apply_body. rewrite Hdv, bind_eq, catch_run.
  pose proof (get_run v w t Ht) as Hg.
  assert (∀ w1, ptable w1 = Some t → w_migs w1 = w_migs w →
    match runMigrations goFn interpolate up_first p [i] (if dir then DirectionUp else DirectionDown) true w1 with
    | (Ok rs, w') => map res_version rs = [v] ∧ ptable w' = Some (record dir v t)
    | (Err e, w') => recorded_prefix dir [v] t w'
    | _ => True
    end) as Hrun.
  { intros w1 Ht1 Hm1.
    assert (points_to w1 [i] [v]) as Hp1.
    { constructor; [|constructor]. unfold pversions in *. by rewrite Hm1. }
    assert (migs_ok user_stmt w1) as Hok1 by (unfold migs_ok in *; by rewrite Hm1).
    pose proof (runMigrations_body user_stmt goFn interpolate up_first p Hstore Hparsed [i]
      (if dir then DirectionUp else DirectionDown) true w1 [v] t Hdv Hok1 Hp1 Ht1) as Hr.
    unfold body_spec in Hr. assert (ToBool (if dir then DirectionUp else DirectionDown) = dir) as Hdir by by destruct dir.
    rewrite Hdir in Hr.
    destruct (runMigrations _ _ _ _ _ _ _ w1) as [[rs|e|s|] w']; try done; naive_solver. }
  cbv zeta. set (d := if dir then DirectionUp else DirectionDown) in *. clearbody d.
  destruct (lift _ w) as [[r|e|s|] w1]; try done; rewrite bind_eq.
  - destruct Hg as (Ht1 & Hm1 & Hin). specialize (Hrun w1 Ht1 Hm1).
    destruct dir; cbn [mret M_ret andb negb]; [by apply nothing_recorded|].
    destruct (runMigrations _ _ _ _ _ _ _ w1) as [[rs|e|s|] w']; done.
  - destruct Hg as (Ht1 & Hm1 & Hn). specialize (Hrun w1 Ht1 Hm1).
    destruct (errors_Is e database_ErrVersionNotFound); [|by apply nothing_recorded].
    destruct dir; cbn [mret M_ret andb negb]; [|by apply nothing_recorded].
    destruct (runMigrations _ _ _ _ _ _ _ w1) as [[rs|e'|s|] w']; try done.
    split; [|done]. split; [|done]. intros Hin. by apply Hn in Hin.
Qed.

(** C34: [ApplyVersion] succeeds only for a version the provider knows that is
    not recorded (up) or is recorded (down); it then runs that one migration and
    changes the table by that one version; in every other case it returns an
    error and no result. *)
Theorem ApplyVersion_spec v dir w res err w' :
  c_disableVersioning cfg = false → well_formed w →
  ApplyVersion goFn interpolate up_first p v dir w = (Ok (res, err), w') →
  let t := ensured (ptable w) in
  match err with
  | None => 1 ≤ v ∧ v ∈ pversions w ∧ (v ∈ t.*1 ↔ dir = false) ∧
      (∃ r, res = Some r ∧ res_version r = v) ∧ ptable w' = Some (record dir v t)
  | Some _ => res = None ∧ (ptable w' = ptable w ∨ recorded_prefix dir [v] t w')
  end.
Proof.
  intros Hdv (Hok & Hcr & Hpos) Ha. cbn zeta. unfold ApplyVersion in Ha.
  apply bind_ok in Ha as ([rs aerr] & w1 & Ha & Hret). set (msg := "unexpected number of migrations applied running apply, expecting exactly one result: %v"%string) in Hret.
  assert (exactly_one msg None (rs, aerr) = (res, err) ∧ w1 = w') as [Hres ->].
  { unfold mret, M_ret in Hret. split; congruence. }
  clearbody msg. clear Hret.
  unfold apply in Ha. destruct (Z.ltb_spec v 1) as [Hv|Hv].
  { injection Ha as <- <- <-. cbn in Hres. injection Hres as <- <-. split; [done|by left]. }
  rewrite bind_eq, catch_run in Ha. pose proof (getMigration_run v w) as Hg.
  destruct (getMigration v w) as [[i|e|s|] w1]; try done.
  2: { destruct Hg as [-> _]. injection Ha as <- <- <-. cbn in Hres. injection Hres as <- <-. split; [done|by left]. }
  destruct Hg as [-> Hi].
  pose proof (with_conn_table p Hstore Hlock Hexists [] true failed_to_initialize
    (returning [] (apply_body goFn interpolate up_first p i v dir)) w Hcr) as Hc. rewrite Ha in Hc.
  destruct Hc as [(-> & Herr & Ht & Hm)|(w1 & w2 & berr & Ht1 & Hm1 & Hrun & Hnone & Ht & Hm)].
  { destruct aerr; [|done]. rewrite ?exactly_one_err in Hres. injection Hres as <- <-. split; [done|by left]. }
  unfold start_table in Ht1. rewrite Hdv in Ht1.
  assert (migs_ok user_stmt w1) as Hok1 by (unfold migs_ok in *; by rewrite Hm1).
  assert (pversions w1 = pversions w) as Hv1 by (unfold pversions; by rewrite Hm1).
  rewrite <- Hv1 in Hi. pose proof (apply_body_run i v dir w1 _ Hdv Hok1 Hi Ht1) as Hb.
  apply returning_run in Hrun as [[-> Hrun]|(e & -> & -> & Hrun)]; rewrite Hrun in Hb.
  - destruct Hb as (Hin & Hrs & Ht2). destruct aerr as [e|].
    { rewrite ?exactly_one_err in Hres. injection Hres as <- <-. split; [done|]. right. exists [v]. split; [done|]. by rewrite Ht, Ht2. }
    destruct rs as [|r [|]]; try done. cbn in Hres. injection Hres as <- <-. injection Hrs as Hr. rewrite Ht, Ht2, <- Hv1.
    split_and!; [done| |done|by exists r|done]. by eapply list_elem_of_lookup_2.
  - destruct aerr as [e'|]; [|by specialize (Hnone eq_refl)]. rewrite ?exactly_one_err in Hres. injection Hres as <- <-.
    split; [done|]. right. unfold recorded_prefix in *. by rewrite Ht.
Qed.

(** ** A version table that was not created *)

(** C40: [sync.Once] remembers that the creation of the version table was
    tried, not that it succeeded: after a failure the table is still missing,
    and every later attempt of the same provider returns no error and does
    nothing. *)
Theorem ensure_once_not_retried w e w1 :
  c_isolateDDL cfg = false → ptable w = None →
  ensureVersionTable p w = (Err e, w1) →
  ptable w1 = None ∧ ensureVersionTable p w1 = (Ok tt, w1).
Proof.
  intros Hiso Ht. unfold ensureVersionTable. rewrite bind_eq. unfold gets.
  destruct (w_once w); [done|]. rewrite bind_eq. cbn [modify]. unfold lift, zoom. rewrite Hiso.
  pose proof (tryEnsure_run p Hstore Hexists false (w_db w) (or_introl eq_refl)) as Hr. cbn [w_db set_once].
  destruct (tryEnsureVersionTable store false (w_db w)) as [[a|e'|s|] d]; try done.
  intros [= <- <-]. split; [|done]. unfold ProviderSpec.ptable in *. cbn. by rewrite Hr.
Qed.

End Queries.

(** ** A Go migration without a transaction and a pool of one connection *)

Section Deadlock.
Context {D U : Type} `{Driver D, DbModel D U, Multierr, Retry}.
Context (goFn : Z → DBTxConn → M (DB D) unit) (Hgo : go_ok (U:=U) goFn).
Context (interpolate : string → result string) (up_first : string → bool).
Context (p : Provider D) (t : string) (q : Querier) (Hst : p_store p = new_store t q).

(** C39: the guard of [prepareMigration] against a pool of one connection only
    looks at session lockers.  Without one, a Go migration that runs outside a
    transaction passes it; but the provider holds the only connection, so the
    record of the version waits for it forever: the migration never succeeds,
    and it blocks whenever its own function returns. *)
Theorem go_no_tx_deadlock i m dir w :
  c_sessionLocker (p_cfg p) = None → c_disableVersioning (p_cfg p) = false →
  w_migs w !! i = Some m → m_Type m = TypeGo → useTx m dir = Ok false →
  maxOpen (w_db w) = 1 → inUse (w_db w) = 1 →
  prepareMigration interpolate up_first p i dir w = (Ok tt, w) ∧
  (run_one goFn p m dir w).1 ≠ Ok tt ∧
  ((runMigration goFn HDB m dir (w_db w)).1 = Ok tt → (run_one goFn p m dir w).1 = Block).
Proof.
  intros Hnl Hdv Hi Hty Htx Hmax Huse. split.
  - unfold prepareMigration. rewrite bind_eq, deref_run, Hi, Hty. unfold useTx in Htx. rewrite Hty in Htx.
    destruct (m_goUp m) as [up|]; [|done]. destruct (Mode up =? 0); [done|].
    destruct (m_goDown m) as [down|]; [|done]. destruct (Mode down =? 0); [done|].
    rewrite bind_eq, Hnl. unfold gets. cbn [is_nil negb]. by rewrite andb_false_r.
  - unfold run_one, lift, zoom, runIndividually. rewrite bind_eq, Htx. cbn [of_outcome andb]. rewrite Hty, Hdv, Hst.
    assert (Preserves pool (runMigration goFn HDB m dir)) as Hpool.
    { unfold runMigration. rewrite Hty. unfold runGo. apply preserves_recover.
      destruct (if dir then m_goUp m else m_goDown m) as [f|]; [|done].
      destruct (RunDB f) as [id|]; [|apply preserves_ret]. apply session_pool, Hgo. }
    specialize (Hpool (w_db w)). rewrite bind_eq.
    destruct (runMigration goFn HDB m dir (w_db w)) as [[[]|e|s|] d]; try done.
    assert (pool_exhausted d = true) as Hex.
    { unfold pool in Hpool. injection Hpool as Hu Hm. unfold pool_exhausted. by rewrite Hu, Hm, Hmax, Huse. }
    assert ((maybeInsertOrDelete (new_store t q) false HDB (m_Version m) dir d).1 = Block) as Hb.
    { unfold maybeInsertOrDelete. destruct dir; cbn;
        unfold store_Insert, store_Delete, wrap_err, ExecContext, with_handle; by rewrite Hex. }
    destruct (maybeInsertOrDelete _ _ _ _ _ d) as [r d']. cbn in Hb. subst r. done.
Qed.

End Deadlock.
