(* ===== verification/ProviderSystem.v ===== *)
(** * Several providers on one database (lock/locktesting)

    The contract that [TestProviderLocking] checks: providers with the same
    migrations that call [Up] at the same time.  Each has its own state; the
    database is shared.  [HasPending] runs without the lock, so any number of
    calls of other providers may come between it and the part of [Up] under the
    lock, which the lockers make exclusive (LockSpec, LockSystem). *)

From S2P Require Import Prelude GoStrings Effects Resolve SqlParser Dialects Sql Store Migration.
From S2P Require Import Options Collect Runner Provider ProviderLocks RunnerSpec ProviderSpec.

(** How far a goroutine of the test is; [PStuck] is a call that does not
    return. *)
Inductive Phase :=
  | PStart
  | PChecked
  | PUp (results : list MigrationResult)
  | PDone (results : list MigrationResult)
  | PMismatch (got : Z)
  | PFailed (err : error)
  | PStuck.

(** A provider's own state. *)
Record Inst := mkInst { i_mu : bool; i_once : bool; i_migs : list Migration; i_phase : Phase }.

Record System (D : Type) := mkSystem { s_db : DB D; s_insts : list Inst }.
Arguments mkSystem {D} _ _.
Arguments s_db {D} _.
Arguments s_insts {D} _.

Definition inst_world {D} (db : DB D) (i : Inst) : PW D := mkPW db (i_mu i) (i_once i) (i_migs i).

Section System.
Context {D : Type} `{Driver D, Multierr, Retry}.
Context (goFn : Z → DBTxConn → M (DB D) unit).
Context (interpolate : string → result string) (up_first : string → bool).
Context (p : Provider D) (maxVersion : Z).

(** The body of a goroutine, one call after the other: [Up] in its two parts,
    then [GetDBVersion]. *)
Definition stage (ph : Phase) : M (PW D) Phase :=
  match ph with
  | PStart =>
      '(pending, err) ← HasPending p;
      mret (match err with Some e => PFailed e | None => if pending : bool then PChecked else PUp [] end)
  | PChecked =>
      '(results, err) ← up goFn interpolate up_first p false maxInt64;
      mret (match err with Some e => PFailed e | None => PUp results end)
  | PUp results =>
      '(currentVersion, err) ← GetDBVersion p;
      mret (match err with
            | Some e => PFailed e
            | None => if currentVersion =? maxVersion then PDone results else PMismatch currentVersion
            end)
  | ph => mret ph
  end.

(** The next call of goroutine [k]. *)
Definition advance (k : nat) (s : System D) : System D :=
  match s_insts s !! k with
  | None => s
  | Some i =>
      let '(r, w) := stage (i_phase i) (inst_world (s_db s) i) in
      let ph := match r with Ok ph => ph | _ => PStuck end in
      mkSystem (w_db w) (<[k := mkInst (w_mu w) (w_once w) (w_migs w) ph]> (s_insts s))
  end.

(** The goroutines in the order in which their calls take effect. *)
Definition run_schedule (schedule : list nat) (s : System D) : System D :=
  foldl (λ s k, advance k s) s schedule.

(** The two parts of [Up] are the method. *)
Lemma stages_Up w :
  (ph ← stage PStart; match ph with PChecked => stage ph | _ => mret ph end) w =
  ('(rs, err) ← Provider_Up goFn interpolate up_first p;
   mret (match err with Some e => PFailed e | None => PUp rs end)) w.
Proof.
  unfold Provider_Up, when_pending. rewrite !bind_eq. unfold stage at 1. rewrite !bind_eq.
  destruct (HasPending p w) as [[[b [e|]]|e|m|] w1]; try done. by destruct b.
Qed.
End System.

(** ** What the test verifies *)

Definition phase_results (ph : Phase) : list MigrationResult :=
  match ph with PUp rs | PDone rs => rs | _ => [] end.

Definition result_counts {D} (s : System D) : list nat :=
  map (λ i, length (phase_results (i_phase i))) (s_insts s).

(** The loop over the results: how many providers did work, and the last one
    that did all of it. *)
Fixpoint verify_loop (nsources : nat) (k : nat) (results : list nat) (withWork : nat) (withAll : option nat)
  : nat * option nat :=
  match results with
  | [] => (withWork, withAll)
  | res :: results =>
      if (0 <? res)%nat
      then verify_loop nsources (S k) results (S withWork) (if (res =? nsources)%nat then Some k else withAll)
      else verify_loop nsources (S k) results withWork withAll
  end.

Definition verify_results (nsources : nat) (results : list nat) : bool :=
  let '(withWork, withAll) := verify_loop nsources 0 results 0 None in
  (withWork =? 1)%nat &&
  match withAll with
  | None => false
  | Some k => forallb (λ ir, (ir.1 =? k)%nat || (ir.2 =? 0)%nat) (imap pair results)
  end.
