(* ===== verification/ProviderSystemSpec.v ===== *)
(** * What several providers on one database do

    Whatever the order of their calls, every pending migration is recorded once
    and in order; and when no call fails, one provider runs all of them and the
    others none, which is what [TestProviderLocking] verifies. *)

From S2P Require Import Prelude GoStrings Effects Resolve SqlParser Dialects Sql Store Migration.
From S2P Require Import Options Collect Runner Provider ProviderLocks RunnerSpec ProviderSpec ProviderQueries.
From S2P Require Import ProviderSystem.

(** ** The verification of the test *)

Lemma verify_loop_zeros N k m ww wa : verify_loop N k (replicate m 0%nat) ww wa = (ww, wa).
Proof. revert k. by induction m; intros k; cbn. Qed.

Lemma verify_loop_skip N k m l ww wa :
  verify_loop N k (replicate m 0%nat ++ l) ww wa = verify_loop N (k + m) l ww wa.
Proof.
  revert k. induction m as [|m IH]; intros k; cbn; [by rewrite Nat.add_0_r|].
  rewrite IH. f_equal. lia.
Qed.

(** One provider that did everything passes. *)
Lemma verify_one N n j : (0 < N)%nat → (j < n)%nat → verify_results N (<[j := N]> (replicate n 0%nat)) = true.
Proof.
  intros HN Hj. unfold verify_results.
  assert (verify_loop N 0 (<[j := N]> (replicate n 0%nat)) 0 None = (1%nat, Some j)) as ->.
  { rewrite insert_replicate_lt by done. rewrite verify_loop_skip. cbn [verify_loop].
    rewrite (proj2 (Nat.ltb_lt 0 N)) by done. rewrite Nat.eqb_refl. apply verify_loop_zeros. }
  cbn. apply forallb_forall. intros [k m] Hin%list_elem_of_In. apply list_elem_of_lookup in Hin as [i Hi].
  rewrite list_lookup_imap in Hi. apply fmap_Some in Hi as (x & Hx & [= -> ->]).
  apply list_lookup_insert_Some in Hx as [(-> & <- & _)|[_ Hx]]; cbn; [by rewrite Nat.eqb_refl|].
  apply lookup_replicate in Hx as [-> _]. by rewrite Nat.eqb_refl, orb_true_r.
Qed.

Section Spec.
Context {D U : Type} `{DbLaws D U, MultierrLaws, RetryLaws}.
Context (user_stmt : string → Prop) (goFn : Z → DBTxConn → M (DB D) unit)
  `{!UserLaws (U:=U) user_stmt goFn}.
Context (interpolate : string → result string) (up_first : string → bool).
Context (p : Provider D) (Hstore : StoreSpec (U:=U) (p_store p)) (Hlock : lockers_ok (U:=U) (p_cfg p)).
Context (Hexists : tells_existence (p_store p)).
Context (Hparsed : ∀ up_first name ps,
  ParseAllFromFS interpolate up_first (fs_Open (p_fsys p)) name = inl ps →
  Forall user_stmt (Up ps) ∧ Forall user_stmt (Down ps)).
Context (maxVersion : Z) (Hdv : c_disableVersioning (p_cfg p) = false).

Abbreviation ptable := (ptable (U:=U)).
Abbreviation table := (table (U:=U)).
Abbreviation well_formed := (well_formed (U:=U) user_stmt p).
Abbreviation stage := (stage goFn interpolate up_first p maxVersion).
Abbreviation advance := (advance goFn interpolate up_first p maxVersion).
Abbreviation run_schedule := (run_schedule goFn interpolate up_first p maxVersion).

(** ** One call *)

(** A goroutine that still has calls to make. *)
Definition live (ph : Phase) : bool := match ph with PStart | PChecked | PUp _ => true | _ => false end.

Definition due (w : PW D) : list Z := pending (pversions w) (ensured (ptable w)).*1 maxInt64.

(** What a call does to the version table. *)
Inductive stage_effect (w : PW D) : Phase → Phase → PW D → Prop :=
  | eff_fail ph e w' : ptable w' = ptable w ∨ recorded_prefix (U:=U) true (due w) (ensured (ptable w)) w' →
      stage_effect w ph (PFailed e) w'
  | eff_checked w' : ptable w' = Some (ensured (ptable w)) → well_formed w' → pversions w' = pversions w →
      stage_effect w PStart PChecked w'
  | eff_up ph rs w' : ph = PStart ∨ ph = PChecked → map res_version rs = due w →
      ptable w' = Some (record_all true (due w) (ensured (ptable w))) → well_formed w' →
      pversions w' = pversions w → stage_effect w ph (PUp rs) w'
  | eff_version rs v w' : max_version (ensured (ptable w)) = Some v → ptable w' = Some (ensured (ptable w)) →
      stage_effect w (PUp rs) (if v =? maxVersion then PDone rs else PMismatch v) w'.

Lemma stage_run ph w : well_formed w → live ph = true →
  match stage ph w with (Ok ph', w') => stage_effect w ph ph' w' | _ => True end.
Proof.
  intros Hwf Hl. destruct ph as [| |rs| | | |]; try done; unfold ProviderSystem.stage; rewrite bind_eq.
  - pose proof (HasPending_run user_stmt p Hstore Hlock Hexists w Hdv Hwf) as Hh.
    destruct (HasPending p w) as [[[b [e|]]|e|s|] w1]; try done; cbn.
    + apply eff_fail. destruct Hh as [|Hh]; [by left|right]. by apply nothing_recorded.
    + destruct Hh as (Ht & Hm & Hwf1 & Hb). assert (pversions w1 = pversions w) as Hv by (unfold pversions; by rewrite Hm).
      destruct b; [by apply eff_checked|].
      assert (due w = []) as Hd by (unfold due; destruct (decide (pending (pversions w) (ensured (ptable w)).*1 maxInt64 = []))
        as [|Hn]; [done|by apply Hb in Hn]).
      apply eff_up; [by left|by rewrite Hd|by rewrite Hd|done|done].
  - pose proof (up_run user_stmt goFn interpolate up_first p Hstore Hlock Hexists Hparsed false maxInt64 w Hdv Hwf
      ltac:(done)) as [Hs Hn].
    destruct (up goFn interpolate up_first p false maxInt64 w) as [[[rs [e|]]|e|s|] w1]; try done; cbn in *.
    + by apply eff_fail.
    + destruct Hs as (Hrs & _ & Ht), Hn as [Hwf1 Hv]. apply eff_up; [by right|done..].
  - pose proof (GetDBVersion_run user_stmt p Hstore Hlock Hexists w Hdv Hwf) as Hg. destruct (GetDBVersion p w) as [[[v [e|]]|e|s|] w1]; try done; cbn in *.
    + apply eff_fail. destruct Hg as [|Hg]; [by left|right]. by apply nothing_recorded.
    + destruct Hg as (Hmax & Ht & _). pose proof (eff_version w rs v w1 Hmax Ht) as He.
      by destruct (v =? maxVersion).
Qed.

(** ** All calls *)

Context (vers : list Z) (Hvers : NoDup vers) (t_init : option (list (Z * bool))).

Abbreviation t0 := (ensured t_init).
Abbreviation vs := (pending vers t0.*1 maxInt64).

Definition stuck (s : System D) : Prop := ∃ k i, s_insts s !! k = Some i ∧ i_phase i = PStuck.
Definition failed (s : System D) : Prop := ∃ k i e, s_insts s !! k = Some i ∧ i_phase i = PFailed e.

(** The table holds the rows it started with and a part of the pending
    versions. *)
Definition table_at (pre : list Z) (db : DB D) : Prop :=
  table db = Some (record_all true pre t0) ∨ pre = [] ∧ table db = t_init.

Definition inst_ok (db : DB D) (i : Inst) : Prop :=
  live (i_phase i) = true → well_formed (inst_world db i) ∧ versions (i_migs i) = vers.

Definition system_ok (pre : list Z) (s : System D) : Prop :=
  pre `prefix_of` vs ∧ table_at pre (s_db s) ∧ ∀ k i, s_insts s !! k = Some i → inst_ok (s_db s) i.

Lemma table_at_ensured pre db : table_at pre db → ensured (table db) = record_all true pre t0.
Proof. intros [->|[-> ->]]; done. Qed.

Lemma due_rest pre suf db i : vs = pre ++ suf → table_at pre db → versions (i_migs i) = vers →
  due (inst_world db i) = suf.
Proof.
  intros Hvs Ht Hv. unfold due, pversions, ProviderSpec.ptable. cbn [inst_world w_db w_migs].
  rewrite Hv, (table_at_ensured pre db Ht). by apply pending_rest.
Qed.

(** What another provider does keeps a provider's state in order. *)
Lemma inst_ok_other db db' i : inst_ok db i → table db' = table db ∨ is_Some (table db') → inst_ok db' i.
Proof.
  intros Hi Ht Hl. destruct (Hi Hl) as [(Hok & Hcr & Hpos) Hv]. split; [|done]. split_and!; [done| |done].
  destruct Ht as [Ht|Ht]; [|by apply creatable_Some]. unfold creatable, once_ok, ProviderSpec.ptable in *.
  cbn [inst_world w_db w_once] in *. by rewrite Ht.
Qed.

Lemma failed_dec (ph : Phase) : (∃ e, ph = PFailed e) ∨ ∀ e, ph ≠ PFailed e.
Proof. destruct ph; naive_solver. Qed.

(** The phase and the world of goroutine [k] after its call. *)
Definition call_result (k : nat) (i : Inst) (s : System D) : Phase * PW D :=
  let '(r, w) := stage (i_phase i) (inst_world (s_db s) i) in
  (match r with Ok ph => ph | _ => PStuck end, w).

Lemma advance_run k i s : s_insts s !! k = Some i →
  advance k s = mkSystem (w_db (call_result k i s).2)
    (<[k := mkInst (w_mu (call_result k i s).2) (w_once (call_result k i s).2) (w_migs (call_result k i s).2)
              (call_result k i s).1]> (s_insts s)).
Proof.
  intros Hi. unfold ProviderSystem.advance, call_result. rewrite Hi. by destruct (stage _ _) as [r w].
Qed.
(** What the call of goroutine [k], in phase [ph0], does when [pre] has been
    recorded and [suf] has not. *)
Definition call_effect (pre suf : list Z) (ph0 ph : Phase) (pre' : list Z) : Prop :=
  match ph with
  | PFailed _ => True
  | PChecked => ph0 = PStart ∧ pre' = pre
  | PUp rs => (ph0 = PStart ∨ ph0 = PChecked) ∧ map res_version rs = suf ∧ pre' = vs
  | PDone rs => ph0 = PUp rs ∧ pre' = pre
  | PMismatch v => (∃ rs, ph0 = PUp rs) ∧ pre' = pre ∧ max_version (record_all true pre t0) = Some v ∧ v ≠ maxVersion
  | PStart | PStuck => False
  end.

Lemma prefix_rest (pre l suf : list Z) : l `prefix_of` suf → vs = pre ++ suf → pre ++ l `prefix_of` vs.
Proof. intros [z ->] ->. exists z. by rewrite app_assoc. Qed.

Lemma live_call k i s pre suf : s_insts s !! k = Some i → live (i_phase i) = true →
  system_ok pre s → vs = pre ++ suf →
  (call_result k i s).1 = PStuck ∨
  ∃ pre', pre' `prefix_of` vs ∧ table_at pre' (w_db (call_result k i s).2) ∧
    (ptable (call_result k i s).2 = table (s_db s) ∨ is_Some (ptable (call_result k i s).2)) ∧
    (live (call_result k i s).1 = true → well_formed (call_result k i s).2 ∧ pversions (call_result k i s).2 = vers) ∧
    call_effect pre suf (i_phase i) (call_result k i s).1 pre'.
Proof.
  intros Hi Hl (Hpre & Ht & Hok) Hvs. destruct (Hok k i Hi Hl) as [Hwf Hv].
  pose proof (stage_run (i_phase i) (inst_world (s_db s) i) Hwf Hl) as Hs. unfold call_result.
  pose proof (table_at_ensured pre _ Ht) as Hens. pose proof (due_rest pre suf _ i Hvs Ht Hv) as Hdue.
  destruct (stage (i_phase i) (inst_world (s_db s) i)) as [[ph|e|m|] w]; [right|by left..].
  cbn [fst snd]. clear Hok. set (ph0 := i_phase i) in *. set (w0 := inst_world (s_db s) i) in *.
  change (ensured (ptable w0) = record_all true pre t0) in Hens. change (pversions w0 = vers) in Hv.
  assert (Hsame : ptable w = Some (ensured (ptable w0)) → table_at pre (w_db w) ∧
    (ptable w = table (s_db s) ∨ is_Some (ptable w))).
  { intros Hw. rewrite Hens in Hw. split; [left; exact Hw|right; rewrite Hw; by eexists]. }
  destruct Hs as [ph e w' Hf|w' Hw Hwf' Hv'|ph rs w' Hph Hrs Hw Hwf' Hv'|rs v w' Hmax Hw].
  - destruct Hf as [Hf|(l & Hl' & Hf)].
    + exists pre. split_and!; [done| |by left|done|done].
      unfold table_at, ProviderSpec.ptable in *. by rewrite Hf.
    + exists (pre ++ l). rewrite Hdue in Hl'. split_and!; [by eapply prefix_rest| |right; by rewrite Hf; eexists|done|done].
      left. rewrite Hens, <- record_all_app in Hf. exact Hf.
  - exists pre. destruct (Hsame Hw) as [Hs1 Hs2]. rewrite Hv in Hv'. split_and!; done || by split.
  - exists vs. rewrite Hdue in Hrs, Hw. rewrite Hens, <- record_all_app, <- Hvs in Hw. rewrite Hv in Hv'.
    split_and!; [done|by left|right; by rewrite Hw; eexists|done|by split_and!].
  - exists pre. destruct (Hsame Hw) as [Hs1 Hs2]. rewrite Hens in Hmax.
    destruct (Z.eqb_spec v maxVersion); split_and!; try done; cbn; split_and!; try done; by eexists.
Qed.

(** Goroutines that are done stay as they are. *)
Lemma dead_call k i s : live (i_phase i) = false → call_result k i s = (i_phase i, inst_world (s_db s) i).
Proof. unfold call_result. by destruct (i_phase i). Qed.

Lemma advance_dead k i s : s_insts s !! k = Some i → live (i_phase i) = false → advance k s = s.
Proof.
  intros Hi Hl. rewrite (advance_run k i s Hi), (dead_call k i s Hl). destruct s as [db insts]. cbn in *.
  f_equal. apply list_insert_id. rewrite Hi. by destruct i.
Qed.

Lemma advance_out k s : s_insts s !! k = None → advance k s = s.
Proof. intros Hi. unfold ProviderSystem.advance. by rewrite Hi. Qed.

Lemma advance_ok k s pre : system_ok pre s → stuck (advance k s) ∨ ∃ pre', system_ok pre' (advance k s).
Proof.
  intros Hok. destruct (s_insts s !! k) as [i|] eqn:Hi; [|right; exists pre; by rewrite advance_out].
  destruct (live (i_phase i)) eqn:Hl; [|right; exists pre; by rewrite (advance_dead k i)].
  destruct (proj1 Hok) as [suf Hvs].
  destruct (live_call k i s pre suf Hi Hl Hok Hvs) as [Hst|(pre' & Hp & Ht & Htab & Hwf & _)].
  - left. exists k. rewrite (advance_run k i s Hi). eexists. cbn.
    rewrite list_lookup_insert_eq by (by eapply lookup_lt_Some). split; [done|exact Hst].
  - right. exists pre'. rewrite (advance_run k i s Hi). split_and!; [done|done|]. cbn [s_insts s_db].
    intros k' i' [(-> & <- & _)|[Hne Hi']]%list_lookup_insert_Some.
    + intros Hl'. apply Hwf. exact Hl'.
    + destruct Hok as (_ & _ & Hok). eapply inst_ok_other; [by apply Hok in Hi'|done].
Qed.
(** Being stuck or failed is for good. *)
Lemma advance_phase k s k' i' : s_insts s !! k' = Some i' → live (i_phase i') = false →
  s_insts (advance k s) !! k' = Some i'.
Proof.
  intros Hi' Hl. destruct (s_insts s !! k) as [i|] eqn:Hi; [|by rewrite advance_out].
  destruct (live (i_phase i)) eqn:Hli; [|by rewrite (advance_dead k i)].
  rewrite (advance_run k i s Hi). cbn. rewrite list_lookup_insert_ne; [done|]. intros ->. congruence.
Qed.

Lemma run_phase sched s k i : s_insts s !! k = Some i → live (i_phase i) = false →
  s_insts (run_schedule sched s) !! k = Some i.
Proof. revert s. induction sched as [|k' sched IH]; intros s Hi Hl; cbn; [done|]. apply IH; [by apply advance_phase|done]. Qed.

Lemma run_stuck sched s : stuck s → stuck (run_schedule sched s).
Proof. intros (k & i & Hi & Hp). exists k, i. split; [|done]. apply run_phase; [done|by rewrite Hp]. Qed.

Lemma run_failed sched s : failed s → failed (run_schedule sched s).
Proof. intros (k & i & e & Hi & Hp). exists k, i, e. split; [|done]. apply run_phase; [done|by rewrite Hp]. Qed.

Lemma run_ok sched s pre : system_ok pre s →
  stuck (run_schedule sched s) ∨ ∃ pre', system_ok pre' (run_schedule sched s).
Proof.
  revert s pre. induction sched as [|k sched IH]; intros s pre Hok; cbn; [right; by exists pre|].
  destruct (advance_ok k s pre Hok) as [Hst|[pre' Hok']]; [left; by apply run_stuck|by apply (IH _ pre')].
Qed.


(** ** When no call fails *)

Context (Hmax : max_version (record_all true vs t0) = Some maxVersion).

(** The versions each provider has run. *)
Definition work (s : System D) : list (list Z) :=
  map (λ i, map res_version (phase_results (i_phase i))) (s_insts s).

Definition idle (ph : Phase) : Prop := ph = PStart ∨ ph = PChecked.

(** Either nothing has been run, or one provider has run everything. *)
Definition all_or_nothing (n : nat) (pre : list Z) (s : System D) : Prop :=
  length (s_insts s) = n ∧
  ((vs ≠ [] ∧ pre = [] ∧ ∀ k i, s_insts s !! k = Some i → idle (i_phase i)) ∨
   (pre = vs ∧ (∀ k i v, s_insts s !! k = Some i → i_phase i ≠ PMismatch v) ∧
    ∃ j, (j < n)%nat ∧ work s = <[j := vs]> (replicate n []))).

Lemma idle_work s : (∀ k i, s_insts s !! k = Some i → idle (i_phase i)) → work s = replicate (length (s_insts s)) [].
Proof.
  unfold work. generalize (s_insts s) as l. intros l. induction l as [|i l IH]; intros Hl; [done|].
  cbn. f_equal; [by destruct (Hl 0%nat i eq_refl) as [-> | ->]|]. apply IH. intros k i' Hi'. by apply (Hl (S k)).
Qed.

Lemma work_insert db k i l : work (mkSystem (D:=D) db (<[k := i]> l)) =
  <[k := map res_version (phase_results (i_phase i))]> (work (mkSystem (D:=D) db l)).
Proof. exact (list_fmap_insert (λ i : Inst, map res_version (phase_results (i_phase i))) l k i). Qed.

(** The state after a call that neither fails nor gets stuck. *)
Lemma call_all_or_nothing n k i s pre pre' suf ph w :
  s_insts s !! k = Some i → vs = pre ++ suf → all_or_nothing n pre s →
  call_effect pre suf (i_phase i) ph pre' → (∀ e, ph ≠ PFailed e) → i_phase w = ph →
  all_or_nothing n pre' (mkSystem (s_db s) (<[k := w]> (s_insts s))).
Proof.
  intros Hi Hvs (Hn & Hall) Heff Hnf Hw. pose proof (lookup_lt_Some _ _ _ Hi) as Hk. rewrite Hn in Hk.
  split; [cbn; by rewrite length_insert|]. rewrite work_insert, Hw. cbn [s_insts].
  change (work (mkSystem (s_db s) (s_insts s))) with (work s).
  assert (Hwork : work s !! k = Some (map res_version (phase_results (i_phase i)))).
  { unfold work. change (map ?f (s_insts s)) with (f <$> s_insts s). by rewrite list_lookup_fmap, Hi. }
  destruct Hall as [(Hne & -> & Hidle)|(-> & Hmm & j & Hj & Hjw)].
  - assert (Hidle' : ∀ w', idle (i_phase w') → ∀ k' i', <[k := w']> (s_insts s) !! k' = Some i' → idle (i_phase i')).
    { intros w' Hw' k' i' [(-> & <- & _)|[_ Hi']]%list_lookup_insert_Some; [done|by eapply Hidle]. }
    destruct (Hidle k i Hi) as [Hph|Hph]; rewrite Hph in Heff; destruct ph as [| |rs|rs|v|e|]; cbn in Heff.
    all: try (by destruct Heff). all: try (by destruct (Hnf e)).
    all: try (by destruct Heff as [[? ?] _]).
    1: { left. destruct Heff as [_ ->]. split_and!; [done|done|]. apply Hidle'. rewrite Hw. by right. }
    all: right; destruct Heff as (_ & Hrs & ->); cbn in Hvs, Hw; (split_and!; [done| |]).
    1, 3: intros k' i' v [(-> & <- & _)|[_ Hi']]%list_lookup_insert_Some;
      [by rewrite Hw|by destruct (Hidle k' i' Hi') as [-> | ->]].
    all: exists k; split; [done|]; rewrite (idle_work s Hidle), Hn; cbn; by rewrite Hrs, Hvs.
  - right. assert (suf = []) as -> by (apply (app_inv_head vs); by rewrite app_nil_r, <- Hvs).
    assert (Hkeep : (∀ v, ph ≠ PMismatch v) → map res_version (phase_results ph) = map res_version (phase_results (i_phase i)) →
      vs = vs ∧ (∀ k' i' v, <[k := w]> (s_insts s) !! k' = Some i' → i_phase i' ≠ PMismatch v) ∧
      ∃ j, (j < n)%nat ∧ <[k := map res_version (phase_results ph)]> (work s) = <[j := vs]> (replicate n [])).
    { intros Hv Hres. split_and!; [done| |].
      - intros k' i' v [(-> & <- & _)|[_ Hi']]%list_lookup_insert_Some; [by rewrite Hw|by eapply Hmm].
      - exists j. split; [done|]. rewrite <- Hjw. apply list_insert_id. by rewrite Hwork, Hres. }
    destruct ph as [| |rs|rs|v|e|]; cbn in Heff; try done.
    + destruct Heff as [Hph ->]. apply Hkeep; [done|]. by rewrite Hph.
    + destruct Heff as (Hph & Hrs & ->). apply Hkeep; [done|]. cbn. rewrite Hrs. by destruct Hph as [-> | ->].
    + destruct Heff as [Hph ->]. apply Hkeep; [done|]. by rewrite Hph.
    + destruct Heff as (_ & -> & Hv & Hne). congruence.
    + by destruct (Hnf e).
Qed.

Lemma advance_all_or_nothing n k s pre : system_ok pre s → all_or_nothing n pre s →
  stuck (advance k s) ∨ failed (advance k s) ∨
  ∃ pre', system_ok pre' (advance k s) ∧ all_or_nothing n pre' (advance k s).
Proof.
  intros Hok Hall. destruct (s_insts s !! k) as [i|] eqn:Hi.
  2: { right; right. exists pre. by rewrite advance_out. }
  destruct (live (i_phase i)) eqn:Hl.
  2: { right; right. exists pre. by rewrite (advance_dead k i). }
  destruct (proj1 Hok) as [suf Hvs]. pose proof (lookup_lt_Some _ _ _ Hi) as Hk.
  rewrite (advance_run k i s Hi). set (w := mkInst _ _ _ _).
  assert (Hat : <[k := w]> (s_insts s) !! k = Some w) by by rewrite list_lookup_insert_eq.
  destruct (live_call k i s pre suf Hi Hl Hok Hvs) as [Hst|(pre' & Hp & Ht & Htab & Hwf & Heff)];
    [left; by exists k, w|].
  destruct (failed_dec (call_result k i s).1) as [[e He]|Hnf]; [right; left; by exists k, w, e|].
  right; right. exists pre'. split.
  - split_and!; [done|done|]. cbn [s_insts s_db].
    intros k' i' [(-> & <- & _)|[Hne Hi']]%list_lookup_insert_Some; [exact Hwf|].
    destruct Hok as (_ & _ & Hok). eapply inst_ok_other; [by apply Hok in Hi'|done].
  - pose proof (call_all_or_nothing n k i s pre pre' suf (call_result k i s).1 w Hi Hvs Hall Heff Hnf eq_refl) as Hc.
    exact Hc.
Qed.

Lemma run_all_or_nothing n sched s pre : system_ok pre s → all_or_nothing n pre s →
  stuck (run_schedule sched s) ∨ failed (run_schedule sched s) ∨
  ∃ pre', all_or_nothing n pre' (run_schedule sched s).
Proof.
  revert s pre. induction sched as [|k sched IH]; intros s pre Hok Hall; cbn; [right; right; by exists pre|].
  destruct (advance_all_or_nothing n k s pre Hok Hall) as [Hst|[Hf|(pre' & Hok' & Hall')]];
    [left; by apply run_stuck|right; left; by apply run_failed|by apply (IH _ pre')].
Qed.
Lemma result_counts_work s : result_counts s = length <$> work s.
Proof.
  unfold result_counts, work. induction (s_insts s) as [|i l IH]; [done|]. cbn. rewrite length_map. f_equal. exact IH.
Qed.

End Spec.
