(* ===== verification/ProviderResults.v ===== *)
(** * What the results of a provider name

    The sources of a provider's migrations never change, and every result of
    [Up], [UpByOne] and the other methods that run migrations names one of
    them, whatever the database and the lockers do. *)

From S2P Require Import Prelude GoStrings Effects Resolve SqlParser Sql Store Migration Options.
From S2P Require Import Collect Runner Provider.

Definition psources {D} (w : PW D) : list Source := source_info <$> w_migs w.

Section Results.
Context {D : Type} `{Driver D, Multierr, Retry}.
Context (goFn : Z → DBTxConn → M (DB D) unit).
Context (interpolate : string → result string) (up_first : string → bool).
Context (p : Provider D).

(** ** The sources stay *)

Lemma lift_sources {A} (m : M (DB D) A) : Preserves psources (lift m).
Proof. by apply preserves_zoom. Qed.

Lemma mu_Lock_sources : Preserves psources (mu_Lock (D:=D)).
Proof. intros w. unfold mu_Lock. by destruct (w_mu w). Qed.

Lemma mu_Unlock_sources : Preserves psources (mu_Unlock (D:=D)).
Proof. by apply preserves_modify. Qed.

Lemma set_once_sources b : Preserves psources (modify (set_once (D:=D) b)).
Proof. by apply preserves_modify. Qed.

#[local] Hint Resolve lift_sources mu_Lock_sources mu_Unlock_sources set_once_sources : preserve.

Lemma deref_sources i : Preserves psources (deref (D:=D) i).
Proof. unfold deref. preserve. Qed.

(** Parsing a migration replaces it by one with the same source. *)
Lemma prepareMigration_sources i dir : Preserves psources (prepareMigration interpolate up_first p i dir).
Proof.
  intros w. unfold prepareMigration, deref. rewrite !bind_eq. cbn [gets].
  destruct (w_migs w !! i) as [m|] eqn:Hm; [|done]. cbn [mret M_ret].
  destruct (m_Type m) eqn:Hty; [| |done].
  - destruct (m_goUp m) as [up|]; [|done]. destruct (Mode up =? 0); [done|].
    destruct (m_goDown m) as [down|]; [|done]. destruct (Mode down =? 0); [done|].
    rewrite bind_eq. unfold gets. by destruct (_ && _).
  - destruct (sql_Parsed (m_sql m)); [done|]. rewrite bind_eq. unfold of_result.
    destruct (ParseAllFromFS _ _ _ _) as [parsed|e]; [|done]. cbn. unfold psources. cbn.
    rewrite list_fmap_insert. apply list_insert_id. rewrite list_lookup_fmap, Hm. by destruct m.
Qed.

#[local] Hint Resolve deref_sources prepareMigration_sources : preserve.

Lemma cleanup_conn_sources : Preserves psources (cleanup_conn (D:=D)).
Proof. unfold cleanup_conn. preserve. Qed.

Lemma cleanup_lock_sources u : Preserves psources (cleanup_lock (D:=D) u).
Proof. unfold cleanup_lock. preserve. Qed.

Lemma fail_cleanup_sources {A} err c :
  Preserves psources c → Preserves psources (fail_cleanup err c : M (PW D) A).
Proof. intros. unfold fail_cleanup. preserve. Qed.

Lemma ensure_sources : Preserves psources (ensureVersionTable p).
Proof. unfold ensureVersionTable. preserve. Qed.

#[local] Hint Resolve cleanup_conn_sources cleanup_lock_sources fail_cleanup_sources ensure_sources : preserve.

(** ** What is returned *)

Section Named.
(** The sources of the provider. *)
Context (S : list Source).

Definition with_sources (w : PW D) : Prop := psources w = S.
(** A clean-up function keeps the sources and returns its error. *)
Definition tidy (c : M (PW D) (option error)) : Prop := Preserves psources c ∧ NoErr c.

Lemma cleanup_conn_tidy : tidy cleanup_conn.
Proof.
  split; [apply cleanup_conn_sources|]. apply no_err_bind; [apply no_err_modify|]. intros. apply no_err_error_of.
Qed.

Lemma cleanup_lock_tidy u : tidy (cleanup_lock u).
Proof.
  split; [apply cleanup_lock_sources|]. unfold cleanup_lock, mu_Unlock.
  repeat (apply no_err_bind; [auto with noerr|intros]). apply no_err_ret.
Qed.

Definition named (rs : list MigrationResult) : Prop := Forall (λ r, res_Source r ∈ S) rs.

Abbreviation Returns := (Yields with_sources).

Lemma keeps {A} (m : M (PW D) A) : Preserves psources m → Returns (λ _, True) m.
Proof. apply yields_preserves. Qed.

(** A step of [initialize] returns a clean-up function that keeps the sources. *)
Lemma lock_step_named (m : M (PW D) unit) cleanup next :
  Preserves psources m → tidy cleanup → tidy next →
  Returns tidy (r ← catch m; match r with inr err => fail_cleanup err cleanup | inl _ => mret next end).
Proof.
  intros Hm [Hc _] Hn. eapply yields_bind; [apply keeps, preserves_catch, Hm|]. intros [|e] _; [by apply yields_ret|].
  eapply yields_bind; [apply keeps, Hc|]. intros ce _. destruct (multierr_Append _ _); apply yields_fail.
Qed.

Lemma initialize_named b : Returns tidy (initialize p b).
Proof.
  unfold initialize. eapply yields_bind; [apply keeps, mu_Lock_sources|]. intros _ _.
  eapply yields_bind; [apply keeps; preserve|]. intros [|e] _.
  2: { eapply yields_bind; [apply keeps, mu_Unlock_sources|]. intros. apply yields_fail. }
  eapply (yields_bind _ tidy).
  { destruct (_ && _); [|apply yields_ret, cleanup_conn_tidy].
    destruct (c_sessionLocker (p_cfg p)); [|apply yields_ret, cleanup_conn_tidy].
    apply lock_step_named; [apply lift_sources|apply cleanup_conn_tidy|apply cleanup_lock_tidy]. }
  intros c1 Hc1. eapply (yields_bind _ tidy).
  { destruct (_ && _); [|by apply yields_ret]. destruct (c_locker (p_cfg p)); [|by apply yields_ret].
    apply lock_step_named; [apply lift_sources|done|apply cleanup_lock_tidy]. }
  intros c2 Hc2. destruct (c_disableVersioning _); [by apply yields_ret|].
  by apply lock_step_named; [apply ensure_sources|..].
Qed.

Lemma with_conn_named {A} (P : A → Prop) z b wrap (body : M (PW D) (A * option error)) :
  P z → Returns (λ r, P r.1) body → Returns (λ r, P r.1) (with_conn p z b wrap body).
Proof.
  intros Hz Hb. unfold with_conn. eapply yields_bind; [apply yields_catch, initialize_named|].
  intros [c|e] Hc; [|by apply yields_ret]. apply yields_defer_append; [done|]. by apply keeps, Hc.
Qed.

(** A method that uses a connection returns its errors. *)
Lemma with_conn_no_err {A} (z : A) b wrap (body : M (PW D) (A * option error)) w :
  psources w = S → NoErr body →
  match with_conn p z b wrap body w with (Err _, _) => False | _ => True end.
Proof.
  intros Hw Hb. unfold with_conn. rewrite bind_eq, catch_run. pose proof (initialize_named b w Hw) as Hi.
  destruct (initialize p b w) as [[c|e|s|] w1]; try done. destruct Hi as (_ & _ & Hc).
  unfold defer_append. specialize (Hb w1). destruct (body w1) as [[[a r]|e|s|] w2]; try done;
    specialize (Hc w2); by destruct (c w2) as [[] w3].
Qed.

Lemma deref_named i : Returns (λ m, source_info m ∈ S) (deref i).
Proof.
  intros w Hw. unfold deref. rewrite bind_eq. cbn [gets]. destruct (w_migs w !! i) as [m|] eqn:Hm; [|done].
  split; [done|]. rewrite <- Hw. unfold psources. apply list_elem_of_fmap_2. by eapply list_elem_of_lookup_2.
Qed.

Lemma run_loop_named results l dir : named results → Returns named (run_loop goFn p results l dir).
Proof.
  revert results. induction l as [|i l IH]; intros results Hr; cbn [run_loop]; [by apply yields_ret|].
  eapply yields_bind; [apply deref_named|]. intros m Hm.
  eapply (yields_bind _ (λ _, True)); [by apply yields_of_outcome|]. intros empty _.
  eapply yields_bind; [apply keeps, preserves_catch, lift_sources|]. intros [|e] _; [|apply yields_fail].
  apply IH. apply Forall_app. split; [done|]. by constructor; [|constructor].
Qed.

Lemma runMigrations_named l dir one : Returns named (runMigrations goFn interpolate up_first p l dir one).
Proof.
  unfold runMigrations. destruct l as [|i l].
  { destruct (negb _); [|by apply yields_ret; constructor].
    eapply yields_bind; [apply keeps, lift_sources|]. intros. apply yields_ret. constructor. }
  eapply yields_bind; [apply keeps; preserve|]. intros _ _.
  eapply yields_bind; [apply run_loop_named; constructor|]. intros rs Hrs.
  destruct (_ && _); [|by apply yields_ret].
  eapply yields_bind; [apply keeps, lift_sources|]. intros _ _. by apply yields_ret.
Qed.

Lemma up_body_named one v : Returns named (up_body goFn interpolate up_first p one v).
Proof.
  unfold up_body. eapply yields_bind; [apply keeps; preserve|]. intros migs _.
  destruct (Nat.eqb _ _); [apply yields_ret; constructor|].
  eapply yields_bind; [apply keeps|intros; apply runMigrations_named].
  unfold all_pointers, getMigration. preserve.
Qed.

Lemma up_named one v : Returns (λ r, named r.1) (up goFn interpolate up_first p one v).
Proof.
  unfold up. destruct (_ <? _); [apply yields_ret; constructor|].
  apply with_conn_named; [constructor|]. apply yields_returning; [constructor|]. apply up_body_named.
Qed.

Lemma HasPending_named : Returns (λ _, True) (HasPending p).
Proof.
  unfold HasPending. apply (with_conn_named (λ _, True)); [done|].
  apply (yields_returning _ (λ _, True)); [done|]. apply keeps. unfold hasPending_body. preserve.
Qed.

Lemma when_pending_named {A} (P : A → Prop) none failed (m : M (PW D) A) :
  P none → (∀ e, P (failed e)) → Returns P m → Returns P (when_pending p none failed m).
Proof.
  intros Hn Hf Hm. unfold when_pending. eapply yields_bind; [apply HasPending_named|].
  intros [b [e|]] _; [by apply yields_ret|]. destruct b; [done|by apply yields_ret].
Qed.

Lemma Provider_Up_named : Returns (λ r, named r.1) (Provider_Up goFn interpolate up_first p).
Proof. apply when_pending_named; [constructor|intros; constructor|apply up_named]. Qed.

Lemma exactly_one_named msg none r : named r.1 →
  ∀ res, (exactly_one msg none r).1 = Some res → res_Source res ∈ S.
Proof.
  intros Hr res. destruct r as [[|r0 [|]] [e|]]; try done. cbn in *. intros [= <-]. by inversion Hr.
Qed.

Lemma UpByOne_named : Returns (λ r, ∀ res, r.1 = Some res → res_Source res ∈ S) (UpByOne goFn interpolate up_first p).
Proof.
  apply when_pending_named; [done|done|]. eapply yields_bind; [apply up_named|]. intros r Hr.
  apply yields_ret. by apply exactly_one_named.
Qed.

Lemma down_named one v : Returns (λ _, True) (down goFn interpolate up_first p one v).
Proof.
  unfold down. apply (with_conn_named (λ _, True)); [done|]. apply (yields_returning _ (λ _, True)); [done|].
  assert (Hrun : ∀ l, Returns (λ _, True) (runMigrations goFn interpolate up_first p l DirectionDown one)).
  { intros l. by eapply yields_weaken, runMigrations_named. }
  assert (Hcol : ∀ l, Preserves psources (down_collect (D:=D) v l)).
  { induction l; cbn [down_collect]; unfold getMigration in *; preserve. }
  unfold down_body. eapply yields_bind; [apply keeps; preserve|]. intros migs _.
  destruct (Nat.eqb _ _); [by apply yields_ret|]. destruct (c_disableVersioning _); [apply Hrun|].
  eapply yields_bind; [apply keeps, lift_sources|]. intros [|newest dbs] _; [apply yields_fail|].
  destruct (_ =? 0); [by apply yields_ret|]. eapply yields_bind; [apply keeps, Hcol|]. intros. apply Hrun.
Qed.

Lemma DownTo_named v : Returns (λ _, True) (DownTo goFn interpolate up_first p v).
Proof. unfold DownTo. destruct (_ <? _); [by apply yields_ret|apply down_named]. Qed.

Lemma GetDBVersion_named : Returns (λ _, True) (GetDBVersion p).
Proof.
  unfold GetDBVersion, getDBMaxVersion. destruct (c_disableVersioning _); [by apply yields_ret|].
  apply (with_conn_named (λ _, True)); [done|]. eapply yields_weaken; [|apply keeps; preserve]. done.
Qed.
End Named.

(** ** Errors are returned *)

Lemma with_conn_NoErr {A} (z : A) b wrap (body : M (PW D) (A * option error)) :
  NoErr body → NoErr (with_conn p z b wrap body).
Proof. intros Hb w. by apply (with_conn_no_err (psources w)). Qed.

Lemma when_pending_NoErr {A} (none : A) failed (m : M (PW D) A) : NoErr m → NoErr (when_pending p none failed m).
Proof.
  intros Hm. unfold when_pending, HasPending. apply no_err_bind; [apply with_conn_NoErr, no_err_returning|].
  intros [b [e|]]; [apply no_err_ret|]. destruct b; [done|apply no_err_ret].
Qed.

Lemma up_NoErr one v : NoErr (up goFn interpolate up_first p one v).
Proof. unfold up. destruct (_ <? _); [apply no_err_ret|apply with_conn_NoErr, no_err_returning]. Qed.

Lemma Provider_Up_NoErr : NoErr (Provider_Up goFn interpolate up_first p).
Proof. apply when_pending_NoErr, up_NoErr. Qed.

Lemma UpByOne_NoErr : NoErr (UpByOne goFn interpolate up_first p).
Proof. apply when_pending_NoErr, no_err_bind; [apply up_NoErr|intros; apply no_err_ret]. Qed.

Lemma DownTo_NoErr v : NoErr (DownTo goFn interpolate up_first p v).
Proof. unfold DownTo, down. destruct (_ <? _); [apply no_err_ret|apply with_conn_NoErr, no_err_returning]. Qed.

Lemma GetDBVersion_NoErr : NoErr (GetDBVersion p).
Proof.
  unfold GetDBVersion, getDBMaxVersion. destruct (c_disableVersioning _); [apply no_err_ret|].
  apply with_conn_NoErr, no_err_bind; [apply no_err_catch|intros; apply no_err_ret].
Qed.
End Results.
