(* ===== verification/Integration.v ===== *)
(** * The integration test of the dialects (internal/testing/integration)

    [testDatabase] applies all migrations of a directory to a database, rolls
    them back and applies them one by one, and checks after each call what it
    returned.  It uses every part of the provider: collecting the files,
    [NewProvider], [Up], [GetDBVersion], [DownTo] and [UpByOne]. *)

From S2P Require Import Prelude GoStrings Effects Resolve SqlParser Dialects Sql Store Migration.
From S2P Require Import Options Collect Runner Provider ProviderLocks RunnerSpec ProviderSpec ProviderQueries.

(** ** Assertions

    An assertion of the test framework that does not hold ends the test. *)

Definition unexpected (err : error) : error := EErrorf "Received unexpected error: %w" [AWrap err].
Definition mismatch (what : string) : error := EErrorf "Not equal: %s" [AStr what].

Section Assertions.
Context {W : Type}.

Definition require (b : bool) (what : string) : M W unit := if b then mret tt else fail (mismatch what).

Definition require_NoError (err : option error) : M W unit :=
  match err with None => mret tt | Some err => fail (unexpected err) end.

(** [x, err := r; require.NoError(t, err)]. *)
Definition require_ok {A} (r : result A) : M W A :=
  match r with inl a => mret a | inr err => fail (unexpected err) end.
End Assertions.

(** ** The test *)

Record DirEntry := mkDirEntry { de_Name : string; de_IsDir : bool }.
Record collected := mkCollected { fullpath : string; version : Z }.

Section Integration.
Context {D : Type} `{Driver D, Multierr, Retry} (range : registry → list (Z * Migration)).
Context (goFn : Z → DBTxConn → M (DB D) unit).
Context (interpolate : string → result string) (up_first : string → bool).
Context (os_ReadDir : string → result (list DirEntry)) (os_DirFS : string → FileSystem) (global : registry).

Definition collect_entry {W} (f : DirEntry) : M W collected :=
  require (negb (de_IsDir f)) "Should be false";;
  v ← require_ok (NumericComponent (de_Name f));
  mret (mkCollected (filepath_Base (de_Name f)) v).

Definition collectMigrations {W} (dir : string) : M W (list collected) :=
  files ← require_ok (os_ReadDir dir);
  mmap collect_entry files.

(** The loop over the results of [Up]; [i] is the index of the first. *)
Fixpoint check_results {W} (wantFiles : list collected) (i : nat) (results : list MigrationResult) : M W unit :=
  match results with
  | [] => mret tt
  | r :: results =>
      match wantFiles !! i with
      | None => panic "index out of range"
      | Some want =>
          require (String.eqb (fullpath want) (src_Path (res_Source r))) "migration file";;
          require (version want =? src_Version (res_Source r)) "migration version";;
          check_results wantFiles (S i) results
      end
  end.

(** The loop that applies one migration after the other. *)
Fixpoint up_one_by_one (p : Provider D) (wantFiles : list collected) : M (PW D) unit :=
  match wantFiles with
  | [] => mret tt
  | want :: wantFiles =>
      '(result, err) ← UpByOne goFn interpolate up_first p;
      require_NoError err;;
      if from_option (λ err, errors_Is err ErrNoNextVersion) false err then mret tt
      else match result with
           | None => panic nil_deref
           | Some result =>
               require (String.eqb (fullpath want) (src_Path (res_Source result))) "migration file";;
               up_one_by_one p wantFiles
           end
  end.

Definition check_version (p : Provider D) (want : Z) : M (PW D) unit :=
  '(currentVersion, err) ← GetDBVersion p;
  require_NoError err;;
  require (want =? currentVersion) "current version".

(** The part of the test after the provider has been made. *)
Definition exercise (p : Provider D) (wantFiles : list collected) : M (PW D) unit :=
  let want := Z.of_nat (length wantFiles) in
  sources ← ListSources;
  require (want =? Z.of_nat (length sources)) "number of migrations";;
  '(results, err) ← Provider_Up goFn interpolate up_first p;
  require_NoError err;;
  require (want =? Z.of_nat (length results)) "number of migrations applied";;
  check_results wantFiles 0 results;;
  check_version p want;;
  '(results, err) ← DownTo goFn interpolate up_first p 0;
  require_NoError err;;
  require (want =? Z.of_nat (length results)) "number of migrations rolled back";;
  check_version p 0;;
  up_one_by_one p wantFiles;;
  check_version p want.

(** The methods of a new provider on the database. *)
Definition run_provider (p : Provider D) (body : M (PW D) unit) : M (DB D) unit := λ db,
  let '(r, w) := body (mkPW db false false (p_migrations p)) in (r, w_db w).

Definition testDatabase (dialect : Dialect) (migrationsDir : string) (opts : list ProviderOption) : M (DB D) unit :=
  wantFiles ← collectMigrations migrationsDir;
  p ← of_outcome (A:=Provider D) (match NewProvider range dialect (Some (os_DirFS migrationsDir)) opts global with
                  | Err err => Err (unexpected err)
                  | r => r
                  end);
  run_provider p (exercise p wantFiles).

End Integration.
