(* ===== verification/IntegrationSpec.v ===== *)
(** * The integration test passes

    What [testDatabase] checks holds for every directory of migrations that are
    numbered from one on without a gap: no assertion on counts, paths or
    versions fails, so that the test passes unless a call of the provider
    returns an error. *)

From stdpp Require Import list_numbers.
From S2P Require Import Prelude GoStrings Effects Resolve SqlParser Dialects Sql Store Migration.
From S2P Require Import Options Collect Runner Provider ProviderLocks RunnerSpec ProviderSpec ProviderQueries.
From S2P Require Import ProviderResults Integration.

(** ** Runs of a test

    [goes m w Q]: run from [w], [m] returns with [Q], or the assertion that
    some call returned no error fails, or a call panics or hangs. *)
Definition goes {W A} (m : M W A) (w : W) (Q : A → W → Prop) : Prop :=
  match m w with
  | (Ok a, w') => Q a w'
  | (Err e, _) => ∃ err, e = unexpected err
  | _ => True
  end.

Section Goes.
Context {W : Type}.
Implicit Types A B : Type.

Lemma goes_bind {A B} (m : M W A) (k : A → M W B) w Q :
  goes m w (λ a w', goes (k a) w' Q) → goes (m ≫= k) w Q.
Proof. unfold goes. rewrite bind_eq. by destruct (m w) as [[] w1]. Qed.

Lemma goes_weaken {A} (m : M W A) w (Q R : A → W → Prop) :
  goes m w Q → (∀ a w', Q a w' → R a w') → goes m w R.
Proof. unfold goes. destruct (m w) as [[] w1]; naive_solver. Qed.

(** The rule for a sequence of a call and what follows. *)
Lemma goes_seq {A B} (m : M W A) (k : A → M W B) w Q R :
  goes m w Q → (∀ a w', Q a w' → goes (k a) w' R) → goes (m ≫= k) w R.
Proof. intros Hm Hk. by eapply goes_bind, goes_weaken. Qed.

Lemma goes_require b what w (Q : unit → W → Prop) : b = true → Q tt w → goes (require b what) w Q.
Proof. by intros ->. Qed.

Lemma goes_NoError err w (Q : unit → W → Prop) :
  (err = None → Q tt w) → goes (require_NoError err) w Q.
Proof. destruct err as [e|]; intros HQ; [by exists e|by apply HQ]. Qed.
End Goes.

(** ** Versions from one on *)

Abbreviation to n := (seqZ 1 (Z.of_nat n)).

(** The rows after the first [i] migrations have been applied. *)
Definition rows (i : nat) : list (Z * bool) := record_all true (to i) [(0, true)].

Lemma to_pos n v : v ∈ to n → 1 ≤ v.
Proof. intros Hv%elem_of_seqZ. lia. Qed.

Lemma to_split i n : (i ≤ n)%nat → to n = to i ++ seqZ (1 + Z.of_nat i) (Z.of_nat (n - i)).
Proof. intros Hi. rewrite <- seqZ_app by lia. f_equal. lia. Qed.

Lemma to_S i : to (S i) = to i ++ [Z.of_nat i + 1].
Proof. rewrite seqZ_S. do 2 f_equal. lia. Qed.

Lemma to_sorted n : StronglySorted Z.le (to n).
Proof.
  induction n as [|n IH]; [constructor|]. rewrite to_S. apply StronglySorted_app_2; [done|repeat constructor|].
  intros x y Hx ->%list_elem_of_singleton. apply elem_of_seqZ in Hx. lia.
Qed.

Lemma rows_S i : rows (S i) = record true (Z.of_nat i + 1) (rows i).
Proof. unfold rows. by rewrite to_S, record_all_app. Qed.

Lemma rows_versions i : (rows i).*1 = reverse (to i) ++ [0].
Proof. apply recorded_versions. Qed.

Lemma foldl_max v vs : (∀ u, u ∈ vs → u ≤ v) → foldl Z.max v vs = v.
Proof.
  induction vs as [|u vs IH]; intros Hle; [done|]. cbn. rewrite Z.max_l by (apply Hle; by left).
  apply IH. intros u' Hu'. apply Hle. by right.
Qed.

Lemma rows_max i : max_version (rows i) = Some (Z.of_nat i).
Proof.
  destruct i as [|i]; [done|]. rewrite rows_S. unfold max_version. cbn. f_equal. rewrite foldl_max; [lia|].
  intros u. rewrite rows_versions, elem_of_app, elem_of_reverse, elem_of_seqZ, list_elem_of_singleton. lia.
Qed.

(** What is pending after the first [i] migrations. *)
Lemma rows_pending i n : (i ≤ n)%nat → Z.of_nat n ≤ maxInt64 →
  pending (to n) (rows i).*1 maxInt64 = seqZ (1 + Z.of_nat i) (Z.of_nat (n - i)).
Proof.
  intros Hi Hn. apply pending_rest; [apply NoDup_seqZ|]. rewrite <- to_split by done.
  unfold pending. rewrite slices_Sort_id by apply to_sorted. apply filter_id.
  intros v Hv%elem_of_seqZ. split; [|lia]. cbn. rewrite list_elem_of_singleton. lia.
Qed.

(** ** The provider of a numbered directory *)

(** The directory contains SQL files only, in the order of their versions,
    which are 1, 2, 3 and so on. *)
Record numbered_dir (entries : result (list DirEntry)) (fsys : FileSystem) (names : list string) : Prop := {
  nd_read : entries = inl (map (λ n, mkDirEntry n false) names);
  nd_sql : fs_Glob fsys "*.sql" = inl names;
  nd_go : fs_Glob fsys "*.go" = inl [];
  nd_version i name : names !! i = Some name → NumericComponent name = inl (Z.of_nat i + 1);
  nd_name name : name ∈ names →
    filepath_Base name = name ∧ filepath_Ext name = ".sql" ∧ HasSuffix name "_test.go" = false
}.

(** Options that exclude no file and register no Go migration. *)
Record plain_options {D} `{Driver D} (opts : list ProviderOption) (global : registry) (cfg : config D) : Prop := {
  po_run : apply_options opts empty_config = (Ok tt, cfg);
  po_versions : c_disableVersioning cfg = false;
  po_paths : c_excludePaths cfg = ∅;
  po_excluded : c_excludeVersions cfg = ∅;
  po_registered : c_registered cfg = ∅;
  po_global : c_disableGlobalRegistry cfg = true ∨ global = ∅
}.

Definition dir_sources (names : list string) : list Source :=
  imap (λ i name, mkSource TypeSQL name (Z.of_nat i + 1)) names.

Lemma dir_versions names : src_Version <$> dir_sources names = to (length names).
Proof.
  apply list_eq. intros i. unfold dir_sources. rewrite list_lookup_fmap, list_lookup_imap.
  destruct (names !! i) as [name|] eqn:Hi; cbn.
  - apply lookup_lt_Some in Hi. rewrite lookup_seqZ_lt by lia. f_equal. lia.
  - apply lookup_ge_None in Hi. rewrite lookup_seqZ_ge by lia. done.
Qed.

(** A source of the directory is known by its version. *)
Lemma dir_source_at names i s : s ∈ dir_sources names → src_Version s = Z.of_nat i + 1 →
  dir_sources names !! i = Some s.
Proof.
  intros [j Hj]%list_elem_of_lookup Hv. assert (j = i) as <-; [|done].
  unfold dir_sources in Hj. rewrite list_lookup_imap in Hj. apply fmap_Some in Hj as (n & _ & ->). cbn in Hv. lia.
Qed.

(** All sources, if they are named in the order of the versions. *)
Lemma dir_sources_eq names rs : named (dir_sources names) rs →
  map res_version rs = to (length names) → map res_Source rs = dir_sources names.
Proof.
  intros Hn Hv. assert (length rs = length names) as Hlen.
  { apply (f_equal length) in Hv. rewrite length_map, length_seqZ in Hv. lia. }
  apply list_eq. intros i. rewrite list_lookup_fmap. destruct (rs !! i) as [r|] eqn:Hr.
  - cbn. symmetry. apply dir_source_at.
    + unfold named in Hn. rewrite Forall_forall in Hn. apply Hn. by eapply list_elem_of_lookup_2.
    + assert (map res_version rs !! i = Some (res_version r)) as Hi by by rewrite list_lookup_fmap, Hr.
      rewrite Hv in Hi. apply lookup_seqZ in Hi as [Hi _]. unfold res_version in Hi. lia.
  - apply lookup_ge_None in Hr. symmetry. apply lookup_ge_None. unfold dir_sources. rewrite length_imap. lia.
Qed.

Section NumberedProvider.
Context {D : Type} `{Driver D} (range : registry → list (Z * Migration)) (Hrange : range_ok range).
Context (dialect : Dialect) (opts : list (ProviderOption (D:=D))) (global : registry) (cfg : config D).
Context (entries : result (list DirEntry)) (fsys : FileSystem) (names : list string).
Context (Hdir : numbered_dir entries fsys names) (Hopts : plain_options opts global cfg).

Lemma dir_found : omap (source_of ∅ ∅) (names ++ []) = dir_sources names.
Proof.
  rewrite app_nil_r. unfold dir_sources.
  assert (∀ k l, (∀ i name, l !! i = Some name → NumericComponent name = inl (Z.of_nat (k + i) + 1)) →
    (∀ name, name ∈ l → filepath_Base name = name ∧ filepath_Ext name = ".sql" ∧ HasSuffix name "_test.go" = false) →
    omap (source_of ∅ ∅) l = imap (λ i name, mkSource TypeSQL name (Z.of_nat (k + i) + 1)) l) as Hgen.
  { intros k l. revert k. induction l as [|name l IH]; intros k Hv Hn; [done|]. cbn [omap list_omap imap].
    destruct (Hn name) as (Hb & He & Ht); [by left|]. pose proof (Hv 0%nat name eq_refl) as Hn0.
    unfold source_of at 1. rewrite Hb, Ht, Hn0, He. rewrite !bool_decide_eq_false_2 by set_solver. cbn. f_equal.
    rewrite (IH (S k)); [|intros i n' Hi; rewrite (Hv (S i) n' Hi); do 2 f_equal; lia|intros n' Hn'; apply Hn; by right].
    apply imap_ext. intros i n' _. cbn. f_equal. lia. }
  apply (Hgen 0%nat names); [apply (nd_version _ _ _ Hdir)|apply (nd_name _ _ _ Hdir)].
Qed.

Lemma numbered_collected : collectFilesystemSources false ∅ ∅ (Some fsys) = inl (mkFileSources (dir_sources names) []).
Proof.
  pose proof (collectFilesystemSources_found ∅ ∅ fsys names [] (nd_sql _ _ _ Hdir) (nd_go _ _ _ Hdir)) as Hf.
  cbn zeta in Hf. rewrite dir_found in Hf.
  assert (∀ s, s ∈ dir_sources names → src_Type s = TypeSQL) as Hsql.
  { intros s [i Hi]%list_elem_of_lookup. unfold dir_sources in Hi. rewrite list_lookup_imap in Hi.
    by apply fmap_Some in Hi as (n & _ & ->). }
  destruct (collectFilesystemSources _ _ _ _) as [[sqls gos]|e]; cbn in Hf.
  - destruct Hf as (_ & -> & ->). rewrite filter_id by done. rewrite filter_none; [done|]. naive_solver.
  - destruct Hf. rewrite dir_versions. apply NoDup_seqZ.
Qed.

Lemma numbered_provider p : NewProvider range dialect (Some fsys) opts global = Ok p →
  p_migrations p = map newSQLMigration (dir_sources names) ∧ c_disableVersioning (p_cfg p) = false ∧ names ≠ [].
Proof.
  unfold NewProvider. rewrite (po_run _ _ _ Hopts). cbv zeta. do 3 (case_match; [done|]).
  match goal with |- context [newProvider range _ fsys ?c global] => set (cfg' := c) end.
  assert (c_disableVersioning cfg' = false ∧ c_excludePaths cfg' = ∅ ∧ c_excludeVersions cfg' = ∅ ∧
    c_registered cfg' = ∅ ∧ (c_disableGlobalRegistry cfg' = true ∨ global = ∅)) as (Hv & Hp & He & Hr & Hg).
  { destruct Hopts as [_ ? ? ? ? ?]. unfold cfg'. destruct cfg; cbn in *. case_match; by split_and!. }
  clearbody cfg'. destruct (if negb _ then _ else _) as [st|]; [|done].
  destruct (String.eqb (Tablename st) ""); [done|].
  assert (range ∅ = []) as Hnil by (apply Permutation_nil_r; by rewrite (Hrange ∅), map_to_list_empty).
  unfold newProvider, rbind. rewrite Hp, He, numbered_collected, Hr.
  destruct (c_disableGlobalRegistry cfg'); [|destruct Hg as [ | ->]; [done|]; rewrite Hnil; cbn [add_global]].
  all: unfold merge; cbn [goSources sqlSources length]; rewrite bool_decide_eq_true_2 by done;
    cbn [Nat.eqb andb fst]; destruct (Nat.eqb _ _) eqn:Hlen; [done|]; intros [= <-]; (split_and!; [done..|]);
    intros Hn; by rewrite Hn in Hlen.
Qed.
End NumberedProvider.

(** ** The calls of the test *)

Section Test.
Context {D U : Type} `{DbLaws D U, MultierrLaws, RetryLaws}.
Context (user_stmt : string → Prop) (goFn : Z → DBTxConn → M (DB D) unit)
  `{!UserLaws (U:=U) user_stmt goFn}.
Context (interpolate : string → result string) (up_first : string → bool).
Context (p : Provider D) (Hstore : StoreSpec (U:=U) (p_store p)) (Hlock : lockers_ok (U:=U) (p_cfg p)).
Context (Hexists : tells_existence (p_store p)).
Context (Hparsed : ∀ up_first name ps,
  ParseAllFromFS interpolate up_first (fs_Open (p_fsys p)) name = inl ps →
  Forall user_stmt (Up ps) ∧ Forall user_stmt (Down ps)).
Context (names : list string).

Abbreviation n := (length names).
Abbreviation ptable := (ptable (U:=U)).
Abbreviation well_formed := (well_formed (U:=U) user_stmt p).

Definition want : list collected := imap (λ i name, mkCollected name (Z.of_nat i + 1)) names.

Lemma length_want : length want = n.
Proof. unfold want. apply length_imap. Qed.

(** The provider knows the migrations of the directory, and the first [i] of
    them are applied. *)
Definition applied (i : nat) (w : PW D) : Prop :=
  well_formed w ∧ psources w = dir_sources names ∧ ensured (ptable w) = rows i.

Lemma applied_versions i w : applied i w → pversions w = to n.
Proof.
  intros (_ & Hs & _). rewrite <- dir_versions, <- Hs. unfold psources, pversions, versions.
  rewrite <- list_fmap_compose. done.
Qed.

Section Calls.
Context (Hmax : Z.of_nat n ≤ maxInt64) (Hdv : c_disableVersioning (p_cfg p) = false).

(** A method that returns its errors goes on, with what is known when there is
    none. *)
Lemma call_goes {A} (m : M (PW D) (A * option error)) w (Q : A * option error → PW D → Prop) :
  NoErr m → (∀ r w', m w = (Ok r, w') → Q r w') → goes m w Q.
Proof.
  intros Hn HQ. unfold goes. specialize (Hn w). destruct (m w) as [[r|e|s|] w'] eqn:Hm; try done. by apply HQ.
Qed.

Lemma Up_goes w : applied 0 w →
  goes (Provider_Up goFn interpolate up_first p) w (λ r w', r.2 = None →
    applied n w' ∧ map res_Source r.1 = dir_sources names).
Proof.
  intros Ha. pose proof (applied_versions _ _ Ha) as Hv. destruct Ha as (Hwf & Hs & Ht).
  pose proof (UpTo_run user_stmt goFn interpolate up_first p Hstore Hlock Hexists Hparsed maxInt64 w Hdv Hwf
    ltac:(done)) as [Hm Hn].
  pose proof (Provider_Up_named goFn interpolate up_first p (dir_sources names) w Hs) as Hnamed.
  apply call_goes; [apply Provider_Up_NoErr|]. intros [rs err] w' Hrun Herr. cbn in Herr. subst err.
  unfold Provider_Up in *. unfold UpTo in Hm, Hn. rewrite Hrun in Hm, Hn, Hnamed.
  destruct Hm as (Hrs & _ & Ht'), Hn as [Hwf' _], Hnamed as [Hs' Hnamed].
  rewrite Ht, Hv, (rows_pending 0 n) in Hrs, Ht' by lia. rewrite Nat.sub_0_r in Hrs, Ht'.
  split; [|by apply dir_sources_eq]. split_and!; [done|done|]. by rewrite Ht'.
Qed.

Lemma rows_undo : to_undo 0 (rows n) = reverse (to n) ∧ record_all false (reverse (to n)) (rows n) = rows 0.
Proof.
  assert (Forall (λ v, 0 < v) (to n)) as Hpos by (apply Forall_forall; intros v Hv%to_pos; lia).
  unfold rows at 1 2. rewrite record_all_up. split; [by apply undo_fresh|by apply fresh_again].
Qed.

Lemma DownTo_goes w : applied n w → names ≠ [] →
  goes (DownTo goFn interpolate up_first p 0) w (λ r w', r.2 = None → applied 0 w' ∧ length r.1 = n).
Proof.
  intros (Hwf & Hs & Ht) Hne.
  assert (w_migs w ≠ []) as Hmigs.
  { intros Hnil. unfold psources in Hs. rewrite Hnil in Hs. by destruct names. }
  pose proof (DownTo_run user_stmt goFn interpolate up_first p Hstore Hlock Hexists Hparsed 0 w Hdv Hwf Hmigs) as [Hm Hn].
  pose proof (DownTo_named goFn interpolate up_first p (dir_sources names) 0 w Hs) as Hnamed.
  apply call_goes; [apply DownTo_NoErr|]. intros [rs err] w' Hrun Herr. cbn in Herr. subst err.
  rewrite Hrun in Hm, Hn, Hnamed. destruct Hm as (Hrs & _ & Ht'), Hn as [Hwf' _], Hnamed as [Hs' _].
  rewrite Ht in Hrs, Ht'. destruct rows_undo as [Hu Hr]. change (ToBool DirectionDown) with false in Ht'.
  rewrite Hu in Hrs, Ht'. rewrite Hr in Ht'. split.
  - split_and!; [done|done|]. by rewrite Ht'.
  - apply (f_equal length) in Hrs. rewrite length_map, length_reverse, length_seqZ in Hrs. cbn. lia.
Qed.

Lemma version_goes i w : applied i w → goes (check_version p (Z.of_nat i)) w (λ _ w', applied i w').
Proof.
  intros (Hwf & Hs & Ht). unfold check_version. apply (goes_seq _ _ _ (λ r w', r.2 = None →
    applied i w' ∧ r.1 = Z.of_nat i)).
  - pose proof (GetDBVersion_run user_stmt p Hstore Hlock Hexists w Hdv Hwf) as Hg.
    pose proof (GetDBVersion_named p (dir_sources names) w Hs) as Hnamed.
    apply call_goes; [apply GetDBVersion_NoErr|]. intros [v err] w' Hrun Herr. cbn in Herr. subst err.
    rewrite Hrun in Hg, Hnamed. destruct Hg as (Hv & Ht' & Hm), Hnamed as [Hs' _]. rewrite Ht, rows_max in Hv.
    split; [|by injection Hv]. split_and!; [|done|by rewrite Ht', Ht].
    apply (well_formed_kept user_stmt p w); [done|by rewrite Ht'|done].
  - intros [v err] w' Hr. apply goes_bind, goes_NoError. intros Herr. destruct (Hr Herr) as [Ha Hv]. cbn in Hv.
    subst v. apply goes_require; [apply Z.eqb_refl|done].
Qed.

Lemma step_goes i w : applied i w → (i < n)%nat →
  goes (UpByOne goFn interpolate up_first p) w (λ r w', r.2 = None →
    ∃ res, r.1 = Some res ∧ dir_sources names !! i = Some (res_Source res) ∧ applied (S i) w').
Proof.
  intros Ha Hi. pose proof (applied_versions _ _ Ha) as Hv. destruct Ha as (Hwf & Hs & Ht).
  pose proof (UpByOne_run user_stmt goFn interpolate up_first p Hstore Hlock Hexists Hparsed w Hdv Hwf) as Hu.
  pose proof (UpByOne_named goFn interpolate up_first p (dir_sources names) w Hs) as Hnamed.
  apply call_goes; [apply UpByOne_NoErr|]. intros [res err] w' Hrun Herr. cbn in Herr. subst err.
  rewrite Hrun in Hu, Hnamed. destruct Hu as (r & v & vs & -> & Hp & Hr & Ht' & Hwf' & _), Hnamed as [Hs' Hnamed].
  rewrite Hv, Ht, (rows_pending i n) in Hp by lia. rewrite seqZ_cons in Hp by lia. injection Hp as Hv' _.
  exists r. split_and!; [done| |split_and!; [done|done|]].
  - apply dir_source_at; [by apply Hnamed|]. unfold res_version in Hr. lia.
  - rewrite Ht', Ht, rows_S. cbn. do 2 f_equal. lia.
Qed.

(** ** The loops *)

Lemma check_results_run {W} l k results (w : W) :
  (∀ j r, results !! j = Some r → ∃ c, l !! (k + j)%nat = Some c ∧
     fullpath c = src_Path (res_Source r) ∧ version c = src_Version (res_Source r)) →
  check_results l k results w = (Ok tt, w).
Proof.
  revert k. induction results as [|r results IH]; intros k Hr; [done|]. cbn [check_results].
  destruct (Hr 0%nat r eq_refl) as (c & Hc & Hp & Hv). rewrite Nat.add_0_r in Hc. rewrite Hc, Hp, Hv.
  rewrite String.eqb_refl, Z.eqb_refl. apply IH. intros j r' Hj. rewrite Nat.add_succ_comm. by apply (Hr (S j)).
Qed.

Lemma want_sources i s : dir_sources names !! i = Some s →
  ∃ c, want !! i = Some c ∧ fullpath c = src_Path s ∧ version c = src_Version s.
Proof.
  unfold dir_sources, want. rewrite !list_lookup_imap. intros (name & -> & ->)%fmap_Some. by eexists.
Qed.

Lemma one_by_one_goes k i w : applied i w → (i + k = n)%nat →
  goes (up_one_by_one goFn interpolate up_first p (drop i want)) w (λ _ w', applied n w').
Proof.
  revert i w. induction k as [|k IH]; intros i w Ha Hk.
  { rewrite drop_ge by (rewrite length_want; lia). assert (i = n) as -> by lia. exact Ha. }
  destruct (lookup_lt_is_Some_2 want i) as [c Hc]; [rewrite length_want; lia|].
  rewrite (drop_S _ _ _ Hc). cbn [up_one_by_one]. eapply goes_seq; [by apply (step_goes i); [|lia]|].
  intros [res err] w' Hr. cbn in Hr. apply goes_bind, goes_NoError. intros Herr.
  destruct (Hr Herr) as (r & -> & Hs & Ha'). rewrite Herr. cbn [from_option].
  destruct (want_sources _ _ Hs) as (c' & Hc' & Hp & _). rewrite Hc in Hc'. injection Hc' as <-.
  apply goes_bind, goes_require; [rewrite Hp; apply String.eqb_refl|]. apply IH; [done|lia].
Qed.

Lemma exercise_goes w : applied 0 w → names ≠ [] →
  goes (exercise goFn interpolate up_first p want) w (λ _ w', applied n w').
Proof.
  intros Ha Hne. unfold exercise. cbn zeta. rewrite length_want.
  apply goes_bind. unfold ListSources, gets, goes at 1. apply goes_bind, goes_require.
  { destruct Ha as (_ & Hs & _). apply Z.eqb_eq. cbn. change (map source_info (w_migs w)) with (psources w).
    rewrite Hs. unfold dir_sources. by rewrite length_imap. }
  eapply goes_seq; [by apply Up_goes|]. intros [rs err] w1 Hup. cbn in Hup.
  apply goes_bind, goes_NoError. intros Herr. destruct (Hup Herr) as [Ha1 Hrs].
  apply goes_bind, goes_require.
  { apply (f_equal length) in Hrs. rewrite length_map in Hrs. unfold dir_sources in Hrs. rewrite length_imap in Hrs.
    apply Z.eqb_eq. lia. }
  apply goes_bind. unfold goes at 1. rewrite check_results_run.
  2: { intros j r Hj. apply want_sources. rewrite <- Hrs. cbn. by rewrite list_lookup_fmap, Hj. }
  apply (goes_seq _ _ _ (λ _ w', applied n w')); [by apply version_goes|]. intros _ w2 Ha2.
  eapply goes_seq; [by apply DownTo_goes|]. intros [rs2 err2] w3 Hdown. cbn in Hdown.
  apply goes_bind, goes_NoError. intros Herr2. destruct (Hdown Herr2) as [Ha3 Hlen].
  apply goes_bind, goes_require; [apply Z.eqb_eq; lia|].
  apply (goes_seq _ _ _ (λ _ w', applied 0 w')); [by apply (version_goes 0)|]. intros _ w4 Ha4.
  apply (goes_seq _ _ _ (λ _ w', applied n w')); [by apply (one_by_one_goes n 0)|]. intros _ w5 Ha5. by apply version_goes.
Qed.
End Calls.

(** ** The test *)

Lemma numbered_bound entries fsys : numbered_dir entries fsys names → names ≠ [] → Z.of_nat n ≤ maxInt64.
Proof.
  intros Hdir Hne. destruct (lookup_lt_is_Some_2 names (pred n)) as [name Hi].
  { destruct names; [done|cbn; lia]. }
  apply (nd_version _ _ _ Hdir) in Hi as Hv. apply NumericComponent_bounds in Hv as [Hb _].
  destruct names; [done|cbn in *; lia].
Qed.

Lemma collect_entry_run {W} name v (w : W) : NumericComponent name = inl v → filepath_Base name = name →
  collect_entry (mkDirEntry name false) w = (Ok (mkCollected name v), w).
Proof. intros Hv Hb. unfold collect_entry. cbn. by rewrite Hv, Hb. Qed.

Lemma collected_want entries fsys : numbered_dir entries fsys names →
  ∀ w : DB D, mmap collect_entry (map (λ name, mkDirEntry name false) names) w = (Ok want, w).
Proof.
  intros Hdir w. unfold want.
  assert (∀ k l, (∀ i name, l !! i = Some name → NumericComponent name = inl (Z.of_nat (k + i) + 1) ∧ filepath_Base name = name) →
    mmap collect_entry (map (λ name, mkDirEntry name false) l) w =
    (Ok (imap (λ i name, mkCollected name (Z.of_nat (k + i) + 1)) l), w)) as Hgen.
  { intros k l. revert k. induction l as [|name l IH]; intros k Hn; [done|]. cbn [map mmap imap].
    destruct (Hn 0%nat name eq_refl) as [Hv Hb]. rewrite (bind_run _ _ _ _ _ (collect_entry_run _ _ _ Hv Hb)).
    erewrite bind_run; [|apply (IH (S k))].
    - unfold mret, M_ret. do 3 f_equal. apply imap_ext. intros i name' _. cbn. f_equal. lia.
    - intros i name' Hi. rewrite Nat.add_succ_comm. by apply (Hn (S i)). }
  apply (Hgen 0%nat). intros i name Hi. split; [by apply (nd_version _ _ _ Hdir)|].
  apply (nd_name _ _ _ Hdir). by eapply list_elem_of_lookup_2.
Qed.

Lemma start_applied db :
  p_migrations p = map newSQLMigration (dir_sources names) →
  ensured (table (U:=U) db) = rows 0 → c_isolateDDL (p_cfg p) = false ∨ is_Some (table (U:=U) db) →
  applied 0 (mkPW db false false (p_migrations p)).
Proof.
  intros Hm Ht Hiso. unfold applied, ProviderSpec.well_formed, migs_ok, pversions, psources, creatable, once_ok.
  cbn [w_migs w_once w_db]. rewrite Hm. split_and!.
  - apply Forall_forall. intros m (s & -> & _)%list_elem_of_fmap. split; constructor.
  - right. split; [done|exact Hiso].
  - rewrite versions_sql, dir_versions. apply Forall_forall. intros v Hv%to_pos. lia.
  - change (map newSQLMigration (dir_sources names)) with (newSQLMigration <$> dir_sources names).
    rewrite <- list_fmap_compose. rewrite <- (list_fmap_id (dir_sources names)) at 2. by apply list_fmap_ext; intros i [].
  - exact Ht.
Qed.

Context (range : registry → list (Z * Migration)) (Hrange : range_ok range) (global : registry).
Context (os_ReadDir : string → result (list DirEntry)) (os_DirFS : string → FileSystem).

End Test.
