(* ===== verification/Transactions.v ===== *)
(** * Transactions of a [*sql.DB]

    What [db.BeginTx], [tx.Commit] and [tx.Rollback] do to the contents of the
    database: a commit keeps what was done, everything else restores the
    contents of the beginning. *)

From S2P Require Import Prelude GoStrings Effects Sql Dialects Store Migration Options Collect Runner.
From S2P Require Import Provider ProviderLocks RunnerSpec ProviderSpec.

(** The transaction that is open goes back to the contents [v]. *)
Definition in_tx {D U} `{DbModel D U} (v : option (list (Z * bool)) * U) (w : DB D) : Prop :=
  txOpen w = true ∧ snap (drv w) = Some v.

Section Transactions.
Context {D U : Type} `{DbLaws D U}.

Lemma session_in_tx {A} (m : M (DB D) A) v w :
  Preserves session m → in_tx v w → ∀ a w', m w = (Ok a, w') → in_tx v w'.
Proof.
  intros Hm [Ho Hs] a w' Hw. specialize (Hm w). rewrite Hw in Hm. unfold session in Hm.
  injection Hm as _ _ Ho' Hs'. by rewrite <- Ho', <- Hs' in *.
Qed.

Lemma db_BeginTx_run (w : DB D) :
  match db_BeginTx w with
  | (Ok _, w') => db_view w' = db_view w ∧ in_tx (db_view w) w'
  | (Err _, w') => db_view w' = db_view w
  | (Panic _, _) => False
  | (Block, _) => True
  end.
Proof.
  unfold db_BeginTx. rewrite bind_eq. pose proof (db_Conn_view w) as Hc.
  destruct (db_Conn w) as [[[]|e|s|] w1] eqn:Hconn; try done.
  2: { unfold db_Conn in Hconn. destruct (pool_exhausted w); [done|]. by destruct (drv_connect _) as [[] ?]. }
  rewrite bind_eq, catch_run. destruct (conn_BeginTx w1) as [r w2] eqn:Hb.
  destruct (conn_BeginTx_cases _ _ _ Hb) as [->|[e ->]].
  - destruct (conn_BeginTx_ok _ _ Hb) as (Hv & Ho & Hs). cbn. unfold in_tx. by rewrite Hv, Hs, Hc.
  - apply conn_BeginTx_err in Hb. rewrite bind_eq, error_of_run.
    destruct (conn_Close_run w2) as (r & d & -> & Hr & Hv).
    destruct Hr as [->|[e' ->]]; cbn; unfold db_view in *; cbn; congruence.
Qed.

Lemma end_tx_run finish (w : DB D) :
  txOpen w = true →
  match finish w with
  | (Ok _, w1) => ∃ w', end_tx finish w = (Ok tt, w') ∧ db_view w' = db_view w1
  | (Err e, w1) => ∃ w', end_tx finish w = (Err e, w') ∧ db_view w' = db_view w1
  | (r, w1) => end_tx finish w = (r, w1)
  end.
Proof.
  intros Ho. unfold end_tx. rewrite bind_eq. cbn [gets]. unfold gets. rewrite Ho, bind_eq, catch_run.
  destruct (finish w) as [[[]|e|s|] w1]; try done; rewrite bind_eq, error_of_run;
    destruct (conn_Close_run w1) as (r & d & -> & Hr & Hv);
    destruct Hr as [->|[e' ->]]; cbn; eexists; (split; [reflexivity|exact Hv]).
Qed.

Lemma dbtx_Commit_run (w : DB D) v :
  in_tx v w →
  match dbtx_Commit w with
  | (Ok _, w') => db_view w' = db_view w
  | (Err _, w') => db_view w' = v
  | _ => False
  end.
Proof.
  intros [Ho Hs]. pose proof (end_tx_run tx_Commit w Ho) as He. unfold dbtx_Commit.
  destruct (tx_Commit_open w v Ho Hs) as [(w1 & Hc & Hv)|(e & w1 & Hc & Hv & _)]; rewrite Hc in He;
    destruct He as (w' & -> & ->); done.
Qed.

Lemma dbtx_Rollback_run (w : DB D) v :
  in_tx v w → ∃ r w', error_of dbtx_Rollback w = (Ok r, w') ∧ db_view w' = v.
Proof.
  intros [Ho Hs]. pose proof (end_tx_run tx_Rollback w Ho) as He.
  destruct (tx_Rollback_open w v Ho Hs) as (r & w1 & Hr & Hv). rewrite error_of_run in Hr.
  rewrite error_of_run. unfold dbtx_Rollback.
  destruct (tx_Rollback w) as [[[]|e|s|] w2]; simplify_eq; destruct He as (w' & -> & Hw'); do 2 eexists; split; done || congruence.
Qed.

(** A step inside the transaction: it happened, or everything is undone. *)
Lemma or_rollback_run m v (w : DB D) :
  Preserves session m → in_tx v w →
  match or_rollback m w with
  | (Ok _, w') => m w = (Ok tt, w') ∧ in_tx v w'
  | (Err _, w') => db_view w' = v
  | _ => True
  end.
Proof.
  intros Hm Htx. unfold or_rollback. rewrite bind_eq, catch_run.
  pose proof (session_in_tx m v w Hm Htx) as Hok. specialize (Hm w).
  destruct (m w) as [[[]|e|s|] w1] eqn:Hw; try done.
  - split; [done|]. by eapply Hok.
  - rewrite bind_eq.
    assert (in_tx v w1) as Htx1.
    { destruct Htx as [Ho Hs]. unfold session in Hm. injection Hm as _ _ Ho' Hs'. split; congruence. }
    destruct (dbtx_Rollback_run w1 v Htx1) as (r & w' & -> & Hv). exact Hv.
Qed.

Lemma or_rollback_for {A} (f : A → M (DB D) unit) l v (w : DB D) :
  (∀ x, x ∈ l → Preserves session (f x)) → (∀ x, x ∈ l → Preserves table (f x)) → in_tx v w →
  match mfor (λ x, or_rollback (f x)) l w with
  | (Ok _, w') => table w' = table w ∧ in_tx v w'
  | (Err _, w') => db_view w' = v
  | _ => True
  end.
Proof.
  revert w. induction l as [|x l IH]; intros w Hs Ht Htx; [done|].
  cbn [mfor]. rewrite bind_eq. pose proof (or_rollback_run (f x) v w (Hs x ltac:(by left)) Htx) as Hx.
  destruct (or_rollback (f x) w) as [[[]|e|s|] w1]; try done. destruct Hx as [Hx Htx1].
  pose proof (Ht x ltac:(by left) w) as Htab. rewrite Hx in Htab.
  specialize (IH w1 (λ y Hy, Hs y ltac:(by right)) (λ y Hy, Ht y ltac:(by right)) Htx1).
  destruct (mfor _ l w1) as [[[]|e|s|] w2]; try done. by rewrite <- Htab.
Qed.

End Transactions.
