(* ===== verification/LegacyStore.v ===== *)
(** * The store of the legacy interface (internal/legacystore, dialect.go, db.go)

    The package-level functions reach the version table through a second,
    older store: the same dialect statements, on [*sql.DB] or on a transaction
    of it, with errors passed on as they are. *)

From S2P Require Import Prelude GoStrings Effects Sql Dialects Store.

(** [NewStore] chooses a querier; there is none for Aurora DSQL. *)
Definition legacystore_NewStore (d : Dialect) : result Querier :=
  match d with
  | DialectPostgres => inl NewPostgres
  | DialectMySQL => inl NewMysql
  | DialectSQLite3 => inl NewSqlite3
  | DialectSpanner => inl NewSpanner
  | DialectMSSQL => inl NewSqlserver
  | DialectRedshift => inl NewRedshift
  | DialectTiDB => inl NewTidb
  | DialectClickHouse => inl NewClickhouse
  | DialectVertica => inl NewVertica
  | DialectYdB => inl NewYDB
  | DialectTurso => inl NewTurso
  | DialectStarrocks => inl NewStarrocks
  | _ => inr (EErrorf "unknown querier dialect: %v" [])
  end.

(** The dialect [SetDialect] chooses for a name. *)
Definition dialect_of_name (s : string) : option Dialect :=
  if existsb (String.eqb s) ["postgres"; "pgx"] then Some DialectPostgres
  else if String.eqb s "mysql" then Some DialectMySQL
  else if existsb (String.eqb s) ["sqlite3"; "sqlite"] then Some DialectSQLite3
  else if String.eqb s "spanner" then Some DialectSpanner
  else if existsb (String.eqb s) ["mssql"; "azuresql"; "sqlserver"] then Some DialectMSSQL
  else if String.eqb s "redshift" then Some DialectRedshift
  else if String.eqb s "tidb" then Some DialectTiDB
  else if String.eqb s "clickhouse" then Some DialectClickHouse
  else if String.eqb s "vertica" then Some DialectVertica
  else if String.eqb s "ydb" then Some DialectYdB
  else if String.eqb s "turso" then Some DialectTurso
  else if String.eqb s "starrocks" then Some DialectStarrocks
  else None.

(** The global [store] variable is a querier; the new value is returned. *)
Definition SetDialect (s : string) : result Querier :=
  match dialect_of_name s with
  | None => inr (EErrorf "%q: unknown dialect" [AStr s])
  | Some d => legacystore_NewStore d
  end.

(** The driver that [OpenDBWithDriver] (db.go) opens the database with, after it
    has called [SetDialect]. *)
Definition driver_name (driver : string) : result string :=
  let driver :=
    if String.eqb driver "mssql" then "sqlserver"
    else if String.eqb driver "tidb" then "mysql"
    else if String.eqb driver "spanner" then "spanner"
    else if String.eqb driver "turso" then "libsql"
    else if String.eqb driver "sqlite3" then "sqlite"
    else if existsb (String.eqb driver) ["postgres"; "redshift"] then "pgx"
    else if String.eqb driver "starrocks" then "mysql"
    else driver in
  if existsb (String.eqb driver) ["postgres"; "pgx"; "sqlite3"; "sqlite"; "spanner"; "mysql"; "sqlserver";
       "clickhouse"; "vertica"; "azuresql"; "ydb"; "libsql"; "starrocks"]
  then inl driver else inr (EErrorf "unsupported driver %s" [AStr driver]).

Definition OpenDBWithDriver (driver : string) : result (Querier * string) :=
  let? store := SetDialect driver in
  let? driver := driver_name driver in
  inl (store, driver).

(** A driver is known for every name of a dialect. *)
Lemma dialect_has_driver s d : dialect_of_name s = Some d → ∃ driver, driver_name s = inl driver.
Proof.
  unfold dialect_of_name. intros Hd.
  assert (s ∈ ["postgres"; "pgx"; "mysql"; "sqlite3"; "sqlite"; "spanner"; "mssql"; "azuresql"; "sqlserver";
    "redshift"; "tidb"; "clickhouse"; "vertica"; "ydb"; "turso"; "starrocks"]) as Hs.
  { cbn [existsb] in Hd. repeat match type of Hd with
    | (if ?b then _ else _) = _ => destruct b eqn:?
    end; try done; repeat match goal with H : _ || _ = true |- _ => apply orb_prop in H as [H|H] end;
    try done; match goal with H : String.eqb s _ = true |- _ => apply String.eqb_eq in H as -> end; set_solver. }
  clear Hd. repeat (apply elem_of_cons in Hs as [->|Hs]; [by eexists|]). by apply not_elem_of_nil in Hs.
Qed.

(** ** Operations *)

Section Operations.
Context {D : Type} `{Driver D} (querier : Querier) (tableName : string).

Definition legacy_CreateVersionTable : M (DB D) unit :=
  let q := q_CreateTable querier tableName in ExecContext HTx q [].

Definition legacy_InsertVersion (version : Z) : M (DB D) unit :=
  let q := q_InsertVersion querier tableName in ExecContext HTx q [VInt version; VBool true].

Definition legacy_InsertVersionNoTx (version : Z) : M (DB D) unit :=
  let q := q_InsertVersion querier tableName in ExecContext HDB q [VInt version; VBool true].

Definition legacy_DeleteVersion (version : Z) : M (DB D) unit :=
  let q := q_DeleteVersion querier tableName in ExecContext HTx q [VInt version].

Definition legacy_DeleteVersionNoTx (version : Z) : M (DB D) unit :=
  let q := q_DeleteVersion querier tableName in ExecContext HDB q [VInt version].

Definition legacy_GetMigration (version : Z) : M (DB D) GetMigrationResult :=
  let q := q_GetMigrationByVersion querier tableName in
  row ← QueryRowContext HDB q [VInt version];
  of_result (scan_migration row).

Definition legacy_ListMigrations : M (DB D) (list ListMigrationsResult) :=
  let q := q_ListMigrations querier tableName in
  rows ← QueryContext HDB q [];
  mmap (λ row, of_result (scan_listed row)) rows.

End Operations.
