(* ===== verification/Legacy.v ===== *)
(** * The legacy interface (migrate.go, migration.go, migration_sql.go)

    The package-level functions that work on a directory, a global registry of
    Go migrations and a [*sql.DB].  A [Migrations] slice holds pointers: to the
    objects of the registry, which outlive a call, and to objects made for the
    call; the state has both. *)

From S2P Require Import Prelude GoStrings Effects SqlParser Sql Dialects Store Migration Options.
From S2P Require Import Collect LegacyStore.

(** ** State *)

Record LW (D : Type) := mkLW { l_db : DB D; l_reg : registry; l_new : list Migration }.
Arguments mkLW {D} _ _ _.
Arguments l_db {D} _.
Arguments l_reg {D} _.
Arguments l_new {D} _.

(** A pointer to a registered migration, or to a new one. *)
Inductive ptr := PReg (version : Z) | PNew (i : nat).

Abbreviation Migrations := (list ptr).

(** The directory of the migrations: the base file system and its [Stat]. *)
Record BaseFS := mkBaseFS { b_fs : FileSystem; b_Stat : string → option error }.

Section State.
Context {D : Type}.

Definition heap_lookup (p : ptr) (w : LW D) : option Migration :=
  match p with PReg v => l_reg w !! v | PNew i => l_new w !! i end.

Definition heap_update (p : ptr) (f : Migration → Migration) (w : LW D) : LW D :=
  match p with
  | PReg v => mkLW (l_db w) (alter f v (l_reg w)) (l_new w)
  | PNew i => mkLW (l_db w) (l_reg w) (alter f i (l_new w))
  end.

Definition load (p : ptr) : M (LW D) Migration := λ w,
  match heap_lookup p w with Some m => (Ok m, w) | None => (Panic nil_deref, w) end.

Definition update (p : ptr) (f : Migration → Migration) : M (LW D) unit := modify (heap_update p f).

Definition alloc (m : Migration) : M (LW D) ptr := λ w,
  (Ok (PNew (length (l_new w))), mkLW (l_db w) (l_reg w) (l_new w ++ [m])).

Definition set_ldb (d : DB D) (w : LW D) : LW D := mkLW d (l_reg w) (l_new w).
Definition liftl {A} (m : M (DB D) A) : M (LW D) A := zoom l_db set_ldb m.

(** ** The slice's methods *)

Fixpoint Migrations_Current (ms : Migrations) (current : Z) : M (LW D) ptr :=
  match ms with
  | [] => fail (ESentinel ErrNoCurrentVersion)
  | p :: ms => m ← load p; if m_Version m =? current then mret p else Migrations_Current ms current
  end.

Fixpoint Migrations_Next (ms : Migrations) (current : Z) : M (LW D) ptr :=
  match ms with
  | [] => fail (ESentinel ErrNoNextVersion)
  | p :: ms => m ← load p; if m_Version m >? current then mret p else Migrations_Next ms current
  end.

(** The loop of [Previous] runs from the end of the slice. *)
Fixpoint previous_from (rms : Migrations) (current : Z) : M (LW D) ptr :=
  match rms with
  | [] => fail (ESentinel ErrNoNextVersion)
  | p :: rms => m ← load p; if m_Version m <? current then mret p else previous_from rms current
  end.
Definition Migrations_Previous (ms : Migrations) (current : Z) : M (LW D) ptr :=
  previous_from (reverse ms) current.

Definition Migrations_Last (ms : Migrations) : M (LW D) ptr :=
  match last ms with None => fail (ESentinel ErrNoNextVersion) | Some p => mret p end.

(** ** Collecting *)

Definition versionFilter (v current target : Z) : bool :=
  if target >? current then (v >? current) && (v <=? target)
  else if target <? current then (v <=? current) && (v >? target)
  else false.

(** [&Migration{Version: v, Next: -1, Previous: -1, Source: file}]. *)
Definition file_migration (v : Z) (file : string) : Migration :=
  {| m_Type := TypeOther "";
     m_Version := v;
     m_Source := file;
     m_UpFnContext := None; m_DownFnContext := None;
     m_UpFnNoTxContext := None; m_DownFnNoTxContext := None;
     m_Registered := false; m_UseTx := false;
     m_Next := -1; m_Previous := -1;
     m_UpFn := None; m_DownFn := None; m_UpFnNoTx := None; m_DownFnNoTx := None;
     m_noVersioning := false;
     m_construct := false;
     m_goUp := None; m_goDown := None;
     m_sql := mkSqlMigration false false [] [] |}.

Definition version_of (p : ptr) : M (LW D) (Z * ptr) := m ← load p; mret (m_Version m, p).

Definition pair_le (a b : Z * ptr) : Prop := a.1 ≤ b.1.
#[export] Instance pair_le_dec : RelDecision pair_le.
Proof. intros a b. unfold pair_le. apply _. Defined.

(** The loop that fills in [Next] and [Previous]. *)
Fixpoint connect (prev : option (Z * ptr)) (ms : list (Z * ptr)) : M (LW D) unit :=
  match ms with
  | [] => mret tt
  | (v, p) :: ms =>
      (match prev with
       | None => mret tt
       | Some (_, q) => update q (λ m, set_links v (m_Previous m) m)
       end);;
      update p (λ m, set_links (m_Next m) (match prev with None => -1 | Some (pv, _) => pv end) m);;
      connect (Some (v, p)) ms
  end.

(** [sort.Sort] compares any two equal versions there are, and [Less] panics
    on them. *)
Definition sortAndConnectMigrations (migrations : Migrations) : M (LW D) Migrations :=
  ms ← mmap version_of migrations;
  if bool_decide (NoDup ms.*1) then
    let ms := merge_sort pair_le ms in
    connect None ms;;
    mret ms.*2
  else panic "goose: duplicate version detected".

Section Collect.
Context (range : registry → list (Z * Migration)) (fsys : BaseFS).

(** The loop over the SQL files. *)
Fixpoint collect_sql_files (files : list string) (current target : Z) : M (LW D) Migrations :=
  match files with
  | [] => mret []
  | file :: files =>
      v ← wrap_err (λ err, EErrorf "could not parse SQL migration file %q: %w" [AStr file; AWrap err])
            (of_result (NumericComponent file));
      ms ← (if versionFilter v current target
            then p ← alloc (file_migration v file); mret [p] else mret []);
      rest ← collect_sql_files files current target;
      mret (ms ++ rest)
  end.

(** The versions of the Go files within the range. *)
Definition go_file_sources (goFiles : list string) (current target : Z) : list (string * Z) :=
  omap (λ fullpath,
    match NumericComponent fullpath with
    | inr _ => None
    | inl v =>
        if HasSuffix fullpath "_test.go" then None
        else if versionFilter v current target then Some (fullpath, v) else None
    end) goFiles.

(** A Go file's migration: the registered one, or one that fails when run. *)
Definition go_source_migration (s : string * Z) : M (LW D) ptr :=
  registered ← gets l_reg;
  match registered !! s.2 with
  | Some _ => mret (PReg s.2)
  | None => alloc (file_migration s.2 s.1)
  end.

Definition check_registered (entry : Z * Migration) : M (LW D) unit :=
  match NumericComponent (m_Source entry.2) with
  | inl _ => mret tt
  | inr err => fail (EErrorf "could not parse go migration file %s: %w" [AStr (m_Source entry.2); AWrap err])
  end.

(** The registered migrations within the range, when there are no Go files. *)
Fixpoint registered_in_range (entries : list (Z * Migration)) (current target : Z)
  : M (LW D) Migrations :=
  match entries with
  | [] => mret []
  | (k, m) :: entries =>
      match NumericComponent (m_Source m) with
      | inr err => fail (EErrorf "could not parse go migration file %s: %w" [AStr (m_Source m); AWrap err])
      | inl v =>
          rest ← registered_in_range entries current target;
          mret (if versionFilter v current target then PReg k :: rest else rest)
      end
  end.

Definition collectGoMigrations (dirpath : string) (current target : Z) : M (LW D) Migrations :=
  registered ← gets l_reg;
  mfor check_registered (range registered);;
  goFiles ← of_result (fs_Glob (b_fs fsys) (path_Join dirpath "*.go"));
  if Nat.eqb (length goFiles) 0 && Nat.eqb (size registered) 0 then mret []
  else
    match go_file_sources goFiles current target with
    | [] => registered_in_range (range registered) current target
    | sources => mmap go_source_migration sources
    end.

Definition collectMigrationsFS (dirpath : string) (current target : Z) : M (LW D) Migrations :=
  match b_Stat fsys dirpath with
  | Some err =>
      if errors_Is err fs_ErrNotExist then fail (EErrorf "%s directory does not exist" [AStr dirpath])
      else fail err
  | None =>
      sqlMigrationFiles ← of_result (fs_Glob (b_fs fsys) (path_Join dirpath "*.sql"));
      migrations ← collect_sql_files sqlMigrationFiles current target;
      goMigrations ← collectGoMigrations dirpath current target;
      let migrations := migrations ++ goMigrations in
      if Nat.eqb (length migrations) 0 then fail (ESentinel ErrNoMigrationFiles)
      else sortAndConnectMigrations migrations
  end.

(** [CollectMigrations] with the global file system and registry. *)
Definition CollectMigrations (dirpath : string) (current target : Z) : M (LW D) Migrations :=
  collectMigrationsFS dirpath current target.

End Collect.
End State.
