(* ===== verification/LegacyRun.v ===== *)
(** * Running migrations through the legacy interface

    [migration.go] and [migration_sql.go]: running one migration; [migrate.go]:
    the version of the database; [up.go], [down.go], [redo.go], [reset.go],
    [status.go] and [version.go]: the commands.  Printing is left out, except
    that [Status] and [Version] return what they print. *)

From S2P Require Import Prelude GoStrings Effects SqlParser Sql Dialects Store Migration Options.
From S2P Require Import Collect LegacyStore Legacy.

(** ** [clearStatement]: comments and empty lines removed from a query *)

(** What the matcher of a regular expression is doing: copying, with the line
    start to its left or not; inside a match, before its end of line; eating
    the line ends after it. *)
Inductive clear_mode := Copying (line_start : bool) | InMatch | Eating (line_start : bool).

Definition is_nl (c : ascii) : bool := bool_decide (c = ch 10).
Definition is_eol (c : ascii) : bool := is_nl c || bool_decide (c = ch 13).

(** [(?m)^--.*$[\r\n]*] replaced by nothing. *)
Fixpoint clear_comments (mode : clear_mode) (s : string) : string :=
  match s with
  | EmptyString => EmptyString
  | String c s' =>
      let copy line_start :=
        if line_start && HasPrefix s "--" then clear_comments InMatch s'
        else String c (clear_comments (Copying (is_nl c)) s') in
      match mode with
      | Copying line_start => copy line_start
      | InMatch => if is_nl c then clear_comments (Eating true) s' else clear_comments InMatch s'
      | Eating line_start => if is_eol c then clear_comments (Eating (is_nl c)) s' else copy line_start
      end
  end.

(** [(?m)^$[\r\n]*] replaced by nothing. *)
Fixpoint clear_empty (mode : clear_mode) (s : string) : string :=
  match s with
  | EmptyString => EmptyString
  | String c s' =>
      let copy line_start :=
        if line_start && is_nl c then clear_empty (Eating true) s'
        else String c (clear_empty (Copying (is_nl c)) s') in
      match mode with
      | Copying line_start => copy line_start
      | InMatch => copy false
      | Eating line_start => if is_eol c then clear_empty (Eating (is_nl c)) s' else copy line_start
      end
  end.

Definition clearStatement (s : string) : string :=
  clear_empty (Copying true) (clear_comments (Copying true) s).

(** ** Options *)

Record options := mkOptions { allowMissing : bool; applyUpByOne : bool; noVersioning : bool }.
Definition OptionsFunc : Type := options → options.
Definition no_options : options := mkOptions false false false.

Definition WithAllowMissing : OptionsFunc := λ o, mkOptions true (applyUpByOne o) (noVersioning o).
Definition WithNoVersioning : OptionsFunc := λ o, mkOptions (allowMissing o) (applyUpByOne o) true.
(** It only sets the global that colours the output. *)
Definition WithNoColor (b : bool) : OptionsFunc := λ o, o.
Definition withApplyUpByOne : OptionsFunc := λ o, mkOptions (allowMissing o) true (noVersioning o).

Definition apply_options_funcs (opts : list OptionsFunc) : options :=
  foldl (λ o f, f o) no_options opts.

Definition minVersion : Z := 0.
Definition maxVersion : Z := maxInt64.

Section Legacy.
Context {D : Type} `{Driver D, Multierr}.
(** The user's Go functions, the environment substitution, the order in which
    the registry is visited and the globals [baseFS], [store] and [tableName]. *)
Context (goFn : Z → DBTxConn → M (DB D) unit) (interpolate : string → result string).
Context (range : registry → list (Z * Migration)) (baseFS : BaseFS).
Context (querier : Querier) (tableName : string).

(** ** Running one migration *)

Definition runSQLMigration (statements : list string) (useTx : bool) (v : Z)
    (direction noVersioning : bool) : M (DB D) unit :=
  let exec db query :=
    wrap_err (λ err, EErrorf "failed to execute SQL query %q: %w" [AStr (clearStatement query); AWrap err])
      (ExecContext db query []) in
  let inserting := wrap_err (λ err, EErrorf "failed to insert new goose version: %w" [AWrap err]) in
  let deleting := wrap_err (λ err, EErrorf "failed to delete goose version: %w" [AWrap err]) in
  if useTx then
    wrap_err (λ err, EErrorf "failed to begin transaction: %w" [AWrap err]) db_BeginTx;;
    mfor (λ query, or_rollback (exec HTx query)) statements;;
    (if negb noVersioning then
       if direction then or_rollback (inserting (legacy_InsertVersion querier tableName v))
       else or_rollback (deleting (legacy_DeleteVersion querier tableName v))
     else mret tt);;
    wrap_err (λ err, EErrorf "failed to commit transaction: %w" [AWrap err]) dbtx_Commit
  else
    mfor (exec HDB) statements;;
    if negb noVersioning then
      if direction then inserting (legacy_InsertVersionNoTx querier tableName v)
      else deleting (legacy_DeleteVersionNoTx querier tableName v)
    else mret tt.

Definition insertOrDeleteVersion (version : Z) (direction : bool) : M (DB D) unit :=
  if direction then legacy_InsertVersion querier tableName version
  else legacy_DeleteVersion querier tableName version.

Definition insertOrDeleteVersionNoTx (version : Z) (direction : bool) : M (DB D) unit :=
  if direction then legacy_InsertVersionNoTx querier tableName version
  else legacy_DeleteVersionNoTx querier tableName version.

Definition run_go_fn (fn : option Z) (db : DBTxConn) : M (DB D) unit :=
  match fn with
  | Some id => wrap_err (λ err, EErrorf "failed to run go migration: %w" [AWrap err]) (goFn id db)
  | None => mret tt
  end.

Definition runGoMigrationNoTx (fn : option Z) (version : Z) (direction recordVersion : bool)
  : M (DB D) unit :=
  run_go_fn fn HDB;;
  if recordVersion then insertOrDeleteVersionNoTx version direction else mret tt.

Definition runGoMigration (fn : option Z) (version : Z) (direction recordVersion : bool)
  : M (DB D) unit :=
  if is_nil fn && negb recordVersion then mret tt
  else
    wrap_err (λ err, EErrorf "failed to begin transaction: %w" [AWrap err]) db_BeginTx;;
    or_rollback (run_go_fn fn HTx);;
    (if recordVersion then
       or_rollback (wrap_err (λ err, EErrorf "failed to update version: %w" [AWrap err])
         (insertOrDeleteVersion version direction))
     else mret tt);;
    wrap_err (λ err, EErrorf "failed to commit transaction: %w" [AWrap err]) dbtx_Commit.

(** [Migration.run] on the value of the migration. *)
Definition Migration_run (m : Migration) (direction : bool) : M (DB D) unit :=
  let name := filepath_Base (m_Source m) in
  if String.eqb (filepath_Ext (m_Source m)) ".sql" then
    f ← wrap_err (λ err, EErrorf "ERROR %v: failed to open SQL migration file: %w" [AStr name; AWrap err])
          (of_result (fs_Open (b_fs baseFS) (m_Source m)));
    parsed ← wrap_err (λ err, EErrorf "ERROR %v: failed to parse SQL migration file: %w" [AStr name; AWrap err])
          (of_result (ParseSQLMigration interpolate f.1 (FromBool direction)));
    wrap_err (λ err, EErrorf "ERROR %v: failed to run SQL migration: %w" [AStr name; AWrap err])
      (runSQLMigration parsed.1 parsed.2 (m_Version m) direction (m_noVersioning m))
  else if String.eqb (filepath_Ext (m_Source m)) ".go" then
    if negb (m_Registered m) then
      fail (EErrorf "ERROR %v: failed to run Go migration: Go functions must be registered and built into a custom binary (see https://github.com/pressly/goose/tree/master/examples/go-migrations)" [AStr (m_Source m)])
    else if m_UseTx m then
      let fn := if direction then m_UpFnContext m else m_DownFnContext m in
      wrap_err (λ err, EErrorf "ERROR go migration: %q: %w" [AStr name; AWrap err])
        (runGoMigration fn (m_Version m) direction (negb (m_noVersioning m)))
    else
      let fn := if direction then m_UpFnNoTxContext m else m_DownFnNoTxContext m in
      wrap_err (λ err, EErrorf "ERROR go migration no tx: %q: %w" [AStr name; AWrap err])
        (runGoMigrationNoTx fn (m_Version m) direction (negb (m_noVersioning m)))
  else mret tt.

Definition Migration_UpContext (p : ptr) : M (LW D) unit :=
  m ← load p; liftl (Migration_run m true).
Definition Migration_DownContext (p : ptr) : M (LW D) unit :=
  m ← load p; liftl (Migration_run m false).

(** ** The version of the database *)

Definition createVersionTable : M (DB D) unit :=
  db_BeginTx;;
  or_rollback (legacy_CreateVersionTable querier tableName);;
  or_rollback (legacy_InsertVersion querier tableName 0);;
  dbtx_Commit.

(** The first version, newest row first, whose newest row says applied. *)
Fixpoint lookup_applied (skipLookup : gset Z) (dbMigrations : list ListMigrationsResult) : option Z :=
  match dbMigrations with
  | [] => None
  | m :: dbMigrations =>
      if bool_decide (lm_Version m ∈ skipLookup) then lookup_applied skipLookup dbMigrations
      else if lm_IsApplied m then Some (lm_Version m)
      else lookup_applied ({[lm_Version m]} ∪ skipLookup) dbMigrations
  end.

Definition EnsureDBVersionContext : M (DB D) Z :=
  r ← catch (legacy_ListMigrations querier tableName);
  match r with
  | inr err =>
      createErr ← error_of createVersionTable;
      match createErr with
      | Some _ => match multierr_Append (Some err) createErr with Some e => fail e | None => mret 0 end
      | None => mret 0
      end
  | inl dbMigrations =>
      match lookup_applied ∅ dbMigrations with
      | Some v => mret v
      | None => fail (ESentinel ErrNoNextVersion)
      end
  end.

(** The -1 that comes with an error is never looked at below. *)
Definition GetDBVersionContext : M (DB D) Z := EnsureDBVersionContext.

(** The versions recorded in the database, in ascending order. *)
Definition listAllDBVersions : M (DB D) (list Z) :=
  dbMigrations ← legacy_ListMigrations querier tableName;
  mret (merge_sort Z.le (map lm_Version dbMigrations)).

Definition found_le (a b : ptr * Migration) : Prop := m_Version a.2 ≤ m_Version b.2.
#[export] Instance found_le_dec : RelDecision found_le.
Proof. intros a b. unfold found_le. apply _. Defined.

Definition findMissingMigrations (knownMigrations : list Z) (newMigrations : list (ptr * Migration))
    (dbMaxVersion : Z) : list (ptr * Migration) :=
  let existing : gset Z := list_to_set knownMigrations in
  merge_sort found_le
    (filter (λ new, m_Version new.2 ∉ existing ∧ m_Version new.2 < dbMaxVersion) newMigrations).

(** ** Up *)

Fixpoint upToNoVersioning (migrations : Migrations) (version : Z) : M (LW D) unit :=
  match migrations with
  | [] => mret tt
  | current :: migrations =>
      m ← load current;
      if m_Version m >? version then mret tt
      else update current (set_noVersioning true);;
           Migration_UpContext current;;
           upToNoVersioning migrations version
  end.

(** The loop over the migrations to apply; true if it returned after the first. *)
Fixpoint apply_up (byOne : bool) (migrationsToApply : Migrations) : M (LW D) bool :=
  match migrationsToApply with
  | [] => mret false
  | m :: migrationsToApply =>
      Migration_UpContext m;;
      if byOne then mret true else apply_up byOne migrationsToApply
  end.

Definition missing_error (missing : list (ptr * Migration)) (dbMaxVersion : Z) : error :=
  let collected := map (λ m, "version " +++ FormatInt (m_Version m.2) +++ ": " +++ m_Source m.2) missing in
  EErrorf "error: found %d missing migrations before current version %d:
	%s" [AInt (Z.of_nat (length missing)); AInt dbMaxVersion; AStr (Join collected (nl +++ tab))].

(** The migrations to apply, or the error about the missing ones. *)
Definition to_apply (allowMissing : bool) (found : list (ptr * Migration)) (dbMigrations : list Z)
    (dbMaxVersion version : Z) : result Migrations :=
  let lookupAppliedInDB : gset Z := list_to_set dbMigrations in
  let missingMigrations := findMissingMigrations dbMigrations found dbMaxVersion in
  if (0 <? Z.of_nat (length missingMigrations)) && negb allowMissing
  then inr (missing_error missingMigrations dbMaxVersion)
  else
    let new := filter (λ m, m_Version m.2 ∉ lookupAppliedInDB ∧
                            dbMaxVersion < m_Version m.2 ∧ m_Version m.2 ≤ version) found in
    inl ((if allowMissing then missingMigrations else []) ++ new).*1.

Definition UpToContext (dir : string) (version : Z) (opts : list OptionsFunc) : M (LW D) unit :=
  let option := apply_options_funcs opts in
  foundMigrations ← CollectMigrations range baseFS dir minVersion version;
  if noVersioning option then
    match foundMigrations with
    | [] => mret tt
    | first :: _ =>
        version ← (if applyUpByOne option then m ← load first; mret (m_Version m) else mret version);
        upToNoVersioning foundMigrations version
    end
  else
    liftl EnsureDBVersionContext;;
    dbMigrations ← liftl listAllDBVersions;
    dbMaxVersion ← (match last dbMigrations with
                    | Some v => mret v
                    | None => panic "index out of range [-1]"
                    end);
    found ← mmap (λ p, m ← load p; mret (p, m)) foundMigrations;
    migrationsToApply ← of_result (to_apply (allowMissing option) found dbMigrations dbMaxVersion version);
    returned ← apply_up (applyUpByOne option) migrationsToApply;
    if returned : bool then mret tt
    else
      (if Nat.eqb (length migrationsToApply) 0 then liftl GetDBVersionContext;; mret tt else mret tt);;
      if applyUpByOne option then fail (ESentinel ErrNoNextVersion) else mret tt.

Definition UpContext (dir : string) (opts : list OptionsFunc) : M (LW D) unit :=
  UpToContext dir maxVersion opts.
Definition UpByOneContext (dir : string) (opts : list OptionsFunc) : M (LW D) unit :=
  UpToContext dir maxVersion (opts ++ [withApplyUpByOne]).

(** ** Down *)

(** The loop of [downToNoVersioning] runs from the end of the slice. *)
Fixpoint down_from (rmigrations : Migrations) (version : Z) : M (LW D) unit :=
  match rmigrations with
  | [] => mret tt
  | p :: rmigrations =>
      m ← load p;
      if version >=? m_Version m then mret tt
      else update p (set_noVersioning true);;
           Migration_DownContext p;;
           down_from rmigrations version
  end.

Definition downToNoVersioning (migrations : Migrations) (version : Z) : M (LW D) unit :=
  down_from (reverse migrations) version.

(** The last migration's version; the caller has checked that there is one. *)
Definition last_version (migrations : Migrations) : M (LW D) Z :=
  match last migrations with
  | None => panic "index out of range [-1]"
  | Some p => m ← load p; mret (m_Version m)
  end.

Definition DownContext (dir : string) (opts : list OptionsFunc) : M (LW D) unit :=
  let option := apply_options_funcs opts in
  migrations ← CollectMigrations range baseFS dir minVersion maxVersion;
  if noVersioning option then
    if Nat.eqb (length migrations) 0 then mret tt
    else
      currentVersion ← last_version migrations;
      downToNoVersioning migrations (currentVersion - 1)
  else
    currentVersion ← liftl GetDBVersionContext;
    current ← wrap_err (λ err, EErrorf "migration %v: %w" [AInt currentVersion; AWrap err])
      (Migrations_Current migrations currentVersion);
    Migration_DownContext current.

(** One round of the loop of [DownTo]; true if there is another one. *)
Definition down_round (migrations : Migrations) (version : Z) : M (LW D) bool :=
  currentVersion ← liftl GetDBVersionContext;
  if currentVersion =? 0 then mret false
  else
    current ← Migrations_Current migrations currentVersion;
    m ← load current;
    if m_Version m <=? version then mret false
    else Migration_DownContext current;; mret true.

(** [for { ... }]: [None] when [fuel] rounds were not enough. *)
Fixpoint down_rounds (fuel : nat) (migrations : Migrations) (version : Z) : M (LW D) (option unit) :=
  match fuel with
  | O => mret None
  | S fuel =>
      again ← down_round migrations version;
      if again : bool then down_rounds fuel migrations version else mret (Some tt)
  end.

Definition DownToContext (fuel : nat) (dir : string) (version : Z) (opts : list OptionsFunc)
  : M (LW D) (option unit) :=
  let option := apply_options_funcs opts in
  migrations ← CollectMigrations range baseFS dir minVersion maxVersion;
  if noVersioning option then downToNoVersioning migrations version;; mret (Some tt)
  else down_rounds fuel migrations version.

(** ** Redo and Reset *)

Definition RedoContext (dir : string) (opts : list OptionsFunc) : M (LW D) unit :=
  let option := apply_options_funcs opts in
  migrations ← CollectMigrations range baseFS dir minVersion maxVersion;
  let redo currentVersion :=
    current ← Migrations_Current migrations currentVersion;
    update current (set_noVersioning (noVersioning option));;
    Migration_DownContext current;;
    Migration_UpContext current in
  if noVersioning option then
    if Nat.eqb (length migrations) 0 then mret tt
    else currentVersion ← last_version migrations; redo currentVersion
  else currentVersion ← liftl GetDBVersionContext; redo currentVersion.

(** For each version, what its newest row says. *)
Definition dbMigrationsStatus : M (DB D) (gmap Z bool) :=
  dbMigrations ← legacy_ListMigrations querier tableName;
  mret (foldl (λ results m,
          match results !! lm_Version m with
          | Some _ => results
          | None => <[lm_Version m := lm_IsApplied m]> results
          end) ∅ dbMigrations).

Definition pair_ge (a b : Z * ptr) : Prop := b.1 ≤ a.1.
#[export] Instance pair_ge_dec : RelDecision pair_ge.
Proof. intros a b. unfold pair_ge. apply _. Defined.

Definition reset_one (statuses : gmap Z bool) (p : ptr) : M (LW D) unit :=
  migration ← load p;
  if default false (statuses !! m_Version migration)
  then wrap_err (λ err, EErrorf "failed to db-down: %w" [AWrap err]) (Migration_DownContext p)
  else mret tt.

(** The migrations have different versions here, so sorting does not panic. *)
Definition ResetContext (fuel : nat) (dir : string) (opts : list OptionsFunc) : M (LW D) (option unit) :=
  let option := apply_options_funcs opts in
  migrations ← wrap_err (λ err, EErrorf "failed to collect migrations: %w" [AWrap err])
    (CollectMigrations range baseFS dir minVersion maxVersion);
  if noVersioning option then DownToContext fuel dir minVersion opts
  else
    statuses ← wrap_err (λ err, EErrorf "failed to get status of migrations: %w" [AWrap err])
      (liftl dbMigrationsStatus);
    ms ← mmap version_of migrations;
    mfor (reset_one statuses) (merge_sort pair_ge ms).*2;;
    mret (Some tt).

(** ** Status and Version *)

(** A printed line: when the migration was applied, and its file. *)
Inductive applied_at := NoVersioning | Pending | AppliedAt (t : Z).

Definition printMigrationStatus (version : Z) (script : string) : M (DB D) (applied_at * string) :=
  r ← catch (legacy_GetMigration querier tableName version);
  match r with
  | inl m => mret (if gm_IsApplied m then AppliedAt (gm_Timestamp m) else Pending, script)
  | inr err =>
      if errors_Is err sql_ErrNoRows then mret (Pending, script)
      else fail (EErrorf "failed to query the latest migration: %w" [AWrap err])
  end.

Definition status_line (p : ptr) : M (LW D) (applied_at * string) :=
  migration ← load p;
  wrap_err (λ err, EErrorf "failed to print status: %w" [AWrap err])
    (liftl (printMigrationStatus (m_Version migration) (filepath_Base (m_Source migration)))).

Definition StatusContext (dir : string) (opts : list OptionsFunc) : M (LW D) (list (applied_at * string)) :=
  let option := apply_options_funcs opts in
  migrations ← wrap_err (λ err, EErrorf "failed to collect migrations: %w" [AWrap err])
    (CollectMigrations range baseFS dir minVersion maxVersion);
  if noVersioning option then
    mmap (λ p, current ← load p; mret (NoVersioning, filepath_Base (m_Source current))) migrations
  else
    wrap_err (λ err, EErrorf "failed to ensure DB version: %w" [AWrap err]) (liftl EnsureDBVersionContext);;
    mmap status_line migrations.

Definition VersionContext (dir : string) (opts : list OptionsFunc) : M (LW D) Z :=
  let option := apply_options_funcs opts in
  if noVersioning option then
    migrations ← wrap_err (λ err, EErrorf "failed to collect migrations: %w" [AWrap err])
      (CollectMigrations range baseFS dir minVersion maxVersion);
    if Nat.eqb (length migrations) 0 then mret 0 else last_version migrations
  else liftl GetDBVersionContext.

(** ** The commands of [run] (goose.go) that work on the database *)

Inductive Command :=
  | Cmd_up | Cmd_up_by_one | Cmd_up_to | Cmd_down | Cmd_down_to | Cmd_redo | Cmd_reset
  | Cmd_status | Cmd_version.

Definition discard {A} (m : M (LW D) A) : M (LW D) (option unit) := m;; mret (Some tt).

Definition with_version (usage : string) (args : list string)
    (k : Z → M (LW D) (option unit)) : M (LW D) (option unit) :=
  match args with
  | [] => fail (errors_New usage)
  | arg :: _ =>
      match ParseInt arg with
      | inl version => k version
      | inr _ => fail (EErrorf "version must be a number (got '%s')" [AStr arg])
      end
  end.

Definition run_command (fuel : nat) (command : Command) (dir : string) (args : list string)
    (opts : list OptionsFunc) : M (LW D) (option unit) :=
  match command with
  | Cmd_up => discard (UpContext dir opts)
  | Cmd_up_by_one => discard (UpByOneContext dir opts)
  | Cmd_up_to =>
      with_version "up-to must be of form: goose DRIVER DBSTRING [OPTIONS] up-to VERSION" args
        (λ version, discard (UpToContext dir version opts))
  | Cmd_down => discard (DownContext dir opts)
  | Cmd_down_to =>
      with_version "down-to must be of form: goose DRIVER DBSTRING [OPTIONS] down-to VERSION" args
        (λ version, DownToContext fuel dir version opts)
  | Cmd_redo => discard (RedoContext dir opts)
  | Cmd_reset => ResetContext fuel dir opts
  | Cmd_status => discard (StatusContext dir opts)
  | Cmd_version => discard (VersionContext dir opts)
  end.

End Legacy.
