(* ===== verification/LegacyCollect.v ===== *)
(** * What the legacy interface collects

    [CollectMigrations] returns pointers to migrations with strictly ascending
    versions within the requested range, and changes nothing but the links
    between migrations. *)

From S2P Require Import Prelude GoStrings Effects SqlParser Sql Dialects Store Migration Options.
From S2P Require Import Collect LegacyStore Legacy.

Section LegacyCollect.
Context {D : Type}.
Context (range : registry → list (Z * Migration)) (Hrange : range_ok range) (fsys : BaseFS).
Context (current target : Z).

(** What is known of the migrations in the heap that can be collected. *)
Context (P : Migration → Prop) (HPlinks : ∀ a b m, P m → P (set_links a b m)).

(** Pointers with the versions they point to. *)
Definition points (w : LW D) (vps : list (Z * ptr)) : Prop :=
  Forall (λ vp, ∃ m, heap_lookup vp.2 w = Some m ∧ m_Version m = vp.1 ∧ P m ∧
                versionFilter vp.1 current target = true) vps.

Definition versions_at (w : LW D) (ps : list ptr) : list Z :=
  omap (λ p, m_Version <$> heap_lookup p w) ps.

Lemma versions_at_points w vps : points w vps → versions_at w vps.*2 = vps.*1.
Proof.
  induction 1 as [|[v p] vps (m & Hm & Hv & _) _ IH]; [done|].
  change (versions_at w (p :: vps.*2) = v :: vps.*1). rewrite <- IH. unfold versions_at. simpl in *.
  by rewrite Hm, <- Hv.
Qed.

(** The heap has grown, or only links have changed. *)
Definition extends (w w' : LW D) : Prop :=
  l_db w' = l_db w ∧
  (∀ k, is_Some (l_reg w' !! k) ↔ is_Some (l_reg w !! k)) ∧
  ∀ p m, heap_lookup p w = Some m →
    ∃ m', heap_lookup p w' = Some m' ∧ (m' = m ∨ ∃ a b, m' = set_links a b m).

Lemma set_links_twice a b c d m : set_links a b (set_links c d m) = set_links a b m.
Proof. by destruct m. Qed.

Lemma set_links_Version a b m : m_Version (set_links a b m) = m_Version m.
Proof. by destruct m. Qed.

Lemma extends_refl w : extends w w.
Proof. split_and!; [done|done|eauto]. Qed.

Lemma extends_trans w1 w2 w3 : extends w1 w2 → extends w2 w3 → extends w1 w3.
Proof.
  intros (Hd1 & Hr1 & Hh1) (Hd2 & Hr2 & Hh2). split_and!; [congruence|intros k; by rewrite Hr2|].
  intros p m Hm. destruct (Hh1 p m Hm) as (m1 & Hm1 & Hc1). destruct (Hh2 p m1 Hm1) as (m2 & Hm2 & Hc2).
  exists m2. split; [done|]. destruct Hc1 as [->|(a & b & ->)], Hc2 as [->|(c & d & ->)]; eauto.
  right. exists c, d. by rewrite set_links_twice.
Qed.

Lemma points_extends w w' vps : extends w w' → points w vps → points w' vps.
Proof.
  intros (_ & _ & Hh) Hp. eapply Forall_impl; [exact Hp|]. intros [v p] (m & Hm & Hv & HP & Hf).
  destruct (Hh _ _ Hm) as (m' & Hm' & [->|(a & b & ->)]); [by exists m|].
  exists (set_links a b m). rewrite set_links_Version. auto.
Qed.

Lemma alloc_run m (w : LW D) :
  ∃ w', alloc m w = (Ok (PNew (length (l_new w))), w') ∧ extends w w' ∧ l_reg w' = l_reg w ∧
    heap_lookup (PNew (length (l_new w))) w' = Some m.
Proof.
  eexists. split; [reflexivity|]. split_and!; [|done|].
  - split_and!; [done|done|]. intros [k|i] m' Hm'; simpl in *; [eauto|].
    exists m'. split; [|by left]. by apply lookup_app_l_Some.
  - simpl. rewrite lookup_app_r by done. by rewrite Nat.sub_diag.
Qed.

(** ** The files *)

Definition collected (w : LW D) (r : outcome Migrations * LW D) : Prop :=
  match r with
  | (Ok ps, w') => extends w w' ∧ l_reg w' = l_reg w ∧ ∃ vps, ps = vps.*2 ∧ points w' vps
  | (Err _, w') => l_db w' = l_db w
  | (Panic _, w') => False
  | (Block, _) => False
  end.

Lemma collect_sql_files_run files w :
  (∀ v file, file ∈ files → versionFilter v current target = true → P (file_migration v file)) →
  collected w (collect_sql_files files current target w).
Proof.
  revert w. induction files as [|file files IH]; intros w HP.
  { split; [apply extends_refl|]. split; [done|]. exists []. by split; [|constructor]. }
  cbn [collect_sql_files]. rewrite bind_eq. unfold wrap_err, of_result.
  destruct (NumericComponent file) as [v|e]; [|done]. rewrite bind_eq.
  destruct (versionFilter v current target) eqn:Hf.
  - rewrite bind_eq. destruct (alloc_run (file_migration v file) w) as (w1 & -> & Hex & Hreg & Hl). cbn [mret M_ret].
    specialize (IH w1 (λ v' f Hin, HP v' f (list_elem_of_further _ _ _ Hin))). rewrite bind_eq.
    destruct (collect_sql_files files current target w1) as [[ps|e|s|] w2]; try done.
    + destruct IH as (Hex2 & Hreg2 & vps & -> & Hp). split; [by eapply extends_trans|]. split; [congruence|].
      exists ((v, PNew (length (l_new w))) :: vps). split; [done|]. constructor; [|done].
      assert (points w1 [(v, PNew (length (l_new w)))]) as Hone.
      { constructor; [|constructor]. exists (file_migration v file). split_and!; [done|done| |done].
        apply HP; [by left|done]. }
      apply (points_extends _ _ _ Hex2) in Hone. by inversion Hone.
    + cbn in *. destruct Hex as [Hd _]. congruence.
  - cbn [mret M_ret]. specialize (IH w (λ v' f Hin, HP v' f (list_elem_of_further _ _ _ Hin))). rewrite bind_eq.
    destruct (collect_sql_files files current target w) as [[ps|e|s|] w2]; done.
Qed.

Lemma go_source_run sources w :
  (∀ s, s ∈ sources → versionFilter s.2 current target = true) →
  (∀ s, s ∈ sources → l_reg w !! s.2 = None → P (file_migration s.2 s.1)) →
  (∀ k m, l_reg w !! k = Some m → m_Version m = k ∧ P m) →
  collected w (mmap go_source_migration sources w).
Proof.
  revert w. induction sources as [|[file v] sources IH]; intros w Hf HP Hreg.
  { split; [apply extends_refl|]. split; [done|]. exists []. by split; [|constructor]. }
  cbn [mmap]. rewrite bind_eq. unfold go_source_migration at 1. rewrite bind_eq. unfold gets. cbn [snd fst].
  assert (∃ p w1, (match l_reg w !! v with Some _ => mret (PReg v) | None => alloc (file_migration v file) end) w
      = (Ok p, w1) ∧ extends w w1 ∧ l_reg w1 = l_reg w ∧ points w1 [(v, p)]) as (p & w1 & -> & Hex & Hr1 & Hone).
  { destruct (l_reg w !! v) as [m|] eqn:Hm.
    - exists (PReg v), w. split_and!; [done|apply extends_refl|done|]. constructor; [|constructor].
      destruct (Hreg _ _ Hm). exists m. split_and!; [done..|]. apply (Hf (file, v)). by left.
    - destruct (alloc_run (file_migration v file) w) as (w1 & -> & Hex & Hr & Hl).
      do 2 eexists. split_and!; [done|done|done|]. constructor; [|constructor].
      exists (file_migration v file). split_and!; [done|done| |apply (Hf (file, v)); by left].
      apply (HP (file, v)); [by left|done]. }
  rewrite bind_eq. specialize (IH w1). rewrite Hr1 in IH. specialize (IH ltac:(intros; apply Hf; by right)
    ltac:(intros; apply HP; [by right|done]) Hreg).
  destruct (mmap go_source_migration sources w1) as [[ps|e|s|] w2]; try done.
  - destruct IH as (Hex2 & Hreg2 & vps & -> & Hp). split; [by eapply extends_trans|]. split; [congruence|].
    exists ((v, p) :: vps). split; [done|]. apply (points_extends _ _ _ Hex2) in Hone. inversion Hone. by constructor.
  - cbn in *. destruct Hex as [Hd _]. congruence.
Qed.

Lemma registered_in_range_run entries w :
  (∀ k m, (k, m) ∈ entries → l_reg w !! k = Some m) →
  (∀ k m, l_reg w !! k = Some m → m_Version m = k ∧ P m) →
  (∀ k m v, l_reg w !! k = Some m → NumericComponent (m_Source m) = inl v → v = k) →
  collected w (registered_in_range entries current target w).
Proof.
  intros Hin Hreg Hnum. induction entries as [|[k m] entries IH].
  { split; [apply extends_refl|]. split; [done|]. exists []. by split; [|constructor]. }
  cbn [registered_in_range]. destruct (NumericComponent (m_Source m)) as [v|e] eqn:Hv; [|done].
  specialize (IH ltac:(intros; apply Hin; by right)). rewrite bind_eq.
  assert (l_reg w !! k = Some m) as Hm by (apply Hin; by left).
  destruct (registered_in_range entries current target w) as [[ps|e|s|] w1]; try done.
  destruct IH as (Hex & Hr & vps & -> & Hp). split; [done|]. split; [done|].
  destruct (versionFilter v current target) eqn:Hf; [|by exists vps].
  rewrite (Hnum k m v Hm Hv) in Hf. exists ((k, PReg k) :: vps). split; [done|]. constructor; [|done].
  exists m. cbn. rewrite Hr. destruct (Hreg _ _ Hm). done.
Qed.

Lemma go_file_sources_filter goFiles s :
  s ∈ go_file_sources goFiles current target → s.1 ∈ goFiles ∧ versionFilter s.2 current target = true.
Proof.
  unfold go_file_sources. intros (file & Hin & Hs)%list_elem_of_omap.
  destruct (NumericComponent file) as [v|]; [|done]. destruct (HasSuffix file "_test.go"); [done|].
  destruct (versionFilter v current target) eqn:Hf; simplify_eq. done.
Qed.

(** The Go part of the registry, as the [Add] functions leave it: a migration
    is registered under its version, which is that of its file name. *)
Definition reg_ok (w : LW D) : Prop :=
  ∀ k m, l_reg w !! k = Some m → m_Version m = k ∧ NumericComponent (m_Source m) = inl k.

Lemma mfor_check_run entries (w : LW D) :
  mfor check_registered entries w = (Ok tt, w) ∨ ∃ e, mfor check_registered entries w = (Err e, w).
Proof.
  induction entries as [|e entries IH]; [by left|]. cbn [mfor]. rewrite bind_eq. unfold check_registered at 1 3.
  destruct (NumericComponent (m_Source e.2)); [exact IH|]. right. by eexists.
Qed.

Lemma range_lookup (r : registry) k m : (k, m) ∈ range r → r !! k = Some m.
Proof. rewrite (Hrange r). apply elem_of_map_to_list. Qed.

Lemma collectGoMigrations_run dirpath w :
  reg_ok w → (∀ k m, l_reg w !! k = Some m → P m) →
  (∀ files v file, fs_Glob (b_fs fsys) (path_Join dirpath "*.go") = inl files → file ∈ files →
     versionFilter v current target = true → P (file_migration v file)) →
  collected w (collectGoMigrations range fsys dirpath current target w).
Proof.
  intros Hreg HPreg HPfile. unfold collectGoMigrations. rewrite bind_eq. unfold gets. rewrite bind_eq.
  destruct (mfor_check_run (range (l_reg w)) w) as [-> |[e ->]]; [|done]. rewrite bind_eq.
  unfold of_result. destruct (fs_Glob _ _) as [files|e] eqn:Hg; [|done].
  destruct (Nat.eqb (length files) 0 && _).
  { split; [apply extends_refl|]. split; [done|]. exists []. by split; [|constructor]. }
  pose proof (go_file_sources_filter files) as Hs.
  destruct (go_file_sources files current target) as [|s sources].
  - apply registered_in_range_run.
    + intros k m Hin. by apply range_lookup.
    + intros k m Hm. split; [by eapply Hreg|by eapply HPreg].
    + intros k m v Hm Hv. destruct (Hreg _ _ Hm) as [_ Hk]. congruence.
  - apply go_source_run.
    + intros x Hx. by apply Hs.
    + intros x Hx _. destruct (Hs x Hx). by eapply HPfile.
    + intros k m Hm. split; [by eapply Hreg|by eapply HPreg].
Qed.

(** ** Sorting and connecting *)

Lemma versions_of_run vps (w : LW D) : points w vps → mmap version_of vps.*2 w = (Ok vps, w).
Proof.
  induction 1 as [|[v p] vps (m & Hm & Hv & _) _ IH]; [done|]. cbn [fmap list_fmap mmap snd] in *.
  rewrite bind_eq. unfold version_of at 1. rewrite bind_eq. unfold load. rewrite Hm. cbn [mret M_ret].
  rewrite bind_eq. cbn. cbn in IH. rewrite IH. cbn in Hv. by rewrite Hv.
Qed.

Lemma update_extends p f (w : LW D) :
  (∀ m, f m = m ∨ ∃ a b, f m = set_links a b m) → extends w (heap_update p f w).
Proof.
  intros Hf. destruct p as [k|i]; (split; [done|]); split; try done.
  - intros j. cbn. destruct (decide (j = k)) as [->|].
    + rewrite lookup_alter_eq. split; intros [x Hx]; [by destruct (l_reg w !! k)|]. rewrite Hx. by eexists.
    + by rewrite lookup_alter_ne.
  - intros [j|j] m Hm; cbn in *; [|eauto]. destruct (decide (j = k)) as [->|].
    + rewrite lookup_alter_eq, Hm. cbn. eexists. split; [done|]. destruct (Hf m) as [->|(a & b & ->)]; eauto.
    + rewrite lookup_alter_ne by done. eauto.
  - intros [j|j] m Hm; cbn in *; [eauto|]. destruct (decide (j = i)) as [->|].
    + rewrite list_lookup_alter_eq, Hm. cbn. eexists. split; [done|]. destruct (Hf m) as [->|(a & b & ->)]; eauto.
    + rewrite list_lookup_alter_ne by done. eauto.
Qed.

Lemma connect_run prev ms (w : LW D) : ∃ w', connect prev ms w = (Ok tt, w') ∧ extends w w'.
Proof.
  revert prev w. induction ms as [|[v p] ms IH]; intros prev w; [eexists; by split; [|apply extends_refl]|].
  cbn [connect]. rewrite bind_eq.
  assert (∃ w1, (match prev with
    | None => mret tt
    | Some (_, q) => update q (λ m, set_links v (m_Previous m) m) end) w = (Ok tt, w1) ∧ extends w w1) as (w1 & -> & H1).
  { destruct prev as [[pv q]|]; eexists; (split; [reflexivity|]); [apply update_extends; eauto|apply extends_refl]. }
  rewrite bind_eq. unfold update, modify.
  match goal with |- context [heap_update p ?f w1] => pose proof (update_extends p f w1) as H2 end.
  specialize (H2 ltac:(eauto)).
  edestruct IH as (w' & -> & H3). eexists. split; [reflexivity|].
  eapply extends_trans; [exact H1|]. by eapply extends_trans.
Qed.

Lemma points_perm w vps vps' : vps ≡ₚ vps' → points w vps → points w vps'.
Proof. unfold points. by intros ->. Qed.

(** What a successful collection returns. *)
Definition sorted_points (w : LW D) (r : outcome Migrations * LW D) : Prop :=
  match r with
  | (Ok ps, w') => extends w w' ∧ ∃ vps, ps = vps.*2 ∧ points w' vps ∧ StronglySorted Z.lt vps.*1 ∧ ps ≠ []
  | (Err _, w') | (Panic _, w') => l_db w' = l_db w
  | (Block, _) => False
  end.

Lemma fst_sorted (vps : list (Z * ptr)) : StronglySorted pair_le vps → StronglySorted Z.le vps.*1.
Proof. by rewrite StronglySorted_fmap. Qed.

#[export] Instance pair_le_total : Total pair_le.
Proof. intros a b. unfold pair_le. lia. Qed.
#[export] Instance pair_le_trans : Transitive pair_le.
Proof. intros a b c. unfold pair_le. lia. Qed.

Lemma sortAndConnect_run vps (w : LW D) :
  points w vps → vps ≠ [] → sorted_points w (sortAndConnectMigrations vps.*2 w).
Proof.
  intros Hp Hne. unfold sortAndConnectMigrations. rewrite bind_eq, versions_of_run by done.
  destruct (bool_decide_reflect (NoDup vps.*1)) as [Hnd|]; [|done]. rewrite bind_eq.
  destruct (connect_run None (merge_sort pair_le vps) w) as (w' & -> & Hex). cbn [mret M_ret].
  pose proof (merge_sort_Permutation pair_le vps) as Hperm. split; [done|].
  exists (merge_sort pair_le vps). split_and!; [done| | |].
  - eapply points_extends; [done|]. by eapply points_perm.
  - apply sorted_strict; [by rewrite Hperm|]. apply fst_sorted, (StronglySorted_merge_sort _).
  - intros Hnil. apply fmap_nil_inv in Hnil. rewrite Hnil in Hperm. by apply Permutation_nil in Hperm.
Qed.

Lemma collectMigrationsFS_run dirpath w :
  reg_ok w → (∀ k m, l_reg w !! k = Some m → P m) →
  (∀ pattern files v file, pattern = "*.go" ∨ pattern = "*.sql" →
     fs_Glob (b_fs fsys) (path_Join dirpath pattern) = inl files → file ∈ files →
     versionFilter v current target = true → P (file_migration v file)) →
  sorted_points w (collectMigrationsFS range fsys dirpath current target w).
Proof.
  intros Hreg HPreg HPfile. unfold collectMigrationsFS. destruct (b_Stat fsys dirpath) as [e|].
  { by destruct (errors_Is e fs_ErrNotExist). }
  rewrite bind_eq. unfold of_result. destruct (fs_Glob _ _) as [files|e] eqn:Hg; [|done]. rewrite bind_eq.
  pose proof (collect_sql_files_run files w
    (λ v file Hin Hf, HPfile "*.sql" files v file (or_intror eq_refl) Hg Hin Hf)) as Hsql.
  destruct (collect_sql_files files current target w) as [[ps|e|s|] w1]; try done.
  destruct Hsql as (Hex1 & Hr1 & vps1 & -> & Hp1). rewrite bind_eq.
  assert (reg_ok w1) as Hreg1 by (unfold reg_ok; by rewrite Hr1).
  assert (∀ k m, l_reg w1 !! k = Some m → P m) as HPreg1 by (rewrite Hr1; exact HPreg).
  pose proof (collectGoMigrations_run dirpath w1 Hreg1 HPreg1
    (λ gs v file Hgs Hin Hf, HPfile "*.go" gs v file (or_introl eq_refl) Hgs Hin Hf)) as Hgo.
  destruct (collectGoMigrations _ _ _ _ _ w1) as [[ps|e|s|] w2]; try done.
  2: { cbn in *. destruct Hex1 as [Hd _]. congruence. }
  destruct Hgo as (Hex2 & Hr2 & vps2 & -> & Hp2). rewrite <- fmap_app.
  assert (extends w w2) as Hex by by eapply extends_trans.
  destruct (Nat.eqb_spec (length (vps1 ++ vps2).*2) 0) as [Hlen|Hlen].
  { cbn. by destruct Hex as [-> _]. }
  assert (points w2 (vps1 ++ vps2)) as Hp by (apply Forall_app; split; [by apply (points_extends w1)|exact Hp2]).
  pose proof (sortAndConnect_run _ _ Hp ltac:(by intros Hnil; rewrite Hnil in Hlen)) as Hs.
  destruct (sortAndConnectMigrations _ w2) as [[ps|e|s|] w3]; try done.
  - destruct Hs as [Hex3 Hs]. split; [by eapply extends_trans|done].
  - cbn in *. destruct Hex as [Hd _]. congruence.
  - cbn in *. destruct Hex as [Hd _]. congruence.
Qed.

End LegacyCollect.
