(* ===== verification/LegacyResolve.v ===== *)
(** * Version resolution in the legacy interface

    [UpTo] decides what to apply with code of its own; it decides the same as
    [gooseutil.UpVersions], which the provider uses. *)

From S2P Require Import Prelude GoStrings Effects Resolve SqlParser Sql Dialects Store Migration.
From S2P Require Import Options Collect LegacyStore Legacy LegacyRun.

Definition found_version (pm : ptr * Migration) : Z := m_Version pm.2.

Lemma last_max (l : list Z) x : StronglySorted Z.le l → last l = Some x → ∀ y, y ∈ l → y ≤ x.
Proof.
  induction 1 as [|z l Hs IH Hz]; [done|]. destruct l as [|z' l].
  { intros [= <-] y ->%list_elem_of_singleton. done. }
  rewrite last_cons_cons. intros Hl y [->|Hy]%elem_of_cons; [|by apply IH].
  rewrite Forall_forall in Hz. apply Hz. by apply last_Some_elem_of in Hl.
Qed.

(** The greatest version of the database, as both find it. *)
Lemma last_dbMax db x :
  last (merge_sort Z.le db) = Some x → dbMaxVersion db = Z.max 0 x ∧ x ∈ db.
Proof.
  intros Hl. pose proof (merge_sort_Permutation Z.le db) as Hp.
  assert (x ∈ db) as Hx by (rewrite <- Hp; by apply last_Some_elem_of).
  split; [|done]. pose proof (dbMaxVersion_ge db x Hx). pose proof (dbMaxVersion_nonneg db).
  assert (∀ y, y ∈ db → y ≤ x) as Hmax.
  { intros y Hy. eapply last_max; [apply (StronglySorted_merge_sort _)|exact Hl|by rewrite Hp]. }
  destruct (dbMaxVersion_cases db) as [E|Hin]; [lia|]. specialize (Hmax _ Hin). lia.
Qed.

Lemma elem_of_sorted_set db (v : Z) :
  v ∈ (list_to_set (merge_sort Z.le db) : gset Z) ↔ v ∈ db.
Proof. by rewrite elem_of_list_to_set, merge_sort_Permutation. Qed.

Lemma found_sorted (found : list (ptr * Migration)) :
  StronglySorted Z.lt (found_version <$> found) → StronglySorted found_le found.
Proof.
  rewrite StronglySorted_fmap. apply StronglySorted_impl. unfold found_le, found_version. lia.
Qed.

Lemma lt_le_sorted (l : list Z) : StronglySorted Z.lt l → StronglySorted (≤) l.
Proof. apply StronglySorted_impl. lia. Qed.

#[local] Instance found_le_total : Total found_le.
Proof. intros a b. unfold found_le. lia. Qed.
#[local] Instance found_le_trans : Transitive found_le.
Proof. intros a b c. unfold found_le. lia. Qed.

(** A list of strictly ascending versions that is sorted again is unchanged. *)
Lemma found_sort_id (found : list (ptr * Migration)) :
  StronglySorted Z.lt (found_version <$> found) → merge_sort found_le found = found.
Proof.
  intros Hs.
  symmetry. apply (sorted_by_key found_version found_le).
  - unfold found_le, found_version. lia.
  - by apply Sorted_lt_NoDup.
  - by apply found_sorted.
  - apply (StronglySorted_merge_sort _).
  - by rewrite merge_sort_Permutation.
Qed.

Lemma filter_versions (Q : Z → Prop) `{∀ v, Decision (Q v)} (found : list (ptr * Migration)) :
  found_version <$> filter (λ pm, Q (found_version pm)) found = filter Q (found_version <$> found).
Proof.
  induction found as [|pm found IH]; [done|]. cbn [fmap list_fmap]. rewrite !filter_cons.
  destruct (decide (Q (found_version pm))); [|done]. cbn [fmap list_fmap]. f_equal. exact IH.
Qed.

Section ToApply.
Context (found : list (ptr * Migration)) (db : list Z) (dbMax version : Z).
Context (Hsorted : StronglySorted Z.lt (found_version <$> found)).
Context (Hpos : Forall (λ v, 0 < v ∧ v ≤ version) (found_version <$> found)).
Context (Hmax : last (merge_sort Z.le db) = Some dbMax).

Abbreviation sorted_db := (merge_sort Z.le db).
Abbreviation fs := (found_version <$> found).

Lemma fs_positive : Forall (λ v, 0 < v) fs.
Proof. eapply Forall_impl; [exact Hpos|]. by intros v []. Qed.

Lemma missing_agree :
  found_version <$> findMissingMigrations sorted_db found dbMax = missing fs db version ∧
  findMissingMigrations sorted_db found dbMax ⊆ found.
Proof.
  destruct (last_dbMax _ _ Hmax) as [Hd _]. unfold findMissingMigrations.
  set (Q := λ v : Z, v ∉ (list_to_set sorted_db : gset Z) ∧ v < dbMax).
  assert (∀ v, Decision (Q v)) as HQ by (unfold Q; apply _).
  assert (found_version <$> filter (λ pm, Q (found_version pm)) found = missing fs db version) as Hm.
  { rewrite filter_versions. unfold missing, pending. rewrite list_filter_filter.
    rewrite slices_Sort_id by (by apply lt_le_sorted). apply list_filter_ext_elem. intros v Hv.
    rewrite Forall_forall in Hpos. specialize (Hpos v Hv). unfold Q. rewrite elem_of_sorted_set, Hd.
    split; [intros []|intros (? & ? & ?)]; split_and!; (done || lia). }
  assert (merge_sort found_le (filter (λ pm, Q (found_version pm)) found)
          = filter (λ pm, Q (found_version pm)) found) as Hs.
  { apply found_sort_id. rewrite filter_versions. by apply StronglySorted_filter. }
  rewrite (list_filter_ext_elem _ (λ pm, Q (found_version pm)) found) by done. rewrite Hs. split; [done|].
  intros pm Hpm. by apply list_elem_of_filter in Hpm as [_ ?].
Qed.

Lemma to_apply_run am :
  match to_apply am found sorted_db dbMax version with
  | inl ps => UpVersions fs db version am = inl (pending fs db version) ∧
      ∃ l, ps = l.*1 ∧ l ⊆ found ∧ found_version <$> l = pending fs db version
  | inr _ => ∃ e, UpVersions fs db version am = inr e
  end.
Proof.
  destruct missing_agree as [Hm Hsub]. destruct (last_dbMax _ _ Hmax) as [Hd _].
  rewrite UpVersions_eq by apply fs_positive. unfold to_apply.
  assert (length (findMissingMigrations sorted_db found dbMax) = length (missing fs db version)) as Hlen.
  { by rewrite <- Hm, length_fmap. }
  rewrite Hlen.
  assert (negb (bool_decide (missing fs db version = [])) = (0 <? Z.of_nat (length (missing fs db version)))) as ->.
  { by destruct (missing fs db version). }
  rewrite andb_comm. destruct (negb am && _) eqn:Hb; [by eexists|]. split; [done|].
  set (Q := λ v : Z, v ∉ (list_to_set sorted_db : gset Z) ∧ dbMax < v ∧ v ≤ version).
  assert (∀ v, Decision (Q v)) as HQ by (unfold Q; apply _).
  rewrite (list_filter_ext_elem _ (λ pm, Q (found_version pm)) found) by done.
  assert (missing fs db version ++ (found_version <$> filter (λ pm, Q (found_version pm)) found)
          = pending fs db version) as Hsplit.
  { rewrite <- (pending_split fs db version fs_positive). f_equal. rewrite filter_versions.
    rewrite slices_Sort_id by (by apply lt_le_sorted). apply list_filter_ext_elem. intros v Hv.
    rewrite Forall_forall in Hpos. specialize (Hpos v Hv). unfold Q, is_new.
    rewrite andb_True, negb_True, andb_True, !Is_true_true.
    rewrite bool_decide_eq_true, dbAppliedVersions_spec, Z.gtb_ltb, Z.ltb_lt, Z.leb_le, elem_of_sorted_set, Hd.
    split; intros (? & ? & ?); split_and!; (done || lia). }
  eexists. split; [reflexivity|]. split.
  - intros pm [Hpm|[_ ?]%list_elem_of_filter]%elem_of_app; [|done].
    destruct am; [by apply Hsub|by apply elem_of_nil in Hpm].
  - rewrite fmap_app. destruct am; [by rewrite Hm|].
    cbn [negb andb] in Hb. rewrite <- Hsplit.
    destruct (missing _ db version) as [|v vs]; [done|]. cbn [length] in Hb. apply Z.ltb_ge in Hb. lia.
Qed.

(** C31: [UpTo] of the legacy interface and the provider decide alike: for the
    same files and database versions both refuse because of missing migrations,
    or both apply the same versions in the same order. *)
Theorem legacy_resolves_alike am :
  match to_apply am found sorted_db dbMax version, UpVersions fs db version am with
  | inl ps, inl vs => ∃ l, ps = l.*1 ∧ l ⊆ found ∧ found_version <$> l = vs
  | inr _, inr _ => True
  | _, _ => False
  end.
Proof.
  pose proof (to_apply_run am) as Ht. destruct (to_apply am found sorted_db dbMax version) as [ps|e].
  - destruct Ht as [-> Hl]. exact Hl.
  - by destruct Ht as [e' ->].
Qed.

End ToApply.
