(* ===== verification/LegacyMethods.v ===== *)
(** * What the legacy commands do to the version table

    [UpTo], [DownTo] and [Reset] in terms of the rows of the version table, as
    for the provider's methods; and three situations in which they do not do
    what they mean to. *)

From S2P Require Import Prelude GoStrings Effects Resolve SqlParser Sql Dialects Store Migration.
From S2P Require Import Options Collect Runner Provider ProviderLocks RunnerSpec ProviderSpec.
From S2P Require Import LegacyStore Legacy LegacyRun LegacySpec LegacyCollect LegacyResolve.

(** The rows of the version table. *)
Definition ltable {D U} `{DbModel D U} (w : LW D) : option (list (Z * bool)) := table (l_db w).

(** A prefix of the versions is recorded. *)
Definition lrecorded {D U} `{DbModel D U} (dir : bool) (vs : list Z) (t : list (Z * bool)) (w : LW D) : Prop :=
  ∃ pre, pre `prefix_of` vs ∧ ltable w = Some (record_all dir pre t).

(** What a file system and a registry look like: globbing returns files of the
    extension, and the registry is as the [Add] functions leave it, with Go
    files whose migrations record their versions. *)
Definition glob_ok (baseFS : BaseFS) : Prop := ∀ dir pattern files file,
  pattern = "*.go" ∨ pattern = "*.sql" →
  fs_Glob (b_fs baseFS) (path_Join dir pattern) = inl files → file ∈ files →
  filepath_Ext file = ".go" ∨ filepath_Ext file = ".sql".

Definition registered_ok (m : Migration) : Prop := runnable m ∧ m_noVersioning m = false.
Definition registry_well_formed {D} (w : LW D) : Prop :=
  reg_ok w ∧ ∀ k m, l_reg w !! k = Some m → registered_ok m.

Section LegacyMethods.
Context {D U : Type} `{DbLaws D U, MultierrLaws}.
Context (user_stmt : string → Prop) (goFn : Z → DBTxConn → M (DB D) unit)
  `{!UserLaws (U:=U) user_stmt goFn}.
Context (interpolate : string → result string).
Context (range : registry → list (Z * Migration)) (Hrange : range_ok range).
Context (baseFS : BaseFS) (Hglob : glob_ok baseFS).
Context (querier : Querier) (tableName : string) `{!QuerierSpec (U:=U) tableName querier}.
Context (Hparsed : ∀ name f dir parsed,
  fs_Open (b_fs baseFS) name = inl f → ParseSQLMigration interpolate f.1 dir = inl parsed →
  Forall user_stmt parsed.1).
(** An existing version table can be read. *)
Context (Hreads : ∀ w e w', legacy_ListMigrations querier tableName w = (Err e, w') →
  table (U:=U) w = None).

Abbreviation ltable := (ltable (U:=U)).
Abbreviation lrecorded := (lrecorded (U:=U)).
Abbreviation Run := (Migration_run goFn interpolate baseFS querier tableName).

(** The versions collected from the directory, up to [version]. *)
Definition collected_versions (dir : string) (version : Z) (w : LW D) : list Z :=
  match CollectMigrations range baseFS dir minVersion version w with
  | (Ok ps, w1) => versions_at w1 ps
  | _ => []
  end.

Abbreviation vpoints version w vps := (points minVersion version registered_ok w vps).

Lemma registered_links a b m : registered_ok m → registered_ok (set_links a b m).
Proof. by destruct m. Qed.

Lemma extends_table (w w' : LW D) : extends w w' → ltable w' = ltable w.
Proof. unfold LegacyMethods.ltable. by intros [-> _]. Qed.

Lemma collect_run dir version w :
  registry_well_formed w →
  match CollectMigrations range baseFS dir minVersion version w with
  | (Ok ps, w') => extends w w' ∧ ∃ vps, ps = vps.*2 ∧ vpoints version w' vps ∧
      StronglySorted Z.lt vps.*1 ∧ collected_versions dir version w = vps.*1 ∧ vps ≠ []
  | (Err _, w') | (Panic _, w') => ltable w' = ltable w
  | (Block, _) => False
  end.
Proof.
  intros [Hreg Hok]. unfold collected_versions, CollectMigrations.
  assert (∀ pattern files v file, pattern = "*.go" ∨ pattern = "*.sql" →
    fs_Glob (b_fs baseFS) (path_Join dir pattern) = inl files → file ∈ files →
    versionFilter v minVersion version = true → registered_ok (file_migration v file)) as Hfile.
  { intros pattern files v file Hp Hg Hin _. split; [|done]. destruct (Hglob dir pattern files file Hp Hg Hin); [by right|by left]. }
  pose proof (collectMigrationsFS_run range Hrange baseFS minVersion version registered_ok registered_links
    dir w Hreg Hok Hfile) as Hc.
  destruct (collectMigrationsFS _ _ _ _ _ w) as [[ps|e|s|] w1]; cbn in Hc; try done.
  - destruct Hc as (Hex & vps & -> & Hp & Hs & Hne). split; [done|]. exists vps. split_and!; try done.
    + by eapply versions_at_points.
    + by intros ->.
  - unfold LegacyMethods.ltable. by rewrite Hc.
  - unfold LegacyMethods.ltable. by rewrite Hc.
Qed.

(** ** Operations on the database part *)

Lemma liftl_run {A} (m : M (DB D) A) w :
  liftl m w = ((m (l_db w)).1, set_ldb (m (l_db w)).2 w).
Proof. unfold liftl, zoom. by destruct (m (l_db w)). Qed.

Lemma ensure_lrun w :
  match liftl (EnsureDBVersionContext querier tableName) w with
  | (Ok v, w') => w' = set_ldb (l_db w') w ∧ ltable w' = Some (ensured (ltable w)) ∧
      current_of (ensured (ltable w)) = Some v
  | (Err _, w') => w' = set_ldb (l_db w') w ∧ ltable w' = ltable w
  | _ => True
  end.
Proof.
  rewrite liftl_run. pose proof (EnsureDBVersion_run querier tableName Hreads (l_db w)) as He.
  destruct (EnsureDBVersionContext _ _ (l_db w)) as [[v|e|s|] d]; cbn; done.
Qed.

Lemma heap_set_ldb p d (w : LW D) : heap_lookup p (set_ldb d w) = heap_lookup p w.
Proof. by destruct p. Qed.

Lemma points_set_ldb version (d : DB D) (w : LW D) vps : vpoints version w vps → vpoints version (set_ldb d w) vps.
Proof.
  intros Hp. eapply Forall_impl; [exact Hp|]. intros vp (m & Hm & ?). exists m. by rewrite heap_set_ldb.
Qed.

(** Running the migration a pointer points to. *)
Lemma run_ptr_run p m dir w t :
  heap_lookup p w = Some m → registered_ok m → ltable w = Some t →
  match (m ← load p; liftl (Run m dir)) w with
  | (Ok _, w') => w' = set_ldb (l_db w') w ∧ ltable w' = Some (record dir (m_Version m) t)
  | (Err _, w') => w' = set_ldb (l_db w') w ∧ ltable w' = Some t
  | _ => True
  end.
Proof.
  intros Hm [Hext Hnv] Ht. rewrite bind_eq. unfold load. rewrite Hm, liftl_run.
  pose proof (Migration_run_records user_stmt goFn interpolate baseFS querier tableName Hparsed m dir (l_db w) Hext) as Hr.
  rewrite Hnv in Hr. unfold LegacyMethods.ltable in *.
  destruct (Run m dir (l_db w)) as [[[]|e|s|] d]; cbn in *; try done.
  - split; [done|]. destruct Hr as (t' & Ht' & ->). congruence.
  - split; [done|]. congruence.
Qed.

(** ** Up *)

Lemma found_run version vps (w : LW D) :
  vpoints version w vps → ∃ found,
    mmap (λ p, m ← load p; mret (p, m)) vps.*2 w = (Ok found, w) ∧
    found_version <$> found = vps.*1 ∧
    Forall (λ pm, heap_lookup pm.1 w = Some pm.2 ∧ registered_ok pm.2) found.
Proof.
  induction 1 as [|[v p] vps (m & Hm & Hv & Hok & _) _ (found & Hf & Hvs & Hh)].
  { exists []. by split_and!; [..|constructor]. }
  exists ((p, m) :: found). cbn [fmap list_fmap snd mmap] in *. rewrite bind_eq, bind_eq. unfold load at 1.
  rewrite Hm. cbn [mret M_ret]. rewrite bind_eq. cbn in Hf. rewrite Hf. cbn. split_and!; [done| |by constructor].
  cbn in Hv. unfold found_version at 1. cbn. rewrite Hv. f_equal. exact Hvs.
Qed.

Lemma apply_up_run l w t :
  Forall (λ pm, heap_lookup pm.1 w = Some pm.2 ∧ registered_ok pm.2) l → ltable w = Some t →
  match apply_up goFn interpolate baseFS querier tableName false l.*1 w with
  | (Ok b, w') => b = false ∧ ltable w' = Some (record_all true (found_version <$> l) t)
  | (Err _, w') => lrecorded true (found_version <$> l) t w'
  | _ => True
  end.
Proof.
  revert w t. induction l as [|[p m] l IH]; intros w t Hl Ht; [done|].
  inversion Hl as [|? ? [Hm Hok] Hl']; subst. cbn [fmap list_fmap apply_up fst snd] in *. rewrite bind_eq.
  pose proof (run_ptr_run p m true w t Hm Hok Ht) as Hr. unfold Migration_UpContext.
  destruct ((m ← load p; liftl (Run m true)) w) as [[[]|e|s|] w1]; try done.
  - destruct Hr as [Hw1 Ht1]. specialize (IH w1 _ ltac:(rewrite Hw1; eapply Forall_impl; [exact Hl'|];
      intros pm; by rewrite heap_set_ldb) Ht1).
    destruct (apply_up _ _ _ _ _ false l.*1 w1) as [[b|e|s|] w2]; try done.
    destruct IH as (pre & Hpre & Ht2). exists (m_Version m :: pre). split; [|exact Ht2].
    apply prefix_cons, Hpre.
  - destruct Hr as [_ Ht1]. exists []. split; [apply prefix_nil|exact Ht1].
Qed.

Lemma list_lrun w t :
  ltable w = Some t →
  match liftl (listAllDBVersions querier tableName) w with
  | (Ok vs, w') => w' = set_ldb (l_db w') w ∧ ltable w' = Some t ∧ vs = merge_sort Z.le t.*1
  | (Err _, w') => w' = set_ldb (l_db w') w ∧ ltable w' = Some t
  | (Panic _, _) => False
  | (Block, _) => True
  end.
Proof.
  intros Ht. rewrite liftl_run. unfold listAllDBVersions. rewrite bind_eq.
  pose proof (legacy_list_run (U:=U) querier tableName (l_db w)) as Hl. unfold LegacyMethods.ltable, table in *.
  destruct (legacy_ListMigrations _ _ (l_db w)) as [[rs|e|s|] d]; cbn; try done.
  - destruct Hl as [Hv Hrs]. rewrite Hv. split_and!; [done|done|]. rewrite Hrs in Ht. injection Ht as <-.
    f_equal. clear. induction rs as [|r rs IH]; [done|]. cbn. by rewrite IH.
  - by rewrite Hl.
Qed.

Lemma vpoints_positive version (w : LW D) vps :
  0 ≤ version → vpoints version w vps → Forall (λ v, 0 < v ∧ v ≤ version) vps.*1.
Proof.
  intros Hv Hp. apply Forall_fmap. eapply Forall_impl; [exact Hp|].
  intros [v p] (m & _ & _ & _ & Hf). unfold versionFilter, minVersion in Hf. cbn in *.
  destruct (version >? 0) eqn:E1; zify_bool; [lia|]. destruct (version <? 0) eqn:E2; zify_bool; [lia|done].
Qed.

(** The outcome of a command that runs the versions [vs]. *)
Definition lmethod_spec {A} (dir : bool) (vs : list Z) (w : LW D) (r : outcome A * LW D) : Prop :=
  let t := ensured (ltable w) in
  match r with
  | (Ok _, w') => ltable w' = Some (record_all dir vs t)
  | (Err _, w') => ltable w' = ltable w ∨ lrecorded dir vs t w'
  | _ => True
  end.

Lemma nothing_lrecorded dir vs t w : ltable w = Some t → lrecorded dir vs t w.
Proof. intros Ht. exists []. split; [apply prefix_nil|done]. Qed.

Lemma UpTo_lrun am dir version opts w :
  apply_options_funcs opts = mkOptions am false false →
  registry_well_formed w → 0 ≤ version →
  let vs := pending (collected_versions dir version w) (ensured (ltable w)).*1 version in
  lmethod_spec true vs w (UpToContext goFn interpolate range baseFS querier tableName dir version opts w).
Proof.
  intros Hopts Hwf Hversion vs. unfold UpToContext. rewrite Hopts. cbn [allowMissing applyUpByOne noVersioning].
  rewrite bind_eq. pose proof (collect_run dir version w Hwf) as Hc. unfold lmethod_spec.
  destruct (CollectMigrations _ _ _ _ _ w) as [[ps|e|s|] w1]; try done; [|by left].
  destruct Hc as (Hex & vps & -> & Hp & Hs & Hcv & Hne). apply extends_table in Hex as Ht1.
  pose proof (ensure_lrun w1) as He. rewrite bind_eq.
  destruct (liftl (EnsureDBVersionContext _ _) w1) as [[v|e|s|] w2]; try done.
  2: { left. destruct He as [_ He]. by rewrite He. }
  destruct He as (Hw2 & Ht2 & _). rewrite Ht1 in Ht2. set (t := ensured (ltable w)) in *.
  rewrite bind_eq. pose proof (list_lrun w2 t Ht2) as Hl.
  destruct (liftl (listAllDBVersions _ _) w2) as [[db|e|s|] w3]; try done.
  2: { right. apply nothing_lrecorded. by destruct Hl as [_ ->]. }
  destruct Hl as (Hw3 & Ht3 & ->). rewrite bind_eq.
  destruct (last (merge_sort Z.le t.*1)) as [dbMax|] eqn:Hmax; [|done]. cbn [mret M_ret].
  assert (vpoints version w3 vps) as Hp3 by (rewrite Hw3, Hw2; by do 2 apply points_set_ldb).
  destruct (found_run _ _ _ Hp3) as (found & Hf & Hfv & Hfh). rewrite bind_eq, Hf, bind_eq. unfold of_result.
  pose proof (vpoints_positive _ _ _ Hversion Hp) as Hpos. rewrite <- Hfv in Hs, Hpos.
  pose proof (to_apply_run found t.*1 dbMax version Hs Hpos Hmax am) as Hta. rewrite Hfv, <- Hcv in Hta.
  destruct (to_apply _ _ _ _ _) as [ps|e]; [|right; by apply nothing_lrecorded].
  destruct Hta as (_ & l & -> & Hsub & Hl). change (pending _ _ _) with vs in Hl.
  assert (Forall (λ pm, heap_lookup pm.1 w3 = Some pm.2 ∧ registered_ok pm.2) l) as Hlh.
  { rewrite Forall_forall in Hfh. apply Forall_forall. intros pm Hpm. by apply Hfh, Hsub. }
  rewrite bind_eq. pose proof (apply_up_run l w3 t Hlh Ht3) as Hup. rewrite Hl in Hup.
  destruct (apply_up _ _ _ _ _ false l.*1 w3) as [[b|e|s|] w4]; try done; [|by right].
  destruct Hup as [-> Ht4]. rewrite bind_eq. destruct (Nat.eqb_spec (length l.*1) 0) as [Hlen|Hlen]; [|done].
  rewrite length_fmap in Hlen. apply nil_length_inv in Hlen. rewrite Hlen in Hl. rewrite <- Hl in Ht4 |- *.
  rewrite bind_eq. unfold GetDBVersionContext. pose proof (ensure_lrun w4) as He.
  destruct (liftl (EnsureDBVersionContext _ _) w4) as [[v'|e|s|] w5]; try done.
  - destruct He as (_ & He & _). cbn. by rewrite He, Ht4.
  - right. apply nothing_lrecorded. destruct He as [_ He]. by rewrite He, Ht4.
Qed.


(** ** Down *)

Lemma current_found (vps : list (Z * ptr)) (w : LW D) version v :
  vpoints version w vps →
  match Migrations_Current vps.*2 v w with
  | (Ok p, w') => w' = w ∧ ∃ m, heap_lookup p w = Some m ∧ m_Version m = v ∧ registered_ok m
  | (Err _, w') => w' = w
  | _ => False
  end.
Proof.
  induction 1 as [|[v' p] vps (m & Hm & Hv & Hok & _) _ IH]; [done|].
  cbn [fmap list_fmap Migrations_Current snd] in *. rewrite bind_eq. unfold load. rewrite Hm.
  destruct (Z.eqb_spec (m_Version m) v) as [<-|]; [|exact IH]. cbn. eauto.
Qed.

(** With all rows applied and no version twice, the current version is that of
    the newest row. *)
Definition plain_rows (t : list (Z * bool)) : Prop := NoDup t.*1 ∧ Forall (λ r, r.2 = true) t.

Lemma current_plain t : plain_rows t → current_of t = head t.*1.
Proof. intros [_ Hb]. destruct t as [|[v b] t]; [done|]. inversion Hb; simplify_eq/=. done. Qed.

Lemma undo_step v b t :
  plain_rows ((v, b) :: t) → record false v ((v, b) :: t) = t.
Proof.
  intros [Hnd _]. cbn in Hnd. apply NoDup_cons in Hnd as [Hn _]. unfold record.
  rewrite filter_cons_False by (simpl; congruence). apply filter_id.
  intros r Hr Hv. apply Hn. rewrite <- Hv. by apply list_elem_of_fmap_2.
Qed.

Lemma down_rounds_run fuel version vps (w : LW D) t :
  0 ≤ version → vpoints maxVersion w vps → plain_rows t → (length t < fuel)%nat →
  ltable w = Some t ∨ (ltable w = None ∧ t = [(0, true)]) →
  match down_rounds goFn interpolate baseFS querier tableName fuel vps.*2 version w with
  | (Ok r, w') => r = Some tt ∧ ltable w' = Some (record_all false (to_undo version t) t)
  | (Err _, w') => ltable w' = ltable w ∨ lrecorded false (to_undo version t) t w'
  | _ => True
  end.
Proof.
  intros Hver. revert w t. induction fuel as [|fuel IH]; intros w t Hp Hpl Hfuel Ht; [lia|].
  assert (ensured (ltable w) = t) as Hens by by destruct Ht as [-> |[-> ->]].
  cbn [down_rounds]. rewrite bind_eq. unfold down_round. rewrite bind_eq. unfold GetDBVersionContext.
  pose proof (ensure_lrun w) as He. rewrite Hens in He.
  destruct (liftl (EnsureDBVersionContext _ _) w) as [[v|e|s|] w1]; try done.
  2: { left. by destruct He as [_ ->]. }
  destruct He as (Hw1 & Ht1 & Hcur). rewrite current_plain in Hcur by done.
  destruct t as [|[v' b] t]; [done|]. cbn in Hcur. injection Hcur as ->.
  destruct (Z.eqb_spec v 0) as [->|Hv0].
  { cbn [mret M_ret]. split; [done|]. unfold to_undo. cbn. rewrite (proj2 (Z.ltb_ge version 0)) by done. exact Ht1. }
  rewrite bind_eq.
  assert (vpoints maxVersion w1 vps) as Hp1 by (rewrite Hw1; by apply points_set_ldb).
  pose proof (current_found vps w1 maxVersion v Hp1) as Hc.
  destruct (Migrations_Current vps.*2 v w1) as [[p|e|s|] w1']; try done.
  2: { rewrite Hc. right. by apply nothing_lrecorded. }
  destruct Hc as (-> & m & Hm & Hv & Hok). rewrite bind_eq. unfold load. rewrite Hm.
  destruct (Z.leb_spec (m_Version m) version) as [Hle|Hgt].
  { cbn [mret M_ret]. split; [done|]. unfold to_undo. cbn. rewrite (proj2 (Z.ltb_ge version v)) by lia. exact Ht1. }
  unfold Migration_DownContext. pose proof (run_ptr_run p m false w1 _ Hm Hok Ht1) as Hr.
  assert (to_undo version ((v, b) :: t) = v :: to_undo version t) as Hundo.
  { unfold to_undo. cbn. by rewrite (proj2 (Z.ltb_lt version v)) by lia. }
  rewrite bind_eq.
  destruct ((m ← load p; liftl (Run m false)) w1) as [[[]|e|s|] w2] eqn:Hrun; try done.
  - destruct Hr as [Hw2 Ht2]. rewrite Hv, undo_step in Ht2 by done. cbn [mret M_ret].
    assert (vpoints maxVersion w2 vps) as Hp2 by (rewrite Hw2; by apply points_set_ldb).
    assert (plain_rows t) as Hpl2.
    { destruct Hpl as [Hnd Hb]. cbn in Hnd. apply NoDup_cons in Hnd as [_ Hnd]. by inversion Hb. }
    specialize (IH w2 t Hp2 Hpl2 ltac:(cbn in Hfuel; lia) (or_introl Ht2)).
    assert (∀ vs, record_all false (v :: vs) ((v, b) :: t) = record_all false vs t) as Hall.
    { intros vs. change (record_all false (v :: vs) ((v, b) :: t))
        with (record_all false vs (record false v ((v, b) :: t))). by rewrite undo_step. }
    rewrite Hundo, Hall.
    destruct (down_rounds _ _ _ _ _ fuel vps.*2 version w2) as [[r|e|s|] w3]; try done.
    right. destruct IH as [IH|(pre & Hpre & IH)].
    + exists [v]. split; [by exists (to_undo version t)|]. by rewrite Hall, IH.
    + exists (v :: pre). split; [by apply prefix_cons|]. by rewrite Hall.
  - destruct Hr as [_ Ht2]. right. by apply nothing_lrecorded.
Qed.


(** ** Reset *)

Lemma statuses_lookup (rs : list ListMigrationsResult) (acc : gmap Z bool) v :
  foldl (λ results m, match results !! lm_Version m with
                      | Some _ => results
                      | None => <[lm_Version m := lm_IsApplied m]> results
                      end) acc rs !! v
  = match acc !! v with
    | Some b => Some b
    | None => snd <$> head (filter (λ r, r.1 = v) (map (λ r, (lm_Version r, lm_IsApplied r)) rs))
    end.
Proof.
  revert acc. induction rs as [|r rs IH]; intros acc; cbn [foldl map].
  { by destruct (acc !! v). }
  rewrite IH. destruct (decide (lm_Version r = v)) as [<-|Hne].
  - destruct (acc !! lm_Version r) as [b|] eqn:Ha; [by rewrite Ha|].
    rewrite lookup_insert_eq, filter_cons_True by done. done.
  - rewrite filter_cons_False by (simpl; congruence).
    destruct (acc !! lm_Version r) eqn:Ha; [done|]. by rewrite lookup_insert_ne.
Qed.

Lemma status_applied (t : list (Z * bool)) v :
  default false (snd <$> head (filter (λ r, r.1 = v) t)) = true ↔ applied_now t v.
Proof.
  unfold applied_now. destruct (head (filter (λ r, r.1 = v) t)) as [[u b]|] eqn:Hh; [|done]. cbn.
  apply head_Some_elem_of, list_elem_of_filter in Hh as [Hu _]. cbn in Hu. split; [by intros ->; rewrite Hu|].
  by intros [= _ ->].
Qed.

Lemma reset_loop_run statuses vps w t0 t :
  (∀ v, default false (statuses !! v) = true ↔ applied_now t0 v) →
  vpoints maxVersion w vps → ltable w = Some t →
  let vs := filter (applied_now t0) vps.*1 in
  match mfor (reset_one goFn interpolate baseFS querier tableName statuses) vps.*2 w with
  | (Ok _, w') => ltable w' = Some (record_all false vs t)
  | (Err _, w') => lrecorded false vs t w'
  | _ => True
  end.
Proof.
  intros Hst. revert w t. induction vps as [|[v p] vps IH]; intros w t Hp Ht; [done|].
  inversion Hp as [|? ? (m & Hm & Hv & Hok & _) Hp']; subst. cbn [fmap list_fmap mfor snd fst] in *.
  cbn in Hv. subst v. rewrite bind_eq. unfold reset_one at 1. rewrite bind_eq. unfold load at 1. rewrite Hm.
  destruct (default false (statuses !! m_Version m)) eqn:Hs.
  - apply Hst in Hs. rewrite (filter_cons_True (applied_now t0)) by done.
    unfold wrap_err, Migration_DownContext. pose proof (run_ptr_run p m false w t Hm Hok Ht) as Hr.
    destruct ((m ← load p; liftl (Run m false)) w) as [[[]|e|s|] w1]; try done.
    + destruct Hr as [Hw1 Ht1]. specialize (IH w1 _ ltac:(rewrite Hw1; by apply points_set_ldb) Ht1). cbn zeta in IH.
      destruct (mfor _ vps.*2 w1) as [[[]|e|s|] w2]; try done.
      destruct IH as (pre & Hpre & Ht2). exists (m_Version m :: pre). split; [by apply prefix_cons|exact Ht2].
    + destruct Hr as [_ Ht1]. by apply nothing_lrecorded.
  - rewrite (filter_cons_False (applied_now t0)); [by apply IH|]. intros Ha. apply Hst in Ha. congruence.
Qed.

Lemma sort_pair_ge vps : StronglySorted Z.lt vps.*1 → merge_sort pair_ge vps = reverse vps.
Proof.
  intros Hs. pose proof (Sorted_lt_NoDup _ Hs) as Hnd. apply (sorted_by_key fst pair_ge).
  - unfold pair_ge. lia.
  - by rewrite merge_sort_Permutation.
  - assert (Total pair_ge) by (intros ??; unfold pair_ge; lia).
    assert (Transitive pair_ge) by (intros ???; unfold pair_ge; lia).
    apply (StronglySorted_merge_sort _).
  - apply (StronglySorted_fmap fst Z.lt), StronglySorted_reverse in Hs.
    eapply StronglySorted_impl; [|exact Hs]. intros x y. unfold flip, pair_ge. lia.
  - by rewrite merge_sort_Permutation, reverse_Permutation.
Qed.

(** C24: [Reset] rolls back, in descending order, exactly the migrations of
    the directory that the version table shows as applied (by the newest row of
    each version), and removes their records; on an error a prefix of that. *)
Theorem legacy_Reset_spec fuel dir opts w t :
  noVersioning (apply_options_funcs opts) = false →
  registry_well_formed w → ltable w = Some t →
  let vs := filter (applied_now t) (reverse (collected_versions dir maxVersion w)) in
  match ResetContext goFn interpolate range baseFS querier tableName fuel dir opts w with
  | (Ok r, w') => r = Some tt ∧ ltable w' = Some (record_all false vs t)
  | (Err _, w') => lrecorded false vs t w'
  | _ => True
  end.
Proof.
  intros Hopts Hwf Ht vs. unfold ResetContext. rewrite Hopts, bind_eq. unfold wrap_err at 1.
  pose proof (collect_run dir maxVersion w Hwf) as Hc.
  destruct (CollectMigrations _ _ _ _ _ w) as [[ps|e|s|] w1]; try done.
  2: { apply nothing_lrecorded. by rewrite Hc. }
  destruct Hc as (Hex & vps & -> & Hp & Hs & Hcv & _). apply extends_table in Hex as Ht1. rewrite Ht in Ht1.
  rewrite bind_eq. unfold wrap_err. rewrite liftl_run. unfold dbMigrationsStatus. rewrite bind_eq.
  pose proof (legacy_list_run (U:=U) querier tableName (l_db w1)) as Hl.
  destruct (legacy_ListMigrations _ _ (l_db w1)) as [[rs|e|s|] d]; cbn [fst snd]; try done.
  2: { apply nothing_lrecorded. unfold LegacyMethods.ltable, table in *. by rewrite <- Ht1, <- Hl. }
  destruct Hl as [Hv Hrs]. cbn [mret M_ret fst snd]. rewrite bind_eq.
  assert (vpoints maxVersion (set_ldb d w1) vps) as Hp2 by by apply points_set_ldb.
  erewrite versions_of_run by exact Hp2. rewrite sort_pair_ge by done. rewrite bind_eq.
  assert (ltable (set_ldb d w1) = Some t) as Ht2.
  { unfold LegacyMethods.ltable, table in *. cbn. by rewrite Hv. }
  assert (vpoints maxVersion (set_ldb d w1) (reverse vps)) as Hp3.
  { eapply points_perm; [|exact Hp2]. symmetry. apply reverse_Permutation. }
  match goal with |- context [reset_one _ _ _ _ _ ?st] => set (statuses := st) end.
  assert (∀ v, default false (statuses !! v) = true ↔ applied_now t v) as Hst.
  { intros v. unfold statuses. rewrite statuses_lookup, lookup_empty. rewrite <- status_applied.
    unfold LegacyMethods.ltable in Ht1. rewrite Hrs in Ht1. by injection Ht1 as ->. }
  pose proof (reset_loop_run statuses (reverse vps) _ t t Hst Hp3 Ht2) as Hr.
  assert ((reverse vps).*1 = reverse vps.*1) as Hrev by apply fmap_reverse.
  cbn zeta in Hr. rewrite Hrev, <- Hcv in Hr.
  destruct (mfor _ (reverse vps).*2 _) as [[[]|e|s|] w3]; done.
Qed.

(** ** Rows that say a version was rolled back *)

(** A version whose newest row says that it was rolled back counts as not
    applied for [EnsureDBVersion] and [Reset], but [Up] takes any row as
    applied: it succeeds and leaves such a version as it is. *)
Theorem legacy_Up_skips_rolled_back am dir version opts w w' v t :
  apply_options_funcs opts = mkOptions am false false →
  registry_well_formed w → 0 ≤ version → ltable w = Some t → v ∈ t.*1 →
  UpToContext goFn interpolate range baseFS querier tableName dir version opts w = (Ok tt, w') →
  ∃ t', ltable w' = Some t' ∧ (applied_now t' v ↔ applied_now t v).
Proof.
  intros Hopts Hwf Hversion Ht Hv Hup. pose proof (UpTo_lrun am dir version opts w Hopts Hwf Hversion) as Hs.
  rewrite Hup, Ht in Hs. cbn in Hs. unfold ensured in Hs. cbn in Hs. eexists. split; [exact Hs|].
  unfold applied_now. rewrite record_all_up, filter_app.
  assert (filter (λ r : Z * bool, r.1 = v)
    (reverse (map (λ u, (u, true)) (pending (collected_versions dir version w) t.*1 version))) = []) as ->; [|by rewrite Ht].
  destruct (filter _ _) as [|r l] eqn:Hf; [done|].
  assert (r ∈ r :: l) as Hr by (by constructor). rewrite <- Hf in Hr. apply list_elem_of_filter in Hr as [Hrv Hr].
  rewrite elem_of_reverse in Hr. apply list_elem_of_In, in_map_iff in Hr as (u & <- & Hu).
  apply list_elem_of_In, elem_of_pending in Hu as (_ & Hn & _). cbn in Hrv. subst. done.
Qed.

(** ** A flag that sticks *)

Lemma Current_set_ldb ps v (w : LW D) d r :
  Migrations_Current ps v w = (Ok r, w) → Migrations_Current ps v (set_ldb d w) = (Ok r, set_ldb d w).
Proof.
  induction ps as [|p ps IH]; [done|]. cbn [Migrations_Current]. rewrite !bind_eq. unfold load.
  rewrite heap_set_ldb. destruct (heap_lookup p w) as [m|]; [|done].
  destruct (m_Version m =? v); [|exact IH]. by intros [= <-].
Qed.

(** The loop goes on for ever: no number of rounds is enough. *)
Lemma sticky_rounds ps p m k version t fuel (w : LW D) :
  Migrations_Current ps k w = (Ok p, w) → heap_lookup p w = Some m → m_Version m = k →
  runnable m → m_noVersioning m = true → k ≠ 0 → version < k → current_of t = Some k →
  (∀ d, table (U:=U) d = Some t → pool_exhausted d = false →
     ∃ rs d', legacy_ListMigrations querier tableName d = (Ok rs, d') ∧ pool_exhausted d' = false) →
  (∀ d, pool_exhausted d = false → ∃ d', Run m false d = (Ok tt, d') ∧ pool_exhausted d' = false) →
  ltable w = Some t → pool_exhausted (l_db w) = false →
  (down_rounds goFn interpolate baseFS querier tableName fuel ps version w).1 = Ok None.
Proof.
  intros Hcur Hm Hv Hext Hnv Hk Hver Ht0 Hlive Hrun.
  assert (∀ fuel d, table (U:=U) d = Some t → pool_exhausted d = false →
    (down_rounds goFn interpolate baseFS querier tableName fuel ps version (set_ldb d w)).1 = Ok None) as Hall.
  { clear fuel. induction fuel as [|fuel IH]; intros d Ht Hpool; [done|]. cbn [down_rounds]. rewrite bind_eq.
    unfold down_round, GetDBVersionContext, EnsureDBVersionContext. rewrite bind_eq, liftl_run. cbn [l_db set_ldb].
    rewrite bind_eq, catch_run. destruct (Hlive d Ht Hpool) as (rs & d1 & Hl & Hpool1).
    pose proof (legacy_list_run (U:=U) querier tableName d) as Hlr. rewrite Hl in Hlr |- *.
    destruct Hlr as [Hview Hrs]. rewrite Ht in Hrs. injection Hrs as Hrs.
    assert (lookup_applied ∅ rs = Some k) as ->.
    { rewrite <- Ht0, Hrs. unfold current_of. rewrite map_map. f_equal.
      clear. induction rs as [|[] rs IH]; [done|]. cbn. f_equal. exact IH. }
    cbn [mret M_ret fst snd]. rewrite (proj2 (Z.eqb_neq k 0) Hk), bind_eq.
    change (set_ldb d1 (set_ldb d w)) with (set_ldb d1 w). rewrite (Current_set_ldb _ _ _ _ _ Hcur), bind_eq.
    unfold load at 1. rewrite heap_set_ldb, Hm. rewrite (proj2 (Z.leb_gt _ version)) by lia.
    rewrite bind_eq. unfold Migration_DownContext. rewrite bind_eq. unfold load. rewrite heap_set_ldb, Hm, liftl_run.
    cbn [l_db set_ldb]. destruct (Hrun d1 Hpool1) as (d2 & Hd2 & Hpool2).
    pose proof (Migration_run_records user_stmt goFn interpolate baseFS querier tableName Hparsed m false d1 Hext) as Hrec.
    rewrite Hnv, Hd2 in Hrec. rewrite Hd2. cbn [fst snd mret M_ret]. apply IH; [|done].
    cbn in Hrec. unfold table in *. by rewrite Hrec, Hview. }
  intros Htw Hpool. specialize (Hall fuel (l_db w) Htw Hpool). by destruct w.
Qed.

(** [WithNoVersioning] marks the registered Go migrations it runs, and
    nothing unmarks them: in the same process, a later [DownTo] runs such a
    migration down without deleting its record, finds it again as the current
    version, and never returns. *)
Theorem no_versioning_sticks dir opts version w ps w1 p m k t :
  noVersioning (apply_options_funcs opts) = false →
  CollectMigrations range baseFS dir minVersion maxVersion w = (Ok ps, w1) →
  Migrations_Current ps k w1 = (Ok p, w1) → heap_lookup p w1 = Some m → m_Version m = k →
  runnable m → m_noVersioning m = true → k ≠ 0 → version < k →
  ltable w1 = Some t → current_of t = Some k → pool_exhausted (l_db w1) = false →
  (∀ d, table (U:=U) d = Some t → pool_exhausted d = false →
     ∃ rs d', legacy_ListMigrations querier tableName d = (Ok rs, d') ∧ pool_exhausted d' = false) →
  (∀ d, pool_exhausted d = false → ∃ d', Run m false d = (Ok tt, d') ∧ pool_exhausted d' = false) →
  ∀ fuel, (DownToContext goFn interpolate range baseFS querier tableName fuel dir version opts w).1 = Ok None.
Proof.
  intros Hopts Hcol Hcur Hm Hv Hext Hnv Hk Hver Htw Ht0 Hpool Hlive Hrun fuel.
  unfold DownToContext. rewrite Hopts, bind_eq, Hcol. by eapply sticky_rounds.
Qed.

(** A legacy migration that runs in a transaction and fails leaves the
    database as it was. *)
Theorem legacy_tx_rolls_back m dir d e d' :
  legacy_in_tx interpolate baseFS m dir → Run m dir d = (Err e, d') → db_view d' = db_view d.
Proof. by apply (legacy_tx_run user_stmt goFn interpolate baseFS querier tableName Hparsed). Qed.

(** The version of the database is that of the first row, newest first,
    whose version is still applied by its newest row; a missing version table is
    created with version 0. *)
Theorem EnsureDBVersion_spec d v d' :
  EnsureDBVersionContext querier tableName d = (Ok v, d') →
  let t := ensured (table (U:=U) d) in
  table (U:=U) d' = Some t ∧ applied_now t v ∧
  ∃ pre post, t = pre ++ (v, true) :: post ∧ ∀ u, u ∈ pre.*1 → ¬ applied_now t u.
Proof.
  intros He. pose proof (EnsureDBVersion_run querier tableName Hreads d) as Hr. rewrite He in Hr.
  destruct Hr as [Ht Hcur]. set (t := ensured _) in *. split; [done|].
  pose proof (lookup_applied_spec ∅ t) as Hl. unfold current_of in Hcur. rewrite Hcur in Hl.
  destruct Hl as (pre & post & Heq & _ & Hpre & Hnot). split.
  - unfold applied_now. rewrite Heq, filter_app.
    assert (filter (λ r : Z * bool, r.1 = v) pre = []) as ->.
    { destruct (filter _ pre) as [|r l] eqn:Hf; [done|]. assert (r ∈ r :: l) as Hin by (by constructor).
      rewrite <- Hf in Hin. apply list_elem_of_filter in Hin as [<- Hin]. destruct Hpre. by apply list_elem_of_fmap_2. }
    cbn. by rewrite decide_True.
  - exists pre, post. split; [done|]. intros u Hu. apply (Hnot u Hu). apply not_elem_of_empty.
Qed.

End LegacyMethods.
