(* ===== verification/Names.v ===== *)
(** * Names of migrations (helpers.go)

    The conversion of the name a user gives to a new migration into the name of
    its file and of its Go functions: a state machine over the runes of the
    name.  Strings are bytes, so decoding and encoding UTF-8 are modelled too;
    the tables of package unicode are a parameter. *)

From S2P Require Import Prelude GoStrings.

(** ** package unicode/utf8 *)

Definition RuneError : Z := 0xFFFD.

Definition byte_of (c : ascii) : Z := Z.of_nat (nat_of_ascii c).
(** [byte(b)]. *)
Definition byte_char (b : Z) : ascii := ch (Z.to_nat (b mod 256)).

(** The length of an encoding by its first byte, and the range its second byte
    must be in. *)
Definition first_byte (b : Z) : option (nat * Z * Z) :=
  if (0xC2 <=? b) && (b <=? 0xDF) then Some (2%nat, 0x80, 0xBF)
  else if b =? 0xE0 then Some (3%nat, 0xA0, 0xBF)
  else if b =? 0xED then Some (3%nat, 0x80, 0x9F)
  else if (0xE1 <=? b) && (b <=? 0xEF) then Some (3%nat, 0x80, 0xBF)
  else if b =? 0xF0 then Some (4%nat, 0x90, 0xBF)
  else if b =? 0xF4 then Some (4%nat, 0x80, 0x8F)
  else if (0xF1 <=? b) && (b <=? 0xF3) then Some (4%nat, 0x80, 0xBF)
  else None.

Definition between (lo b hi : Z) : bool := (lo <=? b) && (b <=? hi).
Definition payload (b : Z) : Z := Z.land b 0x3F.

(** [utf8.DecodeRuneInString] on a string that is not empty: its first rune and
    the width of it. *)
Definition DecodeRuneInString (s : string) : Z * nat :=
  match map byte_of (String.list_ascii_of_string s) with
  | [] => (RuneError, 0%nat)
  | b0 :: bs =>
      if b0 <? 0x80 then (b0, 1%nat)
      else match first_byte b0, bs with
      | Some (2%nat, lo, hi), b1 :: _ =>
          if between lo b1 hi then (Z.lor (Z.shiftl (Z.land b0 0x1F) 6) (payload b1), 2%nat)
          else (RuneError, 1%nat)
      | Some (3%nat, lo, hi), b1 :: b2 :: _ =>
          if between lo b1 hi && between 0x80 b2 0xBF
          then (Z.lor (Z.shiftl (Z.land b0 0x0F) 12) (Z.lor (Z.shiftl (payload b1) 6) (payload b2)), 3%nat)
          else (RuneError, 1%nat)
      | Some (4%nat, lo, hi), b1 :: b2 :: b3 :: _ =>
          if between lo b1 hi && between 0x80 b2 0xBF && between 0x80 b3 0xBF
          then (Z.lor (Z.shiftl (Z.land b0 0x07) 18) (Z.lor (Z.shiftl (payload b1) 12)
                 (Z.lor (Z.shiftl (payload b2) 6) (payload b3))), 4%nat)
          else (RuneError, 1%nat)
      | _, _ => (RuneError, 1%nat)
      end
  end.

(** [utf8.AppendRune], the bytes written for a rune. *)
Definition EncodeRune (r : Z) : string :=
  let r := if between 0 r 0x10FFFF && negb (between 0xD800 r 0xDFFF) then r else RuneError in
  let cont shift := byte_char (Z.lor 0x80 (payload (Z.shiftr r shift))) in
  if r <? 0x80 then String (byte_char r) ""
  else if r <? 0x800 then String (byte_char (Z.lor 0xC0 (Z.shiftr r 6))) (String (cont 0) "")
  else if r <? 0x10000 then
    String (byte_char (Z.lor 0xE0 (Z.shiftr r 12))) (String (cont 6) (String (cont 0) ""))
  else String (byte_char (Z.lor 0xF0 (Z.shiftr r 18))) (String (cont 12) (String (cont 6) (String (cont 0) ""))).

(** The runes of a string; [skip] bytes belong to the last one. *)
Fixpoint runes_from (skip : nat) (s : string) : list Z :=
  match s with
  | EmptyString => []
  | String _ s' =>
      match skip with
      | S k => runes_from k s'
      | O => let '(r, size) := DecodeRuneInString s in r :: runes_from (pred size) s'
      end
  end.
Definition runes (s : string) : list Z := runes_from 0 s.

(** What writing runes to a buffer leaves there. *)
Fixpoint write_runes (rs : list Z) : string :=
  match rs with [] => "" | r :: rs => EncodeRune r +++ write_runes rs end.

(** ** package unicode *)

Class Unicode := {
  IsLetter : Z → bool;
  IsNumber : Z → bool;
  ToUpper : Z → Z;
  ToLower : Z → Z
}.

(** A slash is neither, and a letter or number in lower case still is one. *)
Class UnicodeLaws `{Unicode} := {
  slash_not_letter : IsLetter 47 = false;
  slash_not_number : IsNumber 47 = false;
  alnum_lower r : IsLetter r || IsNumber r = true → IsLetter (ToLower r) || IsNumber (ToLower r) = true
}.

Section Names.
Context `{Unicode}.

Definition isAlphaNum (r : Z) : bool := IsLetter r || IsNumber r.

(** ** The state machine *)

Inductive camelSnakeStateMachine := idle | firstAlphaNum | alphaNum | delimiter.

Definition next (s : camelSnakeStateMachine) (r : Z) : camelSnakeStateMachine :=
  match s with
  | idle => if isAlphaNum r then firstAlphaNum else s
  | firstAlphaNum => if isAlphaNum r then alphaNum else delimiter
  | alphaNum => if negb (isAlphaNum r) then delimiter else s
  | delimiter => if isAlphaNum r then firstAlphaNum else idle
  end.

(** The loop of [camelCase]: what it writes. *)
Fixpoint camel_loop (stateMachine : camelSnakeStateMachine) (rs : list Z) : list Z :=
  match rs with
  | [] => []
  | r :: rs =>
      let stateMachine := next stateMachine r in
      match stateMachine with
      | firstAlphaNum => [ToUpper r]
      | alphaNum => [ToLower r]
      | _ => []
      end ++ camel_loop stateMachine rs
  end.

Definition camelCase (str : string) : string := write_runes (camel_loop idle (runes str)).

(** The loop of [snakeCase]: what it writes, and its last state. *)
Fixpoint snake_loop (stateMachine : camelSnakeStateMachine) (rs : list Z)
  : list Z * camelSnakeStateMachine :=
  match rs with
  | [] => ([], stateMachine)
  | r :: rs =>
      let stateMachine := next stateMachine r in
      let '(b, last) := snake_loop stateMachine rs in
      (match stateMachine with
       | firstAlphaNum | alphaNum => [ToLower r]
       | delimiter => [95]
       | idle => []
       end ++ b, last)
  end.

(** [bytes.TrimSuffix] with one byte. *)
Fixpoint TrimSuffix_byte (s : string) (c : ascii) : string :=
  match s with
  | EmptyString => EmptyString
  | String d EmptyString => if Ascii.eqb d c then EmptyString else s
  | String d s' => String d (TrimSuffix_byte s' c)
  end.

Definition snakeCase (str : string) : string :=
  let '(b, stateMachine) := snake_loop idle (runes str) in
  match stateMachine with
  | idle => TrimSuffix_byte (write_runes b) "_"
  | _ => write_runes b
  end.

(** ** What they compute *)

(** The words of a name: its longest runs of letters and numbers; [cur] is the
    beginning of the first one. *)
Fixpoint words_of (cur rs : list Z) : list (list Z) :=
  let first := match cur with [] => [] | _ => [cur] end in
  match rs with
  | [] => first
  | r :: rs => if isAlphaNum r then words_of (cur ++ [r]) rs else first ++ words_of [] rs
  end.

Definition no_word (rs : list Z) : bool := forallb (λ r, negb (isAlphaNum r)) rs.

(** The number of runes after the last word. *)
Fixpoint trailing (rs : list Z) : nat :=
  match rs with
  | [] => O
  | _ :: rs' => if no_word rs then length rs else trailing rs'
  end.

Fixpoint join_words (ws : list (list Z)) : list Z :=
  match ws with
  | [] => []
  | w :: ws => w ++ match ws with [] => [] | _ => 95 :: join_words ws end
  end.

Definition capitalize (w : list Z) : list Z :=
  match w with [] => [] | r :: w => ToUpper r :: map ToLower w end.

Abbreviation lower_words rs cur := (map (map ToLower) (words_of cur rs)).

Lemma words_of_cur cur rs : cur ≠ [] → words_of cur rs ≠ [].
Proof.
  revert cur. induction rs as [|r rs IH]; intros [|c cur]; try done. cbn.
  destruct (isAlphaNum r); [|done]. intros _. by apply IH.
Qed.

Lemma words_of_nil rs : words_of [] rs = [] ↔ no_word rs = true.
Proof.
  induction rs as [|r rs IH]; [done|]. cbn. destruct (isAlphaNum r); [|exact IH].
  split; [|done]. intros Hw. by apply words_of_cur in Hw.
Qed.

Lemma trailing_no_word rs : no_word rs = true → trailing rs = length rs.
Proof. destruct rs; [done|]. cbn [trailing]. by intros ->. Qed.

Lemma trailing_alnum r rs : isAlphaNum r = true → trailing (r :: rs) = trailing rs.
Proof. intros Hr. cbn. by rewrite Hr. Qed.

Lemma trailing_word r rs : no_word rs = false → trailing (r :: rs) = trailing rs.
Proof. intros Hr. cbn [trailing no_word forallb]. unfold no_word in Hr. by rewrite Hr, andb_false_r. Qed.

(** In a word the machine is in one of two states, between words in another two. *)
Definition in_word (st : camelSnakeStateMachine) : bool :=
  match st with firstAlphaNum | alphaNum => true | _ => false end.

Lemma next_in_word st r : in_word (next st r) = isAlphaNum r.
Proof. destruct st; cbn; by destruct (isAlphaNum r). Qed.

Lemma next_first st r : isAlphaNum r = true → next st r = if in_word st then alphaNum else firstAlphaNum.
Proof. intros Hr. destruct st; cbn; by rewrite Hr. Qed.

Lemma next_delimiter st r : isAlphaNum r = false → next st r = if in_word st then delimiter else idle.
Proof. intros Hr. destruct st; cbn; by rewrite Hr. Qed.

Definition started (cur : list Z) : bool := match cur with [] => false | _ => true end.

(** *** [camelCase] *)

Lemma capitalize_snoc cur r : started cur = true → capitalize (cur ++ [r]) = capitalize cur ++ [ToLower r].
Proof. destruct cur; [done|]. cbn. by rewrite map_app. Qed.

Lemma camel_loop_words rs : ∀ st cur, in_word st = started cur →
  capitalize cur ++ camel_loop st rs = concat (map capitalize (words_of cur rs)).
Proof.
  induction rs as [|r rs IH]; intros st cur Hst.
  { destruct cur; cbn; [done|]. by rewrite !app_nil_r. }
  cbn [camel_loop words_of]. destruct (isAlphaNum r) eqn:Hr.
  - rewrite next_first, Hst by done. rewrite <- (IH (if started cur then alphaNum else firstAlphaNum)).
    2: { destruct cur; done. }
    destruct (started cur) eqn:Hc; [by rewrite capitalize_snoc, <- app_assoc by done|by destruct cur].
  - rewrite next_delimiter, Hst by done. destruct cur as [|c cur]; cbn [started app]; [by apply (IH idle [])|].
    cbn [map concat]. f_equal. by apply (IH delimiter []).
Qed.

(** *** [snakeCase] *)

(** The underscore after the last word, and whether the machine ends idle. *)
Definition last_underscore (cur rs : list Z) : list Z :=
  match words_of cur rs with [] => [] | _ => if Nat.eqb (trailing rs) 0 then [] else [95] end.

Definition ends_idle (st : camelSnakeStateMachine) (cur rs : list Z) : Prop :=
  if no_word rs && negb (started cur) then rs ≠ [] ∨ st = idle else (2 ≤ trailing rs)%nat.

Lemma join_words_cons w ws :
  join_words (w :: ws) = w ++ match ws with [] => [] | _ => 95 :: join_words ws end.
Proof. done. Qed.

Lemma snake_loop_delim st r rs cur last :
  isAlphaNum r = false → started cur = true → ends_idle delimiter [] rs ↔ last = idle →
  ends_idle st cur (r :: rs) ↔ last = idle.
Proof.
  intros Hr Hc <-. unfold ends_idle. rewrite Hc. cbn [started negb]. rewrite !andb_false_r, andb_true_r.
  destruct (no_word rs) eqn:Hn; [|by rewrite trailing_word].
  rewrite trailing_no_word by (cbn; by rewrite Hr). destruct rs; cbn; naive_solver lia.
Qed.

Lemma snake_loop_words rs : ∀ st cur, in_word st = started cur →
  map ToLower cur ++ (snake_loop st rs).1 = join_words (lower_words rs cur) ++ last_underscore cur rs ∧
  (ends_idle st cur rs ↔ (snake_loop st rs).2 = idle).
Proof.
  induction rs as [|r rs IH]; intros st cur Hst.
  { unfold ends_idle, last_underscore. destruct cur as [|c cur]; cbn.
    - split; [done|]. naive_solver.
    - rewrite !app_nil_r. split; [done|]. destruct st; cbn in *; try done; naive_solver lia. }
  cbn [snake_loop]. destruct (isAlphaNum r) eqn:Hr.
  - rewrite next_first, Hst by done.
    specialize (IH (if started cur then alphaNum else firstAlphaNum) (cur ++ [r]) ltac:(by destruct cur)).
    destruct (snake_loop _ rs) as [b last]. cbn [fst snd] in *. destruct IH as [IHb IHi]. split.
    + unfold last_underscore in *. cbn [words_of]. rewrite Hr, trailing_alnum, <- IHb by done.
      rewrite map_app, <- app_assoc. by destruct (started cur).
    + rewrite <- IHi. unfold ends_idle. rewrite trailing_alnum by done. cbn [no_word forallb]. rewrite Hr.
      replace (started (cur ++ [r])) with true by by destruct cur. by rewrite andb_false_r.
  - rewrite next_delimiter, Hst by done. destruct cur as [|c cur]; cbn [started app].
    + destruct (IH idle [] eq_refl) as [IHb IHi]. destruct (snake_loop idle rs) as [b last]. cbn [fst snd map app] in *. split.
      * unfold last_underscore in *. cbn [words_of]. rewrite Hr. rewrite IHb. cbn [app].
        destruct (words_of [] rs) eqn:Hw; [done|]. rewrite trailing_word; [done|].
        destruct (no_word rs) eqn:Hn; [|done]. apply words_of_nil in Hn. congruence.
      * rewrite <- IHi. unfold ends_idle. cbn [started negb]. rewrite !andb_true_r.
        cbn [no_word forallb]. rewrite Hr. cbn [negb andb]. fold (no_word rs).
        destruct (no_word rs) eqn:Hn; [naive_solver|]. by rewrite trailing_word.
    + destruct (IH delimiter [] eq_refl) as [IHb IHi]. destruct (snake_loop delimiter rs) as [b last].
      cbn [fst snd] in *. split; [|]; last first.
      { by apply snake_loop_delim. }
      cbn [map app] in IHb. rewrite IHb. unfold last_underscore. cbn [words_of]. rewrite Hr.
      cbn [app map]. rewrite join_words_cons. destruct (words_of [] rs) as [|w ws] eqn:Hw.
      * apply words_of_nil in Hw as Hn. rewrite trailing_no_word by (cbn; by rewrite Hr). cbn. by rewrite !app_nil_r.
      * rewrite trailing_word; [cbn [map]; by rewrite <- !app_assoc|].
        destruct (no_word rs) eqn:Hn; [|done]. apply words_of_nil in Hn. congruence.
Qed.

(** ** The bytes *)

Lemma write_runes_app a b : write_runes (a ++ b) = write_runes a +++ write_runes b.
Proof. induction a as [|r a IH]; [done|]. cbn [app write_runes]. by rewrite IH, append_assoc. Qed.

Lemma string_app_nil s : s +++ "" = s.
Proof. induction s as [|c s IH]; [done|]. cbn. by rewrite IH. Qed.

Lemma TrimSuffix_byte_app a c : TrimSuffix_byte (a +++ String c "") c = a.
Proof.
  induction a as [|d a IH]; cbn; [by rewrite Ascii.eqb_refl|].
  rewrite IH. by destruct a.
Qed.

(** C33: [camelCase] puts the words of a name together, each with its first
    letter in upper case and the others in lower case; [snakeCase] puts them
    together in lower case with underscores between them, and one after the
    last word when exactly one rune follows it. *)
Theorem names_by_words str :
  let ws := words_of [] (runes str) in
  camelCase str = write_runes (concat (map capitalize ws)) ∧
  snakeCase str = write_runes (join_words (map (map ToLower) ws)) +++
    (if negb (no_word (runes str)) && Nat.eqb (trailing (runes str)) 1 then "_" else "").
Proof.
  intros ws. split; [unfold camelCase, ws; by rewrite <- (camel_loop_words (runes str) idle [] eq_refl)|].
  unfold snakeCase. destruct (snake_loop_words (runes str) idle [] eq_refl) as [Hb Hi].
  destruct (snake_loop idle (runes str)) as [b last]. cbn [fst snd map app] in Hb, Hi. subst b.
  fold ws. rewrite write_runes_app. unfold last_underscore. fold ws.
  unfold ends_idle in Hi. cbn [started negb] in Hi. rewrite andb_true_r in Hi.
  destruct (no_word (runes str)) eqn:Hn.
  { apply words_of_nil in Hn. fold ws in Hn. rewrite Hn. destruct last; cbn; done. }
  assert (ws ≠ []) as Hws by (intros Hw; apply words_of_nil in Hw; congruence).
  destruct ws as [|w ws']; [done|]. cbn [negb andb]. clear Hws Hn.
  destruct (trailing (runes str)) as [|[|k]]; cbn [Nat.eqb].
  - by destruct last; try done; destruct Hi as [_ Hi]; specialize (Hi eq_refl); lia.
  - by destruct last; try done; destruct Hi as [_ Hi]; specialize (Hi eq_refl); lia.
  - destruct Hi as [-> _]; [|lia]. cbn [write_runes]. change (EncodeRune 95 +++ "") with (String "_" "").
    rewrite TrimSuffix_byte_app. by rewrite string_app_nil.
Qed.

(** ** No slashes *)

Lemma byte_char_slash b : Z.testbit b 7 = true → Ascii.eqb "/" (byte_char b) = false.
Proof.
  intros Hb. apply Ascii.eqb_neq. intros Heq. pose proof (Z.mod_pos_bound b 256 eq_refl) as Hbound.
  assert (Z.of_nat (nat_of_ascii (byte_char b)) = b mod 256) as Hn.
  { unfold byte_char, ch. rewrite nat_ascii_embedding; lia. }
  rewrite <- Heq in Hn. cbn in Hn.
  assert (Z.testbit (b mod 2 ^ 8) 7 = true) as Ht by by rewrite Z.mod_pow2_bits_low by lia.
  change (2 ^ 8) with 256 in Ht. by rewrite <- Hn in Ht.
Qed.

Lemma lacks_String d c s : lacks d (String c s) = negb (Ascii.eqb d c) && lacks d s.
Proof. cbn. rewrite Ascii.eqb_sym. by destruct (Ascii.eqb c d). Qed.

Lemma testbit7_lor a b : Z.testbit a 7 = true → Z.testbit (Z.lor a b) 7 = true.
Proof. intros Ha. by rewrite Z.lor_spec, Ha. Qed.

Lemma EncodeRune_slash r : r ≠ 47 → lacks "/" (EncodeRune r) = true.
Proof.
  intros Hr. unfold EncodeRune.
  set (r' := if between 0 r 0x10FFFF && negb (between 0xD800 r 0xDFFF) then r else RuneError).
  assert (r' ≠ 47 ∧ 0 ≤ r') as [Hr' H0].
  { unfold r', between. destruct (_ && _ && _) eqn:Hb; [|by vm_compute]. split; [done|]. lia. }
  destruct (Z.ltb_spec r' 0x80).
  { rewrite lacks_String, andb_true_r. apply negb_true_iff, Ascii.eqb_neq. intros Heq.
    assert (Z.of_nat (nat_of_ascii (byte_char r')) = r') as Hn.
    { unfold byte_char, ch. rewrite Z.mod_small by lia. rewrite nat_ascii_embedding; lia. }
    rewrite <- Heq in Hn. by cbn in Hn. }
  assert (∀ a b, Z.testbit a 7 = true → negb (Ascii.eqb "/" (byte_char (Z.lor a b))) = true) as Hbyte.
  { intros a b Ha. rewrite byte_char_slash; [done|]. by apply testbit7_lor. }
  destruct (r' <? 0x800), (r' <? 0x10000); rewrite !lacks_String, !Hbyte by done; done.
Qed.

Lemma write_runes_slash rs : Forall (λ r, r ≠ 47) rs → lacks "/" (write_runes rs) = true.
Proof.
  induction 1 as [|r rs Hr _ IH]; [done|]. cbn [write_runes]. by rewrite lacks_app, EncodeRune_slash, IH.
Qed.

Lemma snake_loop_slash `{!UnicodeLaws} rs : ∀ st, Forall (λ r, r ≠ 47) (snake_loop st rs).1.
Proof.
  assert (∀ r, isAlphaNum r = true → ToLower r ≠ 47) as Hlow.
  { intros r Hr Heq. apply alnum_lower in Hr. by rewrite Heq, slash_not_letter, slash_not_number in Hr. }
  induction rs as [|r rs IH]; intros st; [constructor|]. cbn [snake_loop].
  specialize (IH (next st r)). destruct (snake_loop (next st r) rs) as [b last]. cbn [fst] in *.
  pose proof (next_in_word st r) as Hw.
  destruct (next st r); cbn [in_word app] in *; try (constructor; [|done]); try done; by apply Hlow.
Qed.

Lemma lacks_TrimSuffix d c s : lacks d s = true → lacks d (TrimSuffix_byte s c) = true.
Proof.
  induction s as [|e s IH]; [done|]. rewrite lacks_String. intros [He Hs]%andb_prop.
  cbn [TrimSuffix_byte]. destruct s as [|e' s']; [by destruct (Ascii.eqb e c); rewrite ?lacks_String, ?He|].
  rewrite lacks_String, He. by apply IH.
Qed.

Lemma snakeCase_slash `{!UnicodeLaws} str : lacks "/" (snakeCase str) = true.
Proof.
  unfold snakeCase. pose proof (snake_loop_slash (runes str) idle) as Hs.
  destruct (snake_loop idle (runes str)) as [b last]. cbn [fst] in Hs. apply write_runes_slash in Hs.
  destruct last; try done. by apply lacks_TrimSuffix.
Qed.

End Names.
