(* ===== verification/Files.v ===== *)
(** * Creating and renaming migration files (create.go, fix.go, goose.go)

    The two commands that change the directory of the migrations, over a model
    of the operating system's files; [versioned] and [timestamped] (migrate.go)
    by which they tell numbered files from time-stamped ones; and [run]
    (goose.go), which dispatches on the name of a command. *)

From S2P Require Import Prelude GoStrings Effects SqlParser Sql Dialects Store Migration Options.
From S2P Require Import Collect LegacyStore Legacy LegacyRun Names.

(** ** Time stamps (package time) *)

Record Time := mkTime { t_year : Z; t_month : Z; t_day : Z; t_hour : Z; t_minute : Z; t_second : Z }.

(** [getnum]: a number of two digits, or of one digit unless it is [fixed]. *)
Definition getnum (fixed : bool) (s : string) : option (Z * string) :=
  match s with
  | EmptyString => None
  | String a s1 =>
      match digit_of a with
      | None => None
      | Some x =>
          let one := if fixed then None else Some (x, s1) in
          match s1 with
          | EmptyString => one
          | String b s2 => match digit_of b with Some y => Some (x * 10 + y, s2) | None => one end
          end
      end
  end.

Definition isLeap (year : Z) : bool :=
  (year mod 4 =? 0) && (negb (year mod 100 =? 0) || (year mod 400 =? 0)).

Definition daysIn (month year : Z) : Z :=
  if month =? 2 then if isLeap year then 29 else 28
  else if (month =? 4) || (month =? 6) || (month =? 9) || (month =? 11) then 30
  else 31.

(** [time.Parse("20060102150405", value)]; [None] is an error. *)
Definition time_Parse (value : string) : option Time :=
  y1 ← getnum true value; y2 ← getnum true y1.2;
  m ← getnum true y2.2; d ← getnum true m.2;
  h ← getnum false d.2; mi ← getnum true h.2; s ← getnum true mi.2;
  let year := y1.1 * 100 + y2.1 in
  if (1 <=? m.1) && (m.1 <=? 12) && (h.1 <? 24) && (mi.1 <? 60) && (s.1 <? 60) && String.eqb s.2 ""
     && (1 <=? d.1) && (d.1 <=? daysIn m.1 year)
  then Some (mkTime year m.1 d.1 h.1 mi.1 s.1) else None.

Definition time_fields (t : Time) : list Z :=
  [t_year t; t_month t; t_day t; t_hour t; t_minute t; t_second t].

Fixpoint fields_before (a b : list Z) : bool :=
  match a, b with
  | x :: a, y :: b => (x <? y) || ((x =? y) && fields_before a b)
  | _, _ => false
  end.

Definition time_Before (t u : Time) : bool := fields_before (time_fields t) (time_fields u).
Definition time_After (t u : Time) : bool := time_Before u t.

(** [time.Unix(0, 0)] and the time that comes with an error. *)
Definition unix_epoch : Time := mkTime 1970 1 1 0 0 0.
Definition zero_time : Time := mkTime 1 1 1 0 0 0.

(** The conditions of [versioned] and of [timestamped] on a version. *)
Definition is_versioned (version : Z) : bool :=
  let parsed := time_Parse (FormatInt version) in
  time_Before (default zero_time parsed) unix_epoch || is_nil parsed.

Definition is_timestamped (version : Z) : bool :=
  match time_Parse (FormatInt version) with
  | None => false
  | Some versionTime => time_After versionTime unix_epoch
  end.

(** ** The file system (packages os and filepath) *)

(** Files with their contents and directories, by their clean paths; and the
    paths on which an operation fails, with its error. *)
Record OS := mkOS {
  os_files : gmap string string;
  os_dirs : gset string;
  os_fault : string → option error
}.

Definition set_files (files : gmap string string) (os : OS) : OS := mkOS files (os_dirs os) (os_fault os).

(** What is not modelled of them: globbing with other patterns than those used
    on directories without special characters, and renaming directories. *)
Class OtherOS := {
  other_Glob : OS → string → result (list string);
  rename_dir : string → string → M OS unit
}.

(** [filepath.Split]. *)
Fixpoint path_Split (s : string) : string * string :=
  match s with
  | EmptyString => (EmptyString, EmptyString)
  | String c s' =>
      match path_Split s' with
      | (EmptyString, file) =>
          if Ascii.eqb c "/" then (String c EmptyString, file) else (EmptyString, String c file)
      | (dir, file) => (String c dir, file)
      end
  end.

(** The directory of a clean path. *)
Definition path_Dir (p : string) : string := path_Clean (path_Split p).1.

(** What stands before the names of the entries of a directory. *)
Definition dir_prefix (dir : string) : string :=
  if String.eqb dir "." then "" else if String.eqb dir "/" then "/" else dir +++ "/".

Fixpoint strip_prefix (p s : string) : option string :=
  match p, s with
  | EmptyString, _ => Some s
  | String a p, String b s => if Ascii.eqb a b then strip_prefix p s else None
  | String _ _, EmptyString => None
  end.

Definition entry_name (n : string) : bool :=
  lacks "/" n && negb (String.eqb n "" || String.eqb n "." || String.eqb n "..").

Definition string_le (a b : string) : Prop := String.leb a b = true.
#[export] Instance string_le_dec : RelDecision string_le.
Proof. intros a b. unfold string_le. apply _. Defined.

(** The sorted names in a directory. *)
Definition names_in (os : OS) (dir : string) : list string :=
  merge_sort string_le
    (omap (λ p, match strip_prefix (dir_prefix dir) p with
                | Some n => if entry_name n then Some n else None
                | None => None
                end) (elements (dom (os_files os) ∪ os_dirs os))).

Definition os_Stat (os : OS) (name : string) : option error :=
  let p := path_Clean name in
  match os_fault os p with
  | Some e => Some e
  | None => if bool_decide (p ∈ dom (os_files os) ∪ os_dirs os) then None else Some (ESentinel fs_ErrNotExist)
  end.

(** [os.IsNotExist]; it does not unwrap. *)
Definition os_IsNotExist (err : option error) : bool :=
  match err with Some (ESentinel fs_ErrNotExist) => true | _ => false end.

Definition hasMeta (path : string) : bool :=
  negb (lacks "*" path && lacks "?" path && lacks "[" path && lacks "\" path).

(** [cleanGlobPath]. *)
Definition cleanGlobPath (path : string) : string :=
  if String.eqb path "" then "." else if String.eqb path "/" then path
  else substring 0 (String.length path - 1) path.

Section Glob.
Context `{OtherOS}.

(** [filepath.Glob] for the patterns with a star before a literal suffix; errors
    of reading the directory are ignored. *)
Definition os_Glob (os : OS) (pattern : string) : result (list string) :=
  let '(dir, file) := path_Split pattern in
  let dir := cleanGlobPath dir in
  match file with
  | String "*" suffix =>
      if hasMeta dir || hasMeta suffix then other_Glob os pattern
      else if bool_decide (dir ∈ os_dirs os) && is_nil (os_fault os dir)
      then inl (map (path_Join dir) (filter (λ n, HasSuffix n suffix = true) (names_in os dir)))
      else inl []
  | _ => other_Glob os pattern
  end.

Definition os_Open (os : OS) : FS := λ name,
  let p := path_Clean name in
  match os_fault os p with
  | Some e => inr e
  | None =>
      match os_files os !! p with
      | Some content => inl (mkReader content None, None)
      | None => inr (ESentinel fs_ErrNotExist)
      end
  end.

(** [osFS{}]. *)
Definition osFS (os : OS) : BaseFS := mkBaseFS (mkFileSystem (os_Open os) (os_Glob os)) (os_Stat os).

(** [os.Create]: the file is truncated if it exists. *)
Definition os_Create (name : string) : M OS unit :=
  os ← gets (λ os, os);
  let p := path_Clean name in
  match os_fault os p with
  | Some e => fail e
  | None =>
      if bool_decide (p ∈ os_dirs os) then fail (errors_New "is a directory")
      else if bool_decide (path_Dir p ∈ os_dirs os) then modify (set_files (<[p := ""]> (os_files os)))
      else fail (ESentinel fs_ErrNotExist)
  end.

(** Writing all of a file's contents. *)
Definition os_write (name content : string) : M OS unit :=
  modify (λ os, set_files (<[path_Clean name := content]> (os_files os)) os).

(** [os.Rename]: a file at the new path is replaced. *)
Definition os_Rename (oldpath newpath : string) : M OS unit :=
  os ← gets (λ os, os);
  let p := path_Clean oldpath in
  let q := path_Clean newpath in
  match os_fault os p, os_fault os q with
  | Some e, _ => fail e
  | None, Some e => fail e
  | None, None =>
      match os_files os !! p with
      | Some content =>
          if bool_decide (q ∈ os_dirs os) then fail (errors_New "file exists")
          else if bool_decide (path_Dir q ∈ os_dirs os)
          then modify (set_files (<[q := content]> (delete p (os_files os))))
          else fail (ESentinel fs_ErrNotExist)
      | None =>
          if bool_decide (p ∈ os_dirs os) then rename_dir oldpath newpath
          else fail (ESentinel fs_ErrNotExist)
      end
  end.

End Glob.

(** ** Templates *)

Record tmplVars := mkTmplVars { Version : string; CamelName : string }.

(** [template.Execute]: what it writes, and its error. *)
Definition Template : Type := tmplVars → string * option error.

Definition sqlMigrationTemplate : Template := λ _,
  ("-- +goose Up
SELECT 'up SQL query';

-- +goose Down
SELECT 'down SQL query';
", None).

Definition quoted (s : string) : string := String (ch 34) (s +++ String (ch 34) "").

Definition goSQLMigrationTemplate : Template := λ vars,
  let up := "up" +++ CamelName vars in
  let down := "down" +++ CamelName vars in
  ("package migrations

import (
	" +++ quoted "context" +++ "
	" +++ quoted "database/sql" +++ "
	" +++ quoted "github.com/pressly/goose/v3" +++ "
)

func init() {
	goose.AddMigrationContext(" +++ up +++ ", " +++ down +++ ")
}

func " +++ up +++ "(ctx context.Context, tx *sql.Tx) error {
	// This code is executed when the migration is applied.
	return nil
}

func " +++ down +++ "(ctx context.Context, tx *sql.Tx) error {
	// This code is executed when the migration is rolled back.
	return nil
}
", None).

(** ** The commands *)

(** The legacy state, the file system and the global [sequential]. *)
Record OW (D : Type) := mkOW { o_lw : LW D; o_os : OS; o_sequential : bool }.
Arguments mkOW {D} _ _ _.
Arguments o_lw {D} _.
Arguments o_os {D} _.
Arguments o_sequential {D} _.

Section Commands.
Context {D : Type} `{OtherOS, Unicode} (range : registry → list (Z * Migration)).

Definition set_olw (l : LW D) (w : OW D) : OW D := mkOW l (o_os w) (o_sequential w).
Definition set_oos (os : OS) (w : OW D) : OW D := mkOW (o_lw w) os (o_sequential w).
Definition lifto {A} (m : M (LW D) A) : M (OW D) A := zoom o_lw set_olw m.
Definition liftf {A} (m : M OS A) : M (OW D) A := zoom o_os set_oos m.

Definition SetSequential (s : bool) : M (OW D) unit := modify (λ w, mkOW (o_lw w) (o_os w) s).

(** [migrations.versioned()] and [migrations.timestamped()]. *)
Definition versioned (ms : Migrations) : M (LW D) Migrations :=
  vs ← mmap version_of ms; mret (filter (λ vp, is_versioned vp.1 = true) vs).*2.
Definition timestamped (ms : Migrations) : M (LW D) Migrations :=
  vs ← mmap version_of ms; mret (filter (λ vp, is_timestamped vp.1 = true) vs).*2.

(** [collectMigrationsFS(osFS{}, dir, minVersion, maxVersion, registeredGoMigrations)]. *)
Definition collect_os (dir : string) : M (OW D) Migrations :=
  os ← gets o_os; lifto (collectMigrationsFS range (osFS os) dir minVersion maxVersion).

(** The version after that of the last migration, or the first one. *)
Definition next_version (vMigrations : Migrations) : M (OW D) Z :=
  r ← catch (lifto (Migrations_Last vMigrations));
  match r with
  | inl last => m ← lifto (load last); mret (wrap64 (m_Version m + 1))
  | inr _ => mret 1
  end.

(** The loop of [Fix]. *)
Fixpoint rename_loop (tsMigrations : Migrations) (version : Z) : M (OW D) unit :=
  match tsMigrations with
  | [] => mret tt
  | p :: tsMigrations =>
      tsm ← lifto (load p);
      let oldPath := m_Source tsm in
      let newPath := Replace oldPath (FormatInt (m_Version tsm)) (Sprintf_05v version) 1 in
      liftf (os_Rename oldPath newPath);;
      rename_loop tsMigrations (wrap64 (version + 1))
  end.

Definition Fix (dir : string) : M (OW D) unit :=
  migrations ← collect_os dir;
  tsMigrations ← lifto (timestamped migrations);
  vMigrations ← lifto (versioned migrations);
  version ← next_version vMigrations;
  rename_loop tsMigrations version.

(** The version of the new file; [now] is the time of the clock in the format
    of time stamps. *)
Definition choose_version (now dir : string) : M (OW D) string :=
  sequential ← gets o_sequential;
  if sequential : bool then
    r ← catch (collect_os dir);
    migrations ← (match r with
                  | inl migrations => mret migrations
                  | inr err => if errors_Is err ErrNoMigrationFiles then mret [] else fail err
                  end);
    vMigrations ← lifto (versioned migrations);
    v ← next_version vMigrations;
    mret (Sprintf_05v v)
  else mret now.

Definition CreateWithTemplate (now : string) (dir : string) (tmpl : option Template)
    (name migrationType : string) : M (OW D) unit :=
  version ← choose_version now dir;
  let filename := version +++ "_" +++ snakeCase name +++ "." +++ migrationType in
  let tmpl := match tmpl with
              | Some t => t
              | None => if String.eqb migrationType "go" then goSQLMigrationTemplate else sqlMigrationTemplate
              end in
  let path := path_Join dir filename in
  err ← gets (λ w, os_Stat (o_os w) path);
  if negb (os_IsNotExist err) then
    fail (match err with
          | Some err => EErrorf "failed to create migration file: %w" [AWrap err]
          | None => errors_New "failed to create migration file: %!w(<nil>)"
          end)
  else
    wrap_err (λ err, EErrorf "failed to create migration file: %w" [AWrap err]) (liftf (os_Create path));;
    let vars := mkTmplVars version (camelCase name) in
    liftf (os_write path (tmpl vars).1);;
    match (tmpl vars).2 with
    | Some err => fail (EErrorf "failed to execute tmpl: %w" [AWrap err])
    | None => mret tt
    end.

Definition Create (now dir name migrationType : string) : M (OW D) unit :=
  CreateWithTemplate now dir None name migrationType.

End Commands.

(** ** [run] *)

Section Run.
Context {D : Type} `{Driver D, Multierr, OtherOS, Unicode}.
Context (goFn : Z → DBTxConn → M (DB D) unit) (interpolate : string → result string).
Context (range : registry → list (Z * Migration)).
(** The global [baseFS]: [osFS{}] or what [SetBaseFS] has set. *)
Context (baseFS : OS → BaseFS) (querier : Querier) (tableName : string).

Definition database_command (command : string) : option Command :=
  if String.eqb command "up" then Some Cmd_up
  else if String.eqb command "up-by-one" then Some Cmd_up_by_one
  else if String.eqb command "up-to" then Some Cmd_up_to
  else if String.eqb command "down" then Some Cmd_down
  else if String.eqb command "down-to" then Some Cmd_down_to
  else if String.eqb command "redo" then Some Cmd_redo
  else if String.eqb command "reset" then Some Cmd_reset
  else if String.eqb command "status" then Some Cmd_status
  else if String.eqb command "version" then Some Cmd_version
  else None.

Definition run (fuel : nat) (now command dir : string) (args : list string) (options : list OptionsFunc)
  : M (OW D) (option unit) :=
  if String.eqb command "create" then
    match args with
    | [] => fail (errors_New "create must be of form: goose DRIVER DBSTRING [OPTIONS] create NAME [go|sql]")
    | name :: rest =>
        let migrationType := match rest with [t] => t | _ => "go" end in
        Create range now dir name migrationType;; mret (Some tt)
    end
  else if String.eqb command "fix" then Fix range dir;; mret (Some tt)
  else
    match database_command command with
    | Some c =>
        os ← gets o_os;
        lifto (run_command goFn interpolate range (baseFS os) querier tableName fuel c dir args options)
    | None => fail (EErrorf "%q: no such command" [AStr command])
    end.

End Run.
