(* ===== verification/Paths.v ===== *)
(** * Clean paths

    What [path.Join] and [filepath.Split] do with the entries of a directory
    whose path is clean. *)

From S2P Require Import Prelude GoStrings Names Files.

Lemma split_slash_app cur a b : split_slash cur (a +++ "/" +++ b) = split_slash cur a ++ split_slash "" b.
Proof.
  revert cur. induction a as [|c a IH]; intros cur; [done|].
  change (String c a +++ "/" +++ b) with (String c (a +++ "/" +++ b)). cbn [split_slash].
  destruct (Ascii.eqb c "/"); [cbn; by rewrite IH|apply IH].
Qed.

Lemma split_slash_lacks cur n : lacks "/" n = true → split_slash cur n = [cur +++ n].
Proof.
  revert cur. induction n as [|c n IH]; intros cur Hn; [cbn; by rewrite string_app_nil|].
  cbn in Hn. apply andb_prop in Hn as [Hc Hn]. cbn [split_slash].
  destruct (Ascii.eqb c "/"); [done|]. rewrite IH by done. by rewrite append_assoc.
Qed.

Lemma clean_elements_app rooted out l1 l2 :
  clean_elements rooted out (l1 ++ l2) = clean_elements rooted (clean_elements rooted out l1) l2.
Proof. revert out. induction l1 as [|e l1 IH]; intros out; [done|]. cbn. apply IH. Qed.

Lemma clean_elements_name rooted out n : entry_name n = true → clean_elements rooted out [n] = n :: out.
Proof.
  unfold entry_name. intros [_ Hn]%andb_prop. cbn.
  destruct (String.eqb n ""), (String.eqb n "."), (String.eqb n ".."); cbn in *; done.
Qed.

Lemma Join_snoc l n sep : Join (l ++ [n]) sep = match l with [] => n | _ => Join l sep +++ sep +++ n end.
Proof.
  induction l as [|x l IH]; [done|]. cbn [app Join]. rewrite IH.
  destruct l as [|y l]; [done|]. cbn [app]. by rewrite !append_assoc.
Qed.

Lemma string_app_eq_nil a b : a +++ b = "" ↔ a = "" ∧ b = "".
Proof. split; [|by intros [-> ->]]. destruct a; [done|]. done. Qed.

Section CleanDir.
Context (dir : string).

Abbreviation rooted := (HasPrefix dir "/").
Abbreviation elements_of := (clean_elements rooted [] (split_slash "" dir)).

Lemma path_Clean_entry n : dir ≠ "" → entry_name n = true →
  path_Clean (dir +++ "/" +++ n) = (if rooted then "/" else "") +++ Join (reverse elements_of ++ [n]) "/".
Proof.
  intros Hdir Hn. assert (n ≠ "") as Hne.
  { intros ->. done. }
  unfold path_Clean. assert (HasPrefix (dir +++ "/" +++ n) "/" = rooted) as ->.
  { destruct dir; [done|]. cbn. by rewrite !HasPrefix_empty. }
  assert (lacks "/" n = true) as Hl by (unfold entry_name in Hn; by apply andb_prop in Hn as [? _]).
  rewrite split_slash_app, (split_slash_lacks "" n), clean_elements_app by done.
  change (String.append "" n) with n. rewrite clean_elements_name by done.
  rewrite reverse_cons. generalize (reverse elements_of). intros els. destruct rooted; [done|].
  destruct (String.eqb_spec (Join (els ++ [n]) "/") ""); [|done].
  rewrite Join_snoc in e. destruct els; [done|].
  apply string_app_eq_nil in e as [_ e]. by apply string_app_eq_nil in e as [_ e].
Qed.

Lemma elements_ne : path_Clean dir = dir → dir ≠ "." → dir ≠ "/" → reverse elements_of ≠ [].
Proof.
  unfold path_Clean. intros Hc Hdot Hroot Hel. rewrite Hel in Hc. cbn in Hc. destruct (HasPrefix dir "/"); cbn in Hc; congruence.
Qed.

(** The directory is a clean path. *)
Context (Hclean : path_Clean dir = dir).

Lemma dir_ne : dir ≠ "".
Proof. intros Heq. rewrite Heq in Hclean. done. Qed.

Lemma path_Clean_prefix n : entry_name n = true → path_Clean (dir_prefix dir +++ n) = dir_prefix dir +++ n.
Proof.
  intros Hn. pose proof dir_ne as Hne. unfold dir_prefix.
  assert (lacks "/" n = true ∧ n ≠ "") as [Hl Hnn].
  { split; [|by intros ->]. unfold entry_name in Hn. by apply andb_prop in Hn as [? _]. }
  destruct (String.eqb_spec dir ".") as [->|Hdot].
  { unfold path_Clean. assert (HasPrefix ("" +++ n) "/" = false) as ->.
    { destruct n; [done|]. cbn in *. destruct (Ascii.eqb "/" a) eqn:Ha; [|done].
      apply Ascii.eqb_eq in Ha. subst. done. }
    change ("" +++ n) with n.
    rewrite split_slash_lacks by done. change ("" +++ n) with n. rewrite clean_elements_name by done. cbn.
    by rewrite (proj2 (String.eqb_neq n "") Hnn). }
  destruct (String.eqb_spec dir "/") as [->|Hroot].
  { unfold path_Clean. change (HasPrefix ("/" +++ n) "/") with (HasPrefix n ""). rewrite HasPrefix_empty.
    change ("/" +++ n) with ("" +++ "/" +++ n) at 1. rewrite split_slash_app, (split_slash_lacks "" n) by done.
    change ("" +++ n) with n. rewrite clean_elements_app.
    change (clean_elements true [] (split_slash "" "")) with (@nil string).
    by rewrite clean_elements_name. }
  rewrite append_assoc, path_Clean_entry by done. rewrite Join_snoc.
  pose proof (elements_ne Hclean Hdot Hroot) as Hel. destruct (reverse elements_of) as [|x l] eqn:Hr; [done|].
  rewrite <- !append_assoc. do 2 f_equal. pose proof Hclean as Hc. unfold path_Clean in Hc. rewrite Hr in Hc.
  destruct (HasPrefix dir "/"); [done|]. destruct (String.eqb (Join (x :: l) "/") ""); [|done]. congruence.
Qed.

Lemma path_Join_prefix n : entry_name n = true → path_Join dir n = dir_prefix dir +++ n.
Proof.
  intros Hn. pose proof dir_ne as Hne. unfold path_Join. rewrite (proj2 (String.eqb_neq dir "") Hne).
  pose proof (path_Clean_prefix n Hn) as Hp. revert Hp. unfold dir_prefix.
  destruct (String.eqb_spec dir ".") as [Hd|Hdot]; [intros _; by rewrite path_Clean_entry, Hd by done|].
  destruct (String.eqb_spec dir "/") as [Hd|Hroot]; [intros _; by rewrite path_Clean_entry, Hd by done|].
  by rewrite append_assoc.
Qed.

Lemma path_Split_entry p n : lacks "/" n = true → path_Split (p +++ "/" +++ n) = (p +++ "/", n).
Proof.
  intros Hn. assert (path_Split n = ("", n)) as Hs.
  { clear p. induction n as [|c n IH]; [done|]. cbn in Hn. apply andb_prop in Hn as [Hc Hn].
    cbn [path_Split]. rewrite IH by done. by destruct (Ascii.eqb c "/"). }
  induction p as [|c p IH]; [cbn; by rewrite Hs|].
  change (String c p +++ "/" +++ n) with (String c (p +++ "/" +++ n)). cbn [path_Split]. rewrite IH.
  by destruct p.
Qed.

Lemma path_Split_prefix n : entry_name n = true → path_Split (dir_prefix dir +++ n) = (dir_prefix dir, n).
Proof.
  unfold entry_name, dir_prefix. intros [Hn _]%andb_prop.
  destruct (String.eqb dir "."); [|destruct (String.eqb dir "/")].
  - change ("" +++ n) with n. clear -Hn. induction n as [|c n IH]; [done|]. cbn in Hn. apply andb_prop in Hn as [Hc Hn].
    cbn [path_Split]. rewrite IH by done. by destruct (Ascii.eqb c "/").
  - by apply (path_Split_entry "").
  - rewrite append_assoc. by apply path_Split_entry.
Qed.

Lemma path_Clean_slash : path_Clean (dir_prefix dir) = dir.
Proof.
  unfold dir_prefix. destruct (String.eqb_spec dir ".") as [->|]; [done|].
  destruct (String.eqb_spec dir "/") as [->|]; [done|].
  rewrite <- Hclean at 2. unfold path_Clean.
  replace (HasPrefix (dir +++ "/") "/") with (HasPrefix dir "/").
  2: { pose proof dir_ne. destruct dir; [done|]. cbn. by rewrite !HasPrefix_empty. }
  assert (split_slash "" (dir +++ "/") = split_slash "" dir ++ [""]) as -> by apply (split_slash_app "" dir "").
  by rewrite clean_elements_app.
Qed.

Lemma path_Dir_prefix n : entry_name n = true → path_Dir (dir_prefix dir +++ n) = dir.
Proof. intros Hn. unfold path_Dir. rewrite path_Split_prefix by done. apply path_Clean_slash. Qed.

Lemma cleanGlobPath_prefix : cleanGlobPath (dir_prefix dir) = dir.
Proof.
  unfold dir_prefix, cleanGlobPath. destruct (String.eqb_spec dir ".") as [->|]; [done|].
  destruct (String.eqb_spec dir "/") as [->|]; [done|]. pose proof dir_ne as Hne.
  assert (∀ s, substring 0 (String.length (s +++ "/") - 1) (s +++ "/") = s) as Hs.
  { intros s. replace (String.length (s +++ "/") - 1)%nat with (String.length s).
    2: { assert (String.length (s +++ "/") = S (String.length s)) as ->; [|lia].
         induction s as [|c s IH]; [done|]. cbn. by f_equal. }
    induction s as [|c s IH]; [done|]. cbn. by rewrite IH. }
  rewrite Hs, !(proj2 (String.eqb_neq _ _)); [done| |]; destruct dir as [|c s]; try done; by destruct s.
Qed.

Lemma strip_prefix_app p n : strip_prefix p (p +++ n) = Some n.
Proof. induction p as [|c p IH]; [done|]. cbn. by rewrite Ascii.eqb_refl. Qed.

Lemma strip_prefix_Some p s n : strip_prefix p s = Some n → s = p +++ n.
Proof.
  revert s. induction p as [|c p IH]; intros s; [by intros [= ->]|].
  destruct s as [|d s]; [done|]. cbn. destruct (Ascii.eqb c d) eqn:Hc; [|done].
  apply Ascii.eqb_eq in Hc as ->. intros Hs%IH. by rewrite Hs.
Qed.

Lemma string_app_inj p a b : p +++ a = p +++ b → a = b.
Proof. induction p as [|c p IH]; [done|]. cbn. intros [= Heq]. by apply IH. Qed.

End CleanDir.
