(* ===== verification/Directory.v ===== *)
(** * The migrations of a directory

    What [collectMigrationsFS] collects on the operating system's files when no
    Go migration is registered, as in the goose command itself: the files of
    the directory with a version in their name, sorted by it. *)

From S2P Require Import Prelude GoStrings Effects SqlParser Sql Dialects Store Migration Options.
From S2P Require Import Collect LegacyStore Legacy LegacyRun LegacyCollect Names Files Paths.

Section Directory.
Context `{OtherOS} (dir : string) (Hclean : path_Clean dir = dir) (Hmeta : hasMeta dir = false).

(** ** Globbing *)

Definition in_os (q : string) (os : OS) : Prop := q ∈ dom (os_files os) ∪ os_dirs os.
Definition readable (os : OS) : bool := bool_decide (dir ∈ os_dirs os) && is_nil (os_fault os dir).

(** The paths in the directory with a suffix. *)
Definition dir_entries (os : OS) (ext : string) : list string :=
  if readable os
  then map (λ n, dir_prefix dir +++ n) (filter (λ n, HasSuffix n ext = true) (names_in os dir)) else [].

Lemma elem_of_names os n : n ∈ names_in os dir ↔ entry_name n = true ∧ in_os (dir_prefix dir +++ n) os.
Proof.
  unfold names_in, in_os. rewrite merge_sort_Permutation, list_elem_of_omap. split.
  - intros (p & Hp & Hs). destruct (strip_prefix (dir_prefix dir) p) as [n'|] eqn:Hn'; [|done].
    destruct (entry_name n') eqn:He; [|done]. injection Hs as ->. split; [done|].
    apply strip_prefix_Some in Hn' as ->. by apply elem_of_elements.
  - intros [He Hp]. exists (dir_prefix dir +++ n). split; [by apply elem_of_elements|].
    by rewrite strip_prefix_app, He.
Qed.

Lemma elem_of_entries os ext q : q ∈ dir_entries os ext ↔
  readable os = true ∧ ∃ n, q = dir_prefix dir +++ n ∧ entry_name n = true ∧ HasSuffix n ext = true ∧ in_os q os.
Proof.
  unfold dir_entries. destruct (readable os); [|split; [by intros ?%elem_of_nil|by intros [? _]]].
  rewrite list_elem_of_In, in_map_iff. setoid_rewrite <- list_elem_of_In. setoid_rewrite list_elem_of_filter.
  setoid_rewrite elem_of_names. naive_solver.
Qed.

Lemma Glob_entries os ext : ext = ".sql" ∨ ext = ".go" →
  os_Glob os (path_Join dir (String "*" ext)) = inl (dir_entries os ext).
Proof.
  intros He. assert (entry_name (String "*" ext) = true) as Hn by by destruct He as [-> | ->].
  unfold os_Glob. rewrite path_Join_prefix, path_Split_prefix, cleanGlobPath_prefix, Hmeta by done.
  replace (hasMeta ext) with false by by destruct He as [-> | ->]. cbn [orb].
  unfold dir_entries, readable. destruct (_ && _); [|done]. f_equal. apply map_ext_in.
  intros n Hin. apply list_elem_of_In, list_elem_of_filter in Hin as [_ Hin].
  apply elem_of_names in Hin as [Hn' _]. by apply path_Join_prefix.
Qed.

(** ** The migrations *)

Definition numbered (q : string) : option (Z * string) :=
  match NumericComponent q with inl v => Some (v, q) | inr _ => None end.

Definition sql_files (os : OS) : list (Z * string) := omap numbered (dir_entries os ".sql").
Definition go_files (os : OS) : list (Z * string) :=
  omap numbered (filter (λ q, HasSuffix q "_test.go" = false) (dir_entries os ".go")).

(** The migrations in the directory, with their versions. *)
Definition migration_files (os : OS) : list (Z * string) := sql_files os ++ go_files os.

(** The name of a file that can be a migration. *)
Definition source_name (n : string) : Prop :=
  HasSuffix n ".sql" = true ∨ HasSuffix n ".go" = true ∧ HasSuffix (dir_prefix dir +++ n) "_test.go" = false.

Lemma elem_of_numbered (vq : Z * string) (l : list string) : vq ∈ omap numbered l ↔ NumericComponent vq.2 = inl vq.1 ∧ vq.2 ∈ l.
Proof.
  rewrite list_elem_of_omap. unfold numbered. split.
  - intros (q & Hq & Hv). destruct (NumericComponent q) eqn:Hn; [|done]. injection Hv as <-. done.
  - intros [Hv Hin]. exists vq.2. split; [done|]. rewrite Hv. by destruct vq.
Qed.

Lemma elem_of_migration_files os v q : (v, q) ∈ migration_files os ↔
  readable os = true ∧ NumericComponent q = inl v ∧ in_os q os ∧
  ∃ n, q = dir_prefix dir +++ n ∧ entry_name n = true ∧ source_name n.
Proof.
  unfold migration_files, sql_files, go_files, source_name.
  rewrite elem_of_app, !elem_of_numbered, list_elem_of_filter, !elem_of_entries. cbn [fst snd]. naive_solver.
Qed.

(** ** Collecting *)

Section Collecting.
Context {D : Type} (range : registry → list (Z * Migration)) (Hrange : range_ok range).

(** Version and file of the migration a pointer points to. *)
Definition file_at (w : LW D) (p : ptr) : Z * string :=
  match heap_lookup p w with Some m => (m_Version m, m_Source m) | None => (0, "") end.

Definition valid (w : LW D) (ps : Migrations) : Prop := Forall (λ p, is_Some (heap_lookup p w)) ps.
Definition files_at (w : LW D) (ps : Migrations) : list (Z * string) := map (file_at w) ps.

Lemma valid_extends w w' ps : extends w w' → valid w ps → valid w' ps ∧ files_at w' ps = files_at w ps.
Proof.
  intros (_ & _ & Hh) Hv. induction Hv as [|p ps [m Hm] _ [IH1 IH2]]; [by split; [constructor|]|].
  destruct (Hh p m Hm) as (m' & Hm' & Hl). split; [by constructor; [eexists|]|].
  cbn. f_equal; [|exact IH2]. unfold file_at. rewrite Hm, Hm'.
  destruct Hl as [->|(a & b & ->)]; [done|]. by destruct m.
Qed.

(** Collecting has added migrations that point to these files. *)
Definition added (w w' : LW D) (ps : Migrations) (vs : list (Z * string)) : Prop :=
  extends w w' ∧ l_reg w' = l_reg w ∧ valid w' ps ∧ files_at w' ps = vs.

Lemma added_nil w : added w w [] [].
Proof. split_and!; [apply extends_refl|done|constructor|done]. Qed.

Lemma added_app w w1 w2 ps1 ps2 vs1 vs2 :
  added w w1 ps1 vs1 → added w1 w2 ps2 vs2 → added w w2 (ps1 ++ ps2) (vs1 ++ vs2).
Proof.
  intros (Hex1 & Hr1 & Hv1 & Hf1) (Hex2 & Hr2 & Hv2 & Hf2).
  destruct (valid_extends _ _ _ Hex2 Hv1) as [Hv Hf].
  split_and!; [by eapply extends_trans|congruence|by apply Forall_app|].
  unfold files_at in *. rewrite map_app. by rewrite Hf, Hf1, Hf2.
Qed.

Lemma added_alloc v q w : ∃ p w', alloc (file_migration v q) w = (Ok p, w') ∧ added w w' [p] [(v, q)].
Proof.
  destruct (alloc_run (file_migration v q) w) as (w' & Ha & Hex & Hr & Hl). do 2 eexists. split; [exact Ha|].
  split_and!; [done|done|by constructor; [eexists|constructor]|]. unfold files_at, file_at. cbn [map]. by rewrite Hl.
Qed.

Lemma all_versions q v : NumericComponent q = inl v → versionFilter v minVersion maxVersion = true.
Proof.
  intros Hv. apply NumericComponent_bounds in Hv as [[H1 H2] _]. unfold versionFilter, minVersion, maxVersion in *.
  change (maxInt64 >? 0) with true. cbn [orb andb]. apply andb_true_intro. split; lia.
Qed.

Lemma collect_sql_added files w :
  match collect_sql_files files minVersion maxVersion w with
  | (Ok ps, w') => added w w' ps (omap numbered files)
  | (Err _, _) => True
  | _ => False
  end.
Proof.
  revert w. induction files as [|q files IH]; intros w; [apply added_nil|]. cbn [collect_sql_files omap list_omap].
  rewrite bind_eq. unfold wrap_err, of_result. unfold numbered at 1.
  destruct (NumericComponent q) as [v|e] eqn:Hv; [|done]. rewrite bind_eq, (all_versions q v Hv), bind_eq.
  destruct (added_alloc v q w) as (p & w1 & -> & Ha). cbn [mret M_ret]. rewrite bind_eq.
  specialize (IH w1). destruct (collect_sql_files files _ _ w1) as [[ps|e|s|] w2]; try done. cbn [mret M_ret].
  by apply (added_app w w1 w2 [p] ps [(v, q)]).
Qed.

Lemma go_sources_added sources w : l_reg w = ∅ →
  match mmap go_source_migration sources w with
  | (Ok ps, w') => added w w' ps (map (λ s, (s.2, s.1)) sources)
  | _ => False
  end.
Proof.
  revert w. induction sources as [|[q v] sources IH]; intros w Hreg; [apply added_nil|]. cbn [mmap map fst snd].
  rewrite bind_eq. unfold go_source_migration at 1. rewrite bind_eq. unfold gets. cbn [fst snd].
  rewrite Hreg, lookup_empty. destruct (added_alloc v q w) as (p & w1 & -> & Ha). rewrite bind_eq.
  assert (l_reg w1 = ∅) as Hreg1 by (destruct Ha as (_ & -> & _); done).
  specialize (IH w1 Hreg1). destruct (mmap go_source_migration sources w1) as [[ps|e|s|] w2]; try done.
  by apply (added_app w w1 w2 [p] ps [(v, q)]).
Qed.

Lemma go_file_sources_numbered files :
  map (λ s, (s.2, s.1)) (go_file_sources files minVersion maxVersion)
  = omap numbered (filter (λ q, HasSuffix q "_test.go" = false) files).
Proof.
  unfold go_file_sources. induction files as [|q files IH]; [done|]. cbn [omap list_omap].
  unfold numbered in *. destruct (NumericComponent q) as [v|e] eqn:Hv.
  - destruct (HasSuffix q "_test.go") eqn:Ht.
    + by rewrite filter_cons_False by congruence.
    + rewrite filter_cons_True by done. cbn [omap list_omap]. rewrite Hv, (all_versions q v Hv). cbn [map]. by f_equal.
  - destruct (decide (HasSuffix q "_test.go" = false)) as [Ht|Ht].
    + rewrite filter_cons_True by done. cbn [omap list_omap]. by rewrite Hv.
    + by rewrite filter_cons_False.
Qed.

Lemma registered_in_range_nil (w : LW D) : registered_in_range (range (∅ : registry)) minVersion maxVersion w = (Ok [], w).
Proof.
  destruct (range ∅) as [|[k m] l] eqn:Hr; [done|].
  assert ((∅ : registry) !! k = Some m) as Hin by (apply (range_lookup range Hrange); rewrite Hr; by left). done.
Qed.

Lemma mfor_range_nil (f : Z * Migration → M (LW D) unit) w : mfor f (range ∅) w = (Ok tt, w).
Proof.
  destruct (range ∅) as [|[k m] l] eqn:Hr; [done|].
  assert ((∅ : registry) !! k = Some m) as Hin by (apply (range_lookup range Hrange); rewrite Hr; by left). done.
Qed.

Lemma collect_go_added os w : l_reg w = ∅ →
  match collectGoMigrations range (osFS os) dir minVersion maxVersion w with
  | (Ok ps, w') => added w w' ps (go_files os)
  | _ => False
  end.
Proof.
  intros Hreg. unfold collectGoMigrations. rewrite bind_eq. unfold gets. rewrite Hreg, bind_eq, mfor_range_nil, bind_eq.
  cbn [osFS b_fs fs_Glob]. rewrite (Glob_entries os ".go") by by right. unfold of_result, go_files.
  rewrite <- go_file_sources_numbered. destruct (dir_entries os ".go") as [|q l] eqn:He; [apply added_nil|].
  cbn [length Nat.eqb andb]. destruct (go_file_sources (q :: l) _ _) as [|s sources].
  - rewrite registered_in_range_nil. apply added_nil.
  - pose proof (go_sources_added (s :: sources) w Hreg) as Hg. by destruct (mmap _ _ w) as [[] ?].
Qed.

(** The migrations by version. *)
Definition by_version (vs : list (Z * string)) : Prop := StronglySorted Z.lt vs.*1.

Definition with_versions (w : LW D) (ps : Migrations) : list (Z * ptr) := map (λ p, ((file_at w p).1, p)) ps.

Lemma versions_valid ps w : valid w ps → mmap version_of ps w = (Ok (with_versions w ps), w).
Proof.
  induction 1 as [|p ps [m Hm] _ IH]; [done|]. cbn [mmap]. rewrite bind_eq. unfold version_of at 1.
  rewrite bind_eq. unfold load. rewrite Hm. cbn [mret M_ret]. rewrite bind_eq, IH. cbn.
  unfold file_at. by rewrite Hm.
Qed.

Lemma with_versions_snd w ps : (with_versions w ps).*2 = ps.
Proof. induction ps as [|p ps IH]; [done|]. cbn. by f_equal. Qed.

Lemma with_versions_fst w ps vps : vps ⊆ with_versions w ps → vps.*1 = (files_at w vps.*2).*1.
Proof.
  intros Hin. induction vps as [|[v p] vps IH]; [done|]. cbn. f_equal; [|apply IH; set_solver].
  assert ((v, p) ∈ with_versions w ps) as Hvp by (apply Hin; by left).
  apply list_elem_of_In, in_map_iff in Hvp as (p' & [= <- <-] & _). done.
Qed.

Lemma sort_added ps w : valid w ps →
  match sortAndConnectMigrations ps w with
  | (Ok ps', w') => ∃ vs, (extends w w' ∧ valid w' ps' ∧ files_at w' ps' = vs) ∧
      by_version vs ∧ vs ≡ₚ files_at w ps
  | (Panic _, _) => True
  | _ => False
  end.
Proof.
  intros Hv. unfold sortAndConnectMigrations. rewrite bind_eq, versions_valid by done.
  destruct (bool_decide_reflect (NoDup (with_versions w ps).*1)) as [Hnd|]; [|done]. rewrite bind_eq.
  set (vps := merge_sort pair_le (with_versions w ps)).
  assert (vps ≡ₚ with_versions w ps) as Hperm by apply merge_sort_Permutation.
  destruct (connect_run None vps w) as (w' & -> & Hex). cbn [mret M_ret].
  assert (vps.*2 ≡ₚ ps) as Hps by (rewrite Hperm, with_versions_snd; done).
  assert (valid w vps.*2) as Hv2 by (unfold valid; by rewrite Hps).
  destruct (valid_extends _ _ _ Hex Hv2) as [Hv' Hf]. exists (files_at w vps.*2). split_and!; try done.
  - unfold by_version. rewrite <- (with_versions_fst w ps) by (intros x; by rewrite Hperm).
    apply sorted_strict; [by rewrite Hperm|]. apply fst_sorted, (StronglySorted_merge_sort _).
  - unfold files_at. by apply Permutation_map.
Qed.

Lemma collect_added os w : l_reg w = ∅ →
  match collectMigrationsFS range (osFS os) dir minVersion maxVersion w with
  | (Ok ps, w') => ∃ vs, (extends w w' ∧ valid w' ps ∧ files_at w' ps = vs) ∧
      by_version vs ∧ vs ≡ₚ migration_files os
  | (Block, _) => False
  | _ => True
  end.
Proof.
  intros Hreg. unfold collectMigrationsFS. destruct (b_Stat (osFS os) dir) as [e|].
  { by destruct (errors_Is e fs_ErrNotExist). }
  rewrite bind_eq. cbn [osFS b_fs fs_Glob]. rewrite (Glob_entries os ".sql") by by left.
  unfold of_result. rewrite bind_eq. pose proof (collect_sql_added (dir_entries os ".sql") w) as Hs.
  destruct (collect_sql_files _ _ _ w) as [[ps1|e|s|] w1]; try done. rewrite bind_eq.
  assert (l_reg w1 = ∅) as Hreg1 by (destruct Hs as (_ & -> & _); done).
  pose proof (collect_go_added os w1 Hreg1) as Hg.
  destruct (collectGoMigrations _ _ _ _ _ w1) as [[ps2|e|s|] w2]; try done.
  destruct (added_app _ _ _ _ _ _ _ Hs Hg) as (Hex & _ & Hv & Hf).
  destruct (Nat.eqb (length (ps1 ++ ps2)) 0); [done|]. pose proof (sort_added _ w2 Hv) as Hsort.
  destruct (sortAndConnectMigrations _ w2) as [[ps|e|s|] w3]; try done.
  destruct Hsort as (vs & (Hex2 & Hv2 & Hf2) & Hbv & Hp). exists vs. split_and!; try done.
  - by eapply extends_trans.
  - by rewrite Hp, Hf.
Qed.

Lemma NumericComponent_error q e : NumericComponent q = inr e → errors_Is e ErrNoMigrationFiles = false.
Proof.
  unfold NumericComponent. destruct (negb _ && negb _); [by intros [= <-]|].
  destruct (Cut _ _) as [[before after] ok]. destruct (negb ok); [by intros [= <-]|].
  destruct (ParseInt before) as [n|e'] eqn:Hp; [by destruct (n <? 1); intros [= <-]|]. intros [= <-].
  unfold ParseInt, rbind in Hp. destruct before as [|c s]; [by injection Hp as <-|].
  cbn zeta in Hp. destruct (if (Ascii.eqb c "-" || Ascii.eqb c "+") then s else String c s) as [|d body];
    [by injection Hp as <-|].
  assert (∀ s n e, parse_digits n s = inr e → e = ESentinel ErrSyntax ∨ e = ESentinel ErrRange) as Hpd.
  { clear. induction s as [|c s IH]; intros n e; cbn; [done|]. destruct (digit_of c); [|intros [= <-]; by left].
    destruct (_ >=? _); [intros [= <-]; by right|]. destruct (_ >? _); [intros [= <-]; by right|]. apply IH. }
  destruct (parse_digits 0 (String d body)) as [un|e''] eqn:Hd.
  - destruct (_ && _); [by injection Hp as <-|]. destruct (_ && _); [by injection Hp as <-|done].
  - injection Hp as <-. by destruct (Hpd _ _ _ Hd) as [-> | ->].
Qed.

(** The error that there are no migrations is only returned when there are none. *)
Lemma collect_sql_error files (w : LW D) e w' : collect_sql_files files minVersion maxVersion w = (Err e, w') →
  errors_Is e ErrNoMigrationFiles = false.
Proof.
  revert w. induction files as [|q files IH]; intros w; [done|]. cbn [collect_sql_files].
  rewrite bind_eq. unfold wrap_err, of_result. destruct (NumericComponent q) as [v|e0] eqn:Hv.
  - rewrite bind_eq. destruct (versionFilter _ _ _).
    + rewrite bind_eq. unfold alloc. cbn [mret M_ret]. rewrite bind_eq.
      destruct (collect_sql_files files _ _ _) as [[ps|e1|s|] w2] eqn:Hc; try done. intros [= <- <-]. by eapply IH.
    + cbn [mret M_ret]. rewrite bind_eq.
      destruct (collect_sql_files files _ _ w) as [[ps|e1|s|] w2] eqn:Hc; try done. intros [= <- <-]. by eapply IH.
  - intros [= <- <-]. apply NumericComponent_error in Hv. cbn. by rewrite Hv.
Qed.

Lemma collect_none os (w : LW D) e w' : l_reg w = ∅ →
  collectMigrationsFS range (osFS os) dir minVersion maxVersion w = (Err e, w') →
  errors_Is e ErrNoMigrationFiles = true → migration_files os = [].
Proof.
  intros Hreg. unfold collectMigrationsFS. cbn [osFS b_Stat]. destruct (os_Stat os dir) as [e0|] eqn:Hs.
  { destruct (errors_Is e0 fs_ErrNotExist) eqn:Hne; [by intros [= <- <-]|]. intros [= <- <-] _.
    unfold os_Stat in Hs. rewrite Hclean in Hs.
    assert (readable os = false) as Hr.
    { unfold readable. destruct (os_fault os dir); [by rewrite andb_false_r|].
      destruct (bool_decide _); [done|]. by injection Hs as <-. }
    unfold migration_files, sql_files, go_files, dir_entries. by rewrite Hr. }
  rewrite bind_eq. cbn [osFS b_fs fs_Glob]. rewrite (Glob_entries os ".sql") by by left.
  unfold of_result. rewrite bind_eq. pose proof (collect_sql_added (dir_entries os ".sql") w) as Hs1.
  destruct (collect_sql_files _ _ _ w) as [[ps1|e1|s|] w1] eqn:Hsql; try done.
  2: { intros [= <- <-]. by rewrite (collect_sql_error _ _ _ _ Hsql). }
  rewrite bind_eq. assert (l_reg w1 = ∅) as Hreg1 by (destruct Hs1 as (_ & -> & _); done).
  pose proof (collect_go_added os w1 Hreg1) as Hg.
  destruct (collectGoMigrations _ _ _ _ _ w1) as [[ps2|e1|s|] w2]; try done.
  destruct (added_app _ _ _ _ _ _ _ Hs1 Hg) as (_ & _ & Hv & Hf).
  destruct (Nat.eqb_spec (length (ps1 ++ ps2)) 0) as [Hl|Hl].
  { intros _ _. apply nil_length_inv in Hl. rewrite Hl in Hf. by unfold migration_files. }
  pose proof (sort_added _ w2 Hv) as Hsort. by destruct (sortAndConnectMigrations _ w2) as [[] w3].
Qed.

End Collecting.
End Directory.
