(* ===== verification/FilesSpec.v ===== *)
(** * What the commands on files do

    [Fix] renumbers the time-stamped migrations after the others, in their
    order, and loses no file; [Create] makes a new file, changes no other, and
    in sequential mode gives it the next number. *)

From S2P Require Import Prelude GoStrings Effects SqlParser Sql Dialects Store Migration Options.
From S2P Require Import Collect LegacyStore Legacy LegacyRun LegacyCollect Names Files Paths Directory.

(** ** Strings *)

Lemma HasSuffix_iff s p : HasSuffix s p = true ↔ ∃ a, s = a +++ p.
Proof.
  induction s as [|c s IH]; cbn [HasSuffix]; rewrite orb_true_iff.
  - split; [intros [->%String.eqb_eq|]; [by exists ""|done]|].
    intros [a Ha]. symmetry in Ha. apply string_app_eq_nil in Ha as [-> ->]. by left.
  - rewrite IH. split.
    + intros [->%String.eqb_eq|[a ->]]; [by exists ""|by exists (String c a)].
    + intros [[|d a] Ha]; [left; rewrite Ha; apply String.eqb_refl|]. injection Ha as -> Ha. right. by exists a.
Qed.

(** What follows the last underscore decides about these suffixes. *)
Lemma HasSuffix_after a rest p : lacks "_" p = true →
  HasSuffix (a +++ "_" +++ rest) p = HasSuffix rest p.
Proof.
  intros Hp. induction a as [|c a IH].
  - change ("" +++ "_" +++ rest) with (String "_" rest). cbn [HasSuffix].
    destruct (String.eqb_spec (String "_" rest) p) as [<-|]; [|done].
    by rewrite lacks_String, Ascii.eqb_refl in Hp.
  - change (String c a +++ "_" +++ rest) with (String c (a +++ "_" +++ rest)). cbn [HasSuffix]. rewrite IH.
    destruct (String.eqb_spec (String c (a +++ "_" +++ rest)) p) as [<-|]; [|done].
    rewrite lacks_String, lacks_app in Hp. cbn in Hp. by rewrite !andb_false_r in Hp.
Qed.

Lemma HasSuffix_from a rest p : lacks "_" p = true →
  HasSuffix (a +++ "_" +++ rest) ("_" +++ p) = HasSuffix ("_" +++ rest) ("_" +++ p).
Proof.
  intros Hp. induction a as [|c a IH]; [done|].
  change (String c a +++ "_" +++ rest) with (String c (a +++ "_" +++ rest)).
  change (HasSuffix (String c (a +++ "_" +++ rest)) ("_" +++ p)) with
    (String.eqb (String c (a +++ "_" +++ rest)) ("_" +++ p) || HasSuffix (a +++ "_" +++ rest) ("_" +++ p)).
  rewrite IH. destruct (String.eqb_spec (String c (a +++ "_" +++ rest)) ("_" +++ p)) as [Heq|]; [|done].
  injection Heq as _ <-. rewrite lacks_app in Hp. cbn in Hp. by rewrite andb_false_r in Hp.
Qed.

Lemma HasPrefix_slash x y old : lacks "/" old = true → HasPrefix (x +++ "/" +++ y) old = HasPrefix (x +++ "/") old.
Proof.
  revert x. induction old as [|c old IH]; intros x; [by rewrite !HasPrefix_empty|].
  rewrite lacks_String. intros [Hc Ho]%andb_prop. destruct x as [|d x]; cbn.
  - rewrite Ascii.eqb_sym in Hc. by destruct (Ascii.eqb c "/").
  - f_equal. by apply IH.
Qed.

Lemma replace_from_done old new s : replace_from old new (Some 0%nat) 0 s = s.
Proof. induction s as [|c s IH]; [done|]. cbn. by rewrite IH. Qed.

Lemma replace_from_skip old new n o b : replace_from old new n (String.length o) (o +++ b) = replace_from old new n 0 b.
Proof. induction o as [|c o IH]; [done|]. cbn. exact IH. Qed.

Lemma HasPrefix_app o b : HasPrefix (o +++ b) o = true.
Proof. induction o as [|c o IH]; [apply HasPrefix_empty|]. cbn. by rewrite Ascii.eqb_refl. Qed.

Lemma Replace_after a old new b :
  lacks "/" old = true → old ≠ "" → a = "" ∨ (∃ x, a = x +++ "/") → Contains a old = false →
  Replace (a +++ old +++ b) old new 1 = a +++ new +++ b.
Proof.
  intros Hl Hne. unfold Replace. induction a as [|c a IH]; intros Ha Hc.
  - destruct old as [|c o]; [done|]. change ("" +++ String c o +++ b) with (String c (o +++ b)). cbn [replace_from].
    replace (HasPrefix (String c (o +++ b)) (String c o)) with true
      by (symmetry; exact (HasPrefix_app (String c o) b)).
    cbn [bool_decide andb String.length Nat.pred fmap option_fmap option_map]. 
    rewrite replace_from_skip, replace_from_done. done.
  - destruct Ha as [|[x Hx]]; [done|]. cbn [Contains] in Hc. apply orb_false_elim in Hc as [Hc1 Hc2].
    change (String c a +++ old +++ b) with (String c (a +++ old +++ b)). cbn [replace_from].
    replace (HasPrefix (String c (a +++ old +++ b)) old) with false.
    + rewrite andb_false_r. cbn. f_equal. apply IH; [|done]. destruct x as [|d x]; injection Hx as -> ->; [by left|].
      right. by exists x.
    + symmetry. rewrite <- Hc1, Hx. change (String c (a +++ old +++ b)) with (String c a +++ old +++ b).
      rewrite Hx, append_assoc. by apply HasPrefix_slash.
Qed.

(** ** Small numbers are not time stamps *)

Lemma format_digits_length fuel k n acc : 0 ≤ n < 10 ^ Z.of_nat (S k) →
  (String.length (format_digits fuel n acc) ≤ S k + String.length acc)%nat.
Proof.
  revert k n acc. induction fuel as [|fuel IH]; intros k n acc Hn; cbn [format_digits]; [lia|].
  destruct (Z.ltb_spec n 10); [cbn; lia|]. destruct k as [|k]; [cbn in Hn; lia|].
  etransitivity; [apply (IH k)|cbn; lia].
  rewrite (Nat2Z.inj_succ (S k)), Z.pow_succ_r in Hn by lia. split; [apply Z.div_pos; lia|].
  apply Z.div_lt_upper_bound; lia.
Qed.

Lemma getnum_length fixed s x s' : getnum fixed s = Some (x, s') →
  (String.length s' + (if fixed then 2 else 1) ≤ String.length s)%nat.
Proof.
  destruct s as [|a [|b s]]; cbn; [done| |].
  - destruct (digit_of a); [|done]. destruct fixed; [done|]. intros [= <- <-]. cbn. lia.
  - destruct (digit_of a); [|done]. destruct (digit_of b).
    + intros [= <- <-]. destruct fixed; lia.
    + destruct fixed; [done|]. intros [= <- <-]. cbn. lia.
Qed.

Lemma time_Parse_length s t : time_Parse s = Some t → (13 ≤ String.length s)%nat.
Proof.
  unfold time_Parse. intros Hp. repeat match type of Hp with
  | (x ← ?o; _) = Some _ =>
      let p := fresh "p" in let Hg := fresh "Hg" in
      apply bind_Some in Hp as (p & Hg & Hp); destruct p; apply getnum_length in Hg
  end. cbn [snd] in *. lia.
Qed.

Lemma small_version v : 0 ≤ v < 10 ^ 12 → is_versioned v = true ∧ is_timestamped v = false.
Proof.
  intros Hv. assert (time_Parse (FormatInt v) = None) as Hp.
  { destruct (time_Parse (FormatInt v)) as [t|] eqn:Ht; [|done]. apply time_Parse_length in Ht.
    unfold FormatInt in Ht. rewrite (proj2 (Z.ltb_ge v 0)) in Ht by lia.
    pose proof (format_digits_length 20 11 v "" Hv) as Hl. cbn [String.length] in Hl. lia. }
  unfold is_versioned, is_timestamped. by rewrite Hp.
Qed.

(** ** Renaming *)

Section FilesSpec.
Context `{OtherOS} (dir : string) (Hclean : path_Clean dir = dir) (Hmeta : hasMeta dir = false).

Abbreviation in_dir n := (dir_prefix dir +++ n).

Lemma rename_one old new (os os' : OS) : os_Rename old new os = (Ok tt, os') →
  path_Clean old = old → path_Clean new = new → old ∈ dom (os_files os) →
  ∃ c, os_files os !! old = Some c ∧ os' = set_files (<[new := c]> (delete old (os_files os))) os.
Proof.
  unfold os_Rename. rewrite bind_eq. unfold gets. intros Hr Ho Hn [c Hc]%elem_of_dom. rewrite Ho, Hn in Hr.
  exists c. split; [done|]. rewrite Hc in Hr. destruct (os_fault os old); [done|].
  destruct (os_fault os new); [done|]. destruct (bool_decide _); [done|]. destruct (bool_decide _); [|done].
  cbn in Hr. by injection Hr as <-.
Qed.

Lemma rename_seq (plan : list (string * string)) (os os' : OS) :
  mfor (λ on, os_Rename on.1 on.2) plan os = (Ok tt, os') →
  Forall (λ on, path_Clean on.1 = on.1 ∧ path_Clean on.2 = on.2) plan →
  NoDup plan.*1 → NoDup plan.*2 →
  (∀ o, o ∈ plan.*1 → o ∈ dom (os_files os)) → (∀ n, n ∈ plan.*2 → n ∉ dom (os_files os)) →
  os_dirs os' = os_dirs os ∧ os_fault os' = os_fault os ∧
  (∀ o n, (o, n) ∈ plan → os_files os' !! n = os_files os !! o) ∧
  (∀ q, q ∈ plan.*1 → os_files os' !! q = None) ∧
  (∀ q, q ∉ plan.*1 → q ∉ plan.*2 → os_files os' !! q = os_files os !! q).
Proof.
  revert os. induction plan as [|[o n] plan IH]; intros os Hr Hcl Hnd1 Hnd2 Hold Hnew.
  { injection Hr as <-. split_and!; try done; by intros; exfalso; eapply not_elem_of_nil. }
  cbn [mfor fst snd] in Hr. rewrite bind_eq in Hr.
  destruct (os_Rename o n os) as [[[]|e|s|] os1] eqn:H1; try done.
  apply Forall_cons in Hcl as [[Ho Hn] Hcl]. cbn [fst snd] in Ho, Hn.
  cbn [fmap list_fmap fst snd] in *. apply NoDup_cons in Hnd1 as [Ho1 Hnd1]. apply NoDup_cons in Hnd2 as [Hn1 Hnd2].
  assert (o ∈ dom (os_files os)) as Hodom by (apply Hold; by left).
  assert (n ∉ dom (os_files os)) as Hndom by (apply Hnew; by left).
  destruct (rename_one o n os os1 H1 Ho Hn Hodom) as (c & Hc & ->).
  assert (o ≠ n) as Hon by congruence.
  assert (∀ o', o' ∈ plan.*1 → o' ≠ o ∧ o' ≠ n ∧ o' ∈ dom (os_files os)) as Holds.
  { intros o' Ho'. assert (o' ∈ dom (os_files os)) by (apply Hold; by right). split_and!; congruence. }
  assert (∀ n', n' ∈ plan.*2 → n' ≠ n ∧ n' ≠ o ∧ n' ∉ dom (os_files os)) as Hnews.
  { intros n' Hn'. assert (n' ∉ dom (os_files os)) by (apply Hnew; by right). split_and!; congruence. }
  destruct (IH _ Hr Hcl Hnd1 Hnd2) as (Hd & Hf & Hmap & Hgone & Hrest); cbn [set_files os_files os_dirs os_fault] in *.
  { intros o' Ho'. destruct (Holds o' Ho') as (? & ? & ?). set_solver. }
  { intros n' Hn'. destruct (Hnews n' Hn') as (? & ? & ?). set_solver. }
  split_and!; [done|done| | |].
  - intros o' n' Hin. apply elem_of_cons in Hin as [[= -> ->]|Hin].
    + rewrite Hrest; [by rewrite lookup_insert_eq|naive_solver|done].
    + rewrite (Hmap _ _ Hin). apply (list_elem_of_fmap_2 fst) in Hin. cbn in Hin.
      destruct (Holds o' Hin) as (? & ? & ?). by rewrite lookup_insert_ne, lookup_delete_ne.
  - intros q Hq. apply elem_of_cons in Hq as [->|Hq]; [|by apply Hgone].
    rewrite Hrest; [|done|naive_solver]. by rewrite lookup_insert_ne, lookup_delete_eq.
  - intros q Hq1 Hq2. apply not_elem_of_cons in Hq1 as [Hqo Hq1]. apply not_elem_of_cons in Hq2 as [Hqn Hq2].
    rewrite Hrest by done. by rewrite lookup_insert_ne, lookup_delete_ne.
Qed.

(** ** [Fix] *)

Section Fix.
Context {D : Type} (range : registry → list (Z * Migration)) (Hrange : range_ok range).

(** The new names of the time-stamped migrations, from a first number on. *)
Fixpoint renumbered (version : Z) (ts : list (Z * string)) : list (Z * string) :=
  match ts with
  | [] => []
  | (v, q) :: ts =>
      (version, Replace q (FormatInt v) (Sprintf_05v version) 1) :: renumbered (wrap64 (version + 1)) ts
  end.

Definition stamped (vs : list (Z * string)) : list (Z * string) := filter (λ vq, is_timestamped vq.1 = true) vs.
Definition first_free (vs : list (Z * string)) : Z :=
  match last (filter (λ vq, is_versioned vq.1 = true) vs) with
  | Some vq => wrap64 (vq.1 + 1)
  | None => 1
  end.

Definition plan_of (ts new : list (Z * string)) : list (string * string) := zip ts.*2 new.*2.

Lemma load_file (w : OW D) p : is_Some (heap_lookup p (o_lw w)) →
  ∃ m, lifto (load p) w = (Ok m, w) ∧ file_at (o_lw w) p = (m_Version m, m_Source m).
Proof.
  intros [m Hm]. exists m. unfold lifto, zoom, load, file_at. rewrite Hm. by destruct w.
Qed.

Lemma rename_loop_run ps version (w : OW D) : valid (o_lw w) ps →
  let ts := files_at (o_lw w) ps in
  rename_loop ps version w = liftf (mfor (λ on, os_Rename on.1 on.2) (plan_of ts (renumbered version ts))) w.
Proof.
  cbn zeta. revert version w. induction ps as [|p ps IH]; intros version w Hv.
  { unfold liftf, zoom. cbn. by destruct w. }
  apply Forall_cons in Hv as [Hp Hv]. cbn [rename_loop files_at map]. rewrite bind_eq.
  destruct (load_file w p Hp) as (m & -> & Hm). rewrite Hm. cbn [renumbered plan_of fmap list_fmap zip zip_with snd fst].
  cbn [mfor]. unfold liftf, zoom at 2. rewrite bind_eq. cbn [fst snd]. rewrite bind_eq.
  unfold liftf, zoom at 1. destruct (os_Rename _ _ (o_os w)) as [[[]|e|s|] os1]; try done.
  rewrite IH by done. done.
Qed.

Lemma filter_files_at (w : LW D) (f : Z → bool) ps :
  files_at w (filter (λ vp, f vp.1 = true) (with_versions w ps)).*2
  = filter (λ vq, f vq.1 = true) (files_at w ps).
Proof.
  induction ps as [|p ps IH]; [done|]. cbn [with_versions files_at map].
  destruct (decide (f (file_at w p).1 = true)).
  - rewrite !filter_cons_True by done. cbn [fmap list_fmap snd files_at map]. f_equal. exact IH.
  - rewrite !filter_cons_False by done. exact IH.
Qed.

Lemma valid_filter (w : LW D) (f : Z → bool) ps :
  valid w ps → valid w (filter (λ vp, f vp.1 = true) (with_versions w ps)).*2.
Proof.
  intros Hv. induction Hv as [|p ps Hp _ IH]; [constructor|]. cbn [with_versions map].
  destruct (decide (f (file_at w p).1 = true)).
  - rewrite !filter_cons_True by done. by constructor.
  - rewrite !filter_cons_False by done. exact IH.
Qed.

Lemma filter_run (f : Z → bool) ps (w : OW D) : valid (o_lw w) ps →
  lifto (vs ← mmap version_of ps; mret (filter (λ vp, f vp.1 = true) vs).*2) w
  = (Ok (filter (λ vp, f vp.1 = true) (with_versions (o_lw w) ps)).*2, w).
Proof.
  intros Hv. unfold lifto, zoom. rewrite bind_eq, versions_valid by done. cbn. by destruct w.
Qed.

Lemma next_version_run ps (w : OW D) : valid (o_lw w) ps →
  next_version (filter (λ vp, is_versioned vp.1 = true) (with_versions (o_lw w) ps)).*2 w
  = (Ok (first_free (files_at (o_lw w) ps)), w).
Proof.
  intros Hv. pose proof (valid_filter (o_lw w) is_versioned ps Hv) as Hvf.
  unfold first_free. rewrite <- filter_files_at. revert Hvf. generalize (filter (λ vp, is_versioned vp.1 = true) (with_versions (o_lw w) ps)).*2.
  clear ps Hv. intros ps Hv. unfold next_version. rewrite bind_eq. unfold catch, lifto at 1, zoom at 1, Migrations_Last.
  change (files_at (o_lw w) ps) with (file_at (o_lw w) <$> ps). rewrite fmap_last.
  destruct (last ps) as [p|] eqn:Hl; cbn; [|by destruct w].
  assert (p ∈ ps) as Hp by by apply last_Some_elem_of. apply (proj1 (Forall_forall _ _) Hv) in Hp.
  destruct (load_file w p Hp) as (m & Hm & Hf). rewrite Hf. cbn [fst].
  replace (set_olw (o_lw w) w) with w by by destruct w. by rewrite bind_eq, Hm.
Qed.

Lemma Fix_run (w w' : OW D) : l_reg (o_lw w) = ∅ → Fix range dir w = (Ok tt, w') →
  ∃ vs, by_version vs ∧ vs ≡ₚ migration_files dir (o_os w) ∧
    mfor (λ on, os_Rename on.1 on.2) (plan_of (stamped vs) (renumbered (first_free vs) (stamped vs))) (o_os w)
    = (Ok tt, o_os w').
Proof.
  intros Hreg. unfold Fix. rewrite bind_eq. unfold collect_os at 1. rewrite bind_eq. unfold gets, lifto at 1, zoom.
  pose proof (collect_added dir Hclean Hmeta range Hrange (o_os w) (o_lw w) Hreg) as Hc.
  destruct (collectMigrationsFS _ _ _ _ _ (o_lw w)) as [[ps|e|s|] l]; try done.
  destruct Hc as (vs & (_ & Hv & Hvs) & Hbv & Hp). set (w1 := set_olw l w).
  change l with (o_lw w1) in Hv, Hvs. intros Hrun. exists vs. split_and!; [done|done|].
  rewrite bind_eq in Hrun. unfold timestamped in Hrun. rewrite filter_run in Hrun by done. rewrite bind_eq in Hrun.
  unfold versioned in Hrun. rewrite filter_run in Hrun by done. rewrite bind_eq, next_version_run in Hrun by done.
  rewrite rename_loop_run in Hrun by by apply valid_filter.
  rewrite filter_files_at, Hvs in Hrun. unfold liftf, zoom in Hrun. change (o_os w1) with (o_os w) in Hrun.
  unfold stamped. destruct (mfor _ _ (o_os w)) as [r os1]. injection Hrun as -> <-. done.
Qed.

(** *** Names of files *)

Lemma Base_in_dir n : lacks "/" n = true → n ≠ "" → filepath_Base (in_dir n) = n.
Proof.
  intros Hn Hne. unfold dir_prefix. destruct (String.eqb dir "."); [by apply filepath_Base_id|].
  destruct (String.eqb dir "/"); [by apply (filepath_Base_app "")|].
  rewrite append_assoc. by apply filepath_Base_app.
Qed.

Lemma numbered_name v rest ext : migration_ext ext → 1 ≤ v ≤ maxInt64 → lacks "/" rest = true →
  HasSuffix rest ext = true →
  let n := Sprintf_05v v +++ "_" +++ rest in
  entry_name n = true ∧ NumericComponent (in_dir n) = inl v.
Proof.
  intros He Hv Hl (base & ->)%HasSuffix_iff n. rewrite lacks_app in Hl. apply andb_prop in Hl as [Hb Hx].
  destruct (migration_name_ext v base ext He ltac:(lia) Hb) as (_ & Hn & Hne).
  change (migration_name v base ext) with n in Hn, Hne. split.
  - unfold entry_name. rewrite Hn. cbn [andb].
    assert (lacks "_" n = false) as Hlow.
    { unfold n. rewrite lacks_app. cbn. by rewrite andb_false_r. }
    destruct (String.eqb_spec n "") as [->|]; [done|]. destruct (String.eqb_spec n ".") as [->|]; [done|].
    by destruct (String.eqb_spec n "..") as [->|].
  - apply (NumericComponent_name v base ext); [done|lia|by apply Base_in_dir|done].
Qed.

Lemma renamed_source a b rest : source_name dir (a +++ "_" +++ rest) →
  source_name dir (b +++ "_" +++ rest) ∧ ∃ ext, migration_ext ext ∧ HasSuffix rest ext = true.
Proof.
  unfold source_name.
  rewrite !HasSuffix_after by done. rewrite <- !(append_assoc (dir_prefix dir)).
  change "_test.go" with ("_" +++ "test.go"). rewrite !HasSuffix_from by done. unfold migration_ext.
  intros Hs. split; [done|]. destruct Hs as [Hs|[Hs _]]; eauto.
Qed.

(** *** Numbers *)

(** The directory is one that [Fix] is meant for: its migrations are files, the
    time-stamped ones are named as [Create] names them, the path to them does
    not itself contain a time stamp, and there is room for their numbers. *)
Definition fixable (os : OS) : Prop :=
  let ms := migration_files dir os in
  Z.of_nat (length ms) + 1 < 10 ^ 12 ∧
  ∀ v q, (v, q) ∈ ms →
    is_Some (os_files os !! q) ∧ q ∉ os_dirs os ∧
    (is_versioned v = true → v + Z.of_nat (length ms) < 10 ^ 12) ∧
    (is_timestamped v = true → Contains (dir_prefix dir) (FormatInt v) = false ∧
       ∃ rest, q = in_dir (FormatInt v +++ "_" +++ rest)).

Lemma last_greatest (vs : list (Z * string)) x y : by_version vs → last vs = Some x → y ∈ vs → y.1 ≤ x.1.
Proof.
  unfold by_version. intros Hs [l ->]%last_Some Hy. rewrite fmap_app in Hs.
  apply elem_of_app in Hy as [Hy|Hy].
  - pose proof (StronglySorted_app_1_elem_of _ _ _ y.1 x.1 Hs (list_elem_of_fmap_2 _ _ _ Hy) ltac:(by left)). lia.
  - apply list_elem_of_singleton in Hy as ->. lia.
Qed.

Lemma by_version_filter (P : Z * string → Prop) `{!∀ x, Decision (P x)} vs : by_version vs → by_version (filter P vs).
Proof.
  unfold by_version. rewrite !StronglySorted_fmap. apply StronglySorted_filter.
Qed.

Lemma migration_bounds os v q : (v, q) ∈ migration_files dir os → 1 ≤ v ≤ maxInt64.
Proof. rewrite elem_of_migration_files by done. intros (_ & Hn & _). by apply NumericComponent_bounds in Hn as [? _]. Qed.

(** The number after the greatest, or the first one. *)
Lemma first_free_next vs : by_version vs → (∀ v q, (v, q) ∈ vs → 1 ≤ v ∧ (is_versioned v = true → v < maxInt64)) →
  1 ≤ first_free vs ≤ maxInt64 ∧
  (∀ v q, (v, q) ∈ vs → is_versioned v = true → v < first_free vs) ∧
  (first_free vs = 1 ∨ ∃ q, (first_free vs - 1, q) ∈ vs ∧ is_versioned (first_free vs - 1) = true).
Proof.
  intros Hbv Hroom. unfold first_free.
  pose proof (by_version_filter (λ vq, is_versioned vq.1 = true) vs Hbv) as Hbf.
  assert (∀ v q, (v, q) ∈ vs → is_versioned v = true →
    (v, q) ∈ filter (λ vq : Z * string, is_versioned vq.1 = true) vs) as Hin by (intros; by apply list_elem_of_filter).
  destruct (last (filter _ vs)) as [[v q]|] eqn:Hl.
  - apply last_Some_elem_of in Hl as Hlast. apply list_elem_of_filter in Hlast as [Hver Hlast]. cbn [fst] in *.
    destruct (Hroom v q Hlast) as [H1 Hmax]. specialize (Hmax Hver).
    rewrite wrap64_id by (unfold is_int64, minInt64, maxInt64 in *; lia). split_and!; [lia|lia| |].
    + intros v' q' Hin' Hver'. pose proof (last_greatest _ _ _ Hbf Hl (Hin v' q' Hin' Hver')). cbn in *. lia.
    + right. exists q. by replace (v + 1 - 1) with v by lia.
  - split_and!; [lia|done| |by left]. intros v' q' Hin' Hver'. apply last_None in Hl. specialize (Hin v' q' Hin' Hver').
    rewrite Hl in Hin. by apply not_elem_of_nil in Hin.
Qed.

Lemma first_free_spec os vs : fixable os → by_version vs → vs ≡ₚ migration_files dir os →
  1 ≤ first_free vs ∧ first_free vs + Z.of_nat (length vs) ≤ 10 ^ 12 ∧
  ∀ v q, (v, q) ∈ vs → is_versioned v = true → v < first_free vs.
Proof.
  intros [Hlen Hms] Hbv Hp. rewrite <- (Permutation_length Hp) in Hlen, Hms.
  assert (∀ v q, (v, q) ∈ vs → is_versioned v = true → v + Z.of_nat (length vs) < 10 ^ 12) as Hroom.
  { intros v q Hin. rewrite Hp in Hin. by destruct (Hms v q Hin) as (_ & _ & ? & _). }
  destruct (first_free_next vs Hbv) as ([H1 _] & Hver & Hnext).
  { intros v q Hin. split; [rewrite Hp in Hin; by apply migration_bounds in Hin as [? _]|].
    intros Hv. specialize (Hroom v q Hin Hv). unfold maxInt64. lia. }
  split_and!; [done| |done]. destruct Hnext as [->|(q & Hin & Hv)]; [lia|]. specialize (Hroom _ _ Hin Hv). lia.
Qed.

(** The numbers given are consecutive. *)
Lemma renumbered_versions first ts : 1 ≤ first → first + Z.of_nat (length ts) ≤ 10 ^ 12 →
  (renumbered first ts).*1 = seqZ first (Z.of_nat (length ts)).
Proof.
  revert first. induction ts as [|[v q] ts IH]; intros first H1 Hr; [done|]. cbn [renumbered fmap list_fmap fst length] in *.
  rewrite wrap64_id, IH by (unfold is_int64, minInt64, maxInt64; lia).
  rewrite (seqZ_cons first) by lia. do 2 f_equal; lia.
Qed.

(** The [i]-th time-stamped migration and its new name. *)
Lemma renumbered_lookup first ts i vq : 1 ≤ first → first + Z.of_nat (length ts) ≤ 10 ^ 12 → ts !! i = Some vq →
  renumbered first ts !! i =
  Some (first + Z.of_nat i, Replace vq.2 (FormatInt vq.1) (Sprintf_05v (first + Z.of_nat i)) 1).
Proof.
  revert first i. induction ts as [|[v q] ts IH]; intros first i H1 Hr Hi; [done|]. cbn [renumbered length] in *.
  destruct i as [|i]; [injection Hi as <-; by rewrite Z.add_0_r|]. change (ts !! i = Some vq) in Hi.
  change (renumbered (wrap64 (first + 1)) ts !! i = Some (first + Z.of_nat (S i),
    Replace vq.2 (FormatInt vq.1) (Sprintf_05v (first + Z.of_nat (S i))) 1)).
  rewrite wrap64_id by (unfold is_int64, minInt64, maxInt64; lia). rewrite (IH (first + 1) i) by (done || lia).
  by replace (first + 1 + Z.of_nat i) with (first + Z.of_nat (S i)) by lia.
Qed.

Lemma renumbered_length first ts : length (renumbered first ts) = length ts.
Proof. revert first. induction ts as [|[v q] ts IH]; intros first; [done|]. cbn. by rewrite IH. Qed.

(** *** The whole of [Fix] *)

Definition new_path (first : Z) (i : nat) (vq : Z * string) : string :=
  Replace vq.2 (FormatInt vq.1) (Sprintf_05v (first + Z.of_nat i)) 1.

Lemma stamped_in vs vq : vq ∈ stamped vs ↔ is_timestamped vq.1 = true ∧ vq ∈ vs.
Proof. unfold stamped. by rewrite list_elem_of_filter. Qed.

Lemma dir_prefix_shape : dir_prefix dir = "" ∨ ∃ x, dir_prefix dir = x +++ "/".
Proof.
  unfold dir_prefix. destruct (String.eqb dir "."); [by left|]. right.
  destruct (String.eqb dir "/"); [by exists ""|by exists dir].
Qed.

Lemma FormatInt_plain v : 1 ≤ v → lacks "/" (FormatInt v) = true ∧ FormatInt v ≠ "".
Proof.
  intros Hv. unfold FormatInt. rewrite (proj2 (Z.ltb_ge v 0)) by lia. split.
  - apply lacks_format_digits; [done|lia|done].
  - assert (∀ fuel n acc, acc ≠ "" → format_digits fuel n acc ≠ "") as Hne.
    { induction fuel as [|fuel IH]; intros n acc Hacc; cbn; [done|]. destruct (n <? 10); [done|]. by apply IH. }
    change (format_digits 20 v "") with
      (if v <? 10 then String (digit_char (v mod 10)) "" else format_digits 19 (v / 10) (String (digit_char (v mod 10)) "")).
    destruct (v <? 10); [done|]. by apply Hne.
Qed.

Section OneFix.
Context (os : OS) (vs : list (Z * string)).
Context (Hfix : fixable os) (Hbv : by_version vs) (Hvs : vs ≡ₚ migration_files dir os).

Abbreviation first := (first_free vs).
Abbreviation ts := (stamped vs).
Abbreviation new := (renumbered first ts).

Lemma stamped_room : 1 ≤ first ∧ first + Z.of_nat (length ts) ≤ 10 ^ 12.
Proof.
  destruct (first_free_spec os vs Hfix Hbv Hvs) as (H1 & Hr & _). split; [done|].
  pose proof (length_filter (λ vq, is_timestamped vq.1 = true) vs). unfold stamped. lia.
Qed.

Lemma new_file i vq : ts !! i = Some vq → ∃ n n',
  vq.2 = in_dir n ∧ entry_name n = true ∧ new_path first i vq = in_dir n' ∧ entry_name n' = true ∧
  source_name dir n' ∧ NumericComponent (new_path first i vq) = inl (first + Z.of_nat i).
Proof.
  intros Hi. pose proof stamped_room as [H1 Hr]. pose proof (lookup_lt_Some _ _ _ Hi) as Hlt.
  apply list_elem_of_lookup_2, stamped_in in Hi as [Hts Hin]. destruct vq as [v q]. cbn [fst snd] in *.
  rewrite Hvs in Hin. destruct Hfix as [_ Hms]. destruct (Hms v q Hin) as (_ & _ & _ & Hname).
  destruct (Hname Hts) as (Hcon & rest & ->). pose proof (migration_bounds _ _ _ Hin) as Hb.
  rewrite elem_of_migration_files in Hin by done. destruct Hin as (_ & _ & _ & n & Hn & Hen & Hsrc).
  apply string_app_inj in Hn as <-. destruct (FormatInt_plain v ltac:(lia)) as [Hfl Hfne].
  destruct (renamed_source (FormatInt v) (Sprintf_05v (first + Z.of_nat i)) rest Hsrc) as (Hsrc' & ext & He & Hrest).
  assert (lacks "/" rest = true) as Hl.
  { unfold entry_name in Hen. apply andb_prop in Hen as [Hen _]. rewrite !lacks_app in Hen.
    apply andb_prop in Hen as [_ Hen]. by apply andb_prop in Hen as [_ Hen]. }
  destruct (numbered_name (first + Z.of_nat i) rest ext He ltac:(unfold maxInt64; lia) Hl Hrest) as [Hen' Hnum].
  assert (new_path first i (v, in_dir (FormatInt v +++ "_" +++ rest))
    = in_dir (Sprintf_05v (first + Z.of_nat i) +++ "_" +++ rest)) as Hnew.
  { unfold new_path. cbn [fst snd]. apply Replace_after; try done. exact dir_prefix_shape. }
  exists (FormatInt v +++ "_" +++ rest), (Sprintf_05v (first + Z.of_nat i) +++ "_" +++ rest). by rewrite Hnew.
Qed.

Lemma elem_of_new vq : vq ∈ new ↔ ∃ i old, ts !! i = Some old ∧ vq = (first + Z.of_nat i, new_path first i old).
Proof.
  pose proof stamped_room as [H1 Hr]. rewrite list_elem_of_lookup. split.
  - intros [i Hi]. pose proof (lookup_lt_Some _ _ _ Hi) as Hlt. rewrite renumbered_length in Hlt.
    apply lookup_lt_is_Some in Hlt as [old Hold]. exists i, old. split; [done|].
    rewrite (renumbered_lookup _ _ _ _ H1 Hr Hold) in Hi. by injection Hi as <-.
  - intros (i & old & Hold & ->). exists i. by rewrite (renumbered_lookup _ _ _ _ H1 Hr Hold).
Qed.

Lemma readable_stamped i vq : ts !! i = Some vq → readable dir os = true.
Proof.
  intros Hi. apply list_elem_of_lookup_2, stamped_in in Hi as [_ Hin]. destruct vq. rewrite Hvs in Hin.
  by apply elem_of_migration_files in Hin as [? _].
Qed.

(** The new names are free. *)
Lemma new_free vq : vq ∈ new → ¬ in_os vq.2 os.
Proof.
  intros (i & old & Hi & ->)%elem_of_new Hin. cbn [snd] in Hin.
  destruct (new_file i old Hi) as (n & n' & _ & _ & Hq & Hen & Hsrc & Hnum).
  pose proof stamped_room as [H1 Hr]. pose proof (lookup_lt_Some _ _ _ Hi) as Hlt.
  assert ((first + Z.of_nat i, new_path first i old) ∈ migration_files dir os) as Hm.
  { apply elem_of_migration_files. split_and!; [by eapply readable_stamped|done|done|by exists n']. }
  rewrite <- Hvs in Hm. destruct (first_free_spec os vs Hfix Hbv Hvs) as (_ & _ & Hver).
  destruct (small_version (first + Z.of_nat i) ltac:(lia)) as [Hv _]. specialize (Hver _ _ Hm Hv). lia.
Qed.

Lemma new_NoDup : NoDup new.*2.
Proof.
  apply NoDup_fmap_2_strong.
  - intros vq vq' (i & old & Hi & ->)%elem_of_new (j & old' & Hj & ->)%elem_of_new Heq. cbn [snd] in Heq.
    destruct (new_file i old Hi) as (? & ? & _ & _ & _ & _ & _ & Hn1).
    destruct (new_file j old' Hj) as (? & ? & _ & _ & _ & _ & _ & Hn2).
    rewrite Heq, Hn2 in Hn1. injection Hn1 as Hn1. by rewrite Heq, Hn1.
  - pose proof stamped_room as [H1 Hr]. apply (NoDup_fmap_1 fst). rewrite (renumbered_versions first ts H1 Hr).
    apply NoDup_seqZ.
Qed.

Lemma same_version v v' q : (v, q) ∈ vs → NumericComponent q = inl v' → v' = v.
Proof.
  rewrite Hvs, elem_of_migration_files by done. intros (_ & Hn & _) Hn'. rewrite Hn in Hn'. by injection Hn' as ->.
Qed.

Lemma in_vs v q : (v, q) ∈ vs → NumericComponent q = inl v ∧ is_Some (os_files os !! q) ∧ q ∉ os_dirs os.
Proof.
  rewrite Hvs. intros Hin. destruct Hfix as [_ Hms]. destruct (Hms v q Hin) as (? & ? & _).
  by apply elem_of_migration_files in Hin as (_ & ? & _).
Qed.

Lemma stamped_NoDup : NoDup ts.*2.
Proof.
  apply NoDup_fmap_2_strong.
  - intros [v q] [v' q'] [_ H1]%stamped_in [_ H2]%stamped_in Heq. cbn in Heq. subst q'. f_equal.
    apply in_vs in H1 as [Hn _]. apply (same_version v' v q H2) in Hn. done.
  - apply (NoDup_fmap_1 fst), Sorted_lt_NoDup. by apply by_version_filter.
Qed.

Lemma plan_fst : (plan_of ts new).*1 = ts.*2.
Proof. apply fst_zip. by rewrite !length_fmap, renumbered_length. Qed.
Lemma plan_snd : (plan_of ts new).*2 = new.*2.
Proof. apply snd_zip. by rewrite !length_fmap, renumbered_length. Qed.

Lemma plan_lookup i o n : plan_of ts new !! i = Some (o, n) ↔
  ∃ vq, ts !! i = Some vq ∧ o = vq.2 ∧ n = new_path first i vq.
Proof.
  pose proof stamped_room as [H1 Hr]. unfold plan_of. rewrite lookup_zip_Some, !list_lookup_fmap_Some. split.
  - intros [(vq & -> & Hi) (nq & -> & Hj)]. exists vq. rewrite (renumbered_lookup _ _ _ _ H1 Hr Hi) in Hj.
    by injection Hj as <-.
  - intros (vq & Hi & -> & ->). split; [by exists vq|]. rewrite (renumbered_lookup _ _ _ _ H1 Hr Hi).
    by eexists (_, _).
Qed.

Lemma plan_clean : Forall (λ on, path_Clean on.1 = on.1 ∧ path_Clean on.2 = on.2) (plan_of ts new).
Proof.
  apply Forall_lookup. intros i [o n] (vq & Hi & -> & ->)%plan_lookup.
  destruct (new_file i vq Hi) as (m & m' & -> & Hm & -> & Hm' & _). cbn. by rewrite !path_Clean_prefix.
Qed.

(** What the renaming does to the files. *)
Lemma plan_done os' :
  mfor (λ on, os_Rename on.1 on.2) (plan_of ts new) os = (Ok tt, os') →
  os_dirs os' = os_dirs os ∧ os_fault os' = os_fault os ∧
  (∀ i vq, ts !! i = Some vq → os_files os' !! new_path first i vq = os_files os !! vq.2) ∧
  (∀ q, q ∈ ts.*2 → os_files os' !! q = None) ∧
  (∀ q, q ∉ ts.*2 → q ∉ new.*2 → os_files os' !! q = os_files os !! q).
Proof.
  intros Hr. destruct (rename_seq _ _ _ Hr plan_clean) as (Hd & Hf & Hmap & Hgone & Hrest).
  - rewrite plan_fst. exact stamped_NoDup.
  - rewrite plan_snd. exact new_NoDup.
  - rewrite plan_fst. intros q ([v q'] & -> & [_ Hin]%stamped_in)%list_elem_of_fmap. cbn.
    apply in_vs in Hin as (_ & ? & _). by apply elem_of_dom.
  - rewrite plan_snd. intros q (vq & -> & Hin)%list_elem_of_fmap Hdom. apply (new_free vq Hin).
    unfold in_os. set_solver.
  - rewrite plan_fst, plan_snd in *. split_and!; try done. intros i vq Hi. apply Hmap.
    apply (list_elem_of_lookup_2 _ i), plan_lookup. by exists vq.
Qed.

(** Which migrations the directory then has. *)
Lemma fixed_migrations os' :
  mfor (λ on, os_Rename on.1 on.2) (plan_of ts new) os = (Ok tt, os') →
  ∀ vq, vq ∈ migration_files dir os' ↔ vq ∈ vs ∧ is_timestamped vq.1 = false ∨ vq ∈ new.
Proof.
  intros Hr [v q]. destruct (plan_done os' Hr) as (Hd & Hf & Hmap & Hgone & Hrest).
  assert (readable dir os' = readable dir os) as Hread by (unfold readable; by rewrite Hd, Hf).
  rewrite elem_of_migration_files, Hread by done. cbn [fst]. split.
  - intros (Hrd & Hnum & Hin & Hname). destruct (decide (q ∈ new.*2)) as [Hq|Hq].
    { right. apply list_elem_of_fmap in Hq as ([v' q'] & -> & Hnew). cbn in *.
      apply elem_of_new in Hnew as Hn. destruct Hn as (i & old & Hi & [= -> ->]).
      destruct (new_file i old Hi) as (_ & _ & _ & _ & _ & _ & _ & Hn). rewrite Hnum in Hn. injection Hn as ->. done. }
    left. assert (q ∉ ts.*2) as Hq'.
    { intros Hqs. apply Hgone in Hqs as Hnone. apply list_elem_of_fmap in Hqs as ([v' q'] & -> & [_ Hts]%stamped_in).
      cbn in *. apply in_vs in Hts as (_ & _ & Hnd). unfold in_os in Hin. rewrite Hd in Hin.
      apply elem_of_union in Hin as [Hin|Hin]; [|done]. apply elem_of_dom in Hin as [c Hc]. congruence. }
    assert ((v, q) ∈ vs) as Hvq.
    { rewrite Hvs. apply elem_of_migration_files. split_and!; try done. unfold in_os in *.
      rewrite Hd, elem_of_union, elem_of_dom, (Hrest q Hq' Hq) in Hin. by rewrite elem_of_union, elem_of_dom. }
    split; [done|]. destruct (is_timestamped v) eqn:Ht; [|done]. destruct Hq'.
    apply list_elem_of_fmap. exists (v, q). split; [done|]. by apply stamped_in.
  - intros [[Hin Hnt]|Hin].
    + apply in_vs in Hin as Hfile. destruct Hfile as (Hnum & Hsome & _).
      assert (in_os q os) as Hos by (unfold in_os; apply elem_of_union_l, elem_of_dom; exact Hsome).
      pose proof Hin as Hm. rewrite Hvs in Hm. apply elem_of_migration_files in Hm as (Hrd & _ & _ & Hname).
      split_and!; try done. unfold in_os. apply elem_of_union_l, elem_of_dom. rewrite Hrest; [exact Hsome| |].
      * intros ([v' q'] & -> & [Ht Hts]%stamped_in)%list_elem_of_fmap. cbn in *.
        apply (same_version v' v q' Hts) in Hnum. congruence.
      * intros (vq & -> & Hnew)%list_elem_of_fmap. by apply (new_free vq Hnew).
    + apply elem_of_new in Hin as (i & old & Hi & [= -> ->]). rewrite (readable_stamped i old Hi).
      destruct (new_file i old Hi) as (n & n' & _ & _ & Hq & Hen & Hsrc & Hnum). split_and!; [done|done| |by exists n'].
      unfold in_os. apply elem_of_union_l, elem_of_dom. rewrite (Hmap i old Hi).
      apply list_elem_of_lookup_2, stamped_in in Hi as [_ Hi]. destruct old. by apply in_vs in Hi as (_ & ? & _).
Qed.

End OneFix.

(** C25: [Fix] on a directory it is meant for, when it succeeds: the
    time-stamped migrations get consecutive numbers after those of the numbered
    ones, in their order; the migrations of the directory are then the others
    and the renumbered ones; every file keeps its contents, and no file is
    overwritten or lost. *)
Theorem Fix_spec (w w' : OW D) : l_reg (o_lw w) = ∅ → fixable (o_os w) → Fix range dir w = (Ok tt, w') →
  ∃ vs, by_version vs ∧ vs ≡ₚ migration_files dir (o_os w) ∧
    let first := first_free vs in
    let ts := stamped vs in
    let new := renumbered first ts in
    new.*1 = seqZ first (Z.of_nat (length ts)) ∧
    (∀ v q, (v, q) ∈ vs → is_versioned v = true → v < first) ∧
    (∀ vq, vq ∈ migration_files dir (o_os w') ↔ vq ∈ vs ∧ is_timestamped vq.1 = false ∨ vq ∈ new) ∧
    (∀ i vq, ts !! i = Some vq → os_files (o_os w') !! new_path first i vq = os_files (o_os w) !! vq.2) ∧
    (∀ vq, vq ∈ new → ¬ in_os vq.2 (o_os w)) ∧
    (∀ q, q ∉ ts.*2 → q ∉ new.*2 → os_files (o_os w') !! q = os_files (o_os w) !! q).
Proof.
  intros Hreg Hfix HF. destruct (Fix_run w w' Hreg HF) as (vs & Hbv & Hvs & Hr). exists vs.
  destruct (first_free_spec (o_os w) vs Hfix Hbv Hvs) as (_ & _ & Hver).
  destruct (stamped_room (o_os w) vs Hfix Hbv Hvs) as [H1 Hroom].
  destruct (plan_done _ vs Hfix Hbv Hvs _ Hr) as (_ & _ & Hmap & _ & Hrest).
  split; [done|]. split; [done|]. intros first ts new. split_and!.
  - by apply renumbered_versions.
  - exact Hver.
  - by apply (fixed_migrations (o_os w)).
  - exact Hmap.
  - by apply new_free.
  - exact Hrest.
Qed.

End Fix.

(** ** [Create] *)

Section Create.
Context {D : Type} `{Unicode} (range : registry → list (Z * Migration)) (Hrange : range_ok range).

Lemma collect_os_files d (w : OW D) : o_os (collect_os range d w).2 = o_os w ∧
  o_sequential (collect_os range d w).2 = o_sequential w.
Proof.
  unfold collect_os. rewrite bind_eq. unfold gets, lifto, zoom. by destruct (collectMigrationsFS _ _ _ _ _ _).
Qed.

Lemma lifto_files {A} (m : M (LW D) A) (w : OW D) : o_os (lifto m w).2 = o_os w.
Proof. unfold lifto, zoom. by destruct (m (o_lw w)). Qed.

Lemma next_version_files ps (w : OW D) : o_os (next_version ps w).2 = o_os w.
Proof.
  unfold next_version. rewrite bind_eq. unfold catch. pose proof (lifto_files (Migrations_Last ps) w) as H1.
  destruct (lifto _ w) as [[p|e|s|] w1]; cbn in H1 |- *; try done. rewrite bind_eq.
  pose proof (lifto_files (load p) w1) as H2. destruct (lifto (load p) w1) as [[] w2]; cbn in *; congruence.
Qed.

Lemma choose_version_files now d (w : OW D) : o_os (choose_version range now d w).2 = o_os w.
Proof.
  unfold choose_version. rewrite bind_eq. unfold gets. destruct (o_sequential w); [|done].
  rewrite bind_eq. unfold catch. pose proof (proj1 (collect_os_files d w)) as H1.
  assert (∀ ps (w1 : OW D), o_os w1 = o_os w → o_os ((vs ← lifto (versioned ps); v ← next_version vs;
    mret (Sprintf_05v v)) w1).2 = o_os w) as Hrest.
  { intros ps w1 Hw1. rewrite bind_eq. pose proof (lifto_files (versioned ps) w1) as H2.
    destruct (lifto (versioned ps) w1) as [[vs|e|s|] w2]; cbn [snd] in *; try congruence. rewrite bind_eq.
    pose proof (next_version_files vs w2) as H3. destruct (next_version vs w2) as [[v|e|s|] w3]; cbn in *; congruence. }
  destruct (collect_os range d w) as [[ps|e|s|] w1]; cbn [snd] in *; try done; rewrite bind_eq; cbn.
  - by apply Hrest.
  - destruct (errors_Is e ErrNoMigrationFiles); [by apply (Hrest [])|done].
Qed.

(** Of the whole of [Create]. *)
Lemma Create_run now d tmpl name migrationType (w : OW D) :
  let '(r, w') := CreateWithTemplate range now d tmpl name migrationType w in
  (∀ p c, os_files (o_os w) !! p = Some c → os_files (o_os w') !! p = Some c) ∧
  (r = Ok tt → ∃ version,
    let t := default (if String.eqb migrationType "go" then goSQLMigrationTemplate else sqlMigrationTemplate) tmpl in
    let path := path_Clean (path_Join d (version +++ "_" +++ snakeCase name +++ "." +++ migrationType)) in
    (choose_version range now d w).1 = Ok version ∧ ¬ in_os path (o_os w) ∧
    os_files (o_os w') = <[path := (t (mkTmplVars version (camelCase name))).1]> (os_files (o_os w)) ∧
    os_dirs (o_os w') = os_dirs (o_os w) ∧ os_fault (o_os w') = os_fault (o_os w)).
Proof.
  unfold CreateWithTemplate. rewrite bind_eq. pose proof (choose_version_files now d w) as Hos.
  destruct (choose_version range now d w) as [[version|e|s|] w1]; cbn [fst snd] in *; try (split; [by rewrite Hos|done]).
  set (path := path_Join d _). set (t := match tmpl with Some t => t | None => _ end).
  rewrite bind_eq. unfold gets. cbn [fst snd]. destruct (os_IsNotExist (os_Stat (o_os w1) path)) eqn:Hstat.
  2: { cbn [negb]. split; [by rewrite Hos|]. by destruct (os_Stat (o_os w1) path). }
  cbn [negb]. rewrite bind_eq. unfold wrap_err, liftf at 1, zoom at 1, os_Create.
  rewrite bind_eq. unfold gets. unfold os_Stat in Hstat.
  destruct (os_fault (o_os w1) (path_Clean path)) eqn:Hfault; [by cbn; rewrite Hos|].
  destruct (bool_decide (path_Clean path ∈ os_dirs _)); [by cbn; rewrite Hos|].
  destruct (bool_decide (path_Dir _ ∈ _)); [|by cbn; rewrite Hos].
  destruct (bool_decide_reflect (path_Clean path ∈ dom (os_files (o_os w1)) ∪ os_dirs (o_os w1))) as [|Hfree]; [done|].
  cbn [modify]. rewrite bind_eq. unfold liftf at 1, zoom at 1, os_write, modify. cbn.
  rewrite Hos in Hfree. assert (∀ p c x, os_files (o_os w) !! p = Some c →
    <[path_Clean path := x]> (os_files (o_os w)) !! p = Some c) as Hkeep.
  { intros p c x Hp. rewrite lookup_insert_ne; [done|]. intros <-. apply Hfree, elem_of_union_l, elem_of_dom. by eexists. }
  destruct (t _).2; cbn; rewrite Hos, insert_insert_eq; (split; [intros p c; apply Hkeep|]); [done|].
  intros _. exists version. split_and!; [done|exact Hfree|by destruct tmpl|done|done].
Qed.

(** [Create] changes no existing file, whatever it returns; when it
    succeeds, the one new file is at the path made of the version and the name,
    where there was none, with what the template writes. *)
Theorem Create_keeps_files now d tmpl name migrationType (w : OW D) :
  let '(r, w') := CreateWithTemplate range now d tmpl name migrationType w in
  (∀ p c, os_files (o_os w) !! p = Some c → os_files (o_os w') !! p = Some c) ∧
  (r = Ok tt → ∃ version,
    let t := default (if String.eqb migrationType "go" then goSQLMigrationTemplate else sqlMigrationTemplate) tmpl in
    let path := path_Clean (path_Join d (version +++ "_" +++ snakeCase name +++ "." +++ migrationType)) in
    (choose_version range now d w).1 = Ok version ∧ ¬ in_os path (o_os w) ∧
    os_files (o_os w') = <[path := (t (mkTmplVars version (camelCase name))).1]> (os_files (o_os w)) ∧
    os_dirs (o_os w') = os_dirs (o_os w) ∧ os_fault (o_os w') = os_fault (o_os w)).
Proof. apply Create_run. Qed.

(** *** In sequential mode *)


Lemma choose_version_run now (w : OW D) s w1 : o_sequential w = true → l_reg (o_lw w) = ∅ →
  choose_version range now dir w = (Ok s, w1) →
  ∃ vs, by_version vs ∧ vs ≡ₚ migration_files dir (o_os w) ∧ s = Sprintf_05v (first_free vs).
Proof.
  intros Hseq Hreg. unfold choose_version. rewrite bind_eq. unfold gets. rewrite Hseq, bind_eq.
  unfold catch, collect_os at 1. rewrite bind_eq. unfold gets, lifto at 1, zoom.
  pose proof (collect_added dir Hclean Hmeta range Hrange (o_os w) (o_lw w) Hreg) as Hc.
  destruct (collectMigrationsFS _ _ _ _ _ (o_lw w)) as [[ps|e|s'|] l] eqn:Hrun; try done; rewrite bind_eq.
  - destruct Hc as (vs & (_ & Hv & Hvs) & Hbv & Hp). set (w2 := set_olw l w).
    change l with (o_lw w2) in Hv, Hvs. cbn [mret M_ret]. rewrite bind_eq. unfold versioned.
    rewrite filter_run by done. rewrite bind_eq, next_version_run, Hvs by done. intros [= <- _]. by exists vs.
  - destruct (errors_Is e ErrNoMigrationFiles) eqn:He; [|done]. cbn [mret M_ret]. rewrite bind_eq. intros [= <- _].
    exists []. split_and!; [constructor| |done]. by rewrite (collect_none dir Hclean Hmeta range Hrange _ _ _ _ Hreg Hrun He).
Qed.

(** A file added to the directory is one more migration. *)
Lemma migration_added (os os' : OS) n content v :
  entry_name n = true → source_name dir n → NumericComponent (in_dir n) = inl v → readable dir os = true →
  os_files os' = <[in_dir n := content]> (os_files os) → os_dirs os' = os_dirs os → os_fault os' = os_fault os →
  ∀ vq, vq ∈ migration_files dir os' ↔ vq ∈ migration_files dir os ∨ vq = (v, in_dir n).
Proof.
  intros Hn Hsrc Hnum Hr Hf Hd Hfa [v' q].
  assert (readable dir os' = true) as Hr' by (unfold readable in *; by rewrite Hd, Hfa).
  rewrite !elem_of_migration_files, Hr, Hr' by done. unfold in_os. rewrite Hf, Hd, dom_insert, !elem_of_union, elem_of_singleton.
  split.
  - intros (_ & Hq & [[->|Hin]|Hin] & Hname); [|by left; split_and!; auto..].
    right. f_equal. rewrite Hnum in Hq. by injection Hq as ->.
  - intros [(_ & ? & [Hin|Hin] & ?)|[= -> ->]]; [split_and!; auto..|]. split_and!; try done; [by left; left|by exists n].
Qed.

(** The name of a file that [Create] makes. *)
Lemma created_name `{!UnicodeLaws} v name ext : 1 ≤ v ≤ maxInt64 → migration_ext ext →
  ext = ".sql" ∨ HasSuffix ("_" +++ snakeCase name +++ ext) "_test.go" = false →
  let n := Sprintf_05v v +++ "_" +++ snakeCase name +++ ext in
  entry_name n = true ∧ source_name dir n ∧ NumericComponent (in_dir n) = inl v.
Proof.
  intros Hv He Htest n. assert (HasSuffix (snakeCase name +++ ext) ext = true) as Hs by (apply HasSuffix_iff; by eexists).
  destruct (numbered_name v (snakeCase name +++ ext) ext He Hv) as [Hn Hnum]; [|done|].
  { rewrite lacks_app, snakeCase_slash. by destruct He as [-> | ->]. }
  split_and!; [done| |done]. unfold source_name, n. rewrite <- (append_assoc (dir_prefix dir)).
  change "_test.go" with ("_" +++ "test.go"). rewrite !HasSuffix_after, HasSuffix_from by done.
  destruct He as [-> | ->]; [by left|]. right. split; [done|]. by destruct Htest.
Qed.

(** C26: in sequential mode [Create] gives the new migration the number after
    the greatest one of the numbered migrations, or the first one, and the
    directory then has that migration and those it had before.  (A Go migration
    whose name ends in the word test is the exception.) *)
Theorem Create_sequential `{!UnicodeLaws} now tmpl name migrationType (w w' : OW D) :
  o_sequential w = true → l_reg (o_lw w) = ∅ → readable dir (o_os w) = true →
  (∀ v q, (v, q) ∈ migration_files dir (o_os w) → is_versioned v = true → v < maxInt64) →
  migrationType = "sql" ∨
    migrationType = "go" ∧ HasSuffix ("_" +++ snakeCase name +++ ".go") "_test.go" = false →
  CreateWithTemplate range now dir tmpl name migrationType w = (Ok tt, w') →
  ∃ v q,
    (v = 1 ∨ ∃ q', (v - 1, q') ∈ migration_files dir (o_os w)) ∧
    (∀ v' q', (v', q') ∈ migration_files dir (o_os w) → is_versioned v' = true → v' < v) ∧
    ∀ vq, vq ∈ migration_files dir (o_os w') ↔ vq ∈ migration_files dir (o_os w) ∨ vq = (v, q).
Proof.
  intros Hseq Hreg Hr Hroom Htype Hrun. pose proof (Create_run now dir tmpl name migrationType w) as Hc.
  rewrite Hrun in Hc. destruct Hc as [_ Hc]. destruct (Hc eq_refl) as (s & Hs & _ & Hf & Hd & Hfa). clear Hc.
  destruct (choose_version range now dir w) as [r w1] eqn:Hv. cbn [fst] in Hs. subst r.
  destruct (choose_version_run now w s w1 Hseq Hreg Hv) as (vs & Hbv & Hp & ->).
  destruct (first_free_next vs Hbv) as (Hbound & Hless & Hnext).
  { intros v q Hin. rewrite Hp in Hin. split; [by apply migration_bounds in Hin as [? _]|by apply (Hroom v q)]. }
  set (v := first_free vs) in *. set (ext := "." +++ migrationType) in *.
  assert (migration_ext ext) as He by (unfold ext; destruct Htype as [-> |[-> _]]; [by left|by right]).
  destruct (created_name v name ext Hbound He) as (Hn & Hsrc & Hnum).
  { unfold ext. destruct Htype as [-> |[-> ?]]; [by left|by right]. }
  set (n := Sprintf_05v v +++ "_" +++ snakeCase name +++ ext) in *.
  rewrite path_Join_prefix, path_Clean_prefix in Hf by done. exists v, (in_dir n). split_and!.
  - destruct Hnext as [->|(q & Hin & _)]; [by left|right]. exists q. by rewrite <- Hp.
  - intros v' q' Hin. rewrite <- Hp in Hin. exact (Hless v' q' Hin).
  - by eapply migration_added.
Qed.

End Create.
End FilesSpec.
