(* ===== verification/Stats.v ===== *)
(** * Migration statistics (internal/migrationstats)

    [goose validate] parses every migration file without running it: the
    statements of SQL files are counted, and the registration in the [init]
    function of a Go file is read off its syntax tree.  The parser of the Go
    language is a parameter; its trees are kept as far as the code looks at
    them. *)

From S2P Require Import Prelude GoStrings SqlParser Migration.

(** ** The syntax trees (package go/ast) *)

Inductive Expr :=
  | Ident (Name : string)
  | SelectorExpr (X : Expr) (Sel : string)
  | CallExpr (Fun : Expr) (Args : list Expr)
  | OtherExpr.

Inductive Stmt := ExprStmt (X : Expr) | OtherStmt.

(** A function without a body is declared outside Go. *)
Record FuncDecl := mkFuncDecl { fd_Name : string; fd_Body : option (list Stmt) }.
Inductive Decl := DFunc (fn : FuncDecl) | OtherDecl.

(** ** Go files (migration_go.go) *)

Definition registerGoFuncName : string := "AddMigration".
Definition registerGoFuncNameNoTx : string := "AddMigrationNoTx".
Definition registerGoFuncNameContext : string := "AddMigrationContext".
Definition registerGoFuncNameNoTxContext : string := "AddMigrationNoTxContext".

Record goMigration := mkGoMigration {
  gf_name : string; gf_useTx : option bool; gf_upFuncName : string; gf_downFuncName : string }.

(** What the switch on a function's name finds: whether it uses a transaction. *)
Definition register_func (funcName : string) : option bool :=
  if String.eqb funcName registerGoFuncName || String.eqb funcName registerGoFuncNameContext then Some true
  else if String.eqb funcName registerGoFuncNameNoTx || String.eqb funcName registerGoFuncNameNoTxContext
  then Some false else None.

Definition getNameFromExpr (expr : Expr) : result string :=
  match expr with
  | Ident name => inl name
  | _ => inr (EErrorf "failed to assert argument identifier: got %T" [])
  end.

(** The body of the loop, for a call of a registration function. *)
Definition register_call (gf : goMigration) (funcName : string) (useTx : bool) (args : list Expr)
  : result goMigration :=
  if negb (String.eqb (gf_name gf) "") then
    inr (EErrorf "found duplicate registered functions:
previous: %v
current: %v" [AStr (gf_name gf); AStr funcName])
  else match args with
       | [up; down] =>
           let? upName := getNameFromExpr up in
           let? downName := getNameFromExpr down in
           inl (mkGoMigration funcName (Some useTx) upName downName)
       | _ => inr (EErrorf "registered goose functions have 2 arguments: got %d" [AInt (Z.of_nat (length args))])
       end.

Fixpoint init_loop (gf : goMigration) (body : list Stmt) : result goMigration :=
  match body with
  | [] => inl gf
  | ExprStmt (CallExpr (SelectorExpr _ funcName) args) :: body =>
      match register_func funcName with
      | None => init_loop gf body
      | Some useTx => let? gf := register_call gf funcName useTx args in init_loop gf body
      end
  | _ :: body => init_loop gf body
  end.

(** The validation at the end. *)
Definition validate_init (gf : goMigration) : result goMigration :=
  match register_func (gf_name gf) with
  | None => inr (EErrorf "goose register function must be one of: %s"
      [AStr (Join [registerGoFuncName; registerGoFuncNameNoTx; registerGoFuncNameContext;
                   registerGoFuncNameNoTxContext] ", ")])
  | Some _ =>
      if is_nil (gf_useTx gf) then
        inr (errors_New "validation error: failed to identify transaction: got nil bool")
      else if String.eqb (gf_upFuncName gf) "" then
        inr (errors_New "validation error: up function is empty string")
      else if String.eqb (gf_downFuncName gf) "" then
        inr (errors_New "validation error: down function is empty string")
      else inl gf
  end.

Definition parseInitFunc (fd : FuncDecl) : result goMigration :=
  match fd_Body fd with
  | None => inr (errors_New "no function body")
  | Some [] => inr (errors_New "no registered goose functions")
  | Some body => let? gf := init_loop (mkGoMigration "" None "" "") body in validate_init gf
  end.

(** The loop over the declarations. *)
Fixpoint init_decl (decls : list Decl) : option FuncDecl :=
  match decls with
  | [] => None
  | DFunc fn :: decls => if String.eqb (fd_Name fn) "init" then Some fn else init_decl decls
  | OtherDecl :: decls => init_decl decls
  end.

Section Gather.
Context (ParseFile : string → result (list Decl)) (interpolate : string → result string).

(** [io.ReadAll]. *)
Definition ReadAll (r : Reader) : result string :=
  match r_err r with Some e => inr e | None => inl (r_bytes r) end.

Definition parseGoFile (r : Reader) : result goMigration :=
  let? src := ReadAll r in
  let? decls := ParseFile src in
  match init_decl decls with
  | Some fn => parseInitFunc fn
  | None => inr (errors_New "no init function")
  end.

(** ** SQL files (migration_sql.go) *)

Record sql_stats := mkSqlStats { st_useTx : bool; st_upCount : nat; st_downCount : nat }.

Definition parseSQLFile (r : Reader) : result sql_stats :=
  let? bytes := ReadAll r in
  let? (upStatements, txUp) := ParseSQLMigration interpolate (mkReader bytes None) DirectionUp in
  let? (downStatements, txDown) := ParseSQLMigration interpolate (mkReader bytes None) DirectionDown in
  if negb (Bool.eqb txUp txDown)
  then inr (errors_New "up and down statements must have the same transaction mode")
  else inl (mkSqlStats txUp (length upStatements) (length downStatements)).

(** ** All files (migrationstats.go, migrationstats_walker.go) *)

Record Stats := mkStats {
  s_FileName : string; s_Version : Z; s_Tx : bool; s_UpCount : nat; s_DownCount : nat }.

Definition nilAsNumber (s : string) : nat := if negb (String.eqb s "nil") then 1 else 0.

(** The function that [GatherStats] has called on every file. *)
Definition file_stats (filename : string) (r : Reader) : result Stats :=
  match NumericComponent filename with
  | inr err => inr (EErrorf "failed to get version from file %q: %w" [AStr filename; AWrap err])
  | inl version =>
      if String.eqb (filepath_Ext filename) ".sql" then
        match parseSQLFile r with
        | inr err => inr (EErrorf "failed to parse file %q: %w" [AStr filename; AWrap err])
        | inl m => inl (mkStats filename version (st_useTx m) (st_upCount m) (st_downCount m))
        end
      else if String.eqb (filepath_Ext filename) ".go" then
        match parseGoFile r with
        | inr err => inr (EErrorf "failed to parse file %q: %w" [AStr filename; AWrap err])
        | inl m => inl (mkStats filename version (default false (gf_useTx m))
                     (nilAsNumber (gf_upFuncName m)) (nilAsNumber (gf_downFuncName m)))
        end
      else inl (mkStats filename version false 0 0)
  end.

(** What [os.Open] does is a parameter. *)
Context (os_Open : FS).

Definition walk {A} (filename : string) (fn : string → Reader → result A) : result A :=
  let? file := os_Open filename in fn filename file.1.

(** [Walk], with what the calls of [fn] append to the result. *)
Fixpoint Walk {A} (fn : string → Reader → result A) (filenames : list string) : result (list A) :=
  match filenames with
  | [] => inl []
  | filename :: filenames =>
      let ext := filepath_Ext filename in
      if negb (String.eqb ext ".sql") && negb (String.eqb ext ".go") then Walk fn filenames
      else
        let? s := walk filename fn in
        let? rest := Walk fn filenames in
        inl (s :: rest)
  end.

Definition GatherStats (filenames : list string) : result (list Stats) := Walk file_stats filenames.

End Gather.

(** ** What is read off an [init] function *)

(** The calls of registration functions among its statements. *)
Definition registration (s : Stmt) : option (string * bool * list Expr) :=
  match s with
  | ExprStmt (CallExpr (SelectorExpr _ funcName) args) =>
      match register_func funcName with Some useTx => Some (funcName, useTx, args) | None => None end
  | _ => None
  end.

Definition registrations (body : list Stmt) : list (string * bool * list Expr) := omap registration body.

Lemma register_error e l :
  foldl (λ gf r, let? gf := gf in register_call gf r.1.1 r.1.2 r.2) (inr e) l = inr e.
Proof. by induction l. Qed.

Lemma init_loop_registrations body gf : init_loop gf body =
  foldl (λ gf r, let? gf := gf in register_call gf r.1.1 r.1.2 r.2) (inl gf) (registrations body).
Proof.
  revert gf. induction body as [|s body IH]; intros gf; [done|]. unfold registrations. cbn [omap list_omap].
  destruct s as [[|? ?|[|? f|? ?|] args|]|]; cbn [registration init_loop]; try apply IH.
  destruct (register_func f) as [useTx|]; [|apply IH]. cbn [foldl fst snd rbind].
  destruct (register_call gf f useTx args); cbn [rbind]; [apply IH|]. by rewrite register_error.
Qed.

Lemma registrations_named body f useTx args :
  (f, useTx, args) ∈ registrations body → register_func f = Some useTx ∧ f ≠ "".
Proof.
  unfold registrations. intros (s & _ & Hs)%list_elem_of_omap.
  destruct s as [[|? ?|[|? g|? ?|] args'|]|]; try done. cbn in Hs.
  destruct (register_func g) as [b|] eqn:Hr; [|done]. injection Hs as -> -> ->. split; [done|]. by intros ->.
Qed.

(** Exactly one registration, of two named functions. *)
Definition registers (body : list Stmt) (gf : goMigration) : Prop := ∃ f useTx up down,
  registrations body = [(f, useTx, [Ident up; Ident down])] ∧ up ≠ "" ∧ down ≠ "" ∧
  gf = mkGoMigration f (Some useTx) up down.

Lemma parse_registrations body gf :
  (let? gf := init_loop (mkGoMigration "" None "" "") body in validate_init gf) = inl gf ↔ registers body gf.
Proof.
  rewrite init_loop_registrations. unfold registers. pose proof (registrations_named body) as Hnamed.
  destruct (registrations body) as [|[[f useTx] args] [|[[f' useTx'] args'] rs]]; cbn [foldl rbind fst snd].
  - split; [done|naive_solver].
  - destruct (Hnamed f useTx args) as [Hr Hf]; [by left|]. unfold register_call. cbn [gf_name String.eqb negb].
    split.
    + destruct args as [|[up| | |] [|[down| | |] [|? ?]]]; try done. cbn [getNameFromExpr rbind].
      unfold validate_init. cbn [gf_name gf_useTx gf_upFuncName gf_downFuncName is_nil]. rewrite Hr.
      destruct (String.eqb_spec up ""); [done|]. destruct (String.eqb_spec down ""); [done|]. intros [= <-].
      by exists f, useTx, up, down.
    + intros (? & ? & up & down & [= <- <- ->] & Hup & Hdown & ->). cbn [getNameFromExpr rbind].
      unfold validate_init. cbn [gf_name gf_useTx gf_upFuncName gf_downFuncName is_nil]. rewrite Hr.
      by rewrite (proj2 (String.eqb_neq up "")), (proj2 (String.eqb_neq down "")).
  - split; [|naive_solver]. destruct (Hnamed f useTx args) as [_ Hf]; [by left|].
    unfold register_call at 2. cbn [gf_name String.eqb negb].
    destruct args as [|up [|down [|? ?]]]; cbn [rbind]; try (by rewrite register_error).
    destruct (getNameFromExpr up); cbn [rbind]; [|by rewrite register_error].
    destruct (getNameFromExpr down); cbn [rbind]; [|by rewrite register_error].
    unfold register_call at 2. cbn [gf_name]. rewrite (proj2 (String.eqb_neq f "") Hf). cbn [negb]. by rewrite register_error.
Qed.

Lemma parseInitFunc_registers fd gf :
  parseInitFunc fd = inl gf ↔ ∃ body, fd_Body fd = Some body ∧ registers body gf.
Proof.
  unfold parseInitFunc. destruct (fd_Body fd) as [[|s body]|]; [| |naive_solver].
  - split; [done|]. by intros (? & [= <-] & ? & ? & ? & ? & ? & _).
  - rewrite parse_registrations. naive_solver.
Qed.

Section GatherSpec.
Context (ParseFile : string → result (list Decl)) (interpolate : string → result string).

(** The transaction modes of both directions are those of the file. *)
Lemma parseSQLFile_counts r m : parseSQLFile interpolate r = inl m ↔
  r_err r = None ∧ ∃ ups downs,
    ParseSQLMigration interpolate (mkReader (r_bytes r) None) DirectionUp = inl (ups, st_useTx m) ∧
    ParseSQLMigration interpolate (mkReader (r_bytes r) None) DirectionDown = inl (downs, st_useTx m) ∧
    st_upCount m = length ups ∧ st_downCount m = length downs.
Proof.
  unfold parseSQLFile, ReadAll. destruct (r_err r); cbn [rbind]; [naive_solver|].
  pose proof (useTx_agree interpolate (mkReader (r_bytes r) None)) as Hagree.
  destruct (ParseSQLMigration interpolate _ DirectionUp) as [[ups tx]|e]; cbn [rbind]; [|naive_solver].
  destruct (ParseSQLMigration interpolate _ DirectionDown) as [[downs tx']|e]; cbn [rbind]; [|naive_solver].
  rewrite <- (Hagree _ _ _ _ eq_refl eq_refl), eqb_reflx. cbn [negb]. split.
  - intros [= <-]. split; [done|]. by exists ups, downs.
  - intros (_ & ? & ? & [= -> ->] & [= ->] & Hu & Hd). destruct m. cbn in *. by subst.
Qed.

(** What is said of one file. *)
Definition stats_of (filename : string) (r : Reader) (s : Stats) : Prop :=
  s_FileName s = filename ∧ NumericComponent filename = inl (s_Version s) ∧
  (filepath_Ext filename = ".sql" → ∃ ups downs,
     ParseSQLMigration interpolate (mkReader (r_bytes r) None) DirectionUp = inl (ups, s_Tx s) ∧
     ParseSQLMigration interpolate (mkReader (r_bytes r) None) DirectionDown = inl (downs, s_Tx s) ∧
     s_UpCount s = length ups ∧ s_DownCount s = length downs) ∧
  (filepath_Ext filename = ".go" → ∃ decls fn body gf,
     ParseFile (r_bytes r) = inl decls ∧ init_decl decls = Some fn ∧ fd_Body fn = Some body ∧
     registers body gf ∧ gf_useTx gf = Some (s_Tx s) ∧
     s_UpCount s = nilAsNumber (gf_upFuncName gf) ∧ s_DownCount s = nilAsNumber (gf_downFuncName gf)).

Lemma file_stats_of filename r s : file_stats ParseFile interpolate filename r = inl s → stats_of filename r s.
Proof.
  unfold file_stats, stats_of. destruct (NumericComponent filename) as [v|e]; [|done].
  destruct (String.eqb_spec (filepath_Ext filename) ".sql") as [He|He].
  - destruct (parseSQLFile interpolate r) as [m|e] eqn:Hm; [|done]. intros [= <-]. cbn.
    apply parseSQLFile_counts in Hm as (_ & ups & downs & ? & ? & ? & ?). rewrite He.
    split_and!; [done|done|intros _; by exists ups, downs|done].
  - destruct (String.eqb_spec (filepath_Ext filename) ".go") as [Hg|Hg]; [|intros [= <-]; by split_and!].
    destruct (parseGoFile ParseFile r) as [m|e] eqn:Hm; [|done]. intros [= <-]. cbn.
    split_and!; [done|done|done|]. intros _. unfold parseGoFile, ReadAll in Hm. destruct (r_err r); [done|].
    cbn [rbind] in Hm. destruct (ParseFile (r_bytes r)) as [decls|]; [|done]. cbn [rbind] in Hm.
    destruct (init_decl decls) as [fn|] eqn:Hfn; [|done].
    apply parseInitFunc_registers in Hm as (body & Hbody & Hreg). exists decls, fn, body, m. split_and!; try done.
    by destruct Hreg as (f & useTx & up & down & _ & _ & _ & ->).
Qed.

Context (os_Open : FS).

(** [GatherStats], when it succeeds, has one entry for every .sql and .go
    file in their order: with the version of the file's name; for SQL the
    numbers of statements of both directions and the transaction mode they
    share, so the check that the modes agree never fails; for Go what the only
    registration in the first [init] function says. *)
Theorem GatherStats_spec filenames stats :
  GatherStats ParseFile interpolate os_Open filenames = inl stats →
  Forall2 (λ filename s, ∃ file, os_Open filename = inl file ∧ stats_of filename file.1 s)
    (filter (λ f, filepath_Ext f = ".sql" ∨ filepath_Ext f = ".go") filenames) stats.
Proof.
  unfold GatherStats. revert stats. induction filenames as [|f fs IH]; intros stats; cbn [Walk]; [intros [= <-]; constructor|].
  destruct (negb _ && negb _) eqn:He.
  - intros Hs. rewrite filter_cons_False; [by apply IH|]. apply andb_prop in He as [H1 H2].
    intros [Hx|Hx]; rewrite Hx in *; done.
  - unfold walk. destruct (os_Open f) as [file|e] eqn:Ho; cbn [rbind]; [|done].
    destruct (file_stats ParseFile interpolate f file.1) as [s|e] eqn:Hf; cbn [rbind]; [|done].
    destruct (Walk _ _ fs) as [rest|e]; cbn [rbind]; [|done]. intros [= <-].
    rewrite filter_cons_True.
    + constructor; [exists file; by split; [|apply file_stats_of]|by apply IH].
    + apply andb_false_iff in He as [?%negb_false_iff%String.eqb_eq|?%negb_false_iff%String.eqb_eq]; auto.
Qed.

End GatherSpec.

(** ** A concrete run *)

Definition sample_go_decls : list Decl :=
  [OtherDecl; DFunc (mkFuncDecl "init" (Some
    [OtherStmt; ExprStmt (CallExpr (SelectorExpr (Ident "goose") "AddMigrationNoTx") [Ident "up"; Ident "nil"])]))].

Definition sample_open : FS := λ name,
  inl (mkReader (if HasSuffix name ".sql" then unlines ["-- +goose Up"; "SELECT 1;"; "SELECT 2;"] else "") None, None).

Lemma GatherStats_spec_witness :
  Forall2 (λ filename s, ∃ file, sample_open filename = inl file ∧
      stats_of (λ _, inl sample_go_decls) inl filename file.1 s)
    (filter (λ f, filepath_Ext f = ".sql" ∨ filepath_Ext f = ".go") ["00001_a.sql"; "README"; "00002_b.go"])
    [mkStats "00001_a.sql" 1 true 2 0; mkStats "00002_b.go" 2 false 1 0].
Proof.
  pose proof (GatherStats_spec (λ _, inl sample_go_decls) inl sample_open ["00001_a.sql"; "README"; "00002_b.go"]
    [mkStats "00001_a.sql" 1 true 2 0; mkStats "00002_b.go" 2 false 1 0] ltac:(by vm_compute)) as Hc.
  exact Hc.
Defined.
