(* ===== verification/Cli.v ===== *)
(** * The command line tool (cmd/goose)

    [main] with the flags as parsed and the environment as a function: which
    command is run, on which directory, table and database.  What is printed is
    part of the result; an error is one that [log.Fatalf] ends the process
    with.  The packages that load .env files, parse MySQL connection strings and
    load certificates, and the drivers, are parameters. *)

From S2P Require Import Prelude GoStrings Effects SqlParser Sql Dialects Store Migration Options.
From S2P Require Import Collect LegacyStore Legacy LegacyRun Names Files Stats.

(** ** Flags and environment *)

Definition DefaultMigrationDir : string := ".".

Record flagset := mkFlags {
  fl_dir : string; fl_table : string; fl_verbose : bool; fl_help : bool; fl_version : bool;
  fl_certfile : string; fl_sequential : bool; fl_allowMissing : bool; fl_sslcert : string;
  fl_sslkey : string; fl_noVersioning : bool; fl_noColor : bool; fl_envFile : string;
  fl_Args : list string
}.

Record envConfig := mkEnvConfig {
  ec_driver : string; ec_dbstring : string; ec_dir : string; ec_table : string; ec_noColor : bool }.

Definition Getenv : Type := string → string.

Definition envOr (getenv : Getenv) (key def : string) : string :=
  let val := getenv key in if String.eqb val "" then def else val.

(** [strconv.ParseBool]; the caller ignores the error, which comes with false. *)
Definition ParseBool (s : string) : bool :=
  existsb (String.eqb s) ["1"; "t"; "T"; "true"; "TRUE"; "True"].

Definition loadEnvConfig (getenv : Getenv) : envConfig :=
  let noColorBool := ParseBool (envOr getenv "NO_COLOR" "false") in
  {| ec_driver := envOr getenv "GOOSE_DRIVER" "";
     ec_dbstring := envOr getenv "GOOSE_DBSTRING" "";
     ec_table := envOr getenv "GOOSE_TABLE" "";
     ec_dir := envOr getenv "GOOSE_MIGRATION_DIR" DefaultMigrationDir;
     ec_noColor := noColorBool |}.

Definition listEnvs (c : envConfig) : list (string * string) :=
  [("GOOSE_DRIVER", ec_driver c); ("GOOSE_DBSTRING", ec_dbstring c); ("GOOSE_MIGRATION_DIR", ec_dir c);
   ("GOOSE_TABLE", ec_table c); ("NO_COLOR", if ec_noColor c then "true" else "false")].

Fixpoint firstNonEmpty (values : list string) : string :=
  match values with
  | [] => ""
  | v :: values => if negb (String.eqb v "") then v else firstNonEmpty values
  end.

(** [args[0]] is there in the second step: the list is not empty. *)
Definition mergeArgs (config : envConfig) (args : list string) : list string :=
  match args with
  | [] => args
  | _ =>
      let args := if negb (String.eqb (ec_driver config) "") then ec_driver config :: args else args in
      match args with
      | first :: rest =>
          if negb (String.eqb (ec_dbstring config) "") then first :: ec_dbstring config :: rest else args
      | [] => args
      end
  end.

(** [sort.Strings]. *)
Definition sort_Strings (l : list string) : list string := merge_sort string_le l.

(** The part of a driver's name before a slash. *)
Definition driver_group (driver : string) : string := (Cut driver "/").1.1.

(** The order in which the map is visited is lost by sorting. *)
Definition mergeDrivers (drivers : list string) : list string :=
  let driverMap : gmap string (list string) :=
    foldl (λ m driver, <[driver_group driver := default [] (m !! driver_group driver) ++ [driver]]> m) ∅ drivers in
  sort_Strings (map (λ kv, Join (sort_Strings kv.2) ", ") (map_to_list driverMap)).

(** ** The file system *)

(** The paths of a directory and of those above it, the outermost first. *)
Fixpoint prefixes (before s : string) : list string :=
  match s with
  | EmptyString => [before]
  | String c s' =>
      (if Ascii.eqb c "/" && negb (String.eqb before "") then [before] else [])
      ++ prefixes (before +++ String c "") s'
  end.

Fixpoint mkdir_each (paths : list string) : M OS unit :=
  match paths with
  | [] => mret tt
  | p :: paths =>
      os ← gets (λ os, os);
      match os_fault os p with
      | Some e => fail e
      | None =>
          if bool_decide (p ∈ dom (os_files os)) then fail (errors_New "not a directory")
          else modify (λ os, mkOS (os_files os) ({[p]} ∪ os_dirs os) (os_fault os));; mkdir_each paths
      end
  end.

Definition os_MkdirAll (path : string) : M OS unit := mkdir_each (prefixes "" (path_Clean path)).

(** The template of [goose init]. *)
Definition initMigrationTemplate : Template := λ _,
  ("-- Thank you for giving goose a try!
-- 
-- This file was automatically created running goose init. If you're familiar with goose
-- feel free to remove/rename this file, write some SQL and goose up. Briefly,
-- 
-- Documentation can be found here: https://pressly.github.io/goose
--
-- A single goose .sql file holds both Up and Down migrations.
-- 
-- All goose .sql files are expected to have a -- +goose Up annotation.
-- The -- +goose Down annotation is optional, but recommended, and must come after the Up annotation.
-- 
-- The -- +goose NO TRANSACTION annotation may be added to the top of the file to run statements 
-- outside a transaction. Both Up and Down migrations within this file will be run without a transaction.
-- 
-- More complex statements that have semicolons within them must be annotated with 
-- the -- +goose StatementBegin and -- +goose StatementEnd annotations to be properly recognized.
-- 
-- Use GitHub issues for reporting bugs and requesting features, enjoy!

-- +goose Up
SELECT 'up SQL query';

-- +goose Down
SELECT 'down SQL query';
", None).

(** What [main] prints. *)
Inductive printed :=
  | PNothing
  | PVersion
  | PUsage
  | PEnv (envs : list (string * string))
  | PStats (stats : list Stats)
  | PDrivers (drivers : list string).

(** The rows of what is printed, the columns not yet aligned: the table of
    validate, the drivers, the environment. *)
Definition TrimPrefix (s p : string) : string :=
  if HasPrefix s p then substring (String.length p) (String.length s) s else s.

Definition stats_row (m : Stats) : list string :=
  [TrimPrefix (filepath_Ext (s_FileName m)) "."; if s_Tx m then "✔" else "✘";
   FormatInt (Z.of_nat (s_UpCount m)); FormatInt (Z.of_nat (s_DownCount m)); filepath_Base (s_FileName m)].

Definition validate_table (stats : list Stats) : list (list string) :=
  ["Type"; "Txn"; "Up"; "Down"; "Name"] :: ["────"; "───"; "──"; "────"; "────"] :: map stats_row stats.

Definition printDrivers (drivers : list string) : list (list string) :=
  match drivers with
  | [] => [["No drivers found"]]
  | _ => ["Available drivers:"] :: map (λ driver, ["  " +++ driver]) drivers
  end.

(** [main] returns, or it exits with a status after printing. *)
Inductive exit := Returned (p : printed) | Exited (status : Z) (p : printed).

(** ** MySQL connection strings (driver_mysql.go) *)

(** Certificates (crypto/x509, crypto/tls) and the driver's configuration
    (go-sql-driver/mysql). *)
Class MySQLDriver := {
  Certificate : Type;
  AppendCertsFromPEM : string → bool;
  LoadX509KeyPair : string → string → result Certificate;
  mysql_RegisterTLSConfig : string → string → list Certificate → option error;
  MySQLConfig : Type;
  mysql_ParseDSN : string → result MySQLConfig;
  set_ParseTime : bool → MySQLConfig → MySQLConfig;
  set_TLSConfig : string → MySQLConfig → MySQLConfig;
  FormatDSN : MySQLConfig → string
}.

Definition tlsConfigKey : string := "custom".

Definition normalizeMySQLDSN `{MySQLDriver} (dsn : string) (tls : bool) : result string :=
  let? config := mysql_ParseDSN dsn in
  let config := set_ParseTime true config in
  let config := if tls then set_TLSConfig tlsConfigKey config else config in
  inl (FormatDSN config).

Definition os_ReadFile (os : OS) (name : string) : result string :=
  let? file := os_Open os name in
  match r_err file.1 with Some e => inr e | None => inl (r_bytes file.1) end.

Definition registerTLSConfig `{MySQLDriver} (os : OS) (pemfile sslcert sslkey : string) : option error :=
  match os_ReadFile os pemfile with
  | inr err => Some err
  | inl pem =>
      if negb (AppendCertsFromPEM pem) then Some (EErrorf "failed to append PEM: %q" [AStr pemfile])
      else if negb (String.eqb sslcert "") && negb (String.eqb sslkey "") then
        match LoadX509KeyPair sslcert sslkey with
        | inr err => Some (EErrorf "failed to load x509 keypair: %w" [AWrap err])
        | inl cert => mysql_RegisterTLSConfig tlsConfigKey pem [cert]
        end
      else mysql_RegisterTLSConfig tlsConfigKey pem []
  end.

Section Main.
Context {D : Type} `{Driver D, Multierr, OtherOS, Unicode, MySQLDriver}.
Context (goFn : Z → DBTxConn → M (DB D) unit) (interpolate : string → result string).
Context (range : registry → list (Z * Migration)) (ParseFile : string → result (list Decl)).
(** godotenv: the environment with a file, or with the default file, loaded. *)
Context (godotenv_Load : option string → Getenv → result Getenv).
(** The drivers. *)
Context (sql_Open : string → string → result (DB D)) (sql_Drivers : list string).

Definition load_env (envFile : string) (getenv : Getenv) : result Getenv :=
  if String.eqb envFile "" then
    match godotenv_Load None getenv with inl getenv' => inl getenv' | inr _ => inl getenv end
  else if String.eqb envFile "none" then inl getenv
  else match godotenv_Load (Some envFile) getenv with
       | inl getenv' => inl getenv'
       | inr err => inr (EErrorf "failed to load env file: %v" [AErr err])
       end.

Definition normalizeDBString (os : OS) (driver str certfile sslcert sslkey : string) : result string :=
  if String.eqb driver "mysql" then
    let isTLS := negb (String.eqb certfile "") in
    match (if isTLS then registerTLSConfig os certfile sslcert sslkey else None) with
    | Some err => inr (EErrorf "goose run: %v" [AErr err])
    | None =>
        match normalizeMySQLDSN str isTLS with
        | inr err => inr (EErrorf "failed to normalize MySQL connection string: %v" [AErr err])
        | inl str => inl str
        end
    end
  else inl str.

(** The certificate and the key of the client alone do nothing. *)
Lemma normalizeDBString_needs_certfile os driver str sslcert sslkey :
  normalizeDBString os driver str "" sslcert sslkey = normalizeDBString os driver str "" "" "".
Proof. done. Qed.

Definition gooseInit (now dir : string) : M (OW D) unit :=
  let dir := if String.eqb dir "" || String.eqb dir DefaultMigrationDir then "migrations" else dir in
  err ← gets (λ w, os_Stat (o_os w) dir);
  match err with
  | None => fail (EErrorf "directory already exists: %s" [AStr dir])
  | Some err =>
      if errors_Is err fs_ErrNotExist then
        liftf (os_MkdirAll dir);;
        CreateWithTemplate range now dir (Some initMigrationTemplate) "initial" "sql"
      else fail err
  end.

Definition gatherFilenames (os : OS) (filename : string) : result (list string) :=
  match os_Stat os filename with
  | Some err => inr err
  | None =>
      let? filenames :=
        (if bool_decide (path_Clean filename ∈ os_dirs os) then
           let? sqls := os_Glob os (path_Join filename "*.sql") in
           let? gos := os_Glob os (path_Join filename "*.go") in
           inl (sqls ++ gos)
         else inl [filename]) in
      inl (sort_Strings filenames)
  end.

Definition printValidate (os : OS) (filename : string) (verbose : bool) : result printed :=
  let? filenames := gatherFilenames os filename in
  let? stats := GatherStats ParseFile interpolate (os_Open os) filenames in
  if negb verbose then inl PNothing else inl (PStats stats).

(** [log.Fatalf] with a prefix. *)
Definition fatal {A} (format : string) (m : M (OW D) A) : M (OW D) A :=
  wrap_err (λ err, EErrorf format [AErr err]) m.

(** The commands that need no database; [None] for the others. *)
Definition main_local (now : string) (flags : flagset) (env : envConfig) (dir command : string)
    (rest : list string) (run_local : string → list string → M (OW D) (option unit)) : option (M (OW D) exit) :=
  if String.eqb command "init" then
    Some (fatal "goose run: %v" (gooseInit now dir);; mret (Returned PNothing))
  else if String.eqb command "create" then
    Some (fatal "goose run: %v" (run_local "create" rest);; mret (Returned PNothing))
  else if String.eqb command "fix" then
    Some (fatal "goose run: %v" (run_local "fix" []);; mret (Returned PNothing))
  else if String.eqb command "env" then Some (mret (Returned (PEnv (listEnvs env))))
  else if String.eqb command "validate" then
    Some (os ← gets o_os;
          p ← fatal "goose validate: %v" (of_result (printValidate os dir (fl_verbose flags)));
          mret (Returned p))
  else if String.eqb command "beta" then
    Some (match rest with
          | [] => mret (Exited 1 PNothing)
          | sub :: _ =>
              mret (Returned (if String.eqb sub "drivers" then PDrivers (mergeDrivers sql_Drivers) else PNothing))
          end)
  else None.

(** The options given by flags and environment. *)
Definition main_options (flags : flagset) (env : envConfig) : list OptionsFunc :=
  (if fl_noColor flags || ec_noColor env then [WithNoColor true] else [])
  ++ (if fl_allowMissing flags then [WithAllowMissing] else [])
  ++ (if fl_noVersioning flags then [WithNoVersioning] else []).

Definition set_db (db : DB D) : M (OW D) unit := modify (λ w, set_olw (set_ldb db (o_lw w)) w).

(** The global store of the package is PostgreSQL's until [SetDialect] is called. *)
Definition main (fuel : nat) (now : string) (flags : flagset) (getenv : Getenv) : M (OW D) exit :=
  if fl_version flags then mret (Returned PVersion)
  else
    getenv ← of_result (load_env (fl_envFile flags) getenv);
    let env := loadEnvConfig getenv in
    (if fl_sequential flags then SetSequential true else mret tt);;
    let table := firstNonEmpty [fl_table flags; ec_table env; DefaultTablename] in
    if fl_help flags then mret (Returned PUsage)
    else
      let dir := if String.eqb (fl_dir flags) DefaultMigrationDir && negb (String.eqb (ec_dir env) "")
                 then ec_dir env else fl_dir flags in
      match fl_Args flags with
      | [] => mret (Exited 1 PUsage)
      | first :: rest =>
          let run_with querier command args options :=
            run goFn interpolate range osFS querier table fuel now command dir args options in
          match main_local now flags env dir first rest
                  (λ command args, run_with NewPostgres command args []) with
          | Some m => m
          | None =>
              match mergeArgs env (first :: rest) with
              | driver :: dbstring :: command :: arguments =>
                  os ← gets o_os;
                  dsn ← of_result (normalizeDBString os driver dbstring (fl_certfile flags) (fl_sslcert flags) (fl_sslkey flags));
                  opened ← fatal "-dbstring=%q: %v"
                    (of_result (let? sd := OpenDBWithDriver driver in let? db := sql_Open sd.2 dsn in inl (sd.1, db)));
                  set_db opened.2;;
                  fatal "goose run: %v" (run_with opened.1 command arguments (main_options flags env));;
                  mret (Returned PNothing)
              | _ => mret (Exited 1 PUsage)
              end
          end
      end.

End Main.
