(* ===== verification/CliSpec.v ===== *)
(** * What the command line tool does to files

    [goose init] makes a directory with one migration in it, which the parser
    rejects; the commands that only look at migrations change nothing. *)

From S2P Require Import Prelude GoStrings Effects SqlParser Sql Dialects Store Migration Options.
From S2P Require Import Collect LegacyStore Legacy LegacyRun Names Files Paths Directory FilesSpec Stats Cli.

(** Every file and directory is in a directory. *)
Definition os_closed (os : OS) : Prop := ∀ p, in_os p os → path_Dir p ∈ os_dirs os.

Lemma length_app_string a b : String.length (a +++ b) = (String.length a + String.length b)%nat.
Proof. induction a as [|c a IH]; [done|]. cbn. by rewrite IH. Qed.

Lemma prefixes_length before s p : p ∈ prefixes before s → (String.length p ≤ String.length before + String.length s)%nat.
Proof.
  revert before. induction s as [|c s IH]; intros before; cbn [prefixes].
  - intros ->%list_elem_of_singleton. lia.
  - intros [Hp|Hp]%elem_of_app.
    + destruct (_ && _); [apply list_elem_of_singleton in Hp as ->; lia|by apply not_elem_of_nil in Hp].
    + apply IH in Hp. rewrite length_app_string in Hp. cbn in *. lia.
Qed.

Lemma mkdir_each_ok paths (os os' : OS) : mkdir_each paths os = (Ok tt, os') →
  os_files os' = os_files os ∧ os_fault os' = os_fault os ∧ os_dirs os' = list_to_set paths ∪ os_dirs os ∧
  ∀ p, p ∈ paths → os_fault os p = None.
Proof.
  revert os. induction paths as [|p paths IH]; intros os; cbn [mkdir_each].
  { intros [= <-]. split_and!; [done|done|set_solver|by intros p ?%elem_of_nil]. }
  rewrite bind_eq. unfold gets. destruct (os_fault os p) eqn:Hp; [done|]. destruct (bool_decide _); [done|].
  rewrite bind_eq. unfold modify. intros (Hf & Ha & Hd & Hfault)%IH. cbn [os_files os_dirs os_fault] in *.
  split_and!; [done|done| |by intros q [->|Hq]%elem_of_cons; [|apply Hfault]]. rewrite Hd. cbn [list_to_set]. set_solver.
Qed.

Lemma prefixes_last before s : before +++ s ∈ prefixes before s.
Proof.
  revert before. induction s as [|c s IH]; intros before; cbn [prefixes].
  - rewrite string_app_nil. by left.
  - apply elem_of_app. right. specialize (IH (before +++ String c "")). by rewrite append_assoc in IH.
Qed.

Section Init.
Context {D : Type} `{OtherOS, UnicodeLaws} (range : registry → list (Z * Migration)) (Hrange : range_ok range).

(** A line of the template's comment looks like an annotation. *)
Lemma init_template_rejected interpolate vars direction :
  ∃ e, ParseSQLMigration interpolate (mkReader (initMigrationTemplate vars).1 None) direction = inr e.
Proof. destruct direction; eexists; vm_compute; reflexivity. Qed.

(** A directory that is not there has no entries. *)
Lemma fresh_dir_empty dir os n : path_Clean dir = dir → os_closed os → dir ∉ os_dirs os → entry_name n = true →
  ¬ in_os (dir_prefix dir +++ n) os.
Proof. intros Hc Hcl Hd Hn Hin. apply Hcl in Hin. by rewrite path_Dir_prefix in Hin. Qed.

Lemma made_dir_empty dir os os1 n : path_Clean dir = dir → dir ≠ "." → os_closed os → dir ∉ os_dirs os →
  os_MkdirAll dir os = (Ok tt, os1) → entry_name n = true → ¬ in_os (dir_prefix dir +++ n) os1.
Proof.
  intros Hc Hdot Hcl Hd Hmk Hn Hin. apply mkdir_each_ok in Hmk as (Hf & _ & Hdirs & _). rewrite Hc in Hdirs.
  unfold in_os in Hin. rewrite Hf, Hdirs in Hin.
  assert (dir_prefix dir +++ n ∈ prefixes "" dir) as Hp.
  { destruct (decide (dir_prefix dir +++ n ∈ prefixes "" dir)) as [|Hno]; [done|].
    destruct (fresh_dir_empty dir os n Hc Hcl Hd Hn). unfold in_os. set_solver. }
  apply prefixes_length in Hp. rewrite length_app_string in Hp. cbn [String.length] in Hp.
  assert (n ≠ "") as Hne by by intros ->. assert (String.length n ≠ 0%nat) as Hln by by destruct n.
  assert (String.length dir ≤ String.length (dir_prefix dir))%nat as Hpre; [|lia].
  unfold dir_prefix. rewrite (proj2 (String.eqb_neq dir ".") Hdot).
  destruct (String.eqb_spec dir "/") as [->|]; [done|]. rewrite length_app_string. lia.
Qed.

(** The directory that [init] makes. *)
Definition init_dir (dir : string) : string :=
  if String.eqb dir "" || String.eqb dir DefaultMigrationDir then "migrations" else dir.

(** The version the file gets, in a directory without migrations. *)
Lemma fresh_version now dir (w w1 : OW D) s : path_Clean dir = dir → hasMeta dir = false → l_reg (o_lw w) = ∅ →
  (∀ vq, vq ∉ migration_files dir (o_os w)) →
  o_sequential w = true ∨ (∃ v, 1 ≤ v ≤ maxInt64 ∧ now = Sprintf_05v v) →
  choose_version range now dir w = (Ok s, w1) → ∃ v, 1 ≤ v ≤ maxInt64 ∧ s = Sprintf_05v v.
Proof.
  intros Hc Hm Hreg Hnone Hnow Hrun. destruct (o_sequential w) eqn:Hseq.
  - destruct (choose_version_run dir Hc Hm range Hrange now w s w1 Hseq Hreg Hrun) as (vs & _ & Hp & ->).
    destruct vs as [|vq vs]; [by exists 1|]. destruct (Hnone vq). rewrite <- Hp. by left.
  - destruct Hnow as [?|(v & Hv & ->)]; [done|]. unfold choose_version in Hrun. rewrite bind_eq in Hrun. unfold gets in Hrun.
    rewrite Hseq in Hrun. injection Hrun as <- _. by exists v.
Qed.

(** [CreateWithTemplate] in a directory without entries. *)
Lemma create_in_fresh tmpl now d (w w' : OW D) :
  path_Clean d = d → hasMeta d = false → l_reg (o_lw w) = ∅ → readable d (o_os w) = true →
  (∀ n, entry_name n = true → ¬ in_os (dir_prefix d +++ n) (o_os w)) →
  o_sequential w = true ∨ (∃ v, 1 ≤ v ≤ maxInt64 ∧ now = Sprintf_05v v) →
  CreateWithTemplate range now d (Some tmpl) "initial" "sql" w = (Ok tt, w') →
  ∃ vq vars, (∀ vq', vq' ∈ migration_files d (o_os w') ↔ vq' = vq) ∧
    os_files (o_os w') !! vq.2 = Some (tmpl vars).1.
Proof.
  intros Hc Hm Hreg Hr Hempty Hnow Hrun.
  assert (∀ vq, vq ∉ migration_files d (o_os w)) as Hnone.
  { intros [v q] (_ & _ & Hin & n & -> & Hn & _)%elem_of_migration_files. by apply (Hempty n Hn). }
  pose proof (Create_run range now d (Some tmpl) "initial" "sql" w) as Hcr. rewrite Hrun in Hcr.
  destruct Hcr as [_ Hcr]. destruct (Hcr eq_refl) as (s & Hs & _ & Hf & Hd & Hfa). clear Hcr.
  destruct (choose_version range now d w) as [r w1] eqn:Hv. cbn [fst] in Hs. subst r.
  destruct (fresh_version now d w w1 s Hc Hm Hreg Hnone Hnow Hv) as (v & Hbound & ->).
  destruct (created_name d v "initial" ".sql" Hbound (or_introl eq_refl) (or_introl eq_refl)) as (Hn & Hsrc & Hnum).
  set (n := Sprintf_05v v +++ "_" +++ snakeCase "initial" +++ ".sql") in *.
  change ("." +++ "sql") with ".sql" in Hf. fold n in Hf. rewrite path_Join_prefix, path_Clean_prefix in Hf by done.
  eexists (v, dir_prefix d +++ n), _. split.
  - intros vq. rewrite (migration_added d (o_os w) (o_os w') n _ v Hn Hsrc Hnum Hr Hf Hd Hfa vq).
    split; [by intros [Hin|]; [destruct (Hnone vq)|]|by right].
  - cbn [snd default] in *. by rewrite Hf, lookup_insert_eq.
Qed.

(** C38: [goose init], when it succeeds, makes a directory with exactly one
    migration and changes no file; but the parser rejects that migration, since
    a line of its explanation is taken for an annotation. *)
Theorem gooseInit_spec interpolate now dir (w w' : OW D) :
  let d := init_dir dir in
  path_Clean d = d → hasMeta d = false → os_closed (o_os w) → l_reg (o_lw w) = ∅ →
  o_sequential w = true ∨ (∃ v, 1 ≤ v ≤ maxInt64 ∧ now = Sprintf_05v v) →
  gooseInit range now dir w = (Ok tt, w') →
  ∃ vq content, (∀ vq', vq' ∈ migration_files d (o_os w') ↔ vq' = vq) ∧
    os_files (o_os w') !! vq.2 = Some content ∧
    (∀ direction, ∃ e, ParseSQLMigration interpolate (mkReader content None) direction = inr e) ∧
    ∀ p c, os_files (o_os w) !! p = Some c → os_files (o_os w') !! p = Some c.
Proof.
  intros d Hc Hm Hcl Hreg Hnow. unfold gooseInit. fold (init_dir dir). change (init_dir dir) with d.
  rewrite bind_eq. unfold gets. destruct (os_Stat (o_os w) d) as [err|] eqn:Hstat; [|done].
  destruct (errors_Is err fs_ErrNotExist); [|done]. rewrite bind_eq. unfold liftf at 1, zoom at 1.
  destruct (os_MkdirAll d (o_os w)) as [[[]|e|s|] os1] eqn:Hmk; try done. set (w1 := set_oos os1 w). intros Hrun.
  assert (d ≠ ".") as Hdot by (unfold d, init_dir, DefaultMigrationDir;
    destruct (String.eqb_spec dir ""), (String.eqb_spec dir "."); done).
  pose proof Hmk as Hmk'. apply mkdir_each_ok in Hmk' as (Hf & Hfa & Hd & Hfault).
  rewrite Hc in Hd, Hfault. pose proof (prefixes_last "" d) as Hlast. change ("" +++ d) with d in Hlast.
  specialize (Hfault d Hlast).
  assert (d ∉ os_dirs (o_os w)) as Hnew.
  { unfold os_Stat in Hstat. rewrite Hc, Hfault in Hstat. destruct (bool_decide_reflect (d ∈ dom (os_files (o_os w)) ∪ os_dirs (o_os w))); set_solver. }
  assert (readable d os1 = true) as Hr.
  { unfold readable. rewrite Hfa, Hfault, bool_decide_true; [done|]. rewrite Hd. set_solver. }
  destruct (create_in_fresh initMigrationTemplate now d w1 w' Hc Hm Hreg Hr) as (vq & vars & Hmig & Hcontent); [|done..|].
  { intros n Hn. by eapply made_dir_empty. }
  exists vq, (initMigrationTemplate vars).1. split_and!; [done|done|intros; apply init_template_rejected|].
  intros p c Hp. pose proof (Create_run range now d (Some initMigrationTemplate) "initial" "sql" w1) as Hcr.
  rewrite Hrun in Hcr. apply Hcr. cbn. by rewrite Hf.
Qed.

End Init.

(** ** Commands that look *)

(** Compares literal strings. *)
Ltac eval_eqb := repeat match goal with |- context [String.eqb ?a ?b] =>
  let c := eval vm_compute in (String.eqb a b) in
  match c with true => idtac | false => idtac end; change (String.eqb a b) with c end.

Section Looks.
Context {D : Type} `{Driver D, Multierr, OtherOS, Unicode, MySQLDriver}.
Context (goFn : Z → DBTxConn → M (DB D) unit) (interpolate : string → result string).
Context (range : registry → list (Z * Migration)) (ParseFile : string → result (list Decl)).
Context (godotenv_Load : option string → Getenv → result Getenv).
Context (sql_Open : string → string → result (DB D)) (sql_Drivers : list string).

(** Help, version and the commands env, validate and beta change neither files
    nor the database nor the registry. *)
Lemma main_looks fuel now flags getenv (w : OW D) :
  fl_version flags = true ∨ fl_help flags = true ∨
  (∃ command rest, fl_Args flags = command :: rest ∧ command ∈ ["env"; "validate"; "beta"]) →
  let w' := (main goFn interpolate range ParseFile godotenv_Load sql_Open
    sql_Drivers fuel now flags getenv w).2 in
  o_os w' = o_os w ∧ o_lw w' = o_lw w.
Proof.
  intros Hlook. unfold main. destruct (fl_version flags); [done|]. rewrite bind_eq. unfold of_result.
  destruct (load_env _ _ _) as [env|e]; [|done]. rewrite bind_eq.
  assert (∃ w1, (if fl_sequential flags then SetSequential true else mret tt) w = (Ok tt, w1) ∧
    o_os w1 = o_os w ∧ o_lw w1 = o_lw w) as (w1 & -> & Hos & Hlw).
  { destruct (fl_sequential flags); by eexists. }
  rewrite <- Hos, <- Hlw. destruct (fl_help flags); [done|]. destruct Hlook as [|[|(command & rest & -> & Hc)]]; [done..|].
  apply elem_of_cons in Hc as [->|[->|[->|Hc%elem_of_nil]%elem_of_cons]%elem_of_cons]; [| | |done].
  all: unfold main_local; eval_eqb; cbn zeta iota.
  - done.
  - rewrite bind_eq. unfold gets. rewrite bind_eq. unfold fatal, wrap_err, of_result.
    by destruct (printValidate _ _ _ _ _).
  - by destruct rest.
Qed.

End Looks.
