(* ===== verification/Logging.v ===== *)
(** * Logging (log.go, provider_run.go, migration_sql.go)

    The loggers of the package and of a provider, and what is printed in
    verbose mode, as lists of the calls that are made. *)

From S2P Require Import Prelude GoStrings Effects Sql Store Migration Options Files.

(** ** The package's logger *)

(** The standard logger, the one that discards everything, or the user's. *)
Inductive Logger := stdLogger | nopLogger | UserLogger (id : Z).

(** A line that is written, or a structured record with its attributes. *)
Inductive LogEvent :=
  | Printed (l : Logger) (format : string) (args : list string)
  | Record_ (slogger : Z) (msg : string) (attrs : list (string * string)).

(** The variables [log], [verbose] and [noColor] of the package. *)
Record LogConfig := mkLogConfig { lg_log : Logger; lg_verbose : bool; lg_noColor : bool }.

Definition SetLogger (l : Logger) (c : LogConfig) : LogConfig := mkLogConfig l (lg_verbose c) (lg_noColor c).
Definition SetVerbose (v : bool) (c : LogConfig) : LogConfig := mkLogConfig (lg_log c) v (lg_noColor c).

Definition Printf (l : Logger) (format : string) (args : list string) : list LogEvent :=
  match l with nopLogger => [] | _ => [Printed l format args] end.

Definition grayColor : string := String (ch 27) "[90m".
Definition resetColor : string := String (ch 27) "[00m".

Definition verboseInfo (c : LogConfig) (s : string) (args : list string) : list LogEvent :=
  if lg_verbose c then
    if lg_noColor c then Printf (lg_log c) s args
    else Printf (lg_log c) (grayColor +++ s +++ resetColor) args
  else [].

(** ** A provider's logger *)

Definition key_le (a b : string * string) : Prop := string_le a.1 b.1.
#[export] Instance key_le_dec a b : Decision (key_le a b).
Proof. unfold key_le. apply _. Defined.

(** The logger a configuration names; [NewProvider] sets 0 when there is none. *)
Definition provider_logger (id : Z) : Logger := if id =? 0 then stdLogger else UserLogger id.

(** [attrs] are sorted by key, the structured logger comes first. *)
Definition logf {D} (c : config D) (legacyMsg slogMsg : string) (attrs : list (string * string)) : list LogEvent :=
  if negb (c_verbose c) then []
  else match c_slogger c with
  | Some slogger => [Record_ slogger slogMsg (("logger", "goose") :: merge_sort key_le attrs)]
  | None =>
      match c_logger c with
      | Some id => Printf (provider_logger id) "goose: %s" [legacyMsg]
      | None => []
      end
  end.

(** A provider that is not verbose logs nothing; one with a valid configuration
    logs with one logger, to which it passes every attribute. *)
Lemma logf_silent {D} (c : config D) msg smsg attrs : c_verbose c = false → logf c msg smsg attrs = [].
Proof. unfold logf. by intros ->. Qed.

Lemma logf_slog {D} (c : config D) msg smsg attrs l :
  c_verbose c = true → c_slogger c = Some l →
  ∃ attrs', logf c msg smsg attrs = [Record_ l smsg (("logger", "goose") :: attrs')] ∧ attrs' ≡ₚ attrs.
Proof. unfold logf. intros -> ->. eexists. split; [done|apply merge_sort_Permutation]. Qed.

(** ** The text of a result (provider_types.go) *)

(** The verb [%-ns]. *)
Definition pad_right (n : nat) (s : string) : string := s +++ repeat_char (n - String.length s) " ".

(** [duration] is the text of the truncated duration. *)
Definition MigrationResult_String (m : MigrationResult) (duration : string) : string :=
  let width := if String.eqb (res_Direction m) "up" then 2%nat else 4%nat in
  let state := if res_Empty m then "EMPTY" else "OK" in
  pad_right 5 state +++ " " +++ pad_right width (res_Direction m) +++ " " +++
  filepath_Base (src_Path (res_Source m)) +++ " (" +++ duration +++ ")".

(** The examples of the comment. *)
Example result_texts :
  MigrationResult_String (mkMigrationResult (mkSource TypeSQL "migrations/00005_posts_view.sql" 5) "up" false None)
    "727.5us" = "OK    up 00005_posts_view.sql (727.5us)" ∧
  MigrationResult_String (mkMigrationResult (mkSource TypeSQL "00006_posts_view-copy.sql" 6) "up" true None)
    "378.33us" = "EMPTY up 00006_posts_view-copy.sql (378.33us)".
Proof. by vm_compute. Qed.
