(* ===== verification/LockStore.v ===== *)
(** * Lock stores (lock/internal/store)

    A table with one row per lock, on PostgreSQL and on MySQL: the statements,
    character for character, and the operations of the two implementations of
    [store.LockStore]. *)

From S2P Require Import Prelude GoStrings Effects Dialects Sql Migration Store.

(** ** The interface (store.go) *)

Record LockStatus := mkLockStatus {
  st_Locked : bool;
  st_LockedBy : option string;
  st_LeaseExpiresAt : option Z;
  st_UpdatedAt : option Z
}.

Record AcquireLockResult := mkAcquireLockResult { al_LockedBy : string; al_LeaseExpiresAt : Z }.
Record ReleaseLockResult := mkReleaseLockResult { rl_LockID : Z }.
Record UpdateLeaseResult := mkUpdateLeaseResult { ul_LeaseExpiresAt : Z }.

Record LockStore (D : Type) := mkLockStore {
  CreateLockTable : M (DB D) unit;
  LockTableExists : M (DB D) bool;
  AcquireLock : Z → string → Z → M (DB D) AcquireLockResult;
  ReleaseLock : Z → string → M (DB D) ReleaseLockResult;
  UpdateLease : Z → string → Z → M (DB D) UpdateLeaseResult;
  CheckLockStatus : Z → M (DB D) LockStatus;
  CleanupStaleLocks : M (DB D) (list Z)
}.
Arguments mkLockStore {D} _ _ _ _ _ _ _.
Arguments CreateLockTable {D} _.
Arguments LockTableExists {D} _.
Arguments AcquireLock {D} _ _ _ _.
Arguments ReleaseLock {D} _ _ _.
Arguments UpdateLease {D} _ _ _ _.
Arguments CheckLockStatus {D} _ _.
Arguments CleanupStaleLocks {D} _.

(** ** Values *)

(** [int(d.Seconds())]: truncates towards zero.  (The conversion to [float64]
    is exact enough for durations of less than three months.) *)
Definition int_Seconds (d : Z) : Z := Z.quot d Second.

Definition formatDurationAsInterval (d : Z) : string := FormatInt (int_Seconds d) +++ " seconds".

Definition store_parseTableIdentifier (name : string) : string * string :=
  let '(schema, table, found) := Cut name "." in
  if found then (schema, table) else ("", name).

Definition scan_string (v : sqlval) : result string :=
  match v with
  | VStr s => inl s
  | _ => inr (errors_New "sql: Scan error: unsupported Scan into string")
  end.

(** Scanning into a pointer: nil for NULL. *)
Definition scan_ptr {A} (scan : sqlval → result A) (v : sqlval) : result (option A) :=
  match v with VNull => inl None | _ => let? a := scan v in inl (Some a) end.

Definition scan_acquired (row : list sqlval) : result (string * Z) :=
  match row with
  | [b; t] => let? b := scan_string b in let? t := scan_Time t in inl (b, t)
  | _ => scan_arity
  end.
Definition scan_id (row : list sqlval) : result Z :=
  match row with [v] => scan_int64 v | _ => scan_arity end.
Definition scan_lease (row : list sqlval) : result Z :=
  match row with [v] => scan_Time v | _ => scan_arity end.
Definition scan_status (row : list sqlval) : result LockStatus :=
  match row with
  | [l; b; e; u] =>
      let? l := scan_bool l in let? b := scan_ptr scan_string b in
      let? e := scan_ptr scan_Time e in let? u := scan_ptr scan_Time u in
      inl (mkLockStatus l b e u)
  | _ => scan_arity
  end.

(** ** PostgreSQL (postgres.go) *)

Definition pg_create (tableName : string) : string := sprintf "CREATE TABLE %s (
		lock_id bigint NOT NULL PRIMARY KEY,
		locked boolean NOT NULL DEFAULT false,
		locked_at timestamptz NULL,
		locked_by text NULL,
		lease_expires_at timestamptz NULL,
		updated_at timestamptz NULL
	)" [tableName].
Definition pg_acquire (tableName : string) : string := sprintf "INSERT INTO %s (lock_id, locked, locked_at, locked_by, lease_expires_at, updated_at)
	VALUES ($1, true, now(), $2, now() + $3::interval, now())
	ON CONFLICT (lock_id) DO UPDATE SET
		locked = true,
		locked_at = now(),
		locked_by = $2,
		lease_expires_at = now() + $3::interval,
		updated_at = now()
	WHERE %s.locked = false OR %s.lease_expires_at < now()
	RETURNING locked_by, lease_expires_at" [tableName; tableName; tableName].
Definition pg_release (tableName : string) : string := sprintf "UPDATE %s SET
		locked = false,
		locked_at = NULL,
		locked_by = NULL,
		lease_expires_at = NULL,
		updated_at = now()
	WHERE lock_id = $1 AND locked_by = $2
	RETURNING lock_id" [tableName].
Definition pg_renew (tableName : string) : string := sprintf "UPDATE %s SET
		lease_expires_at = now() + $1::interval,
		updated_at = now()
	WHERE lock_id = $2 AND locked_by = $3 AND locked = true
	RETURNING lease_expires_at" [tableName].
Definition pg_status (tableName : string) : string := sprintf "SELECT locked, locked_by, lease_expires_at, updated_at FROM %s WHERE lock_id = $1" [tableName].
Definition pg_cleanup (tableName : string) : string := sprintf "UPDATE %s SET
		locked = false,
		locked_at = NULL,
		locked_by = NULL,
		lease_expires_at = NULL,
		updated_at = now()
	WHERE locked = true AND lease_expires_at < now()
	RETURNING lock_id" [tableName].

Definition pg_exists (tableName : string) : string :=
  let '(schemaName, table) := store_parseTableIdentifier tableName in
  if negb (String.eqb schemaName "")
  then sprintf "SELECT EXISTS ( SELECT 1 FROM pg_tables WHERE schemaname = '%s' AND tablename = '%s' )" [schemaName; table]
  else sprintf "SELECT EXISTS ( SELECT 1 FROM pg_tables WHERE (current_schema() IS NULL OR schemaname = current_schema()) AND tablename = '%s' )" [table].

Section Postgres.
Context {D : Type} `{Driver D} (tableName : string).

Definition postgres_TableExists : M (DB D) bool :=
  wrap_err (λ err, EErrorf "table exists: %w" [AWrap err])
    (row ← QueryRowContext HDB (pg_exists tableName) []; of_result (scan_exists row)).

(** The table is made by the first that comes; failing is fine when another
    process was faster. *)
Definition create_lock_table (exists_ : M (DB D) bool) (query : string) : M (DB D) unit :=
  e ← wrap_err (λ err, EErrorf "check lock table existence: %w" [AWrap err]) exists_;
  if e : bool then mret tt
  else
    r ← catch (ExecContext HDB query []);
    match r with
    | inl _ => mret tt
    | inr err =>
        c ← catch exists_;
        match c with
        | inl true => mret tt
        | _ => fail (EErrorf "create lock table %q: %w" [AStr tableName; AWrap err])
        end
    end.

Definition postgres_CreateLockTable : M (DB D) unit :=
  create_lock_table postgres_TableExists (pg_create tableName).

(** [errors.Is(err, sql.ErrNoRows)] has an error of its own. *)
Definition no_rows {A} (none : error) (other : error → error) (m : M (DB D) A) : M (DB D) A :=
  wrap_err (λ err, if errors_Is err sql_ErrNoRows then none else other err) m.

Definition verify_owner (lockID : Z) (lockedBy : string) (r : string * Z) : M (DB D) AcquireLockResult :=
  if String.eqb r.1 lockedBy then mret (mkAcquireLockResult r.1 r.2)
  else fail (EErrorf "acquire lock %d: acquired by %s instead of %s" [AInt lockID; AStr r.1; AStr lockedBy]).

Definition postgres_AcquireLock (lockID : Z) (lockedBy : string) (leaseDuration : Z)
  : M (DB D) AcquireLockResult :=
  let leaseDurationStr := formatDurationAsInterval leaseDuration in
  r ← no_rows (EErrorf "acquire lock %d: already held by another instance" [AInt lockID])
        (λ err, EErrorf "acquire lock %d: %w" [AInt lockID; AWrap err])
        (row ← QueryRowContext HDB (pg_acquire tableName) [VInt lockID; VStr lockedBy; VStr leaseDurationStr];
         of_result (scan_acquired row));
  verify_owner lockID lockedBy r.

Definition postgres_ReleaseLock (lockID : Z) (lockedBy : string) : M (DB D) ReleaseLockResult :=
  returnedLockID ←
    no_rows (EErrorf "release lock %d: not held by this instance" [AInt lockID])
      (λ err, EErrorf "release lock %d: %w" [AInt lockID; AWrap err])
      (row ← QueryRowContext HDB (pg_release tableName) [VInt lockID; VStr lockedBy];
       of_result (scan_id row));
  if returnedLockID =? lockID then mret (mkReleaseLockResult returnedLockID)
  else fail (EErrorf "release lock %d: returned lock ID %d does not match" [AInt lockID; AInt returnedLockID]).

Definition postgres_UpdateLease (lockID : Z) (lockedBy : string) (leaseDuration : Z)
  : M (DB D) UpdateLeaseResult :=
  let intervalStr := formatDurationAsInterval leaseDuration in
  leaseExpiresAt ←
    no_rows (EErrorf "failed to update lease for lock %d: not held by this instance" [AInt lockID])
      (λ err, EErrorf "failed to update lease for lock %d: %w" [AInt lockID; AWrap err])
      (row ← QueryRowContext HDB (pg_renew tableName) [VStr intervalStr; VInt lockID; VStr lockedBy];
       of_result (scan_lease row));
  mret (mkUpdateLeaseResult leaseExpiresAt).

Definition check_lock_status (query : string) (lockID : Z) : M (DB D) LockStatus :=
  no_rows (EErrorf "lock %d not found" [AInt lockID])
    (λ err, EErrorf "check lock status for %d: %w" [AInt lockID; AWrap err])
    (row ← QueryRowContext HDB query [VInt lockID]; of_result (scan_status row)).

Definition postgres_CheckLockStatus (lockID : Z) : M (DB D) LockStatus :=
  check_lock_status (pg_status tableName) lockID.

Definition scan_ids (rows : list (list sqlval)) : M (DB D) (list Z) :=
  mmap (λ row, wrap_err (λ err, EErrorf "scan cleaned lock ID: %w" [AWrap err]) (of_result (scan_id row))) rows.

Definition postgres_CleanupStaleLocks : M (DB D) (list Z) :=
  rows ← wrap_err (λ err, EErrorf "cleanup stale locks: %w" [AWrap err])
    (QueryContext HDB (pg_cleanup tableName) []);
  scan_ids rows.

Definition postgres_store : LockStore D :=
  mkLockStore postgres_CreateLockTable postgres_TableExists postgres_AcquireLock postgres_ReleaseLock
    postgres_UpdateLease postgres_CheckLockStatus postgres_CleanupStaleLocks.

End Postgres.

Definition store_NewPostgres {D} `{Driver D} (tableName : string) : result (LockStore D) :=
  if String.eqb tableName "" then inr (errors_New "table name must not be empty")
  else inl (postgres_store tableName).

(** ** MySQL (mysql.go) *)

Definition my_create (tableName : string) : string := sprintf "CREATE TABLE %s (
		lock_id BIGINT NOT NULL PRIMARY KEY,
		locked BOOLEAN NOT NULL DEFAULT 0,
		locked_at DATETIME(6) NULL,
		locked_by TEXT NULL,
		lease_expires_at DATETIME(6) NULL,
		updated_at DATETIME(6) NULL
	)" [tableName].
Definition my_insert (tableName : string) : string := sprintf "INSERT IGNORE INTO %s (lock_id, locked, locked_at, locked_by, lease_expires_at, updated_at)
		VALUES (?, true, now(6), ?, now(6) + INTERVAL ? SECOND, now(6))" [tableName].
Definition my_steal (tableName : string) : string := sprintf "UPDATE %s SET
			locked = true,
			locked_at = now(6),
			locked_by = ?,
			lease_expires_at = now(6) + INTERVAL ? SECOND,
			updated_at = now(6)
		WHERE lock_id = ? AND (locked = false OR lease_expires_at < now(6))" [tableName].
Definition my_read_lock (tableName : string) : string := sprintf "SELECT locked_by, lease_expires_at FROM %s WHERE lock_id = ?" [tableName].
Definition my_release (tableName : string) : string := sprintf "UPDATE %s SET
		locked = false,
		locked_at = NULL,
		locked_by = NULL,
		lease_expires_at = NULL,
		updated_at = now(6)
	WHERE lock_id = ? AND locked_by = ?" [tableName].
Definition my_renew (tableName : string) : string := sprintf "UPDATE %s SET
		lease_expires_at = now(6) + INTERVAL ? SECOND,
		updated_at = now(6)
	WHERE lock_id = ? AND locked_by = ? AND locked = true" [tableName].
Definition my_read_lease (tableName : string) : string := sprintf "SELECT lease_expires_at FROM %s WHERE lock_id = ?" [tableName].
Definition my_status (tableName : string) : string := sprintf "SELECT locked, locked_by, lease_expires_at, updated_at FROM %s WHERE lock_id = ?" [tableName].
Definition my_stale (tableName : string) : string := sprintf "SELECT lock_id FROM %s WHERE locked = true AND lease_expires_at < now(6) FOR UPDATE" [tableName].
(** [IN (?,?,...)], one placeholder per lock. *)
Definition placeholders (n : nat) : string := Join (repeat "?" n) ",".
Definition my_free (tableName : string) (n : nat) : string := sprintf "UPDATE %s SET
			locked = false,
			locked_at = NULL,
			locked_by = NULL,
			lease_expires_at = NULL,
			updated_at = now(6)
		WHERE lock_id IN (%s)" [tableName; placeholders n].

Definition my_exists (tableName : string) : string * list sqlval :=
  let '(schemaName, table) := store_parseTableIdentifier tableName in
  if negb (String.eqb schemaName "")
  then ("SELECT EXISTS ( SELECT 1 FROM information_schema.tables WHERE table_schema = ? AND table_name = ? )",
        [VStr schemaName; VStr table])
  else ("SELECT EXISTS ( SELECT 1 FROM information_schema.tables WHERE table_schema = DATABASE() AND table_name = ? )",
        [VStr table]).

(** [sql.Result.RowsAffected] of a statement that succeeded. *)
Class Affected (D : Type) := RowsAffected : DBTxConn → string → list sqlval → D → result Z.

Section MySQL.
Context {D : Type} `{Driver D, Affected D, Multierr} (tableName : string).

Definition mysql_TableExists : M (DB D) bool :=
  let '(query, args) := my_exists tableName in
  wrap_err (λ err, EErrorf "table exists: %w" [AWrap err])
    (row ← QueryRowContext HDB query args; of_result (scan_exists row)).

Definition mysql_CreateLockTable : M (DB D) unit :=
  create_lock_table tableName mysql_TableExists (my_create tableName).

(** [tx.ExecContext] and the rows that it affected. *)
Definition exec_affected (wrap wrap_rows : error → error) (query : string) (args : list sqlval) : M (DB D) Z :=
  before ← gets drv;
  wrap_err wrap (ExecContext HTx query args);;
  wrap_err wrap_rows (of_result (RowsAffected HTx query args before)).

(** A transaction with the deferred rollback: it runs when an error is
    returned, also one from the commit, and adds its own error. *)
Definition in_transaction {A} (begin_error : error → error) (body : M (DB D) A) : M (DB D) A :=
  wrap_err begin_error db_BeginTx;;
  r ← catch body;
  match r with
  | inl a => mret a
  | inr retErr => e ← error_of dbtx_Rollback; fail (default retErr (multierr_Append (Some retErr) e))
  end.

Definition mysql_AcquireLock (lockID : Z) (lockedBy : string) (leaseDuration : Z)
  : M (DB D) AcquireLockResult :=
  let leaseSeconds := int_Seconds leaseDuration in
  let wrap err := EErrorf "acquire lock %d: %w" [AInt lockID; AWrap err] in
  let wrap_rows err := EErrorf "acquire lock %d: rows affected: %w" [AInt lockID; AWrap err] in
  in_transaction (λ err, EErrorf "acquire lock %d: begin tx: %w" [AInt lockID; AWrap err])
    (inserted ← exec_affected wrap wrap_rows (my_insert tableName) [VInt lockID; VStr lockedBy; VInt leaseSeconds];
     (if inserted =? 0 then
        affected ← exec_affected wrap wrap_rows (my_steal tableName) [VStr lockedBy; VInt leaseSeconds; VInt lockID];
        if affected =? 0 then fail (EErrorf "acquire lock %d: already held by another instance" [AInt lockID])
        else mret tt
      else mret tt);;
     r ← wrap_err wrap
           (row ← QueryRowContext HTx (my_read_lock tableName) [VInt lockID]; of_result (scan_acquired row));
     wrap_err (λ err, EErrorf "acquire lock %d: commit: %w" [AInt lockID; AWrap err]) dbtx_Commit;;
     verify_owner lockID lockedBy r).

Definition mysql_ReleaseLock (lockID : Z) (lockedBy : string) : M (DB D) ReleaseLockResult :=
  let wrap err := EErrorf "release lock %d: %w" [AInt lockID; AWrap err] in
  let wrap_rows err := EErrorf "release lock %d: rows affected: %w" [AInt lockID; AWrap err] in
  in_transaction (λ err, EErrorf "release lock %d: begin tx: %w" [AInt lockID; AWrap err])
    (affected ← exec_affected wrap wrap_rows (my_release tableName) [VInt lockID; VStr lockedBy];
     (if affected =? 0 then fail (EErrorf "release lock %d: not held by this instance" [AInt lockID])
      else mret tt);;
     wrap_err (λ err, EErrorf "release lock %d: commit: %w" [AInt lockID; AWrap err]) dbtx_Commit;;
     mret (mkReleaseLockResult lockID)).

Definition mysql_UpdateLease (lockID : Z) (lockedBy : string) (leaseDuration : Z)
  : M (DB D) UpdateLeaseResult :=
  let leaseSeconds := int_Seconds leaseDuration in
  let wrap err := EErrorf "failed to update lease for lock %d: %w" [AInt lockID; AWrap err] in
  let wrap_rows err := EErrorf "failed to update lease for lock %d: rows affected: %w" [AInt lockID; AWrap err] in
  in_transaction (λ err, EErrorf "failed to update lease for lock %d: begin tx: %w" [AInt lockID; AWrap err])
    (affected ← exec_affected wrap wrap_rows (my_renew tableName) [VInt leaseSeconds; VInt lockID; VStr lockedBy];
     (if affected =? 0
      then fail (EErrorf "failed to update lease for lock %d: not held by this instance" [AInt lockID])
      else mret tt);;
     leaseExpiresAt ← wrap_err wrap
       (row ← QueryRowContext HTx (my_read_lease tableName) [VInt lockID]; of_result (scan_lease row));
     wrap_err (λ err, EErrorf "failed to update lease for lock %d: commit: %w" [AInt lockID; AWrap err]) dbtx_Commit;;
     mret (mkUpdateLeaseResult leaseExpiresAt)).

Definition mysql_CheckLockStatus (lockID : Z) : M (DB D) LockStatus :=
  check_lock_status (my_status tableName) lockID.

Definition mysql_CleanupStaleLocks : M (DB D) (list Z) :=
  let wrap err := EErrorf "cleanup stale locks: %w" [AWrap err] in
  in_transaction (λ err, EErrorf "cleanup stale locks: begin tx: %w" [AWrap err])
    (rows ← wrap_err wrap (QueryContext HTx (my_stale tableName) []);
     cleanedLocks ← scan_ids rows;
     (if Nat.eqb (length cleanedLocks) 0 then mret tt
      else wrap_err wrap (ExecContext HTx (my_free tableName (length cleanedLocks)) (map VInt cleanedLocks)));;
     wrap_err (λ err, EErrorf "cleanup stale locks: commit: %w" [AWrap err]) dbtx_Commit;;
     mret cleanedLocks).

Definition mysql_store : LockStore D :=
  mkLockStore mysql_CreateLockTable mysql_TableExists mysql_AcquireLock mysql_ReleaseLock
    mysql_UpdateLease mysql_CheckLockStatus mysql_CleanupStaleLocks.

End MySQL.

Definition store_NewMySQL {D} `{Driver D, Affected D, Multierr} (tableName : string) : result (LockStore D) :=
  if String.eqb tableName "" then inr (errors_New "table name must not be empty")
  else inl (mysql_store tableName).
