(* ===== verification/LockSpec.v ===== *)
(** * What a lock store promises

    The rows of the lock table and what the statements do to them, the contract
    of [store.LockStore] for a store that other processes use at the same time,
    and the proofs that the PostgreSQL and the MySQL stores meet it. *)

From S2P Require Import Prelude GoStrings Effects Dialects Sql Migration Store LockStore.

(** ** The table *)

Record LockRow := mkLockRow {
  r_locked : bool;
  r_locked_at : option Z;
  r_locked_by : option string;
  r_lease : option Z;
  r_updated_at : option Z
}.

Abbreviation LockRows := (gmap Z LockRow).

(** The server's clock, in microseconds, and the rows by [lock_id], if the
    table exists. *)
Record LockWorld := mkLockWorld { clock : Z; lock_table : option LockRows }.

Definition seconds (n : Z) : Z := n * 1000000.

(** [lease_expires_at < now()]; no lease, no truth. *)
Definition expired (now : Z) (r : LockRow) : bool :=
  match r_lease r with Some l => l <? now | None => false end.

Definition available (now : Z) (r : LockRow) : bool := negb (r_locked r) || expired now r.
Definition is_stale (now : Z) (r : LockRow) : bool := r_locked r && expired now r.
Definition owned_by (by_ : string) (r : LockRow) : bool := bool_decide (r_locked_by r = Some by_).

Definition taken (now : Z) (by_ : string) (secs : Z) : LockRow :=
  mkLockRow true (Some now) (Some by_) (Some (now + seconds secs)) (Some now).
Definition freed (now : Z) : LockRow := mkLockRow false None None None (Some now).
Definition extended (now secs : Z) (r : LockRow) : LockRow :=
  mkLockRow (r_locked r) (r_locked_at r) (r_locked_by r) (Some (now + seconds secs)) (Some now).

(** What the statements do: nothing if no row satisfies the condition. *)
Definition acquire (now id : Z) (by_ : string) (secs : Z) (rows : LockRows) : option LockRows :=
  match rows !! id with
  | Some r => if available now r then Some (<[id := taken now by_ secs]> rows) else None
  | None => Some (<[id := taken now by_ secs]> rows)
  end.

Definition release (now id : Z) (by_ : string) (rows : LockRows) : option LockRows :=
  match rows !! id with
  | Some r => if owned_by by_ r then Some (<[id := freed now]> rows) else None
  | None => None
  end.

Definition renew (now id : Z) (by_ : string) (secs : Z) (rows : LockRows) : option LockRows :=
  match rows !! id with
  | Some r => if owned_by by_ r && r_locked r then Some (<[id := extended now secs r]> rows) else None
  | None => None
  end.

Definition stale_ids (now : Z) (rows : LockRows) : list Z :=
  (map_to_list (filter (λ kr, is_stale now kr.2 = true) rows)).*1.
Definition free_ids (now : Z) (ids : list Z) (rows : LockRows) : LockRows :=
  map_imap (λ k r, Some (if bool_decide (k ∈ ids) then freed now else r)) rows.

(** ** The contract *)

(** One operation takes effect at one moment; before and after it other
    processes may act, and time passes. *)
Section Contract.
Context {D : Type} (lw : D → LockWorld) (others : LockWorld → LockWorld → Prop).

Definition lwd (w : DB D) : LockWorld := lw (drv w).

Definition op_spec {A} (m : M (DB D) A) (R : A → LockWorld → LockWorld → Prop) : Prop := ∀ w,
  match m w with
  | (Ok a, w') => ∃ s1 s2, others (lwd w) s1 ∧ R a s1 s2 ∧ others s2 (lwd w')
  | (Err _, w') => others (lwd w) (lwd w')
  | (Panic _, _) => False
  | (Block, _) => True
  end.

(** The rows change by [f], which also gives the result. *)
Definition changes {A} (f : Z → LockRows → option LockRows) (res : Z → A) (a : A) (s1 s2 : LockWorld) : Prop :=
  ∃ rows rows', lock_table s1 = Some rows ∧ f (clock s1) rows = Some rows' ∧
    s2 = mkLockWorld (clock s1) (Some rows') ∧ a = res (clock s1).

Definition acquired (id : Z) (by_ : string) (dur : Z) :=
  changes (λ now, acquire now id by_ (int_Seconds dur))
    (λ now, mkAcquireLockResult by_ (now + seconds (int_Seconds dur))).
Definition released (id : Z) (by_ : string) :=
  changes (λ now, release now id by_) (λ _, mkReleaseLockResult id).
Definition renewed (id : Z) (by_ : string) (dur : Z) :=
  changes (λ now, renew now id by_ (int_Seconds dur))
    (λ now, mkUpdateLeaseResult (now + seconds (int_Seconds dur))).
(** The rows that had expired at some moment [t] before. *)
Definition cleaned (ids : list Z) (s1 s2 : LockWorld) : Prop :=
  ∃ rows t, lock_table s1 = Some rows ∧ t ≤ clock s1 ∧ ids ≡ₚ stale_ids t rows ∧
    s2 = mkLockWorld (clock s1) (Some (free_ids (clock s1) ids rows)).
Definition has_status (id : Z) (st : LockStatus) (s1 s2 : LockWorld) : Prop :=
  s2 = s1 ∧ ∃ rows r, lock_table s1 = Some rows ∧ rows !! id = Some r ∧
    st = mkLockStatus (r_locked r) (r_locked_by r) (r_lease r) (r_updated_at r).
Definition table_status (b : bool) (s1 s2 : LockWorld) : Prop :=
  s2 = s1 ∧ b = bool_decide (is_Some (lock_table s1)).

(** The table is created, by this process or by another one. *)
Inductive creates : LockWorld → LockWorld → Prop :=
  | creates_others s s' : others s s' → creates s s'
  | creates_table s s1 s' : others s s1 → lock_table s1 = None →
      others (mkLockWorld (clock s1) (Some ∅)) s' → creates s s'.

Class LockStoreSpec (st : LockStore D) := {
  exists_spec : op_spec (LockTableExists st) table_status;
  create_spec w : match CreateLockTable st w with
    | (Ok _, w') => creates (lwd w) (lwd w') ∧ is_Some (lock_table (lwd w'))
    | (Err _, w') => creates (lwd w) (lwd w')
    | (Panic _, _) => False
    | (Block, _) => True
    end;
  acquire_spec id by_ dur : is_int64 dur → op_spec (AcquireLock st id by_ dur) (acquired id by_ dur);
  release_spec id by_ : op_spec (ReleaseLock st id by_) (released id by_);
  renew_spec id by_ dur : is_int64 dur → op_spec (UpdateLease st id by_ dur) (renewed id by_ dur);
  status_spec id : op_spec (CheckLockStatus st id) (has_status id);
  cleanup_spec : op_spec (CleanupStaleLocks st) cleaned
}.
End Contract.

(** ** The database *)

(** Time passes and nothing else happens. *)
Definition later (s s' : LockWorld) : Prop := lock_table s' = lock_table s ∧ clock s ≤ clock s'.

(** What is known of the others: nothing they do removes the table, and they
    may do nothing while time passes. *)
Class Environment (others : LockWorld → LockWorld → Prop) := {
  env_refl s : others s s;
  env_trans s1 s2 s3 : others s1 s2 → others s2 s3 → others s1 s3;
  env_later s s' : later s s' → others s s';
  env_table s s' : others s s' → is_Some (lock_table s) → is_Some (lock_table s')
}.

(** What a statement does to the table, seen by the process that executes it;
    one that fails does nothing. *)
Definition query_effect (E : Z → LockRows → list (list sqlval) → LockRows → Prop)
    (r : result (list (list sqlval))) (s1 s2 : LockWorld) : Prop :=
  match r with
  | inl out => ∃ rows rows', lock_table s1 = Some rows ∧ E (clock s1) rows out rows' ∧
      s2 = mkLockWorld (clock s1) (Some rows')
  | inr e => s2 = s1 ∧ errors_Is e sql_ErrNoRows = false
  end.

Definition exec_effect (E : Z → LockRows → Z → LockRows → Prop) (r : option error) (affected : result Z)
    (s1 s2 : LockWorld) : Prop :=
  match r with
  | None => ∃ rows n rows', lock_table s1 = Some rows ∧ E (clock s1) rows n rows' ∧
      s2 = mkLockWorld (clock s1) (Some rows') ∧ (∀ m, affected = inl m → m = n)
  | Some _ => s2 = s1
  end.

(** A statement on its own, and one in a transaction: the row it works on is
    locked until the transaction ends, so that others come before or after. *)
Definition around (env : LockWorld → LockWorld → Prop) (R : LockWorld → LockWorld → Prop) (s s' : LockWorld) : Prop :=
  ∃ s1 s2, env s s1 ∧ R s1 s2 ∧ env s2 s'.

(** A driver in front of a database that others use; [lsaved] is the table at
    the beginning of the open transaction. *)
Class LockDriver {D} `{Driver D} (lw : D → LockWorld) (lsaved : D → option (option LockRows))
    (others : LockWorld → LockWorld → Prop) := {
  lock_env :: Environment others;
  lock_connect d : others (lw d) (lw (drv_connect d).2);
  lock_release d : others (lw d) (lw (drv_release d).2);
  lock_begin d : others (lw d) (lw (drv_begin d).2) ∧
    ((drv_begin d).1 = None → lsaved (drv_begin d).2 = Some (lock_table (lw (drv_begin d).2)));
  lock_commit d t : lsaved d = Some t →
    match (drv_commit d).1 with
    | None => others (lw d) (lw (drv_commit d).2)
    | Some _ => others (mkLockWorld (clock (lw d)) t) (lw (drv_commit d).2)
    end;
  lock_rollback d t : lsaved d = Some t →
    others (mkLockWorld (clock (lw d)) t) (lw (drv_rollback d).2);
  lock_exec_saved h q args d : lsaved (drv_exec h q args d).2 = lsaved d;
  lock_query_saved h q args d : lsaved (drv_query h q args d).2 = lsaved d
}.

(** The documented meaning of the statements of postgres.go. *)
Definition returning_row (f : Z → LockRows → option LockRows) (row : Z → list sqlval)
    (now : Z) (rows : LockRows) (out : list (list sqlval)) (rows' : LockRows) : Prop :=
  match f now rows with
  | Some rows1 => out = [row now] ∧ rows' = rows1
  | None => out = [] ∧ rows' = rows
  end.

Definition opt_val {A} (f : A → sqlval) (o : option A) : sqlval := match o with Some a => f a | None => VNull end.

Definition reads_status (id : Z) (_ : Z) (rows : LockRows) (out : list (list sqlval)) (rows' : LockRows) : Prop :=
  rows' = rows ∧
  match rows !! id with
  | Some r => ∃ b, scan_bool b = inl (r_locked r) ∧
      out = [[b; opt_val VStr (r_locked_by r); opt_val VTime (r_lease r); opt_val VTime (r_updated_at r)]]
  | None => out = []
  end.

Definition reads_exists (r : result (list (list sqlval))) (s1 s2 : LockWorld) : Prop :=
  s2 = s1 ∧
  match r with
  | inl out => ∃ b, out = [[b]] ∧ scan_bool b = inl (bool_decide (is_Some (lock_table s1)))
  | inr e => errors_Is e sql_ErrNoRows = false
  end.

Definition creates_table_effect (r : option error) (s1 s2 : LockWorld) : Prop :=
  match r with
  | None => lock_table s1 = None ∧ s2 = mkLockWorld (clock s1) (Some ∅)
  | Some _ => s2 = s1
  end.

Lemma int_Seconds_int64 d : is_int64 d → is_int64 (int_Seconds d).
Proof.
  unfold is_int64, minInt64, maxInt64, int_Seconds, Second, Millisecond, Microsecond. intros Hd.
  pose proof (Z.quot_rem' d (1000 * (1000 * 1000))). pose proof (Z.rem_bound_abs d (1000 * (1000 * 1000)) ltac:(lia)). lia.
Qed.

Class PostgresLocks {D} `{Driver D} (lw : D → LockWorld) (others : LockWorld → LockWorld → Prop)
    (t : string) := {
  pgl_exists d : around others (reads_exists (drv_query HDB (pg_exists t) [] d).1)
    (lw d) (lw (drv_query HDB (pg_exists t) [] d).2);
  pgl_create d : around others (creates_table_effect (drv_exec HDB (pg_create t) [] d).1)
    (lw d) (lw (drv_exec HDB (pg_create t) [] d).2);
  pgl_acquire d id by_ n : is_int64 n → let r := drv_query HDB (pg_acquire t) [VInt id; VStr by_; VStr (FormatInt n +++ " seconds")] d in
    around others (query_effect (returning_row (λ now, acquire now id by_ n) (λ now, [VStr by_; VTime (now + seconds n)])) r.1)
      (lw d) (lw r.2);
  pgl_release d id by_ : let r := drv_query HDB (pg_release t) [VInt id; VStr by_] d in
    around others (query_effect (returning_row (λ now, release now id by_) (λ _, [VInt id])) r.1) (lw d) (lw r.2);
  pgl_renew d id by_ n : is_int64 n → let r := drv_query HDB (pg_renew t) [VStr (FormatInt n +++ " seconds"); VInt id; VStr by_] d in
    around others (query_effect (returning_row (λ now, renew now id by_ n) (λ now, [VTime (now + seconds n)])) r.1)
      (lw d) (lw r.2);
  pgl_status d id : let r := drv_query HDB (pg_status t) [VInt id] d in
    around others (query_effect (reads_status id) r.1) (lw d) (lw r.2);
  pgl_cleanup d : let r := drv_query HDB (pg_cleanup t) [] d in
    around others (query_effect (λ now rows out rows', ∃ ids, ids ≡ₚ stale_ids now rows ∧
      out = map (λ i, [VInt i]) ids ∧ rows' = free_ids now ids rows) r.1) (lw d) (lw r.2)
}.

(** The documented meaning of the statements of mysql.go. *)
Definition updates (f : Z → LockRows → option LockRows) (now : Z) (rows : LockRows) (n : Z) (rows' : LockRows) : Prop :=
  match f now rows with
  | Some rows1 => 0 < n ∧ rows' = rows1
  | None => n = 0 ∧ rows' = rows
  end.

Definition insert_ignore (now id : Z) (by_ : string) (secs : Z) (rows : LockRows) : option LockRows :=
  match rows !! id with Some _ => None | None => Some (<[id := taken now by_ secs]> rows) end.

Definition steal (now id : Z) (by_ : string) (secs : Z) (rows : LockRows) : option LockRows :=
  r ← rows !! id; if available now r then Some (<[id := taken now by_ secs]> rows) else None.

Class MySQLLocks {D} `{Driver D, Affected D} (lw : D → LockWorld) (others : LockWorld → LockWorld → Prop)
    (t : string) := {
  myl_exists d : let r := drv_query HDB (my_exists t).1 (my_exists t).2 d in
    around others (reads_exists r.1) (lw d) (lw r.2);
  myl_create d : around others (creates_table_effect (drv_exec HDB (my_create t) [] d).1)
    (lw d) (lw (drv_exec HDB (my_create t) [] d).2);
  myl_insert d id by_ n : let args := [VInt id; VStr by_; VInt n] in
    around later (exec_effect (updates (λ now, insert_ignore now id by_ n)) (drv_exec HTx (my_insert t) args d).1
      (RowsAffected HTx (my_insert t) args d)) (lw d) (lw (drv_exec HTx (my_insert t) args d).2);
  myl_steal d id by_ n : let args := [VStr by_; VInt n; VInt id] in
    around later (exec_effect (updates (λ now, steal now id by_ n)) (drv_exec HTx (my_steal t) args d).1
      (RowsAffected HTx (my_steal t) args d)) (lw d) (lw (drv_exec HTx (my_steal t) args d).2);
  myl_release d id by_ : let args := [VInt id; VStr by_] in
    around later (exec_effect (updates (λ now, release now id by_)) (drv_exec HTx (my_release t) args d).1
      (RowsAffected HTx (my_release t) args d)) (lw d) (lw (drv_exec HTx (my_release t) args d).2);
  myl_renew d id by_ n : let args := [VInt n; VInt id; VStr by_] in
    around later (exec_effect (updates (λ now, renew now id by_ n)) (drv_exec HTx (my_renew t) args d).1
      (RowsAffected HTx (my_renew t) args d)) (lw d) (lw (drv_exec HTx (my_renew t) args d).2);
  myl_free d ids : let args := map VInt ids in
    around later (exec_effect (λ now rows _ rows', rows' = free_ids now ids rows)
      (drv_exec HTx (my_free t (length ids)) args d).1 (inr (ESentinel ErrUnsupported)))
      (lw d) (lw (drv_exec HTx (my_free t (length ids)) args d).2);
  myl_read_lock d id : let r := drv_query HTx (my_read_lock t) [VInt id] d in
    around later (query_effect (λ _ rows out rows', rows' = rows ∧
      out = match rows !! id with
            | Some r => [[opt_val VStr (r_locked_by r); opt_val VTime (r_lease r)]] | None => [] end) r.1)
      (lw d) (lw r.2);
  myl_read_lease d id : let r := drv_query HTx (my_read_lease t) [VInt id] d in
    around later (query_effect (λ _ rows out rows', rows' = rows ∧
      out = match rows !! id with Some r => [[opt_val VTime (r_lease r)]] | None => [] end) r.1) (lw d) (lw r.2);
  myl_stale d : let r := drv_query HTx (my_stale t) [] d in
    around later (query_effect (λ now rows out rows', rows' = rows ∧
      ∃ ids, ids ≡ₚ stale_ids now rows ∧ out = map (λ i, [VInt i]) ids) r.1) (lw d) (lw r.2);
  myl_status d id : let r := drv_query HDB (my_status t) [VInt id] d in
    around others (query_effect (reads_status id) r.1) (lw d) (lw r.2)
}.

(** ** PostgreSQL *)

Section Statements.
Context {D : Type} `{Driver D} (lw : D → LockWorld) (others : LockWorld → LockWorld → Prop) `{!Environment others}.

Abbreviation lwd := (lwd lw).

Lemma env_around s1 s2 s s' R : others s s1 → around others R s1 s2 → others s2 s' → around others R s s'.
Proof. intros H1 (a & b & Ha & HR & Hb) H2. exists a, b. split_and!; [by eapply env_trans|done|by eapply env_trans]. Qed.

(** A query outside a transaction. *)
Lemma query_run q args R w :
  around others (R (drv_query HDB q args (drv w)).1) (lw (drv w)) (lw (drv_query HDB q args (drv w)).2) →
  match QueryContext HDB q args w with
  | (Ok out, w') => around others (R (inl out)) (lwd w) (lwd w')
  | (Err e, w') => around others (R (inr e)) (lwd w) (lwd w')
  | (Panic _, _) => False
  | (Block, w') => True
  end.
Proof.
  unfold QueryContext, with_handle, LockSpec.lwd. destruct (pool_exhausted w); [done|].
  by destruct (drv_query _ _ _ _) as [[] d].
Qed.

Lemma query_row_run q args R w :
  around others (R (drv_query HDB q args (drv w)).1) (lw (drv w)) (lw (drv_query HDB q args (drv w)).2) →
  match QueryRowContext HDB q args w with
  | (Ok row, w') => ∃ rest, around others (R (inl (row :: rest))) (lwd w) (lwd w')
  | (Err e, w') => around others (R (inr e)) (lwd w) (lwd w') ∨
      (e = ESentinel sql_ErrNoRows ∧ around others (R (inl [])) (lwd w) (lwd w'))
  | (Panic _, _) => False
  | (Block, w') => True
  end.
Proof.
  intros Hd. pose proof (query_run q args R w Hd) as Hq. unfold QueryRowContext. rewrite bind_eq.
  destruct (QueryContext HDB q args w) as [[out|e|s|] w']; try done; [|by left].
  destruct out as [|row out]; cbn; eauto.
Qed.

Lemma exec_run q args R w :
  around others (R (drv_exec HDB q args (drv w)).1) (lw (drv w)) (lw (drv_exec HDB q args (drv w)).2) →
  match ExecContext HDB q args w with
  | (Ok _, w') => around others (R None) (lwd w) (lwd w')
  | (Err e, w') => around others (R (Some e)) (lwd w) (lwd w')
  | (Panic _, _) => False
  | (Block, w') => True
  end.
Proof.
  unfold ExecContext, with_handle, drv_call, LockSpec.lwd. destruct (pool_exhausted w); [done|].
  by destruct (drv_exec _ _ _ _) as [[] d].
Qed.

Lemma around_same R s s' : around others R s s' → (∀ s1 s2, R s1 s2 → s2 = s1) → others s s'.
Proof. intros (s1 & s2 & H1 & HR & H2) Hsame. apply Hsame in HR as ->. by eapply env_trans. Qed.

(** A statement with [RETURNING]: one row, or nothing happened. *)
Lemma returning_spec {A B} q args f row (scan : list sqlval → result A) (val : Z → A)
    (none : error) (other : error → error) (k : A → M (DB D) B) (res : Z → B) w :
  around others (query_effect (returning_row f row) (drv_query HDB q args (drv w)).1)
    (lw (drv w)) (lw (drv_query HDB q args (drv w)).2) →
  (∀ now, scan (row now) = inl (val now)) → (∀ now w', k (val now) w' = (Ok (res now), w')) →
  match (r ← no_rows none other (row ← QueryRowContext HDB q args; of_result (scan row)); k r) w with
  | (Ok a, w') => ∃ s1 s2, others (lwd w) s1 ∧ changes f res a s1 s2 ∧ others s2 (lwd w')
  | (Err _, w') => others (lwd w) (lwd w')
  | (Panic _, _) => False
  | (Block, _) => True
  end.
Proof.
  intros Hd Hscan Hk. pose proof (query_row_run q args _ w Hd) as Hq. unfold no_rows, wrap_err.
  rewrite !bind_eq. destruct (QueryRowContext HDB q args w) as [[r|e|s|] w'] eqn:Hr; try done.
  - destruct Hq as (rest & s1 & s2 & H1 & (rows & rows' & Ht & HE & ->) & H2). unfold returning_row in HE.
    destruct (f (clock s1) rows) as [rows1|] eqn:Hf; [|by destruct HE].
    destruct HE as [[= -> ->] ->]. unfold of_result. rewrite Hscan, Hk.
    do 2 eexists. split; [exact H1|]. split; [|exact H2]. by exists rows, rows1.
  - destruct Hq as [Hq|[_ Hq]].
    + eapply around_same; [exact Hq|]. by intros s1 s2 [-> _].
    + eapply around_same; [exact Hq|]. intros s1 s2 (rows & rows' & Ht & HE & ->). unfold returning_row in HE.
      destruct (f (clock s1) rows); [by destruct HE|]. destruct HE as [_ ->]. destruct s1; simpl in *; by subst.
Qed.

Lemma create_lock_table_run tableName exists_ q w :
  op_spec lw others exists_ table_status →
  (∀ d, around others (creates_table_effect (drv_exec HDB q [] d).1) (lw d) (lw (drv_exec HDB q [] d).2)) →
  match create_lock_table tableName exists_ q w with
  | (Ok _, w') => creates others (lwd w) (lwd w') ∧ is_Some (lock_table (lwd w'))
  | (Err _, w') => creates others (lwd w) (lwd w')
  | (Panic _, _) => False
  | (Block, _) => True
  end.
Proof.
  intros Hex Hcr. unfold create_lock_table, wrap_err. rewrite bind_eq. pose proof (Hex w) as H1.
  destruct (exists_ w) as [[b|e|s|] w1]; try done; [|by apply creates_others].
  destruct H1 as (s1 & s2 & Ho1 & [-> ->] & Ho2). destruct (bool_decide_reflect (is_Some (lock_table s1))) as [Hs|Hs].
  - split; [apply creates_others; by eapply env_trans|]. by eapply env_table.
  - assert (others (lwd w) (lwd w1)) as Hw1 by by eapply env_trans. clear Ho1 Ho2 Hs.
    rewrite bind_eq, catch_run. pose proof (exec_run q [] _ w1 (Hcr (drv w1))) as H2.
    destruct (ExecContext HDB q [] w1) as [[[]|e|s|] w2]; try done.
    + destruct H2 as (s2 & s3 & Ha & [Hn ->] & Hb). cbn. split; [|by eapply env_table].
      eapply creates_table; [by eapply env_trans|done|done].
    + apply around_same in H2; [|by intros ?? ->]. assert (others (lwd w) (lwd w2)) as Hw2 by by eapply env_trans.
      rewrite bind_eq, catch_run. pose proof (Hex w2) as H3.
      destruct (exists_ w2) as [[b|e'|s|] w3]; try done.
      * destruct H3 as (s4 & s5 & Ha & [-> ->] & Hb). cbn. assert (others (lwd w) (lwd w3)) as Hw3.
        { eapply env_trans; [exact Hw2|]. by eapply env_trans. }
        destruct (bool_decide_reflect (is_Some (lock_table s4))) as [Hs|Hs]; cbn; [|by apply creates_others].
        split; [by apply creates_others|]. by apply (env_table s4).
      * cbn. apply creates_others. by eapply env_trans.
Qed.

Lemma exists_run {q args} :
  (∀ d, around others (reads_exists (drv_query HDB q args d).1) (lw d) (lw (drv_query HDB q args d).2)) →
  op_spec lw others (wrap_err (λ err, EErrorf "table exists: %w" [AWrap err])
    (row ← QueryRowContext HDB q args; of_result (scan_exists row))) table_status.
Proof.
  intros Hd w. pose proof (query_row_run q args _ w (Hd (drv w))) as Hq. unfold wrap_err. rewrite bind_eq.
  destruct (QueryRowContext HDB q args w) as [[r|e|s|] w']; try done.
  - destruct Hq as (rest & s1 & s2 & H1 & [-> (b & [= -> ->] & Hb)] & H2). unfold of_result, scan_exists.
    rewrite Hb. exists s1, s1. split; [done|]. split; [by split|done].
  - destruct Hq as [Hq|[_ Hq]]; eapply around_same; try exact Hq; by intros s1 s2 [-> _].
Qed.

Lemma scan_ptr_val {A} (scan : sqlval → result A) (f : A → sqlval) (o : option A) :
  (∀ a, f a ≠ VNull) → (∀ a, scan (f a) = inl a) → scan_ptr scan (opt_val f o) = inl o.
Proof.
  intros Hn Hf. destruct o as [a|]; [|done]. cbn. specialize (Hn a). specialize (Hf a). unfold scan_ptr.
  by destruct (f a); rewrite ?Hf.
Qed.

Lemma check_status_run q id :
  (∀ d, around others (query_effect (reads_status id) (drv_query HDB q [VInt id] d).1)
     (lw d) (lw (drv_query HDB q [VInt id] d).2)) →
  op_spec lw others (check_lock_status q id) (has_status id).
Proof.
  intros Hd w. pose proof (query_row_run q [VInt id] _ w (Hd (drv w))) as Hq. unfold check_lock_status, no_rows, wrap_err.
  rewrite bind_eq. destruct (QueryRowContext HDB q [VInt id] w) as [[r|e|s|] w']; try done.
  - destruct Hq as (rest & s1 & s2 & H1 & (rows & rows' & Ht & [-> HE] & ->) & H2).
    destruct (rows !! id) as [r'|] eqn:Hr; [|done]. destruct HE as (b & Hb & [= -> ->]).
    unfold of_result, scan_status. cbn [rbind]. rewrite Hb. cbn [rbind].
    rewrite (scan_ptr_val scan_string VStr) by done. cbn [rbind].
    rewrite !(scan_ptr_val scan_Time VTime) by done. cbn [rbind].
    exists s1, s1. split; [done|]. split; [split; [done|]; by exists rows, r'|].
    by destruct s1; simpl in *; subst.
  - destruct Hq as [Hq|[_ Hq]]; eapply around_same; try exact Hq.
    + by intros s1 s2 [-> _].
    + intros s1 s2 (rows & rows' & Ht & [-> _] & ->). by destruct s1; simpl in *; subst.
Qed.

Lemma scan_ids_run ids (w : DB D) : scan_ids (map (λ i, [VInt i]) ids) w = (Ok ids, w).
Proof. unfold scan_ids. induction ids as [|i ids IH]; [done|]. cbn [map mmap]. rewrite bind_eq. cbn. by rewrite bind_eq, IH. Qed.

End Statements.

Section PostgresSpec.
Context {D : Type} `{Driver D} (lw : D → LockWorld) (others : LockWorld → LockWorld → Prop) `{!Environment others}.
Context (t : string) `{!PostgresLocks lw others t}.

Lemma pg_cleanup_run : op_spec lw others (postgres_CleanupStaleLocks t) cleaned.
Proof.
  intros w. unfold postgres_CleanupStaleLocks, wrap_err. rewrite bind_eq.
  pose proof (query_run lw others (pg_cleanup t) [] _ w (pgl_cleanup (drv w))) as Hq.
  destruct (QueryContext HDB (pg_cleanup t) [] w) as [[rows|e|s|] w']; try done.
  - destruct Hq as (s1 & s2 & H1 & (rs & rs' & Ht & (ids & Hids & -> & ->) & ->) & H2).
    rewrite scan_ids_run. do 2 eexists. split; [exact H1|]. split; [|exact H2].
    exists rs, (clock s1). split_and!; [done|lia|done|done].
  - apply (around_same others _ _ _ Hq). by intros s1 s2 [-> _].
Qed.

Lemma postgres_meets_contract : LockStoreSpec lw others (postgres_store t).
Proof.
  split; cbn [CreateLockTable LockTableExists AcquireLock ReleaseLock UpdateLease CheckLockStatus CleanupStaleLocks postgres_store].
  - apply (exists_run lw others), pgl_exists.
  - intros w. apply (create_lock_table_run lw others); [apply (exists_run lw others), pgl_exists|apply pgl_create].
  - intros id by_ dur Hdur%int_Seconds_int64 w. unfold postgres_AcquireLock. cbn zeta.
    eapply (returning_spec lw others) with (val := λ now, (by_, now + seconds (int_Seconds dur))); [by apply pgl_acquire|done|].
    intros now w'. unfold verify_owner. by rewrite String.eqb_refl.
  - intros id by_ w. unfold postgres_ReleaseLock.
    eapply (returning_spec lw others) with (val := λ now, id); [apply pgl_release|done|].
    intros now w'. by rewrite Z.eqb_refl.
  - intros id by_ dur Hdur%int_Seconds_int64 w. unfold postgres_UpdateLease. cbn zeta.
    eapply (returning_spec lw others) with (val := λ now, now + seconds (int_Seconds dur)); [by apply pgl_renew|done|done].
  - intros id. apply (check_status_run lw others). intros d. apply pgl_status.
  - apply pg_cleanup_run.
Qed.

End PostgresSpec.

(** ** MySQL *)

Section MySQLSpec.
Context {D : Type} `{HD : Driver D, HA : Affected D, HM : Multierr} (lw : D → LockWorld) (lsaved : D → option (option LockRows))
  (others : LockWorld → LockWorld → Prop) `{!LockDriver lw lsaved others}.

Abbreviation lwd := (lwd lw).

(** In a transaction that began in [s0]. *)
Definition in_lock_tx (s0 : LockWorld) (w : DB D) : Prop :=
  txOpen w = true ∧ lsaved (drv w) = Some (lock_table s0) ∧ clock s0 ≤ clock (lwd w).

(** An error in a transaction: it is still open, or it has ended in a state
    in which nothing was done. *)
Definition tx_failed (s0 : LockWorld) (w : DB D) : Prop :=
  in_lock_tx s0 w ∨ (txOpen w = false ∧ others s0 (lwd w)).

Lemma later_refl s : later s s.
Proof. split; [done|lia]. Qed.
Lemma later_trans s1 s2 s3 : later s1 s2 → later s2 s3 → later s1 s3.
Proof. intros [E1 H1] [E2 H2]. split; [congruence|lia]. Qed.
Lemma later_around R s s' : around later R s s' → (∀ s1 s2, R s1 s2 → s2 = s1) → later s s'.
Proof. intros (s1 & s2 & H1 & HR & H2) Hsame. apply Hsame in HR as ->. by eapply later_trans. Qed.

Lemma around_clock R s s' : around later R s s' → (∀ s1 s2, R s1 s2 → clock s2 = clock s1) → clock s ≤ clock s'.
Proof. intros (s1 & s2 & [_ H1] & HR & [_ H2]) Hc. apply Hc in HR. lia. Qed.

Lemma close_others (w : DB D) : ∃ r w', error_of conn_Close w = (Ok r, w') ∧ others (lwd w) (lwd w') ∧
  txOpen w' = txOpen w.
Proof.
  rewrite error_of_run. unfold conn_Close, LockSpec.lwd. pose proof (lock_release (drv w)) as Hr.
  destruct (drv_release (drv w)) as [[e|] d]; cbn; eauto.
Qed.

Lemma begin_others (w : DB D) :
  match db_BeginTx w with
  | (Ok _, w') => ∃ s0, others (lwd w) s0 ∧ lwd w' = s0 ∧ in_lock_tx s0 w'
  | (Err _, w') => others (lwd w) (lwd w')
  | (Panic _, _) => False
  | (Block, _) => True
  end.
Proof.
  unfold db_BeginTx, db_Conn, LockSpec.lwd. rewrite bind_eq. destruct (pool_exhausted w); [done|].
  pose proof (lock_connect (drv w)) as Hc. destruct (drv_connect (drv w)) as [[e|] d]; cbn in Hc; [done|].
  rewrite bind_eq, catch_run. unfold conn_BeginTx, drv_call. rewrite bind_eq. cbn [drv].
  destruct (lock_begin d) as [Hb Hs]. destruct (drv_begin d) as [[e|] d1]; cbn in *.
  - destruct (close_others (set_drv d1 (mkDB d (inUse w + 1) (maxOpen w) (txOpen w)))) as (r & w' & Hr & Ho & _).
    rewrite bind_eq, Hr. cbn. eapply env_trans; [exact Hc|]. by eapply env_trans.
  - eexists. split; [by eapply env_trans|]. split; [done|]. split; [done|]. split; [by apply Hs|]. unfold LockSpec.lwd. cbn. lia.
Qed.

Lemma end_others finish (w : DB D) :
  txOpen w = true →
  match finish w with
  | (Ok _, w1) => ∃ w', end_tx finish w = (Ok tt, w') ∧ others (lwd w1) (lwd w') ∧ txOpen w' = txOpen w1
  | (Err e, w1) => ∃ w', end_tx finish w = (Err e, w') ∧ others (lwd w1) (lwd w') ∧ txOpen w' = txOpen w1
  | (r, w1) => end_tx finish w = (r, w1)
  end.
Proof.
  intros Ho. unfold end_tx. rewrite bind_eq. cbn [gets]. unfold gets. rewrite Ho, bind_eq, catch_run.
  destruct (finish w) as [[[]|e|s|] w1]; try done; rewrite bind_eq;
    destruct (close_others w1) as (r & w' & -> & Hw' & Ht); cbn; eauto.
Qed.

Lemma commit_others s0 (w : DB D) :
  in_lock_tx s0 w →
  match dbtx_Commit w with
  | (Ok _, w') => others (lwd w) (lwd w') ∧ txOpen w' = false
  | (Err _, w') => tx_failed s0 w'
  | _ => False
  end.
Proof.
  intros (Ho & Hs & Hc). pose proof (end_others tx_Commit w Ho) as He. unfold dbtx_Commit.
  assert (tx_Commit w = drv_call drv_commit (set_txOpen false w)) as Hrun.
  { unfold tx_Commit. rewrite bind_eq. unfold gets. by rewrite Ho. }
  rewrite Hrun in He. unfold drv_call in He. cbn [drv set_txOpen] in He. pose proof (lock_commit _ _ Hs) as Hl.
  destruct (drv_commit (drv w)) as [[e|] d]; cbn in *; destruct He as (w' & -> & Hw' & Ht).
  - right. split; [done|]. eapply env_trans; [|by eapply env_trans]. by apply env_later.
  - split; [by eapply env_trans|done].
Qed.

Lemma rollback_others s0 (w : DB D) :
  tx_failed s0 w → ∃ r w', error_of dbtx_Rollback w = (Ok r, w') ∧ others s0 (lwd w').
Proof.
  intros [(Ho & Hs & Hc)|[Ho Hw]].
  - pose proof (end_others tx_Rollback w Ho) as He. rewrite error_of_run. unfold dbtx_Rollback.
    assert (tx_Rollback w = drv_call drv_rollback (set_txOpen false w)) as Hrun.
    { unfold tx_Rollback. rewrite bind_eq. unfold gets. by rewrite Ho. }
    rewrite Hrun in He. unfold drv_call in He. cbn [drv set_txOpen] in He. pose proof (lock_rollback _ _ Hs) as Hl.
    destruct (drv_rollback (drv w)) as [[e|] d]; cbn in *; destruct He as (w' & -> & Hw' & Ht);
      do 2 eexists; (split; [reflexivity|]); (eapply env_trans; [|by eapply env_trans]); by apply env_later.
  - assert (dbtx_Rollback w = (Err ErrTxDone, w)) as Hd.
    { unfold dbtx_Rollback, end_tx, tx_Rollback, catch, gets, mbind, M_bind. by rewrite Ho. }
    rewrite error_of_run, Hd. eauto.
Qed.

(** The operation as a transaction. *)
Lemma in_transaction_spec {A} be (body : M (DB D) A) R :
  (∀ w, in_lock_tx (lwd w) w →
    match body w with
    | (Ok a, w') => ∃ s1 s2, others (lwd w) s1 ∧ R a s1 s2 ∧ others s2 (lwd w')
    | (Err _, w') => tx_failed (lwd w) w'
    | (Panic _, _) => False
    | (Block, _) => True
    end) → op_spec lw others (in_transaction be body) R.
Proof.
  intros Hbody w. unfold in_transaction, wrap_err. rewrite bind_eq. pose proof (begin_others w) as Hb.
  destruct (db_BeginTx w) as [[[]|e|s|] w1]; try done. destruct Hb as (s0 & Hb & <- & Htx).
  rewrite bind_eq, catch_run. specialize (Hbody w1 Htx). destruct (body w1) as [[a|e|s|] w2]; try done.
  - destruct Hbody as (s1 & s2 & H1 & HR & H2). cbn. exists s1, s2. split_and!; [by eapply env_trans|done|done].
  - rewrite bind_eq. destruct (rollback_others _ _ Hbody) as (r & w' & -> & Hw'). cbn. by eapply env_trans.
Qed.

(** ** Statements in the transaction *)

Lemma tx_exec_run s0 wr wrr f q args w :
  in_lock_tx s0 w →
  around later (exec_effect (updates f) (drv_exec HTx q args (drv w)).1 (RowsAffected HTx q args (drv w)))
    (lw (drv w)) (lw (drv_exec HTx q args (drv w)).2) →
  match exec_affected wr wrr q args w with
  | (Ok n, w') => in_lock_tx s0 w' ∧ ∃ s1 s2 rows, later (lwd w) s1 ∧ lock_table s1 = Some rows ∧ later s2 (lwd w') ∧
      match f (clock s1) rows with
      | Some rows' => 0 < n ∧ s2 = mkLockWorld (clock s1) (Some rows')
      | None => n = 0 ∧ s2 = s1
      end
  | (Err _, w') => tx_failed s0 w'
  | _ => False
  end.
Proof.
  intros (Ho & Hs & Hc) Ha. unfold exec_affected. rewrite bind_eq. unfold gets, wrap_err. rewrite bind_eq.
  unfold ExecContext, with_handle. rewrite Ho. unfold drv_call.
  pose proof (lock_exec_saved HTx q args (drv w)) as Hsv.
  destruct (drv_exec HTx q args (drv w)) as [[e|] d]; cbn in *.
  - left. split; [done|]. split; [by rewrite <- Hs|]. cbn.
    apply later_around in Ha as [_ Ha]; [|by intros]. unfold LockSpec.lwd in *. cbn in *. lia.
  - assert (in_lock_tx s0 (set_drv d w)) as Htx.
    { split; [done|]. split; [by rewrite <- Hs|]. cbn.
      apply around_clock in Ha; [unfold LockSpec.lwd in *; cbn in *; lia|]. by intros s1 s2 (rows & n & rows' & _ & _ & -> & _). }
    destruct Ha as (s1 & s2 & H1 & (rows & n & rows' & Ht & HE & -> & Hn) & H2).
    unfold of_result. destruct (RowsAffected HTx q args (drv w)) as [m|e] eqn:Hm; [|by left].
    rewrite (Hn m eq_refl). split; [done|]. do 2 eexists. exists rows. split; [exact H1|]. split; [done|].
    split; [exact H2|]. unfold updates in HE. destruct (f (clock s1) rows); [by destruct HE as [? ->]|].
    destruct HE as [-> ->]. by destruct s1; simpl in *; subst.
Qed.

Lemma tx_query_run s0 E q args w :
  in_lock_tx s0 w → (∀ now rows out rows', E now rows out rows' → rows' = rows) →
  around later (query_effect E (drv_query HTx q args (drv w)).1) (lw (drv w)) (lw (drv_query HTx q args (drv w)).2) →
  match QueryContext HTx q args w with
  | (Ok out, w') => in_lock_tx s0 w' ∧ later (lwd w) (lwd w') ∧
      ∃ now rows, lock_table (lwd w) = Some rows ∧ E now rows out rows ∧ now ≤ clock (lwd w')
  | (Err _, w') => in_lock_tx s0 w'
  | _ => False
  end.
Proof.
  intros (Ho & Hs & Hc) HE Ha. unfold QueryContext, with_handle. rewrite Ho.
  pose proof (lock_query_saved HTx q args (drv w)) as Hsv. unfold LockSpec.lwd in *.
  assert (later (lw (drv w)) (lw (drv_query HTx q args (drv w)).2)) as Hl.
  { eapply later_around; [exact Ha|]. intros s1 s2. destruct (drv_query HTx q args (drv w)) as [[out|e] d]; cbn.
    - intros (rows & rows' & Ht & Hr & ->). apply HE in Hr as ->. by destruct s1; simpl in *; subst.
    - by intros [-> _]. }
  destruct (drv_query HTx q args (drv w)) as [[out|e] d]; cbn in *.
  - split; [split; [done|]; split; [by rewrite <- Hs|]; cbn; destruct Hl; unfold LockSpec.lwd in *; cbn; lia|]. split; [done|].
    destruct Ha as (s1 & s2 & [H1 _] & (rows & rows' & Ht & Hr & ->) & [_ H2]). exists (clock s1), rows.
    pose proof (HE _ _ _ _ Hr) as ->. split; [congruence|]. by split.
  - split; [done|]. split; [by rewrite <- Hs|]. cbn. destruct Hl. unfold LockSpec.lwd in *. cbn. lia.
Qed.

Lemma tx_read_run {A} s0 wr (g : LockRow → list sqlval) (scan : list sqlval → result A) q id w rows r v :
  in_lock_tx s0 w → lock_table (lwd w) = Some rows → rows !! id = Some r → scan (g r) = inl v →
  around later (query_effect (λ _ rows out rows', rows' = rows ∧
    out = match rows !! id with Some r => [g r] | None => [] end) (drv_query HTx q [VInt id] (drv w)).1)
    (lw (drv w)) (lw (drv_query HTx q [VInt id] (drv w)).2) →
  match wrap_err wr (row ← QueryRowContext HTx q [VInt id]; of_result (scan row)) w with
  | (Ok a, w') => a = v ∧ in_lock_tx s0 w' ∧ later (lwd w) (lwd w')
  | (Err _, w') => in_lock_tx s0 w'
  | _ => False
  end.
Proof.
  intros Htx Ht Hr Hv Ha. unfold QueryRowContext, wrap_err. rewrite bind_eq, bind_eq.
  assert (∀ now rows out rows', (λ (_ : Z) (rows : LockRows) out rows', rows' = rows ∧
    out = match rows !! id with Some r => [g r] | None => [] end) now rows out rows' → rows' = rows) as HE by by intros ???? [].
  pose proof (tx_query_run s0 _ q [VInt id] w Htx HE Ha) as Hq.
  destruct (QueryContext HTx q [VInt id] w) as [[out|e|s|] w']; try done.
  destruct Hq as (Htx' & Hl & now & rows' & Ht' & [_ ->] & _). rewrite Ht in Ht'. injection Ht' as <-. rewrite Hr.
  cbn. unfold of_result. by rewrite Hv.
Qed.

(** The end of an operation that has had its effect: the commit. *)
Lemma tx_finish {A} s0 wr (R : A → LockWorld → LockWorld → Prop) a w :
  in_lock_tx s0 w → (∃ s1 s2, others s0 s1 ∧ R a s1 s2 ∧ later s2 (lwd w)) →
  match (wrap_err wr dbtx_Commit;; mret a) w with
  | (Ok a, w') => ∃ s1 s2, others s0 s1 ∧ R a s1 s2 ∧ others s2 (lwd w')
  | (Err _, w') => tx_failed s0 w'
  | _ => False
  end.
Proof.
  intros Htx (s1 & s2 & H1 & HR & H2). unfold wrap_err. rewrite bind_eq. pose proof (commit_others s0 w Htx) as Hc.
  destruct (dbtx_Commit w) as [[[]|e|s|] w']; try done. destruct Hc as [Hc _]. cbn.
  exists s1, s2. split_and!; [done|done|]. eapply env_trans; [by apply env_later|done].
Qed.

Lemma others_later s0 s s1 : others s0 s → later s s1 → others s0 s1.
Proof. intros H1 H2. eapply env_trans; [exact H1|by apply env_later]. Qed.

Context (t : string) `{!MySQLLocks lw others t}.

Lemma acquire_insert now id by_ n rows :
  rows !! id = None → acquire now id by_ n rows = insert_ignore now id by_ n rows.
Proof. unfold acquire, insert_ignore. by intros ->. Qed.

Lemma acquire_steal now id by_ n rows r :
  rows !! id = Some r → acquire now id by_ n rows = steal now id by_ n rows.
Proof. unfold acquire, steal. by intros ->. Qed.

Lemma acquire_row now id by_ n rows rows' :
  acquire now id by_ n rows = Some rows' → rows' !! id = Some (taken now by_ n).
Proof.
  unfold acquire. destruct (rows !! id) as [r|]; [destruct (available now r); [|done]|];
    intros [= <-]; by rewrite lookup_insert_eq.
Qed.

(** Reading back and committing. *)
Lemma mysql_confirm s0 id by_ dur s1 s2 w :
  in_lock_tx s0 w → others s0 s1 →
  acquired id by_ dur (mkAcquireLockResult by_ (clock s1 + seconds (int_Seconds dur))) s1 s2 → later s2 (lwd w) →
  let wrap err := EErrorf "acquire lock %d: %w" [AInt id; AWrap err] in
  match (r ← wrap_err wrap (row ← QueryRowContext HTx (my_read_lock t) [VInt id]; of_result (scan_acquired row));
         wrap_err (λ err, EErrorf "acquire lock %d: commit: %w" [AInt id; AWrap err]) dbtx_Commit;;
         verify_owner id by_ r) w with
  | (Ok a, w') => ∃ s1 s2, others s0 s1 ∧ acquired id by_ dur a s1 s2 ∧ others s2 (lwd w')
  | (Err _, w') => tx_failed s0 w'
  | (Panic _, _) => False
  | (Block, _) => True
  end.
Proof.
  intros Htx H1 HR [Ht2 Hc2] wrap. pose proof HR as (rows & rows' & Ht & Ha & -> & _). cbn in Ht2, Hc2.
  rewrite bind_eq. pose proof (tx_read_run s0 wrap (λ r, [opt_val VStr (r_locked_by r); opt_val VTime (r_lease r)])
    scan_acquired (my_read_lock t) id w rows' _ (by_, clock s1 + seconds (int_Seconds dur)) Htx Ht2
    (acquire_row _ _ _ _ _ _ Ha) eq_refl (myl_read_lock (drv w) id)) as Hr.
  destruct (wrap_err wrap _ w) as [[r|e|s|] w']; try done; [|by left]. destruct Hr as (-> & Htx' & [Hl Hlc]).
  assert (∀ w0 : DB D, verify_owner id by_ (by_, clock s1 + seconds (int_Seconds dur)) w0
    = (Ok (mkAcquireLockResult by_ (clock s1 + seconds (int_Seconds dur))), w0)) as Hv.
  { intros w0. unfold verify_owner. cbn. by rewrite String.eqb_refl. }
  pose proof (tx_finish s0 (λ err, EErrorf "acquire lock %d: commit: %w" [AInt id; AWrap err])
    (acquired id by_ dur) _ w' Htx' (ex_intro _ _ (ex_intro _ _ (conj H1 (conj HR (conj (eq_trans Hl Ht2)
      (Z.le_trans _ _ _ Hc2 Hlc))))))) as Hf.
  rewrite bind_eq in Hf. rewrite bind_eq. destruct (wrap_err _ dbtx_Commit w') as [[[]|e|s|] w2]; try done.
  rewrite Hv. exact Hf.
Qed.

Lemma mysql_acquire_run id by_ dur : op_spec lw others (mysql_AcquireLock t id by_ dur) (acquired id by_ dur).
Proof.
  apply in_transaction_spec. intros w Htx. set (s0 := lwd w) in *. rewrite bind_eq.
  pose proof (tx_exec_run s0 (λ err, EErrorf "acquire lock %d: %w" [AInt id; AWrap err])
    (λ err, EErrorf "acquire lock %d: rows affected: %w" [AInt id; AWrap err]) _ _ _ w Htx
    (myl_insert (drv w) id by_ (int_Seconds dur))) as Hi.
  destruct (exec_affected _ _ (my_insert t) _ w) as [[n|e|s|] w1]; try done.
  destruct Hi as (Htx1 & s1 & s2 & rows & H1 & Ht & H2 & Hf). fold s0 in H1.
  assert (others s0 s1) as Ho1 by by apply env_later. rewrite bind_eq.
  destruct (insert_ignore (clock s1) id by_ (int_Seconds dur) rows) as [rows'|] eqn:Hins.
  - destruct Hf as [Hn ->]. destruct (Z.eqb_spec n 0); [lia|]. cbn [mret M_ret].
    pose proof (mysql_confirm s0 id by_ dur s1 _ w1 Htx1 Ho1 ltac:(eexists _, _; split_and!;
      [exact Ht|rewrite acquire_insert; [exact Hins|by unfold insert_ignore in Hins; destruct (rows !! id)]|reflexivity|reflexivity]) H2) as Hc.
    exact Hc.
  - destruct Hf as [-> ->]. rewrite Z.eqb_refl. rewrite bind_eq.
    assert (∃ r, rows !! id = Some r) as [r Hr] by (unfold insert_ignore in Hins; destruct (rows !! id); [eauto|done]).
    pose proof (tx_exec_run s0 (λ err, EErrorf "acquire lock %d: %w" [AInt id; AWrap err])
      (λ err, EErrorf "acquire lock %d: rows affected: %w" [AInt id; AWrap err]) _ _ _ w1 Htx1
      (myl_steal (drv w1) id by_ (int_Seconds dur))) as Hs.
    destruct (exec_affected _ _ (my_steal t) _ w1) as [[n|e|s|] w2]; try done.
    destruct Hs as (Htx2 & s3 & s4 & rows3 & H3 & Ht3 & H4 & Hf).
    assert (rows3 = rows) as ->. { destruct H2 as [E2 _], H3 as [E3 _]. congruence. }
    assert (others s0 s3) as Ho3.
    { eapply others_later; [exact Ho1|]. by eapply later_trans. }
    destruct (steal (clock s3) id by_ (int_Seconds dur) rows) as [rows'|] eqn:Hst.
    + destruct Hf as [Hn ->]. destruct (Z.eqb_spec n 0); [lia|]. cbn [mret M_ret].
      pose proof (mysql_confirm s0 id by_ dur s3 _ w2 Htx2 Ho3 ltac:(eexists _, _; split_and!;
        [exact Ht3|rewrite (acquire_steal _ _ _ _ _ r) by exact Hr; exact Hst|reflexivity|reflexivity]) H4) as Hc.
      exact Hc.
    + destruct Hf as [-> ->]. rewrite Z.eqb_refl. cbn. by left.
Qed.

(** An update of one row, the only statement but for reading back. *)
Lemma tx_update_run {A} s0 wr wrr f q args w none (k : M (DB D) A) (R : A → LockWorld → LockWorld → Prop) :
  in_lock_tx s0 w → others s0 (lwd w) →
  around later (exec_effect (updates f) (drv_exec HTx q args (drv w)).1 (RowsAffected HTx q args (drv w)))
    (lw (drv w)) (lw (drv_exec HTx q args (drv w)).2) →
  (∀ s1 s2 rows rows' w, in_lock_tx s0 w → others s0 s1 → lock_table s1 = Some rows → f (clock s1) rows = Some rows' →
     s2 = mkLockWorld (clock s1) (Some rows') → later s2 (lwd w) →
     match k w with
     | (Ok a, w') => ∃ s1 s2, others s0 s1 ∧ R a s1 s2 ∧ others s2 (lwd w')
     | (Err _, w') => tx_failed s0 w'
     | _ => False
     end) →
  match (affected ← exec_affected wr wrr q args; (if affected =? 0 then fail none else mret tt);; k) w with
  | (Ok a, w') => ∃ s1 s2, others s0 s1 ∧ R a s1 s2 ∧ others s2 (lwd w')
  | (Err _, w') => tx_failed s0 w'
  | (Panic _, _) => False
  | (Block, _) => True
  end.
Proof.
  intros Htx Ho Hd Hk. rewrite bind_eq. pose proof (tx_exec_run s0 wr wrr f q args w Htx Hd) as Hr.
  destruct (exec_affected wr wrr q args w) as [[n|e|s|] w1]; try done.
  destruct Hr as (Htx1 & s1 & s2 & rows & H1 & Ht & H2 & Hf). rewrite bind_eq.
  destruct (f (clock s1) rows) as [rows'|] eqn:Hrows.
  - destruct Hf as [Hn ->]. destruct (Z.eqb_spec n 0); [lia|]. cbn [mret M_ret].
    specialize (Hk s1 _ rows rows' w1 Htx1 (others_later _ _ _ Ho H1) Ht Hrows eq_refl H2).
    destruct (k w1) as [[a|e|s|] w']; done.
  - destruct Hf as [-> ->]. rewrite Z.eqb_refl. cbn. by left.
Qed.

Lemma mysql_release_run id by_ : op_spec lw others (mysql_ReleaseLock t id by_) (released id by_).
Proof.
  apply in_transaction_spec. intros w Htx. eapply tx_update_run; [exact Htx|apply env_refl|apply myl_release|].
  intros s1 s2 rows rows' w1 Htx1 H1 Ht Hf -> H2. apply tx_finish; [done|].
  eexists _, _. split; [exact H1|]. split; [|exact H2]. by exists rows, rows'.
Qed.

Lemma renew_row now id by_ n rows rows' :
  renew now id by_ n rows = Some rows' → ∃ r, rows !! id = Some r ∧ rows' !! id = Some (extended now n r).
Proof.
  unfold renew. destruct (rows !! id) as [r|]; [|done]. destruct (_ && _); [|done]. intros [= <-].
  exists r. by rewrite lookup_insert_eq.
Qed.

Lemma mysql_renew_run id by_ dur : op_spec lw others (mysql_UpdateLease t id by_ dur) (renewed id by_ dur).
Proof.
  apply in_transaction_spec. intros w Htx. eapply tx_update_run; [exact Htx|apply env_refl|apply myl_renew|].
  intros s1 s2 rows rows' w1 Htx1 H1 Ht Hf -> [Ht2 Hc2]. cbn in Ht2, Hc2.
  destruct (renew_row _ _ _ _ _ _ Hf) as (r & Hr & Hr'). rewrite bind_eq.
  pose proof (tx_read_run _ (λ err, EErrorf "failed to update lease for lock %d: %w" [AInt id; AWrap err])
    (λ r, [opt_val VTime (r_lease r)]) scan_lease (my_read_lease t) id w1 rows' _
    (clock s1 + seconds (int_Seconds dur)) Htx1 Ht2 Hr' eq_refl (myl_read_lease (drv w1) id)) as Hrd.
  destruct (wrap_err _ (row ← QueryRowContext HTx (my_read_lease t) [VInt id]; of_result (scan_lease row)) w1)
    as [[a|e|s|] w2]; try done; [|by left].
  destruct Hrd as (-> & Htx2 & [Ht3 Hc3]). apply tx_finish; [done|].
  eexists _, _. split; [exact H1|]. split; [by exists rows, rows'|]. split; [by rewrite Ht3|cbn; lia].
Qed.

Lemma free_ids_nil now rows : free_ids now [] rows = rows.
Proof. apply map_eq. intros k. unfold free_ids. rewrite map_lookup_imap. by destruct (rows !! k). Qed.

Lemma tx_exec_plain s0 E q args w :
  in_lock_tx s0 w →
  around later (exec_effect E (drv_exec HTx q args (drv w)).1 (inr (ESentinel ErrUnsupported)))
    (lw (drv w)) (lw (drv_exec HTx q args (drv w)).2) →
  match ExecContext HTx q args w with
  | (Ok _, w') => in_lock_tx s0 w' ∧ ∃ s1 rows n rows', later (lwd w) s1 ∧ lock_table s1 = Some rows ∧
      E (clock s1) rows n rows' ∧ later (mkLockWorld (clock s1) (Some rows')) (lwd w')
  | (Err _, w') => tx_failed s0 w'
  | _ => False
  end.
Proof.
  intros (Ho & Hs & Hc) Ha. unfold ExecContext, with_handle. rewrite Ho. unfold drv_call.
  pose proof (lock_exec_saved HTx q args (drv w)) as Hsv. unfold LockSpec.lwd in *.
  destruct (drv_exec HTx q args (drv w)) as [[e|] d]; cbn in *.
  - left. split; [done|]. split; [by rewrite <- Hs|]. unfold LockSpec.lwd. cbn.
    apply later_around in Ha as [_ Ha]; [lia|by intros].
  - split.
    + split; [done|]. split; [by rewrite <- Hs|]. unfold LockSpec.lwd. cbn.
      apply around_clock in Ha; [lia|]. by intros s1 s2 (rows & n & rows' & _ & _ & -> & _).
    + destruct Ha as (s1 & s2 & H1 & (rows & n & rows' & Ht & HE & -> & _) & H2). by exists s1, rows, n, rows'.
Qed.

Lemma mysql_cleanup_run : op_spec lw others (mysql_CleanupStaleLocks t) cleaned.
Proof.
  apply in_transaction_spec. intros w Htx. set (s0 := lwd w) in *. rewrite bind_eq, wrap_err_eq.
  assert (∀ now rows out rows', (λ now (rows : LockRows) out rows', rows' = rows ∧
      ∃ ids, ids ≡ₚ stale_ids now rows ∧ out = map (λ i, [VInt i]) ids) now rows out rows' → rows' = rows) as HE
    by by intros ???? [].
  pose proof (tx_query_run s0 _ (my_stale t) [] w Htx HE (myl_stale (drv w))) as Hq.
  destruct (QueryContext HTx (my_stale t) [] w) as [[out|e|s|] w1]; try done; [|by left].
  destruct Hq as (Htx1 & Hl1 & now & rows & Ht & (_ & ids & Hids & ->) & Hnow). fold s0 in Hl1, Ht.
  assert (lock_table (lwd w1) = Some rows) as Ht1 by (destruct Hl1; congruence).
  assert (others s0 (lwd w1)) as Ho1 by by apply env_later.
  rewrite bind_eq, scan_ids_run, bind_eq. destruct (Nat.eqb_spec (length ids) 0) as [Hlen|Hlen].
  - apply nil_length_inv in Hlen as ->. cbn [mret M_ret].
    pose proof (tx_finish s0 (λ err, EErrorf "cleanup stale locks: commit: %w" [AWrap err]) cleaned [] w1 Htx1) as Hf.
    assert (∃ s1 s2, others s0 s1 ∧ cleaned [] s1 s2 ∧ later s2 (lwd w1)) as Hpre.
    { exists (lwd w1), (lwd w1). split; [done|]. split; [|apply later_refl]. exists rows, now. rewrite free_ids_nil.
      split_and!; try done. destruct (lwd w1); simpl in *; by subst. }
    specialize (Hf Hpre). destruct ((wrap_err _ dbtx_Commit;; mret []) w1) as [[a|e|s|] w2]; done.
  - rewrite wrap_err_eq. pose proof (tx_exec_plain s0 _ _ _ w1 Htx1 (myl_free (drv w1) ids)) as Hx.
    destruct (ExecContext HTx (my_free t (length ids)) (map VInt ids) w1) as [[[]|e|s|] w2]; try done.
    destruct Hx as (Htx2 & s1 & rows1 & n & rows' & [Hl Hlc] & Ht2 & -> & H2).
    assert (rows1 = rows) as -> by congruence.
    pose proof (tx_finish s0 (λ err, EErrorf "cleanup stale locks: commit: %w" [AWrap err]) cleaned ids w2 Htx2) as Hf.
    assert (∃ s1 s2, others s0 s1 ∧ cleaned ids s1 s2 ∧ later s2 (lwd w2)) as Hpre.
    { exists s1. eexists. split; [by eapply others_later|]. split; [|exact H2]. exists rows, now. split_and!; [done|lia|done|done]. }
    specialize (Hf Hpre). destruct ((wrap_err _ dbtx_Commit;; mret ids) w2) as [[a|e|s|] w3]; done.
Qed.

Lemma mysql_exists_run : op_spec lw others (mysql_TableExists t) table_status.
Proof.
  unfold mysql_TableExists. pose proof (λ d, myl_exists (t:=t) (lw:=lw) (others:=others) d) as He.
  destruct (my_exists t) as [q args]. apply (exists_run lw others). exact He.
Qed.

Lemma mysql_meets_contract : LockStoreSpec lw others (mysql_store t).
Proof.
  split; cbn [CreateLockTable LockTableExists AcquireLock ReleaseLock UpdateLease CheckLockStatus CleanupStaleLocks mysql_store].
  - apply mysql_exists_run.
  - intros w. apply (create_lock_table_run lw others); [apply mysql_exists_run|apply myl_create].
  - intros ????. apply mysql_acquire_run.
  - apply mysql_release_run.
  - intros ????. apply mysql_renew_run.
  - intros id. apply (check_status_run lw others). intros d. apply myl_status.
  - apply mysql_cleanup_run.
Qed.

End MySQLSpec.

(** ** The constructors *)

(** C20: a store for PostgreSQL has a table name, and when the database gives
    its statements their documented meaning it meets the contract of
    [LockStore], also while other processes use the table: every operation
    that succeeds takes effect at one moment between its call and its return,
    and one that fails changes nothing. *)
Theorem store_NewPostgres_refines {D} `{Driver D} lw others t (st : LockStore D) :
  Environment others → store_NewPostgres t = inl st → PostgresLocks lw others t →
  t ≠ "" ∧ LockStoreSpec lw others st.
Proof.
  intros He Hst Hl. unfold store_NewPostgres in Hst. destruct (String.eqb_spec t ""); [done|].
  injection Hst as <-. split; [done|]. by apply postgres_meets_contract.
Qed.

(** C21: the same for the MySQL store, whose operations are transactions that
    are rolled back on an error. *)
Theorem store_NewMySQL_refines {D} `{Driver D, Affected D, Multierr} lw lsaved others t (st : LockStore D) :
  store_NewMySQL t = inl st → LockDriver lw lsaved others → MySQLLocks lw others t →
  t ≠ "" ∧ LockStoreSpec lw others st.
Proof.
  intros Hst Hd Hl. unfold store_NewMySQL in Hst. destruct (String.eqb_spec t ""); [done|].
  injection Hst as <-. split; [done|]. by eapply mysql_meets_contract.
Qed.
