(* ===== verification/Lockers.v ===== *)
(** * Lockers (lock, lock/internal/table)

    The configuration of the table and session lockers with their options, the
    table locker with its mutex and its heartbeat, and the locker on
    PostgreSQL's advisory locks. *)

From S2P Require Import Prelude GoStrings Effects Dialects Sql Migration Store Options LockStore.

(** ** Options of the table locker (table_locker_options.go, config.go) *)

Record ProbeConfig := mkProbeConfig { IntervalDuration : Z; FailureThreshold : Z }.

Record Config := mkTableConfig {
  cfg_TableName : string;
  cfg_LockID : Z;
  cfg_LeaseDuration : Z;
  cfg_HeartbeatInterval : Z;
  cfg_LockTimeout : ProbeConfig;
  cfg_UnlockTimeout : ProbeConfig;
  cfg_Logger : option Z;
  cfg_RetryPolicy : option (error → bool)
}.

Definition DefaultLockTableName : string := "goose_lock".
Definition DefaultLockID : Z := 4097083626.

Definition TableLockerOption : Type := M Config unit.

Definition WithLockTableName (tableName : string) : TableLockerOption :=
  if String.eqb tableName "" then fail (errors_New "lock table name must not be empty")
  else modify (λ c, let 'mkTableConfig _ b d e f g h i := c in mkTableConfig tableName b d e f g h i).

Definition WithTableLockID (lockID : Z) : TableLockerOption :=
  if lockID <=? 0 then fail (EErrorf "lock ID must be greater than zero: %d" [AInt lockID])
  else modify (λ c, let 'mkTableConfig a _ d e f g h i := c in mkTableConfig a lockID d e f g h i).

Definition WithTableLeaseDuration (duration : Z) : TableLockerOption :=
  if duration <=? 0 then fail (errors_New "lease duration must be positive")
  else modify (λ c, let 'mkTableConfig a b _ e f g h i := c in mkTableConfig a b duration e f g h i).

Definition WithTableHeartbeatInterval (interval : Z) : TableLockerOption :=
  if interval <=? 0 then fail (errors_New "heartbeat interval must be positive")
  else modify (λ c, let 'mkTableConfig a b d _ f g h i := c in mkTableConfig a b d interval f g h i).

Definition WithTableLockTimeout (intervalDuration failureThreshold : Z) : TableLockerOption :=
  if intervalDuration <=? 0 then fail (errors_New "lock timeout interval duration must be positive")
  else if failureThreshold =? 0 then fail (errors_New "lock timeout failure threshold must be positive")
  else modify (λ c, let 'mkTableConfig a b d e _ g h i := c in
    mkTableConfig a b d e (mkProbeConfig intervalDuration failureThreshold) g h i).

Definition WithTableUnlockTimeout (intervalDuration failureThreshold : Z) : TableLockerOption :=
  if intervalDuration <=? 0 then fail (errors_New "unlock timeout interval duration must be positive")
  else if failureThreshold =? 0 then fail (errors_New "unlock timeout failure threshold must be positive")
  else modify (λ c, let 'mkTableConfig a b d e f _ h i := c in
    mkTableConfig a b d e f (mkProbeConfig intervalDuration failureThreshold) h i).

Definition WithTableLogger (logger : option Z) : TableLockerOption :=
  modify (λ c, let 'mkTableConfig a b d e f g _ i := c in mkTableConfig a b d e f g logger i).

Definition WithTableRetryPolicy (retryPolicy : option (error → bool)) : TableLockerOption :=
  modify (λ c, let 'mkTableConfig a b d e f g h _ := c in mkTableConfig a b d e f g h retryPolicy).

Definition default_table_config : Config :=
  mkTableConfig DefaultLockTableName DefaultLockID (30 * Second) (5 * Second)
    (mkProbeConfig (5 * Second) 60) (mkProbeConfig (2 * Second) 30) None None.

(** [for _, opt := range options]: the configuration, or the first error. *)
Definition configure {C} (init : C) (options : list (M C unit)) : result C :=
  match mfor (λ opt, opt) options init with
  | (Ok _, c) => inl c
  | (Err e, _) => inr e
  | _ => inl init
  end.

(** ** The table locker (internal/table/locker.go) *)

Record TableLocker (D : Type) := mkTableLocker {
  tl_store : LockStore D;
  tl_tableName : string;
  tl_lockID : Z;
  tl_instanceID : string;
  tl_leaseDuration : Z;
  tl_heartbeatInterval : Z;
  tl_retryLock : Backoff;
  tl_retryUnlock : Backoff;
  tl_retryPolicy : option (error → bool)
}.
Arguments mkTableLocker {D} _ _ _ _ _ _ _ _ _.
Arguments tl_store {D} _.
Arguments tl_tableName {D} _.
Arguments tl_lockID {D} _.
Arguments tl_instanceID {D} _.
Arguments tl_leaseDuration {D} _.
Arguments tl_heartbeatInterval {D} _.
Arguments tl_retryLock {D} _.
Arguments tl_retryUnlock {D} _.
Arguments tl_retryPolicy {D} _.

(** The host's name, the process and four random bytes in hexadecimal. *)
Definition instance_id (hostname : string) (pid : Z) (hex : string) : string :=
  let hostname := if String.eqb hostname "" then "unknown-hostname" else hostname in
  hostname +++ "-" +++ FormatInt pid +++ "-" +++ hex.

Definition probe_backoff (p : ProbeConfig) : Backoff :=
  mkBackoff (Z.to_nat (FailureThreshold p)) (IntervalDuration p).

Definition table_New {D} (hostname : string) (pid : Z) (hex : string) (lockStore : LockStore D) (cfg : Config)
  : TableLocker D :=
  mkTableLocker lockStore (cfg_TableName cfg) (cfg_LockID cfg) (instance_id hostname pid hex)
    (cfg_LeaseDuration cfg) (cfg_HeartbeatInterval cfg) (probe_backoff (cfg_LockTimeout cfg))
    (probe_backoff (cfg_UnlockTimeout cfg)) (cfg_RetryPolicy cfg).

(** The database, whether the mutex is locked and whether the heartbeat runs. *)
Record TLW (D : Type) := mkTLW { t_db : DB D; t_mu : bool; t_heartbeat : bool }.
Arguments mkTLW {D} _ _ _.
Arguments t_db {D} _.
Arguments t_mu {D} _.
Arguments t_heartbeat {D} _.

Section TableLocker.
Context {D : Type} `{Retry} (l : TableLocker D).

Definition set_tdb (d : DB D) (w : TLW D) : TLW D := mkTLW d (t_mu w) (t_heartbeat w).
Definition set_tmu (b : bool) (w : TLW D) : TLW D := mkTLW (t_db w) b (t_heartbeat w).
Definition set_heartbeat (b : bool) (w : TLW D) : TLW D := mkTLW (t_db w) (t_mu w) b.

Definition liftt {A} (m : M (DB D) A) : M (TLW D) A := zoom t_db set_tdb m.

Definition tl_mu_Lock : M (TLW D) unit :=
  locked ← gets t_mu; if locked : bool then block else modify (set_tmu true).
Definition tl_mu_Unlock : M (TLW D) unit :=
  locked ← gets t_mu; if locked : bool then modify (set_tmu false) else panic "sync: unlock of unlocked mutex".

Definition shouldRetry (err : error) : bool :=
  match tl_retryPolicy l with Some retryPolicy => retryPolicy err | None => true end.

(** Cancels the goroutine and waits until it is done. *)
Definition stopHeartbeat : M (TLW D) unit :=
  running ← gets t_heartbeat; if running : bool then modify (set_heartbeat false) else mret tt.
Definition startHeartbeat : M (TLW D) unit := stopHeartbeat;; modify (set_heartbeat true).

(** What the goroutine does when the ticker fires. *)
Definition heartbeat_tick : M (TLW D) unit :=
  running ← gets t_heartbeat;
  if running : bool
  then catch (liftt (UpdateLease (tl_store l) (tl_lockID l) (tl_instanceID l) (tl_leaseDuration l)));; mret tt
  else mret tt.

Definition lock_attempt : M (TLW D) unit :=
  r ← catch (liftt (AcquireLock (tl_store l) (tl_lockID l) (tl_instanceID l) (tl_leaseDuration l)));
  match r with
  | inl _ => mret tt
  | inr err =>
      catch (liftt (CleanupStaleLocks (tl_store l)));;
      if shouldRetry err then fail (ERetryable (EErrorf "acquire retryable lock: %w" [AWrap err]))
      else fail (EErrorf "acquire lock: %w" [AWrap err])
  end.

(** The mutex stays locked when the lock is acquired. *)
Definition Locker_Lock : M (TLW D) unit :=
  tl_mu_Lock;;
  r ← catch (liftt (CreateLockTable (tl_store l)));
  match r with
  | inr err => tl_mu_Unlock;; fail (EErrorf "ensure lock table exists: %w" [AWrap err])
  | inl _ =>
      r ← catch (retry_Do (tl_retryLock l) lock_attempt);
      match r with
      | inr err =>
          tl_mu_Unlock;;
          fail (EErrorf "acquire lock %d after retries: %w" [AInt (tl_lockID l); AWrap err])
      | inl _ => startHeartbeat
      end
  end.

Definition unlock_attempt : M (TLW D) unit :=
  r ← catch (liftt (ReleaseLock (tl_store l) (tl_lockID l) (tl_instanceID l)));
  match r with
  | inl _ => mret tt
  | inr err =>
      if shouldRetry err then fail (ERetryable (EErrorf "release retryable lock: %w" [AWrap err]))
      else fail (EErrorf "release lock: %w" [AWrap err])
  end.

(** [defer l.mu.Unlock()]. *)
Definition defer_mu_Unlock (m : M (TLW D) unit) : M (TLW D) unit := λ w,
  match m w with
  | (Block, w') => (Block, w')
  | (r, w') => match tl_mu_Unlock w' with (Ok _, w'') => (r, w'') | (r', w'') => (r', w'') end
  end.

Definition Locker_Unlock : M (TLW D) unit :=
  defer_mu_Unlock (stopHeartbeat;; retry_Do (tl_retryUnlock l) unlock_attempt).

End TableLocker.

(** [NewPostgresTableLocker] and [NewMySQLTableLocker]. *)
Section NewTableLocker.
Context {D : Type} `{Driver D, Affected D, Multierr} (hostname : string) (pid : Z) (hex : string).

Definition new_table_locker (new_store : string → result (LockStore D)) (options : list TableLockerOption)
  : result (TableLocker D) :=
  let? config := configure default_table_config options in
  match new_store (cfg_TableName config) with
  | inr err => inr (EErrorf "create lock store: %w" [AWrap err])
  | inl lockStore => inl (table_New hostname pid hex lockStore config)
  end.

Definition NewPostgresTableLocker : list TableLockerOption → result (TableLocker D) :=
  new_table_locker store_NewPostgres.
Definition NewMySQLTableLocker : list TableLockerOption → result (TableLocker D) :=
  new_table_locker store_NewMySQL.

End NewTableLocker.

(** ** The session locker (session_locker_options.go, postgres.go) *)

Record probe := mkProbe { intervalDuration : Z; failureThreshold : Z }.
Record sessionLockerConfig := mkSessionLockerConfig { lockID : Z; lockProbe : probe; unlockProbe : probe }.

Definition SessionLockerOption : Type := M sessionLockerConfig unit.

Definition WithLockID (id : Z) : SessionLockerOption :=
  modify (λ c, mkSessionLockerConfig id (lockProbe c) (unlockProbe c)).

(** [time.Duration(period) * time.Second] on an unsigned number of seconds. *)
Definition period_duration (period : Z) : Z := wrap64 (wrap64 period * Second).

Definition timeout_probe (period failureThreshold : Z) (set : probe → sessionLockerConfig → sessionLockerConfig)
  : SessionLockerOption :=
  if period <? 1 then fail (errors_New "period must be greater than 0, minimum is 1")
  else if failureThreshold <? 1 then fail (errors_New "failure threshold must be greater than 0, minimum is 1")
  else modify (set (mkProbe (period_duration period) failureThreshold)).

Definition WithLockTimeout (period failureThreshold : Z) : SessionLockerOption :=
  timeout_probe period failureThreshold (λ p c, mkSessionLockerConfig (lockID c) p (unlockProbe c)).
Definition WithUnlockTimeout (period failureThreshold : Z) : SessionLockerOption :=
  timeout_probe period failureThreshold (λ p c, mkSessionLockerConfig (lockID c) (lockProbe c) p).

Section SessionLocker.
Context {D : Type} `{Driver D, Retry}.

Definition advisory (verb : string) (lockID : Z) (failed : string) : M (DB D) bool :=
  wrap_err (λ err, EErrorf failed [AWrap err])
    (row ← QueryRowContext HConn verb [VInt lockID]; of_result (scan_exists row)).

Definition session_attempt (verb failed refused : string) (lockID : Z) : M (DB D) unit :=
  done ← advisory verb lockID failed;
  if done : bool then mret tt else fail (ERetryable (errors_New refused)).

Definition postgres_SessionLock (lockID : Z) (retryLock : Backoff) : M (DB D) unit :=
  retry_Do retryLock (session_attempt "SELECT pg_try_advisory_lock($1)"
    "failed to execute pg_try_advisory_lock: %w" "failed to acquire lock" lockID).

Definition postgres_SessionUnlock (lockID : Z) (retryUnlock : Backoff) : M (DB D) unit :=
  retry_Do retryUnlock (session_attempt "SELECT pg_advisory_unlock($1)"
    "failed to execute pg_advisory_unlock: %w" "failed to unlock session" lockID).

Definition default_session_config : sessionLockerConfig :=
  mkSessionLockerConfig DefaultLockID (mkProbe (5 * Second) 60) (mkProbe (2 * Second) 30).

Definition session_backoff (p : probe) : Backoff := mkBackoff (Z.to_nat (failureThreshold p)) (intervalDuration p).

Definition NewPostgresSessionLocker (opts : list SessionLockerOption) : result (SessionLocker D) :=
  let? cfg := configure default_session_config opts in
  inl (mkSessionLocker D (postgres_SessionLock (lockID cfg) (session_backoff (lockProbe cfg)))
    (postgres_SessionUnlock (lockID cfg) (session_backoff (unlockProbe cfg)))).

End SessionLocker.
