(* ===== verification/LockSystem.v ===== *)
(** * Several processes and one lock

    The processes that use one lock of a lock table as a transition system:
    what the table locker of one process does is a run of its node, and at any
    time at most one process holds a lease that has not expired. *)

From stdpp Require Import relations.
From S2P Require Import Prelude GoStrings Effects Dialects Sql Migration Store Options LockStore LockSpec Lockers.

(** ** The transition system *)

Section System.
(** The lock and the lease of all processes. *)
Context (id : Z) (dur : Z).

(** One process: the table, and the time until which it relies on the lock,
    if it does. *)
Inductive node_step (i : string) : LockWorld * option Z → LockWorld * option Z → Prop :=
  | ns_create s h : lock_table s = None → node_step i (s, h) (mkLockWorld (clock s) (Some ∅), h)
  | ns_acquire s res s' : acquired id i dur res s s' →
      node_step i (s, None) (s', Some (al_LeaseExpiresAt res))
  | ns_renew s e res s' : renewed id i dur res s s' →
      node_step i (s, Some e) (s', Some (ul_LeaseExpiresAt res))
  | ns_unlock s e : node_step i (s, Some e) (s, None)
  | ns_release s res s' : released id i res s s' → node_step i (s, None) (s', None)
  | ns_cleanup s ids s' h : cleaned ids s s' → node_step i (s, h) (s', h).

(** All processes: the table, and who relies on the lock until when. *)
Record System := mkSystem { y_world : LockWorld; y_held : gmap string Z }.

Inductive sys_step : System → System → Prop :=
  | sys_time s s' held : later s s' → sys_step (mkSystem s held) (mkSystem s' held)
  | sys_node i s s' h' held : node_step i (s, held !! i) (s', h') →
      sys_step (mkSystem s held) (mkSystem s' (partial_alter (λ _, h') i held)).

Definition reachable (y : System) : Prop := ∃ s, rtc sys_step (mkSystem s ∅) y.

(** ** The invariant *)

(** Process [i] owns the row with a lease until [e] at least. *)
Definition owns (s : LockWorld) (i : string) (e : Z) : Prop :=
  ∃ rows r l, lock_table s = Some rows ∧ rows !! id = Some r ∧ r_locked r = true ∧
    r_locked_by r = Some i ∧ r_lease r = Some l ∧ e ≤ l.

Definition secure (s : LockWorld) (i : string) (e : Z) : Prop := owns s i e ∨ e < clock s.

Definition lock_inv (y : System) : Prop := ∀ i e, y_held y !! i = Some e → secure (y_world y) i e.

Lemma owns_unique s i j e e' : owns s i e → owns s j e' → i = j.
Proof. intros (rs & r & l & Ht & Hr & _ & Hi & _) (rs' & r' & l' & Ht' & Hr' & _ & Hj & _). congruence. Qed.

(** What a process does to a row that another one owns: nothing, unless the
    lease has expired. *)
Lemma secure_row s s' i e rows rows' :
  lock_table s = Some rows → s' = mkLockWorld (clock s) (Some rows') →
  (∀ r, rows !! id = Some r → r_locked_by r = Some i → r_locked r = true →
     rows' !! id = Some r ∨ expired (clock s) r = true) →
  secure s i e → secure s' i e.
Proof.
  intros Ht -> Hrow [(rs & r & l & Ht' & Hr & Hl & Hb & Hle & He)|He]; [|by right].
  assert (rs = rows) as -> by congruence. destruct (Hrow r Hr Hb Hl) as [Hr'|Hx].
  - left. by exists rows', r, l.
  - right. cbn. unfold expired in Hx. rewrite Hle in Hx. apply Z.ltb_lt in Hx. lia.
Qed.

Lemma acquire_other now j rows rows' r i :
  acquire now id j (int_Seconds dur) rows = Some rows' → rows !! id = Some r → r_locked r = true →
  r_locked_by r = Some i → rows' !! id = Some r ∨ expired now r = true.
Proof. unfold acquire, available. intros Ha Hr Hl _. rewrite Hr, Hl in Ha. right. by destruct (expired now r). Qed.

Lemma renew_other now j rows rows' r i : i ≠ j →
  renew now id j (int_Seconds dur) rows = Some rows' → rows !! id = Some r → r_locked_by r = Some i → False.
Proof.
  unfold renew, owned_by. intros Hne Ha Hr Hb. rewrite Hr in Ha.
  destruct (bool_decide_reflect (r_locked_by r = Some j)); [congruence|done].
Qed.

Lemma release_other now j rows rows' r i : i ≠ j →
  release now id j rows = Some rows' → rows !! id = Some r → r_locked_by r = Some i → False.
Proof.
  unfold release, owned_by. intros Hne Ha Hr Hb. rewrite Hr in Ha.
  destruct (bool_decide_reflect (r_locked_by r = Some j)); [congruence|done].
Qed.

Lemma free_other t now ids rows r :
  t ≤ now → ids ≡ₚ stale_ids t rows → rows !! id = Some r →
  free_ids now ids rows !! id = Some r ∨ expired now r = true.
Proof.
  intros Ht Hids Hr. unfold free_ids. rewrite map_lookup_imap, Hr. cbn.
  destruct (bool_decide_reflect (id ∈ ids)) as [Hin|]; [right|by left].
  rewrite Hids in Hin. unfold stale_ids in Hin. apply list_elem_of_fmap in Hin as ([k r'] & Hk & Hin). cbn in Hk. subst k.
  apply elem_of_map_to_list, map_lookup_filter_Some in Hin as [Hr' Hs]. cbn in Hs.
  assert (r' = r) as -> by congruence. unfold is_stale, expired in *. destruct (r_lease r) as [l|]; zify_bool; [|done].
  rename select (_ < _) into Hlt. apply Z.ltb_lt. lia.
Qed.

Lemma create_secure s i e : lock_table s = None → secure s i e → secure (mkLockWorld (clock s) (Some ∅)) i e.
Proof. intros Hn [(rs & r & l & Ht & _)|He]; [congruence|by right]. Qed.

Lemma clean_secure s ids s' i e : cleaned ids s s' → secure s i e → secure s' i e.
Proof.
  intros (rows & t & Ht & Hlt & Hids & ->) Hsec. eapply secure_row; [exact Ht|done| |exact Hsec].
  intros r Hr Hb Hl. by eapply free_other.
Qed.

#[local] Ltac name_step := try match goal with
  | H : acquired _ _ _ _ _ _ |- _ => rename H into Hstep
  | H : renewed _ _ _ _ _ _ |- _ => rename H into Hstep
  | H : released _ _ _ _ _ |- _ => rename H into Hstep
  end.

(** A step of [j] keeps what [i] relies on. *)
Lemma other_step_secure i j s h s' h' e :
  node_step j (s, h) (s', h') → i ≠ j → secure s i e → secure s' i e.
Proof.
  intros Hs Hne Hsec. inversion Hs; subst; clear Hs; name_step.
  - by apply create_secure.
  - destruct Hstep as (rows & rows' & Ht & Ha & -> & ->).
    eapply secure_row; [exact Ht|done| |exact Hsec]. intros r Hr Hb Hl. by eapply acquire_other.
  - destruct Hstep as (rows & rows' & Ht & Ha & -> & ->).
    eapply secure_row; [exact Ht|done| |exact Hsec]. intros r Hr Hb Hl. by edestruct (renew_other _ _ _ _ _ _ Hne Ha Hr Hb).
  - done.
  - destruct Hstep as (rows & rows' & Ht & Ha & -> & ->).
    eapply secure_row; [exact Ht|done| |exact Hsec]. intros r Hr Hb Hl. by edestruct (release_other _ _ _ _ _ _ Hne Ha Hr Hb).
  - by eapply clean_secure.
Qed.

(** A process relies on no more than it owns. *)
Lemma own_step_secure j s h s' e :
  node_step j (s, h) (s', Some e) → (∀ e, h = Some e → secure s j e) → secure s' j e.
Proof.
  intros Hs Hsec. inversion Hs; subst; clear Hs; name_step.
  - apply create_secure; [done|by apply Hsec].
  - destruct Hstep as (rows & rows' & Ht & Ha & -> & ->). left. exists rows'. do 2 eexists.
    split; [done|]. split; [by eapply acquire_row|]. by split_and!.
  - destruct Hstep as (rows & rows' & Ht & Ha & -> & ->). left.
    destruct (renew_row _ _ _ _ _ _ Ha) as (r & Hr & Hr'). exists rows'. do 2 eexists.
    split; [done|]. split; [exact Hr'|]. unfold renew, owned_by in Ha. rewrite Hr in Ha.
    destruct (bool_decide_reflect (r_locked_by r = Some j)) as [Hb|]; [|done].
    destruct (r_locked r) eqn:Hl; [|done]. cbn. by split_and!.
  - eapply clean_secure; [done|by apply Hsec].
Qed.

Lemma step_inv y y' : sys_step y y' → lock_inv y → lock_inv y'.
Proof.
  intros [s s' held [Ht Hc]|j s s' h' held Hs] Hinv i e; cbn.
  - intros Hi. destruct (Hinv i e Hi) as [(rs & r & l & Htab & Hr)|He]; [left|right; cbn in *; lia].
    exists rs, r, l. cbn in *. split; [congruence|exact Hr].
  - destruct (decide (i = j)) as [->|Hne].
    + rewrite lookup_partial_alter_eq. intros ->. eapply own_step_secure; [exact Hs|]. intros e' He'. by apply Hinv.
    + rewrite lookup_partial_alter_ne by done. intros Hi. by eapply other_step_secure, Hinv.
Qed.

Lemma reachable_inv y : reachable y → lock_inv y.
Proof.
  intros (s & Hr). remember (mkSystem s ∅) as y0 eqn:Hy0. assert (lock_inv y0) as Hinv.
  { subst. intros i e Hi. cbn in Hi. by rewrite lookup_empty in Hi. }
  clear Hy0. induction Hr as [y|y y' y'' Hs _ IH]; [done|]. apply IH. by eapply step_inv.
Qed.

(** C10: mutual exclusion.  In every reachable state, of two processes that
    rely on the lock (they have acquired it and not unlocked it), at least one
    holds a lease that has expired by the clock of the database: whatever the
    processes do, including crashes, lost heartbeats and the cleanup of stale
    locks, no two of them hold the lock with a running lease. *)
Theorem mutual_exclusion y i j ei ej :
  reachable y → y_held y !! i = Some ei → y_held y !! j = Some ej → i ≠ j →
  ei < clock (y_world y) ∨ ej < clock (y_world y).
Proof.
  intros Hr Hi Hj Hne. apply reachable_inv in Hr as Hinv.
  destruct (Hinv i ei Hi) as [Ho|]; [|by left]. destruct (Hinv j ej Hj) as [Ho'|]; [|by right].
  by destruct Hne, (owns_unique _ _ _ _ _ Ho Ho').
Qed.

End System.

(** ** Leases of less than a second *)

Lemma acquire_sys_step id dur j c rows rows' held e :
  held !! j = None → acquire c id j (int_Seconds dur) rows = Some rows' → e = c + seconds (int_Seconds dur) →
  sys_step id dur (mkSystem (mkLockWorld c (Some rows)) held) (mkSystem (mkLockWorld c (Some rows')) (<[j := e]> held)).
Proof.
  intros Hj Ha ->.
  apply (sys_node id dur j _ _ (Some (c + seconds (int_Seconds dur))) held). rewrite Hj.
  apply (ns_acquire id dur j _ (mkAcquireLockResult j (c + seconds (int_Seconds dur)))).
  by exists rows, rows'.
Qed.

(** The lease is stored in whole seconds.  With a lease of less than a
    second, which [WithTableLeaseDuration] accepts, it is zero: a microsecond
    after one process has acquired the lock, another one acquires it too, and
    both rely on it. *)
Theorem subsecond_lease id dur i j :
  0 < dur < Second → i ≠ j → ∃ y ei ej,
    reachable id dur y ∧ clock (y_world y) = 1 ∧ y_held y !! i = Some ei ∧ y_held y !! j = Some ej.
Proof.
  intros Hdur Hne. assert (int_Seconds dur = 0) as H0 by (unfold int_Seconds; apply Z.quot_small; lia).
  set (r0 := {[id := taken 0 i 0]} : LockRows). set (r1 := <[id := taken 1 j 0]> r0).
  exists (mkSystem (mkLockWorld 1 (Some r1)) (<[j := 1]> {[i := 0]})), 0, 1.
  split_and!; [|done|cbn; by rewrite lookup_insert_ne, lookup_singleton_eq by done|cbn; by rewrite lookup_insert_eq].
  exists (mkLockWorld 0 (Some ∅)). eapply rtc_l; [|eapply rtc_l; [|eapply rtc_once]].
  - apply (acquire_sys_step id dur i 0 ∅ r0 ∅ 0); [done| |by rewrite H0]. unfold acquire. by rewrite lookup_empty, H0.
  - apply (sys_time id dur _ (mkLockWorld 1 (Some r0))). by split.
  - apply acquire_sys_step; [by rewrite lookup_singleton_ne| |by rewrite H0].
    unfold acquire, r0. rewrite lookup_singleton_eq, H0. done.
Qed.
