(* ===== verification/LockerSpec.v ===== *)
(** * What the lockers do

    The table locker's [Lock], heartbeat and [Unlock] as runs of its node in
    the transition system of the lock, whatever the other processes do between
    any two of its statements; the session locker meets the provider's
    assumptions about lockers. *)

From stdpp Require Import relations functions.
From S2P Require Import Prelude GoStrings Effects Resolve SqlParser Dialects Sql Store Migration Options.
From S2P Require Import Collect Runner Provider ProviderLocks LockStore LockSpec Lockers LockSystem.

Section TableLockerSpec.
Context {D : Type} `{HR : Retry, !RetryBound} (lw : D → LockWorld) (others : LockWorld → LockWorld → Prop) `{!Environment others}.
Context (l : TableLocker D) `{!LockStoreSpec lw others (tl_store l)}.
Context (Hdur : is_int64 (tl_leaseDuration l)).

Abbreviation lock_id := (tl_lockID l).
Abbreviation me := (tl_instanceID l).
Abbreviation dur := (tl_leaseDuration l).

(** A step of this process or of the others. *)
Definition run_step (a b : LockWorld * option Z) : Prop :=
  (others a.1 b.1 ∧ b.2 = a.2) ∨ node_step lock_id dur me a b.
Abbreviation runs := (rtc run_step).

Definition tlw (w : TLW D) : LockWorld := lwd lw (t_db w).

Lemma runs_others s s' h : others s s' → runs (s, h) (s', h).
Proof. intros Ho. apply rtc_once. by left. Qed.

Lemma runs_effect s s1 s2 s' h h' :
  others s s1 → node_step lock_id dur me (s1, h) (s2, h') → others s2 s' → runs (s, h) (s', h').
Proof.
  intros H1 Hs H2. etransitivity; [by apply runs_others|]. etransitivity; [|by apply runs_others].
  apply rtc_once. by right.
Qed.

Lemma runs_creates s s' h : creates others s s' → runs (s, h) (s', h).
Proof.
  intros [s0 s0' Ho|s0 s1 s0' H1 Hn H2]; [by apply runs_others|].
  eapply runs_effect; [exact H1| |exact H2]. by apply ns_create.
Qed.

(** An operation of the store, from the locker's state. *)
Lemma liftt_run {A} (m : M (DB D) A) (R : A → LockWorld → LockWorld → Prop) w :
  op_spec lw others m R →
  match liftt m w with
  | (Ok a, w') => w' = set_tdb (t_db w') w ∧ ∃ s1 s2, others (tlw w) s1 ∧ R a s1 s2 ∧ others s2 (tlw w')
  | (Err _, w') => w' = set_tdb (t_db w') w ∧ others (tlw w) (tlw w')
  | (Panic _, _) => False
  | (Block, _) => True
  end.
Proof.
  intros Hm. specialize (Hm (t_db w)). unfold liftt, zoom.
  destruct (m (t_db w)) as [[a|e|s|] d]; try done; by split.
Qed.

(** Attempts that end with an error leave the node as it was; the last one may
    acquire or release. *)
Definition attempt_spec (h h' : option Z → Prop) (f : M (TLW D) unit) : Prop := ∀ w h0, h h0 →
  match f w with
  | (Ok _, w') => w' = set_tdb (t_db w') w ∧ ∃ h1, h' h1 ∧ runs (tlw w, h0) (tlw w', h1)
  | (Err _, w') => w' = set_tdb (t_db w') w ∧ runs (tlw w, h0) (tlw w', h0)
  | (Panic _, _) => False
  | (Block, _) => True
  end.

Lemma attempts_spec h h' f n w r w' h0 : attempt_spec h h' f → attempts f n w r w' → h h0 →
  match r with
  | Ok _ => w' = set_tdb (t_db w') w ∧ ∃ h1, h' h1 ∧ runs (tlw w, h0) (tlw w', h1)
  | Err _ => w' = set_tdb (t_db w') w ∧ runs (tlw w, h0) (tlw w', h0)
  | Panic _ => False
  | Block => True
  end.
Proof.
  intros Hf Ha Hh. induction Ha as [w r w' Hw|n w e w1 r w' Hw _ IH].
  - specialize (Hf w h0 Hh). rewrite Hw in Hf. by destruct r.
  - specialize (Hf w h0 Hh). rewrite Hw in Hf. destruct Hf as [Hw1 Hr]. rewrite Hw1 in IH.
    destruct r as [[]|e'|s|]; try done.
    + destruct IH as [Hw' (h1 & Hh1 & IH)]. split; [by destruct w, w'|]. exists h1. split; [done|].
      etransitivity; [exact Hr|]. rewrite Hw1. exact IH.
    + destruct IH as [Hw' IH]. split; [by destruct w, w'|]. etransitivity; [exact Hr|]. rewrite Hw1. exact IH.
Qed.

Lemma retry_spec h h' b f : attempt_spec h h' f → attempt_spec h h' (retry_Do b f).
Proof.
  intros Hf w h0 Hh. destruct (retry_Do_bound _ b f w) as (n & r & w' & Ha & _ & ->).
  pose proof (attempts_spec h h' f n w r w' h0 Hf Ha Hh) as Hs. by destruct r as [|[]| |].
Qed.

Lemma lock_attempt_spec : attempt_spec (λ h, h = None) is_Some (lock_attempt l).
Proof.
  intros w h0 ->. unfold lock_attempt. rewrite bind_eq, catch_run.
  pose proof (liftt_run _ _ w (acquire_spec (st:=tl_store l) lw others lock_id me dur Hdur)) as Ha.
  destruct (liftt (AcquireLock _ _ _ _) w) as [[a|e|s|] w1]; try done.
  - destruct Ha as (Hw1 & s1 & s2 & H1 & Heff & H2). cbn. split; [done|]. eexists. split; [by eexists|].
    eapply runs_effect; [exact H1| |exact H2]. by apply ns_acquire.
  - destruct Ha as [Hw1 Ho]. rewrite bind_eq, catch_run.
    pose proof (liftt_run _ _ w1 (cleanup_spec (st:=tl_store l) lw others)) as Hc.
    destruct (liftt (CleanupStaleLocks _) w1) as [[ids|e'|s|] w2]; try done.
    + destruct Hc as (Hw2 & s1 & s2 & H1 & Heff & H2).
      assert (w2 = set_tdb (t_db w2) w) as Hw by (rewrite Hw1 in Hw2; by destruct w, w2).
      assert (runs (tlw w, None) (tlw w2, None)) as Hr.
      { etransitivity; [by apply runs_others|]. eapply runs_effect; [exact H1| |exact H2]. by eapply ns_cleanup. }
      by destruct (shouldRetry l e).
    + destruct Hc as (Hw2 & H2).
      assert (w2 = set_tdb (t_db w2) w) as Hw by (rewrite Hw1 in Hw2; by destruct w, w2).
      assert (runs (tlw w, None) (tlw w2, None)) as Hr.
      { etransitivity; [by apply runs_others|]. by apply runs_others. }
      by destruct (shouldRetry l e).
Qed.

Lemma unlock_attempt_spec : attempt_spec (λ h, h = None) (λ h, h = None) (unlock_attempt l).
Proof.
  intros w h0 ->. unfold unlock_attempt. rewrite bind_eq, catch_run.
  pose proof (liftt_run _ _ w (release_spec (st:=tl_store l) lw others lock_id me)) as Ha.
  destruct (liftt (ReleaseLock _ _ _) w) as [[a|e|s|] w1]; try done.
  - destruct Ha as (Hw1 & s1 & s2 & H1 & Heff & H2). cbn. split; [done|]. exists None. split; [done|].
    eapply runs_effect; [exact H1| |exact H2]. by eapply ns_release.
  - destruct Ha as [Hw1 Ho]. destruct (shouldRetry l e); (split; [done|by apply runs_others]).
Qed.

(** The locker's state and the node: it relies on the lock from a [Lock] that
    succeeds to the next [Unlock], with the mutex locked and the heartbeat
    running. *)
Definition related (w : TLW D) (h : option Z) : Prop :=
  t_mu w = bool_decide (is_Some h) ∧ t_heartbeat w = bool_decide (is_Some h).

Inductive locker_call := CallLock | CallHeartbeat | CallUnlock.
Definition run_call (c : locker_call) : M (TLW D) unit :=
  match c with
  | CallLock => Locker_Lock l
  | CallHeartbeat => heartbeat_tick l
  | CallUnlock => Locker_Unlock l
  end.

(** When a call makes sense: [Lock] waits while the mutex is locked, the
    goroutine ticks while it runs, and [Unlock] follows a [Lock]. *)
Definition call_allowed (c : locker_call) (h : option Z) : Prop :=
  match c with CallLock => h = None | _ => is_Some h end.

(** Whether the process relies on the lock afterwards. *)
Definition after_call (c : locker_call) (r : outcome unit) (h' : option Z) : Prop :=
  match c, r with
  | CallLock, Ok _ | CallHeartbeat, _ => is_Some h'
  | _, _ => h' = None
  end.

Lemma Lock_run w : related w None →
  match Locker_Lock l w with
  | (Ok _, w') => ∃ e, runs (tlw w, None) (tlw w', Some e) ∧ related w' (Some e)
  | (Err _, w') => runs (tlw w, None) (tlw w', None) ∧ related w' None
  | (Panic _, _) => False
  | (Block, _) => True
  end.
Proof.
  intros [Hmu Hhb]. cbn in Hmu, Hhb. unfold Locker_Lock, tl_mu_Lock. rewrite !bind_eq. unfold gets. rewrite Hmu.
  unfold modify. rewrite bind_eq, catch_run. set (w0 := set_tmu true w).
  pose proof (create_spec (st:=tl_store l) lw others (t_db w0)) as Hc. unfold liftt, zoom.
  destruct (CreateLockTable (tl_store l) (t_db w0)) as [[[]|e|s|] d]; try done.
  - destruct Hc as [Hc _]. apply (runs_creates _ _ None) in Hc. rewrite bind_eq, catch_run. set (w1 := set_tdb d w0).
    pose proof (retry_spec _ _ (tl_retryLock l) _ lock_attempt_spec w1 None eq_refl) as Ha.
    destruct (retry_Do (tl_retryLock l) (lock_attempt l) w1) as [[[]|e|s|] w2]; try done.
    + destruct Ha as [Hw2 (h1 & [e He] & Hr)]. subst h1. unfold startHeartbeat, stopHeartbeat, gets, modify, mbind, M_bind.
      assert (t_heartbeat w2 = false) as -> by (rewrite Hw2; exact Hhb). cbn. exists e. split.
      * etransitivity; [exact Hc|exact Hr].
      * split; [|done]. cbn. by rewrite Hw2.
    + destruct Ha as [Hw2 Hr]. unfold tl_mu_Unlock, gets, modify, mbind, M_bind.
      assert (t_mu w2 = true) as -> by by rewrite Hw2. cbn. split; [etransitivity; [exact Hc|exact Hr]|].
      split; [done|]. cbn. by rewrite Hw2.
  - apply (runs_creates _ _ None) in Hc. unfold tl_mu_Unlock, gets, modify, mbind, M_bind. cbn. split; [exact Hc|]. by split.
Qed.

Lemma heartbeat_run w e : related w (Some e) →
  match heartbeat_tick l w with
  | (Ok _, w') => ∃ e', runs (tlw w, Some e) (tlw w', Some e') ∧ related w' (Some e')
  | (Err _, _) | (Panic _, _) => False
  | (Block, _) => True
  end.
Proof.
  intros [Hmu Hhb]. cbn in Hmu, Hhb. unfold heartbeat_tick. rewrite bind_eq. unfold gets. rewrite Hhb, bind_eq, catch_run.
  pose proof (liftt_run _ _ w (renew_spec (st:=tl_store l) lw others lock_id me dur Hdur)) as Ha.
  destruct (liftt (UpdateLease _ _ _ _) w) as [[a|e'|s|] w1]; try done; cbn.
  - destruct Ha as (Hw1 & s1 & s2 & H1 & Heff & H2). eexists. split.
    + eapply runs_effect; [exact H1| |exact H2]. by apply ns_renew.
    + rewrite Hw1. by split.
  - destruct Ha as [Hw1 Ho]. exists e. split; [by apply runs_others|]. rewrite Hw1. by split.
Qed.

Lemma Unlock_run w e : related w (Some e) →
  match Locker_Unlock l w with
  | (Ok _, w') | (Err _, w') => runs (tlw w, Some e) (tlw w', None) ∧ related w' None
  | (Panic _, _) => False
  | (Block, _) => True
  end.
Proof.
  intros [Hmu Hhb]. cbn in Hmu, Hhb. unfold Locker_Unlock, defer_mu_Unlock, stopHeartbeat. rewrite !bind_eq. unfold gets.
  rewrite Hhb. unfold modify. set (w0 := set_heartbeat false w).
  assert (runs (tlw w, Some e) (tlw w0, None)) as Hstop by (apply rtc_once; right; apply ns_unlock).
  pose proof (retry_spec _ _ (tl_retryUnlock l) _ unlock_attempt_spec w0 None eq_refl) as Ha.
  destruct (retry_Do (tl_retryUnlock l) (unlock_attempt l) w0) as [[[]|e'|s|] w2]; try done.
  - destruct Ha as [Hw2 (h1 & -> & Hr)]. unfold tl_mu_Unlock, gets, modify, mbind, M_bind.
    assert (t_mu w2 = true) as -> by by rewrite Hw2. cbn. split; [etransitivity; [exact Hstop|exact Hr]|].
    split; [done|]. cbn. by rewrite Hw2.
  - destruct Ha as [Hw2 Hr]. unfold tl_mu_Unlock, gets, modify, mbind, M_bind.
    assert (t_mu w2 = true) as -> by by rewrite Hw2. cbn. split; [etransitivity; [exact Hstop|exact Hr]|].
    split; [done|]. cbn. by rewrite Hw2.
Qed.

(** C11: the table locker refines its node: each call of [Lock], each tick of
    the heartbeat and each [Unlock] is a run of steps of the node between
    steps of the others.  After a [Lock] that succeeds the node relies on the
    lock, with the mutex locked and the heartbeat running; after a [Lock] that
    fails and after any [Unlock] it does not, and the mutex is free. *)
Theorem locker_refines_node c w h :
  related w h → call_allowed c h →
  match run_call c w with
  | (Panic _, _) => False
  | (Block, _) => True
  | (r, w') => ∃ h', runs (tlw w, h) (tlw w', h') ∧ related w' h' ∧ after_call c r h'
  end.
Proof.
  intros Hrel Hc. destruct c; cbn [call_allowed run_call] in *.
  - subst h. pose proof (Lock_run w Hrel) as Hl. destruct (Locker_Lock l w) as [[[]|e|s|] w']; try done.
    + destruct Hl as (e & Hr & Hw'). exists (Some e). split_and!; [done|done|by eexists].
    + destruct Hl as [Hr Hw']. by exists None.
  - destruct Hc as [e ->]. pose proof (heartbeat_run w e Hrel) as Hl.
    destruct (heartbeat_tick l w) as [[[]|e'|s|] w']; try done. destruct Hl as (e' & Hr & Hw').
    exists (Some e'). split_and!; [done|done|by eexists].
  - destruct Hc as [e ->]. pose proof (Unlock_run w e Hrel) as Hl.
    destruct (Locker_Unlock l w) as [[[]|e'|s|] w']; try done; destruct Hl as [Hr Hw']; by exists None.
Qed.

End TableLockerSpec.

(** ** The session locker *)

(** PostgreSQL's documented behaviour of session-level advisory locks, as far
    as this session is concerned: how often it holds each lock. *)
Class AdvisoryLocks {D} `{Driver D} (held : D → Z → nat) := {
  adv_try d id : let r := drv_query HConn "SELECT pg_try_advisory_lock($1)" [VInt id] d in
    match r.1 with
    | inl rows => ∃ x b, rows = [[x]] ∧ scan_bool x = inl b ∧
        held r.2 = (if b : bool then <[id := S (held d id)]> (held d) else held d)
    | inr e => held r.2 = held d
    end;
  adv_unlock d id : let r := drv_query HConn "SELECT pg_advisory_unlock($1)" [VInt id] d in
    match r.1 with
    | inl rows => ∃ x b, rows = [[x]] ∧ scan_bool x = inl b ∧ (b = true → 0 < held d id)%nat ∧
        held r.2 = (if b : bool then <[id := pred (held d id)]> (held d) else held d)
    | inr e => held r.2 = held d
    end
}.

Section SessionLockerSpec.
Context {D U : Type} `{DbLaws D U} `{HR : Retry, !RetryBound} (held : D → Z → nat) `{!AdvisoryLocks held}.

Lemma attempt_run q failed refused id (f : Z → (Z → nat) → Z → nat) (w : DB D) :
  (match (drv_query HConn q [VInt id] (drv w)).1 with
   | inl rows => ∃ x b, rows = [[x]] ∧ scan_bool x = inl b ∧
       held (drv_query HConn q [VInt id] (drv w)).2 = (if b : bool then f id (held (drv w)) else held (drv w))
   | inr e => held (drv_query HConn q [VInt id] (drv w)).2 = held (drv w)
   end) →
  match session_attempt q failed refused id w with
  | (Ok _, w') => held (drv w') = f id (held (drv w))
  | (Err _, w') => held (drv w') = held (drv w)
  | _ => False
  end.
Proof.
  intros Hq. unfold session_attempt, advisory, QueryRowContext, QueryContext, with_handle. rewrite bind_eq, wrap_err_eq.
  rewrite !bind_eq. destruct (drv_query HConn q [VInt id] (drv w)) as [[rows|e] d]; cbn in *; [|done].
  destruct Hq as (x & b & -> & Hx & Hd). cbn. unfold of_result. rewrite Hx. by destruct b.
Qed.

Lemma session_retry b q failed refused id (f : Z → (Z → nat) → Z → nat) (w : DB D) :
  (∀ w, match session_attempt q failed refused id w with
        | (Ok _, w') => held (drv w') = f id (held (drv w))
        | (Err _, w') => held (drv w') = held (drv w)
        | _ => False
        end) →
  match retry_Do b (session_attempt q failed refused id) w with
  | (Ok _, w') => held (drv w') = f id (held (drv w))
  | (Err _, w') => held (drv w') = held (drv w)
  | _ => False
  end.
Proof.
  intros Hf. destruct (retry_Do_bound _ b (session_attempt q failed refused id) w) as (n & r & w' & Ha & _ & ->).
  assert (match r with Ok _ => held (drv w') = f id (held (drv w)) | Err _ => held (drv w') = held (drv w) | _ => False end) as Hr.
  { induction Ha as [w r w' Hw|n w e w1 r w' Hw _ IH]; specialize (Hf w); rewrite Hw in Hf; [done|]. by rewrite Hf in IH. }
  by destruct r as [|[]| |].
Qed.

Lemma session_op_ok b q failed refused id : lock_op_ok (U:=U) (retry_Do b (session_attempt (D:=D) q failed refused id)).
Proof.
  unfold session_attempt, advisory. split.
  - refine (preserves_retry _ _ _ _). preserve.
  - refine (preserves_retry _ _ _ _). preserve.
  - refine (no_panic_retry _ _ _). no_panic.
Qed.

(** C35: the session locker on PostgreSQL's advisory locks meets what the
    provider assumes of its lockers; a lock that succeeds holds the advisory
    lock once more, an unlock that succeeds once less, and one that fails,
    after all its attempts, leaves it as it was. *)
Theorem NewPostgresSessionLocker_ok opts sl :
  NewPostgresSessionLocker opts = inl sl → ∃ id,
    lock_op_ok (U:=U) (SessionLock sl) ∧ lock_op_ok (U:=U) (SessionUnlock sl) ∧
    (∀ w, match SessionLock sl w with
          | (Ok _, w') => held (drv w') = <[id := S (held (drv w) id)]> (held (drv w))
          | (Err _, w') => held (drv w') = held (drv w)
          | _ => False
          end) ∧
    (∀ w, match SessionUnlock sl w with
          | (Ok _, w') => held (drv w') = <[id := pred (held (drv w) id)]> (held (drv w))
          | (Err _, w') => held (drv w') = held (drv w)
          | _ => False
          end).
Proof.
  unfold NewPostgresSessionLocker, rbind. destruct (configure _ _) as [cfg|]; [|done]. intros [= <-].
  exists (lockID cfg). cbn [SessionLock SessionUnlock]. split_and!; try apply session_op_ok.
  - intros w. apply (session_retry _ _ _ _ _ (λ id h, <[id := S (h id)]> h)). intros w0.
    apply (attempt_run _ _ _ _ (λ id h, <[id := S (h id)]> h)). exact (adv_try (drv w0) (lockID cfg)).
  - intros w. apply (session_retry _ _ _ _ _ (λ id h, <[id := pred (h id)]> h)). intros w0.
    apply (attempt_run _ _ _ _ (λ id h, <[id := pred (h id)]> h)). pose proof (adv_unlock (drv w0) (lockID cfg)) as Hu.
    cbn zeta in Hu. destruct (drv_query _ _ _ _).1; [|done]. destruct Hu as (x & b & ? & ? & _ & ?). eauto.
Qed.

End SessionLockerSpec.
