(* ===== verification/LockTest.v ===== *)
(** * Several lockers at the same time (lock/locktesting)

    The goroutines of [TestConcurrentLocking]: each calls [Lock] once under a
    context with a deadline, keeps the lock for twice the timeout and unlocks
    it.  Their calls are steps of the processes of LockSystem, which the table
    lockers refine (LockerSpec), between which time passes. *)

From S2P Require Import Prelude GoStrings Effects LockStore LockSpec LockSystem.

(** How far a goroutine is: before [Lock]; in [Lock], whose context ends at
    [deadline], and whether an attempt found the lock taken; holding the lock
    [since] then, with a heartbeat until [deadline]; in [Unlock]; returned,
    with the lock acquired or not; and returned with an error of [Unlock]. *)
Inductive Goroutine :=
  | GStart
  | GTrying (deadline : Z) (refused : bool)
  | GHolding (since deadline lease : Z)
  | GUnlocking
  | GDone (acquired : bool)
  | GUnlockFailed.

(** [ct_success] is what has been sent to the channel. *)
Record ConcurrentTest := mkConcurrentTest {
  ct_world : LockWorld;
  ct_goroutines : list Goroutine;
  ct_success : list nat
}.

Section ConcurrentTest.
(** The lock, the lease of the lockers and the instance of each; when the first
    goroutine starts and how much later the last one does; the timeout, in the
    unit of the clock. *)
Context (id leaseDuration : Z) (instance : nat → string) (start spread lockTimeout : Z).

Abbreviation now s := (clock (ct_world s)).

(** Goroutine [k] goes on with [g], and the database is as [w] says. *)
Definition become (k : nat) (g : Goroutine) (w : LockWorld) (s : ConcurrentTest) : ConcurrentTest :=
  mkConcurrentTest w (<[k := g]> (ct_goroutines s)) (ct_success s).

Definition send (k : nat) (s : ConcurrentTest) : ConcurrentTest :=
  mkConcurrentTest (ct_world s) (ct_goroutines s) (ct_success s ++ [k]).

Inductive test_step (s : ConcurrentTest) : ConcurrentTest → Prop :=
  | step_time w : later (ct_world s) w →
      test_step s (mkConcurrentTest w (ct_goroutines s) (ct_success s))
  | step_start k : ct_goroutines s !! k = Some GStart → now s ≤ start + spread →
      test_step s (become k (GTrying (now s + lockTimeout) false) (ct_world s) s)
  | step_create k d b : ct_goroutines s !! k = Some (GTrying d b) → now s ≤ d → lock_table (ct_world s) = None →
      test_step s (become k (GTrying d b) (mkLockWorld (now s) (Some ∅)) s)
  | step_acquire k d b w res : ct_goroutines s !! k = Some (GTrying d b) → now s ≤ d →
      acquired id (instance k) leaseDuration res (ct_world s) w →
      test_step s (send k (become k (GHolding (now s) d (al_LeaseExpiresAt res)) w s))
  | step_refused k d b rows : ct_goroutines s !! k = Some (GTrying d b) → now s ≤ d →
      lock_table (ct_world s) = Some rows →
      acquire (now s) id (instance k) (int_Seconds leaseDuration) rows = None →
      test_step s (become k (GTrying d true) (ct_world s) s)
  | step_cleanup k d b ids w : ct_goroutines s !! k = Some (GTrying d b) → now s ≤ d →
      cleaned ids (ct_world s) w →
      test_step s (become k (GTrying d b) w s)
  | step_give_up k d : ct_goroutines s !! k = Some (GTrying d true) →
      test_step s (become k (GDone false) (ct_world s) s)
  | step_heartbeat k t d e w res : ct_goroutines s !! k = Some (GHolding t d e) → now s ≤ d →
      renewed id (instance k) leaseDuration res (ct_world s) w →
      test_step s (become k (GHolding t d (ul_LeaseExpiresAt res)) w s)
  | step_unlock k t d e : ct_goroutines s !! k = Some (GHolding t d e) → t + 2 * lockTimeout ≤ now s →
      test_step s (become k GUnlocking (ct_world s) s)
  | step_release k w res : ct_goroutines s !! k = Some GUnlocking →
      released id (instance k) res (ct_world s) w →
      test_step s (become k (GDone true) w s)
  | step_release_failed k rows : ct_goroutines s !! k = Some GUnlocking →
      lock_table (ct_world s) = Some rows → release (now s) id (instance k) rows = None →
      test_step s (become k GUnlockFailed (ct_world s) s).

Definition test_reachable (s s' : ConcurrentTest) : Prop := rtc test_step s s'.

(** The five goroutines, before any of them runs. *)
Definition count : nat := 5.
Definition test_start (w : LockWorld) : ConcurrentTest := mkConcurrentTest w (replicate count GStart) [].

Definition returned (g : Goroutine) : bool :=
  match g with GDone _ | GUnlockFailed => true | _ => false end.

(** [wg.Wait] returns. *)
Definition all_returned (s : ConcurrentTest) : bool := forallb returned (ct_goroutines s).

Definition unlock_failed (g : Goroutine) : bool := match g with GUnlockFailed => true | _ => false end.

(** The end of the test, when all goroutines have returned: [waiting] is when
    it started to wait for them.  It fails if they took too long, if an
    [Unlock] failed or if not exactly one acquired the lock. *)
Definition test_passes (waiting : Z) (s : ConcurrentTest) : bool :=
  (now s <=? waiting + lockTimeout + seconds 5) &&
  negb (existsb unlock_failed (ct_goroutines s)) &&
  (length (ct_success s) =? 1)%nat.

End ConcurrentTest.
