(* ===== verification/LockTestSpec.v ===== *)
(** * What [TestConcurrentLocking] finds

    Exactly one of the goroutines acquires the lock and its [Unlock] succeeds,
    when they start within a timeout of each other and the lease outlives their
    contexts; and with a timeout above five seconds the test gives up on them
    although the lockers are right. *)

From stdpp Require Import relations.
From S2P Require Import Prelude GoStrings Effects LockStore LockSpec LockSystem LockTest.

Abbreviation now s := (clock (ct_world s)).

Section Spec.
Context (id leaseDuration : Z) (instance : nat → string) (start spread lockTimeout : Z).
Context (Hspread : 0 ≤ spread < lockTimeout).
Context (Hlease : spread + lockTimeout ≤ seconds (int_Seconds leaseDuration)).

Abbreviation step := (test_step id leaseDuration instance start spread lockTimeout).
Abbreviation lease := (seconds (int_Seconds leaseDuration)).

(** The row of the lock. *)
Definition row (w : LockWorld) : option LockRow := rows ← lock_table w; rows !! id.

Definition free (w : LockWorld) : Prop := ∀ r, row w = Some r → r_locked r = false.

Definition has_row (w : LockWorld) (k : nat) (P : LockRow → Prop) : Prop :=
  ∃ r, row w = Some r ∧ r_locked_by r = Some (instance k) ∧ P r.

(** Goroutines before they have the lock; [b] tells whether one of them may
    have been refused. *)
Definition waiting (b : bool) (g : Goroutine) : Prop :=
  match g with
  | GStart => True
  | GTrying d refused => d ≤ start + spread + lockTimeout ∧ (refused = true → b = true)
  | GDone false => b = true
  | _ => False
  end.

(** The goroutine that has acquired the lock. *)
Definition winner (w : LockWorld) (k : nat) (g : Goroutine) : Prop :=
  match g with
  | GHolding t d e => start ≤ t ∧ has_row w k (λ r, r_locked r = true ∧ ∃ l, r_lease r = Some l ∧ start + lease ≤ l)
  | GUnlocking => start + 2 * lockTimeout ≤ clock w ∧ has_row w k (λ _, True)
  | GDone true => start + 2 * lockTimeout ≤ clock w
  | _ => False
  end.

Inductive test_inv (s : ConcurrentTest) : Prop :=
  | inv_nobody : ct_success s = [] → free (ct_world s) →
      (∀ k g, ct_goroutines s !! k = Some g → waiting false g) → test_inv s
  | inv_one k0 g0 : ct_success s = [k0] → ct_goroutines s !! k0 = Some g0 → winner (ct_world s) k0 g0 →
      (∀ k g, ct_goroutines s !! k = Some g → k ≠ k0 → waiting true g) → test_inv s.

(** ** The steps *)

(** While a goroutine still tries, the winner's lease runs. *)
Lemma winner_holds w k g d : winner w k g → d ≤ start + spread + lockTimeout → clock w ≤ d →
  (∃ t d' e, g = GHolding t d' e) ∧ ∃ r, row w = Some r ∧ r_locked_by r = Some (instance k) ∧ r_locked r = true ∧
    expired (clock w) r = false.
Proof.
  intros Hw Hd Hn. destruct g as [| |t d' e| |[]|]; try done; cbn in Hw.
  - destruct Hw as (_ & r & Hr & Hb & Hl & l & Hle & Hlt). split; [by do 3 eexists|]. exists r. split_and!; try done.
    unfold expired. rewrite Hle. apply Z.ltb_ge. lia.
  - lia.
  - lia.
Qed.

Lemma lookup_become k g w s k' : k' ≠ k → ct_goroutines (become k g w s) !! k' = ct_goroutines s !! k'.
Proof. intros. cbn. by rewrite list_lookup_insert_ne. Qed.

Lemma lookup_become_eq k g w s g0 : ct_goroutines s !! k = Some g0 → ct_goroutines (become k g w s) !! k = Some g.
Proof. intros Hk. cbn. apply list_lookup_insert_eq. by eapply lookup_lt_Some. Qed.

(** A goroutine that waits goes on waiting, in a world in which the lock is as
    free and the winner's row as it was. *)
Lemma waiting_step s k g g' w :
  test_inv s → ct_goroutines s !! k = Some g → (∀ k0, winner (ct_world s) k0 g → False) →
  (∀ b, waiting b g → (b = false → free (ct_world s)) → waiting b g') →
  (free (ct_world s) → free w) → (∀ k0 g0, winner (ct_world s) k0 g0 → winner w k0 g0) →
  test_inv (become k g' w s).
Proof.
  intros Hinv Hk Hnw Hg Hfree Hwin. destruct Hinv as [Hs Hf Hall|k0 g0 Hs Hk0 Hw Hall].
  - apply inv_nobody; [done|by apply Hfree|]. intros k' g1 Hg1. destruct (decide (k' = k)) as [->|Hne].
    + rewrite (lookup_become_eq _ _ _ _ g) in Hg1 by done. injection Hg1 as <-. apply Hg; [by eapply Hall|done].
    + rewrite lookup_become in Hg1 by done. by eapply Hall.
  - assert (k0 ≠ k) as Hne by (intros ->; assert (g = g0) as -> by congruence; by eapply Hnw).
    apply (inv_one _ k0 g0); [done|by rewrite lookup_become|by apply Hwin|].
    intros k' g1 Hg1 Hk'. destruct (decide (k' = k)) as [->|Hne'].
    + rewrite (lookup_become_eq _ _ _ _ g) in Hg1 by done. injection Hg1 as <-. apply Hg; [by eapply Hall|done].
    + rewrite lookup_become in Hg1 by done. by eapply Hall.
Qed.

(** What the winner does. *)
Lemma winner_step s k g g' w :
  test_inv s → ct_goroutines s !! k = Some g → (∀ b, ¬ waiting b g) →
  (winner (ct_world s) k g → winner w k g') → test_inv (become k g' w s).
Proof.
  intros Hinv Hk Hnw Hwin. destruct Hinv as [Hs Hf Hall|k0 g0 Hs Hk0 Hw Hall].
  { by destruct (Hnw false (Hall k g Hk)). }
  destruct (decide (k = k0)) as [->|Hne]; [|by destruct (Hnw true (Hall k g Hk Hne))].
  assert (g = g0) as -> by congruence.
  apply (inv_one _ k0 g'); [done|by eapply lookup_become_eq|by apply Hwin|].
  intros k' g1 Hg1 Hk'. rewrite lookup_become in Hg1 by done. by eapply Hall.
Qed.

(** The winner relies on its own row and on the clock. *)
Lemma winner_row w w' k g : winner w k g → row w' = row w → clock w ≤ clock w' → winner w' k g.
Proof.
  intros Hw Hr Hc. destruct g as [| |t d e| |[]|]; try done; cbn in *; unfold has_row in *; rewrite ?Hr; [done|..].
  - destruct Hw. split; [lia|done].
  - lia.
Qed.

Lemma row_table w rows : lock_table w = Some rows → row w = rows !! id.
Proof. unfold row. by intros ->. Qed.

Lemma row_new n rows : row (mkLockWorld n (Some rows)) = rows !! id.
Proof. done. Qed.

Lemma acquire_free n i rows : (∀ r, rows !! id = Some r → r_locked r = false) →
  acquire n id i (int_Seconds leaseDuration) rows = Some (<[id := taken n i (int_Seconds leaseDuration)]> rows).
Proof.
  intros Hf. unfold acquire, available. destruct (rows !! id) as [r|] eqn:Hr; [|done]. by rewrite (Hf r).
Qed.

Lemma acquire_result n i rows rows' : acquire n id i (int_Seconds leaseDuration) rows = Some rows' →
  rows' = <[id := taken n i (int_Seconds leaseDuration)]> rows ∧ ∀ r, rows !! id = Some r → available n r = true.
Proof.
  unfold acquire. destruct (rows !! id) as [r|]; [|by intros [= <-]].
  destruct (available n r) eqn:Ha; [|done]. intros [= <-]. split; [done|]. by intros r' [= <-].
Qed.

(** Cleaning up removes no lease that runs. *)
Lemma cleaned_row ids w w' r : cleaned ids w w' → row w = Some r → r_locked r = false ∨ expired (clock w) r = false →
  ∃ r', row w' = Some r' ∧ clock w' = clock w ∧ (r_locked r = false → r_locked r' = false) ∧
    (expired (clock w) r = false → r' = r).
Proof.
  intros (rows & t & Ht & Hle & Hids & ->) Hr Hx. rewrite (row_table _ _ Ht) in Hr.
  assert (row (mkLockWorld (clock w) (Some (free_ids (clock w) ids rows))) = Some (if bool_decide (id ∈ ids) then freed (clock w) else r)) as Hrow.
  { rewrite row_new. unfold free_ids. by rewrite map_lookup_imap, Hr. }
  eexists. split_and!; [exact Hrow|done| |].
  - by case_bool_decide.
  - intros Hex. case_bool_decide as Hin; [|done]. destruct (free_other id t (clock w) ids rows r Hle Hids Hr) as [Hf|Hf].
    + unfold free_ids in Hf. rewrite map_lookup_imap, Hr in Hf. cbn in Hf. rewrite bool_decide_eq_true_2 in Hf by done. congruence.
    + congruence.
Qed.

Lemma cleaned_free ids w w' : cleaned ids w w' → free w → free w'.
Proof.
  intros Hc Hf r' Hr'. destruct (row w) as [r|] eqn:Hr.
  - destruct (cleaned_row ids w w' r Hc Hr) as (r1 & Hr1 & _ & Hl & _); [left; by apply Hf|].
    rewrite Hr1 in Hr'. injection Hr' as <-. by apply Hl, Hf.
  - destruct Hc as (rows & t & Ht & _ & _ & ->). rewrite (row_table _ _ Ht) in Hr.
    rewrite row_new in Hr'. unfold free_ids in Hr'. by rewrite map_lookup_imap, Hr in Hr'.
Qed.

Lemma cleaned_winner ids w w' k g d : cleaned ids w w' → d ≤ start + spread + lockTimeout → clock w ≤ d →
  winner w k g → winner w' k g.
Proof.
  intros Hc Hd Hn Hw. destruct (winner_holds w k g d Hw Hd Hn) as (_ & r & Hr & _ & _ & Hx).
  destruct (cleaned_row ids w w' r Hc Hr (or_intror Hx)) as (r' & Hr' & Hcl & _ & He).
  apply (winner_row w); [done|by rewrite Hr', (He Hx), Hr|lia].
Qed.

Lemma trying_deadline s k d b : test_inv s → ct_goroutines s !! k = Some (GTrying d b) →
  d ≤ start + spread + lockTimeout.
Proof.
  intros [Hs Hf Hall|k0 g0 Hs Hk0 Hw Hall] Hk; [apply (Hall k _ Hk)|].
  destruct (decide (k = k0)) as [->|Hne]; [|by apply (Hall k _ Hk)].
  assert (g0 = GTrying d b) as -> by congruence. done.
Qed.

(** The invariant is kept. *)
Lemma acquire_step s k d b w res :
  test_inv s → start ≤ now s → ct_goroutines s !! k = Some (GTrying d b) → now s ≤ d →
  acquired id (instance k) leaseDuration res (ct_world s) w →
  test_inv (send k (become k (GHolding (now s) d (al_LeaseExpiresAt res)) w s)).
Proof.
  intros Hinv Hst Hk Hn (rows & rows' & Ht & Ha & -> & ->). pose proof (trying_deadline s k d b Hinv Hk) as Hd.
  apply acquire_result in Ha as [-> Hav]. destruct Hinv as [Hs Hf Hall|k0 g0 Hs Hk0 Hw Hall].
  - apply (inv_one _ k (GHolding (now s) d (now s + lease))); [cbn; by rewrite Hs|by eapply lookup_become_eq| |].
    + split; [done|]. unfold has_row. cbn [ct_world send become]. rewrite row_new, lookup_insert_eq.
      eexists. split_and!; [done|done|done|]. eexists. split; [done|]. lia.
    + intros k' g1 Hg1 Hk'. cbn in Hg1. rewrite list_lookup_insert_ne in Hg1 by done.
      pose proof (Hall k' g1 Hg1) as Hw. destruct g1 as [|d1 b1| | |[]|]; try done.
      destruct Hw as [Hd1 Hb1]. split; [done|]. intros Hb. by apply Hb1 in Hb.
  - exfalso. destruct (winner_holds (ct_world s) k0 g0 d Hw Hd Hn) as (_ & r & Hr & _ & Hl & Hx).
    rewrite (row_table _ _ Ht) in Hr. specialize (Hav r Hr). unfold available in Hav. by rewrite Hl, Hx in Hav.
Qed.

Lemma refused_step s k d b rows :
  test_inv s → ct_goroutines s !! k = Some (GTrying d b) → lock_table (ct_world s) = Some rows →
  acquire (now s) id (instance k) (int_Seconds leaseDuration) rows = None →
  test_inv (become k (GTrying d true) (ct_world s) s).
Proof.
  intros Hinv Hk Ht Ha. apply (waiting_step s k (GTrying d b)); [done..| |done|done].
  intros [] [Hd Hb] Hf; [by split|]. exfalso.
  rewrite acquire_free in Ha; [done|]. intros r Hr. apply (Hf eq_refl). by rewrite (row_table _ _ Ht).
Qed.

Lemma test_step_inv s s' : step s s' → start ≤ now s → test_inv s → test_inv s' ∧ now s ≤ now s'.
Proof.
  intros Hstep Hst Hinv. destruct Hstep as [w [Ht Hc]|k Hk Hn|k d b Hk Hn Ht|k d b w res Hk Hn Ha|k d b rows Hk Hn Ht Ha|
    k d b ids w Hk Hn Hc|k d Hk|k t d e w res Hk Hn Hr|k t d e Hk Hn|k w res Hk Hr|k rows Hk Ht Hr].
  - split; [|done]. assert (row w = row (ct_world s)) as Hrow by (unfold row; by rewrite Ht).
    destruct Hinv as [Hs Hf Hall|k0 g0 Hs Hk0 Hw Hall].
    + apply inv_nobody; [done| |done]. unfold free in *. cbn. by rewrite Hrow.
    + apply (inv_one _ k0 g0); [done|done|by apply (winner_row (ct_world s))|done].
  - split; [|done]. apply (waiting_step s k GStart); [done|done|by intros k0| |done|done].
    intros b _ _. split; [lia|done].
  - split; [|done]. apply (waiting_step s k (GTrying d b)); [done|done|by intros k0|done| |].
    + intros _ r. by rewrite row_new, lookup_empty.
    + intros k0 g0 Hw. destruct (winner_holds _ k0 g0 d Hw) as (_ & r & Hr & _); [by eapply trying_deadline|done|].
      unfold row in Hr. by rewrite Ht in Hr.
  - split; [by eapply acquire_step|]. by destruct Ha as (? & ? & _ & _ & -> & _).
  - split; [by eapply refused_step|done].
  - split; [|by destruct Hc as (? & ? & _ & _ & _ & ->)].
    apply (waiting_step s k (GTrying d b)); [done|done|by intros k0|done|by eapply cleaned_free|].
    intros k0 g0. eapply cleaned_winner; [done|by eapply trying_deadline|done].
  - split; [|done]. apply (waiting_step s k (GTrying d true)); [done|done|by intros k0| |done|done].
    intros b [_ Hb] _. by apply Hb.
  - destruct Hr as (rows & rows' & Ht & Hr & -> & ->). split; [|done].
    apply (winner_step s k (GHolding t d e)); [done|done|by intros b []|].
    intros (Ht0 & r & Hrow & Hb & Hl & _). rewrite (row_table _ _ Ht) in Hrow.
    unfold renew in Hr. rewrite Hrow in Hr. unfold owned_by in Hr. rewrite bool_decide_eq_true_2, Hl in Hr by done.
    injection Hr as <-. split; [done|]. unfold has_row. rewrite row_new, lookup_insert_eq. eexists.
    split_and!; [done|done|done|]. eexists. split; [done|]. lia.
  - split; [|done]. apply (winner_step s k (GHolding t d e)); [done|done|by intros b []|].
    intros (Ht0 & r & Hrow & Hb & _). split; [lia|]. by exists r.
  - destruct Hr as (rows & rows' & Ht & Hr & -> & ->). split; [|done].
    apply (winner_step s k GUnlocking); [done|done|by intros b []|]. by intros [Hn _].
  - split; [|done]. apply (winner_step s k GUnlocking); [done|done|by intros b []|].
    intros (_ & r & Hrow & Hb & _). rewrite (row_table _ _ Ht) in Hrow. unfold release in Hr. rewrite Hrow in Hr.
    unfold owned_by in Hr. by rewrite bool_decide_eq_true_2 in Hr.
Qed.

Lemma reachable_test_inv s s' : test_reachable id leaseDuration instance start spread lockTimeout s s' →
  start ≤ now s → test_inv s →
  test_inv s' ∧ start ≤ now s' ∧ length (ct_goroutines s') = length (ct_goroutines s).
Proof.
  intros Hr. induction Hr as [s|s s1 s' Hstep _ IH]; intros Hst Hinv; [done|].
  destruct (test_step_inv s s1 Hstep Hst Hinv) as [Hinv1 Hn].
  assert (length (ct_goroutines s1) = length (ct_goroutines s)) as Hlen.
  { destruct Hstep; cbn; by rewrite ?length_insert. }
  destruct IH as (Hi & Hs & Hl); [lia|done|]. split_and!; [done|done|congruence].
Qed.

Lemma start_inv w : free w → test_inv (test_start w).
Proof. intros Hf. apply inv_nobody; [done|done|]. intros k g [-> _]%lookup_replicate. done. Qed.

(** All goroutines have returned: one has acquired and released the lock. *)
Lemma returned_inv s : test_inv s → all_returned s = true → ct_goroutines s ≠ [] →
  (∃ k, ct_success s = [k] ∧ ct_goroutines s !! k = Some (GDone true)) ∧ start + 2 * lockTimeout ≤ now s ∧
  ∀ k g, ct_goroutines s !! k = Some g → unlock_failed g = false.
Proof.
  intros Hinv Hall Hne. assert (∀ k g, ct_goroutines s !! k = Some g → returned g = true) as Hret.
  { intros k g Hk. unfold all_returned in Hall. rewrite forallb_forall in Hall.
    apply Hall, list_elem_of_In. by eapply list_elem_of_lookup_2. }
  destruct Hinv as [Hs Hf Hw|k0 g0 Hs Hk0 Hw Hothers].
  - exfalso. destruct (ct_goroutines s) as [|g gs] eqn:Hgs; [done|].
    specialize (Hw 0%nat g eq_refl). specialize (Hret 0%nat g eq_refl). by destruct g as [| | | |[]|].
  - specialize (Hret k0 g0 Hk0) as Hr0. destruct g0 as [| | | |[]|]; try done. cbn in Hw. split_and!; [by exists k0|done|].
    intros k g Hk. destruct (decide (k = k0)) as [->|Hne'].
    + assert (g = GDone true) as -> by congruence. done.
    + specialize (Hothers k g Hk Hne'). by destruct g as [| | | |[]|].
Qed.

(** C12: what [TestConcurrentLocking] verifies holds for every order of the
    goroutines' attempts, renewals and clean-ups: if they start within one
    timeout of each other, a lease outlives the deadlines of all contexts and
    the lock is free at the start, then, when all of them have returned,
    exactly one has acquired the lock and no [Unlock] has failed; so that the
    test passes if they have returned in time. *)
Theorem TestConcurrentLocking_passes w s waiting_from :
  clock w = start → free w →
  test_reachable id leaseDuration instance start spread lockTimeout (test_start w) s → all_returned s = true →
  (∃ k, ct_success s = [k] ∧ ct_goroutines s !! k = Some (GDone true)) ∧
  test_passes lockTimeout waiting_from s = (now s <=? waiting_from + lockTimeout + seconds 5).
Proof.
  intros Hw Hf Hr Hall.
  destruct (reachable_test_inv _ _ Hr) as (Hinv & _ & Hlen); [cbn; lia|by apply start_inv|].
  destruct (returned_inv s Hinv Hall) as ((k & Hs & Hk) & _ & Hu).
  { intros Hnil. by rewrite Hnil in Hlen. }
  split; [by exists k|]. unfold test_passes. rewrite Hs, andb_true_r.
  assert (existsb unlock_failed (ct_goroutines s) = false) as ->; [|by rewrite andb_true_r].
  apply not_true_iff_false. intros (g & Hg & Hug)%existsb_exists.
  apply list_elem_of_In, list_elem_of_lookup in Hg as [k' Hk']. rewrite (Hu k' g Hk') in Hug. done.
Qed.

(** The goroutine that acquires the lock keeps it for twice the timeout, but
    the test waits only five seconds longer than the timeout: above five seconds
    (and what it takes to start the goroutines) it always fails. *)
Lemma TestConcurrentLocking_too_long w s waiting_from :
  clock w = start → free w → waiting_from + seconds 5 < start + lockTimeout →
  test_reachable id leaseDuration instance start spread lockTimeout (test_start w) s → all_returned s = true →
  test_passes lockTimeout waiting_from s = false.
Proof.
  intros Hw Hf Hlong Hr Hall.
  destruct (reachable_test_inv _ _ Hr) as (Hinv & _ & Hlen); [cbn; lia|by apply start_inv|].
  destruct (returned_inv s Hinv Hall) as (_ & Hn & _).
  { intros Hnil. by rewrite Hnil in Hlen. }
  unfold test_passes. by rewrite (proj2 (Z.leb_gt _ _)) by lia.
Qed.
End Spec.

(** ** The goroutines are processes of the abstract system *)

Section Refinement.
Context (id leaseDuration : Z) (instance : nat → string) `{!Inj (=) (=) instance} (start spread lockTimeout : Z).

Definition lease_of (g : Goroutine) : option Z := match g with GHolding _ _ e => Some e | _ => None end.

(** The processes that rely on the lock are the goroutines that hold it. *)
Definition models (s : ConcurrentTest) (y : LockSystem.System) : Prop :=
  y_world y = ct_world s ∧ ∀ k g, ct_goroutines s !! k = Some g → y_held y !! instance k = lease_of g.

Lemma models_become k g g' w s y : ct_goroutines s !! k = Some g → lease_of g' = lease_of g → w = ct_world s →
  models s y → models (become k g' w s) y.
Proof.
  intros Hk Hl -> [Hw Hm]. split; [done|]. intros k' g1 Hg1. destruct (decide (k' = k)) as [->|Hne].
  - rewrite (lookup_become_eq _ _ _ _ g) in Hg1 by done. injection Hg1 as <-. rewrite Hl. by apply Hm.
  - rewrite lookup_become in Hg1 by done. by apply Hm.
Qed.

Lemma models_node k g g' w s y : ct_goroutines s !! k = Some g → models s y →
  node_step id leaseDuration (instance k) (ct_world s, lease_of g) (w, lease_of g') →
  ∃ y', sys_step id leaseDuration y y' ∧ models (become k g' w s) y'.
Proof.
  intros Hk [Hw Hm] Hs. destruct y as [w0 held]. cbn in *. subst w0.
  exists (mkSystem w (partial_alter (λ _, lease_of g') (instance k) held)). split.
  - apply sys_node. by rewrite (Hm k g Hk).
  - split; [done|]. intros k' g1 Hg1. cbn [y_held]. destruct (decide (k' = k)) as [->|Hne].
    + rewrite (lookup_become_eq _ _ _ _ g) in Hg1 by done. injection Hg1 as <-. by rewrite lookup_partial_alter_eq.
    + rewrite lookup_become in Hg1 by done. rewrite lookup_partial_alter_ne by (intros Heq; by apply Hne, (inj instance)).
      by apply Hm.
Qed.

(** Each step of the test is at most one step of the system in which
    LockSystem proves mutual exclusion. *)
Lemma test_step_refines s s' y : test_step id leaseDuration instance start spread lockTimeout s s' → models s y →
  ∃ y', rtc (sys_step id leaseDuration) y y' ∧ models s' y'.
Proof.
  intros Hstep Hm.
  assert (∀ k g g', ct_goroutines s !! k = Some g → lease_of g' = lease_of g →
    ∃ y', rtc (sys_step id leaseDuration) y y' ∧ models (become k g' (ct_world s) s) y') as Hstay.
  { intros k g g' Hk Hl. exists y. split; [done|]. by eapply models_become. }
  assert (∀ k g g' w, ct_goroutines s !! k = Some g →
    node_step id leaseDuration (instance k) (ct_world s, lease_of g) (w, lease_of g') →
    ∃ y', rtc (sys_step id leaseDuration) y y' ∧ models (become k g' w s) y') as Hnode.
  { intros k g g' w Hk Hs. destruct (models_node k g g' w s y Hk Hm Hs) as (y' & Hy & Hm'). exists y'.
    split; [by apply rtc_once|done]. }
  destruct Hstep as [w Hl|k Hk Hn|k d b Hk Hn Ht|k d b w res Hk Hn Ha|k d b rows Hk Hn Ht Ha|
    k d b ids w Hk Hn Hc|k d Hk|k t d e w res Hk Hn Hr|k t d e Hk Hn|k w res Hk Hr|k rows Hk Ht Hr].
  - destruct y as [w0 held], Hm as [Hw Hm]. cbn in Hw. subst w0. exists (mkSystem w held).
    split; [apply rtc_once; by apply sys_time|]. by split.
  - by eapply Hstay.
  - eapply Hnode; [done|]. by apply ns_create.
  - destruct (Hnode k (GTrying d b) (GHolding (now s) d (al_LeaseExpiresAt res)) w Hk) as (y' & Hy & Hm').
    { by apply ns_acquire. }
    exists y'. by split.
  - by eapply Hstay.
  - eapply Hnode; [done|]. by eapply ns_cleanup.
  - by eapply Hstay.
  - eapply Hnode; [done|]. by apply ns_renew.
  - eapply Hnode; [done|]. by apply ns_unlock.
  - eapply Hnode; [done|]. by eapply ns_release.
  - by eapply Hstay.
Qed.
End Refinement.
