(* ===== verification/LockMem.v ===== *)
(** * A concrete lock table

    A small in-memory database that executes the statements of the two lock
    stores on the default table and PostgreSQL's advisory locks, with a clock
    that moves on with every statement.  It is the concrete instance of the
    assumptions of [LockSpec] and [LockerSpec] at which the witnesses evaluate
    the theorems; it models no code of the repository. *)

From stdpp Require Import relations functions.
From S2P Require Import Prelude GoStrings Effects Resolve SqlParser Dialects Sql Migration Store Options.
From S2P Require Import Collect Runner Provider ProviderLocks LockStore LockSpec Lockers LockSystem LockerSpec.

#[local] Existing Instance pair_Append.
#[local] Existing Instance loop_retry.
#[local] Existing Instance loop_retry_laws.

Definition lock_name : string := DefaultLockTableName.

Record lockmem := mkLockmem {
  lm_world : LockWorld;
  lm_saved : option (option LockRows);
  lm_held : Z → nat
}.

Definition lm_error : error := EExternal 7.
Definition tick (s : LockWorld) : LockWorld := mkLockWorld (clock s + 1) (lock_table s).
Definition set_world (s : LockWorld) (d : lockmem) : lockmem := mkLockmem s (lm_saved d) (lm_held d).

Definition parse_secs (s : string) : option Z :=
  match ParseInt (Cut s " ").1.1 with inl n => Some n | inr _ => None end.

Inductive lock_stmt :=
  | LCreate | LExists | LAcquire | LRelease | LRenew | LStatus | LCleanup
  | MInsert | MSteal | MRelease | MRenew | MReadLock | MReadLease | MStale | MStatus | LTry | LUnlock | LOther.

Definition lock_stmts : list (string * lock_stmt) :=
  let t := lock_name in
  [(pg_create t, LCreate); (my_create t, LCreate); (pg_exists t, LExists); ((my_exists t).1, LExists);
   (pg_acquire t, LAcquire); (pg_release t, LRelease); (pg_renew t, LRenew); (pg_status t, LStatus);
   (pg_cleanup t, LCleanup); (my_insert t, MInsert); (my_steal t, MSteal); (my_release t, MRelease);
   (my_renew t, MRenew); (my_read_lock t, MReadLock); (my_read_lease t, MReadLease); (my_stale t, MStale);
   (my_status t, MStatus); ("SELECT pg_try_advisory_lock($1)", LTry); ("SELECT pg_advisory_unlock($1)", LUnlock)].

Definition lock_kind (s : string) : lock_stmt :=
  match List.find (λ p, String.eqb s p.1) lock_stmts with Some (_, k) => k | None => LOther end.

(** The statements that only change rows; the last are those of [my_free]. *)
Definition lm_update (s : string) (args : list sqlval) : Z → LockRows → option LockRows := λ now rows,
  match lock_kind s, args with
  | MInsert, [VInt id; VStr b; VInt n] => insert_ignore now id b n rows
  | MSteal, [VStr b; VInt n; VInt id] => steal now id b n rows
  | MRelease, [VInt id; VStr b] => release now id b rows
  | MRenew, [VInt n; VInt id; VStr b] => renew now id b n rows
  | _, _ => Some (free_ids now (omap (λ v, match v with VInt i => Some i | _ => None end) args) rows)
  end.

Definition lm_exec (s : string) (args : list sqlval) (d : lockmem) : option error * lockmem :=
  let w := lm_world d in
  match lock_kind s, lock_table w with
  | LCreate, None => (None, set_world (mkLockWorld (clock w + 1) (Some ∅)) d)
  | LCreate, Some _ | _, None => (Some lm_error, d)
  | _, Some rows => (None, set_world (mkLockWorld (clock w + 1) (Some (default rows (lm_update s args (clock w) rows)))) d)
  end.

#[export] Instance lm_affected : Affected lockmem := λ _ s args d,
  match lock_table (lm_world d) with
  | Some rows => inl (match lm_update s args (clock (lm_world d)) rows with Some _ => 1 | None => 0 end)
  | None => inr lm_error
  end.

Definition row_or (f : option LockRows) (row : list sqlval) (rows : LockRows) : list (list sqlval) * LockRows :=
  match f with Some rows' => ([row], rows') | None => ([], rows) end.

Definition status_row (r : LockRow) : list sqlval :=
  [VBool (r_locked r); opt_val VStr (r_locked_by r); opt_val VTime (r_lease r); opt_val VTime (r_updated_at r)].

Definition lm_rows (s : string) (args : list sqlval) (now : Z) (rows : LockRows) : list (list sqlval) * LockRows :=
  match lock_kind s, args with
  | LAcquire, [VInt id; VStr b; VStr i] =>
      let n := default 0 (parse_secs i) in row_or (acquire now id b n rows) [VStr b; VTime (now + seconds n)] rows
  | LRelease, [VInt id; VStr b] => row_or (release now id b rows) [VInt id] rows
  | LRenew, [VStr i; VInt id; VStr b] =>
      let n := default 0 (parse_secs i) in row_or (renew now id b n rows) [VTime (now + seconds n)] rows
  | LCleanup, [] => let ids := stale_ids now rows in (map (λ i, [VInt i]) ids, free_ids now ids rows)
  | (LStatus | MStatus), [VInt id] => (match rows !! id with Some r => [status_row r] | None => [] end, rows)
  | MReadLock, [VInt id] =>
      (match rows !! id with Some r => [[opt_val VStr (r_locked_by r); opt_val VTime (r_lease r)]] | None => [] end, rows)
  | MReadLease, [VInt id] => (match rows !! id with Some r => [[opt_val VTime (r_lease r)]] | None => [] end, rows)
  | MStale, [] => (map (λ i, [VInt i]) (stale_ids now rows), rows)
  | _, _ => ([], rows)
  end.

Definition set_held (h : Z → nat) (d : lockmem) : lockmem := mkLockmem (tick (lm_world d)) (lm_saved d) h.

Definition lm_query (s : string) (args : list sqlval) (d : lockmem) : result (list (list sqlval)) * lockmem :=
  let w := lm_world d in
  match lock_kind s, args with
  | LExists, _ => (inl [[VBool (bool_decide (is_Some (lock_table w)))]], set_world (tick w) d)
  | LTry, [VInt id] => (inl [[VBool true]], set_held (<[id := S (lm_held d id)]> (lm_held d)) d)
  | LUnlock, [VInt id] =>
      if decide (lm_held d id = 0)%nat then (inl [[VBool false]], set_held (lm_held d) d)
      else (inl [[VBool true]], set_held (<[id := pred (lm_held d id)]> (lm_held d)) d)
  | _, _ =>
      match lock_table w with
      | None => (inr lm_error, d)
      | Some rows => let '(out, rows') := lm_rows s args (clock w) rows in
          (inl out, set_world (mkLockWorld (clock w + 1) (Some rows')) d)
      end
  end.

#[export] Instance lm_driver : Driver lockmem := {
  drv_connect d := (None, d);
  drv_release d := (None, d);
  drv_begin d := (None, mkLockmem (lm_world d) (Some (lock_table (lm_world d))) (lm_held d));
  drv_commit d := (None, mkLockmem (lm_world d) None (lm_held d));
  drv_rollback d := (None, mkLockmem (mkLockWorld (clock (lm_world d)) (default None (lm_saved d))) None (lm_held d));
  drv_exec _ := lm_exec;
  drv_query _ := lm_query
}.

(** ** The assumptions hold *)

#[export] Instance later_env : Environment later.
Proof.
  split.
  - apply later_refl.
  - apply later_trans.
  - done.
  - intros s s' [-> _]. done.
Qed.

Lemma tick_later s : later s (tick s).
Proof. split; cbn; [done|lia]. Qed.

Lemma lm_exec_saved s args d : lm_saved (lm_exec s args d).2 = lm_saved d.
Proof. unfold lm_exec. by repeat case_match. Qed.

Lemma lm_query_saved s args d : lm_saved (lm_query s args d).2 = lm_saved d.
Proof. unfold lm_query. repeat (case_match; try done). Qed.

#[export] Instance lm_lock_driver : LockDriver (D:=lockmem) lm_world lm_saved later.
Proof.
  split; cbn [drv_connect drv_release drv_begin drv_commit drv_rollback drv_exec drv_query lm_driver fst snd].
  - apply _.
  - intros. apply later_refl.
  - intros. apply later_refl.
  - intros d. split; [apply later_refl|done].
  - intros d t Hs. apply later_refl.
  - intros d t Hs. rewrite Hs. apply later_refl.
  - intros. apply lm_exec_saved.
  - intros. apply lm_query_saved.
Qed.

(** One statement, then a microsecond passes. *)
Lemma around_tick (R : LockWorld → LockWorld → Prop) s s2 : R s s2 → around later R s (tick s2).
Proof. intros HR. exists s, s2. split_and!; [apply later_refl|done|apply tick_later]. Qed.

Lemma around_stay (R : LockWorld → LockWorld → Prop) s : R s s → around later R s s.
Proof. intros HR. exists s, s. split_and!; [apply later_refl|done|apply later_refl]. Qed.

Lemma lm_query_effect (E : Z → LockRows → list (list sqlval) → LockRows → Prop) s args d :
  match lock_kind s with LExists | LTry | LUnlock => False | _ => True end →
  (∀ now rows, let r := lm_rows s args now rows in E now rows r.1 r.2) →
  around later (query_effect E (lm_query s args d).1) (lm_world d) (lm_world (lm_query s args d).2).
Proof.
  intros Hk HE. assert (lm_query s args d = match lock_table (lm_world d) with
      | None => (inr lm_error, d)
      | Some rows => let '(out, rows') := lm_rows s args (clock (lm_world d)) rows in
          (inl out, set_world (mkLockWorld (clock (lm_world d) + 1) (Some rows')) d)
      end) as ->. { unfold lm_query. by destruct (lock_kind s). }
  destruct (lock_table (lm_world d)) as [rows|] eqn:Ht; [|by apply around_stay].
  specialize (HE (clock (lm_world d)) rows). destruct (lm_rows s args _ rows) as [out rows'] eqn:Hr. cbn [fst snd lm_world set_world].
  apply (around_tick _ _ (mkLockWorld (clock (lm_world d)) (Some rows'))). by exists rows, rows'.
Qed.

Lemma lm_exec_effect s args d f :
  match lock_kind s with LCreate => False | _ => True end →
  (∀ now rows, lm_update s args now rows = f now rows) →
  around later (exec_effect (updates f) (lm_exec s args d).1 (lm_affected HTx s args d))
    (lm_world d) (lm_world (lm_exec s args d).2).
Proof.
  intros Hk Hf. assert (lm_exec s args d = match lock_table (lm_world d) with
      | None => (Some lm_error, d)
      | Some rows => (None, set_world (mkLockWorld (clock (lm_world d) + 1)
          (Some (default rows (lm_update s args (clock (lm_world d)) rows)))) d)
      end) as -> by (unfold lm_exec; by destruct (lock_kind s)).
  unfold lm_affected. destruct (lock_table (lm_world d)) as [rows|] eqn:Ht; [|by apply around_stay].
  rewrite Hf. cbn [fst snd lm_world set_world].
  apply (around_tick _ _ (mkLockWorld (clock (lm_world d)) (Some (default rows (f (clock (lm_world d)) rows))))).
  cbn. eexists rows, (match f (clock (lm_world d)) rows with Some _ => 1 | None => 0 end), _. split_and!; [done| |done|].
  - unfold updates. destruct (f (clock (lm_world d)) rows); cbn; split; (done || lia).
  - by intros m [= <-].
Qed.

Lemma lm_exists_effect s args d : lock_kind s = LExists →
  around later (reads_exists (lm_query s args d).1) (lm_world d) (lm_world (lm_query s args d).2).
Proof.
  intros Hk. unfold lm_query. rewrite Hk. apply around_tick. split; [done|]. eexists. by split.
Qed.

Lemma lm_create_effect s d : lock_kind s = LCreate →
  around later (creates_table_effect (lm_exec s [] d).1) (lm_world d) (lm_world (lm_exec s [] d).2).
Proof.
  intros Hk. unfold lm_exec. rewrite Hk. destruct (lock_table (lm_world d)) eqn:Ht; [by apply around_stay|].
  apply (around_tick _ _ (mkLockWorld (clock (lm_world d)) (Some ∅))). by split.
Qed.

Lemma parse_secs_FormatInt n : is_int64 n → parse_secs (FormatInt n +++ " seconds") = Some n.
Proof.
  intros Hn. unfold parse_secs.
  assert (lacks " " (FormatInt n) = true) as Hl.
  { unfold FormatInt. destruct (Z.ltb_spec n 0); [cbn [lacks]; change (Ascii.eqb "-" " ") with false; cbn [negb andb]|];
      by apply lacks_format_digits; [|lia|]. }
  change " seconds" with (String " " "seconds"). rewrite Cut_found by done. cbn [fst]. by rewrite ParseInt_FormatInt.
Qed.

#[local] Ltac by_update := intros d; intros; apply lm_exec_effect; [vm_compute; exact I|];
  intros now rows; unfold lm_update;
  match goal with |- context [lock_kind ?q] => let k := eval vm_compute in (lock_kind q) in
    replace (lock_kind q) with k by (vm_compute; reflexivity) end; reflexivity.

#[local] Ltac by_query tac := intros d; intros; apply lm_query_effect; [vm_compute; exact I|];
  intros now rows; unfold lm_rows;
  match goal with |- context [lock_kind ?q] => let k := eval vm_compute in (lock_kind q) in
    replace (lock_kind q) with k by (vm_compute; reflexivity) end; cbn zeta iota beta; tac.

Lemma row_or_spec (f : Z → LockRows → option LockRows) row now rows :
  returning_row f row now rows (row_or (f now rows) (row now) rows).1 (row_or (f now rows) (row now) rows).2.
Proof. unfold returning_row, row_or. by destruct (f now rows). Qed.

Lemma status_spec_row id now rows :
  reads_status id now rows (match rows !! id with Some r => [status_row r] | None => [] end) rows.
Proof. split; [done|]. destruct (rows !! id) as [r|]; [|done]. exists (VBool (r_locked r)). by split. Qed.

#[export] Instance lm_postgres : PostgresLocks (D:=lockmem) lm_world later lock_name.
Proof.
  split; cbn [drv_exec drv_query lm_driver].
  - intros d. apply lm_exists_effect. by vm_compute.
  - intros d. apply lm_create_effect. by vm_compute.
  - by_query ltac:(rewrite parse_secs_FormatInt by done; apply (row_or_spec (λ now, acquire now id by_ n) (λ now, [VStr by_; VTime (now + seconds n)]))).
  - by_query ltac:(apply (row_or_spec (λ now, release now id by_) (λ _, [VInt id]))).
  - by_query ltac:(rewrite parse_secs_FormatInt by done; apply (row_or_spec (λ now, renew now id by_ n) (λ now, [VTime (now + seconds n)]))).
  - by_query ltac:(apply status_spec_row).
  - by_query ltac:(by eexists).
Qed.

#[export] Instance lm_mysql : MySQLLocks (D:=lockmem) lm_world later lock_name.
Proof.
  split; cbn [drv_exec drv_query lm_driver].
  - intros d. apply lm_exists_effect. by vm_compute.
  - intros d. apply lm_create_effect. by vm_compute.
  - by_update.
  - by_update.
  - by_update.
  - by_update.
  - intros d ids. cbn zeta.
    assert (∀ n, lock_kind (my_free lock_name n) = LOther) as Hk.
    { intros n. unfold lock_kind, lock_stmts, my_free. unfold List.find. cbn [fst]. by repeat case_match. }
    assert (omap (λ v, match v with VInt i => Some i | _ => None end) (map VInt ids) = ids) as Hids.
    { clear. induction ids as [|i ids IH]; [done|]. cbn. f_equal. exact IH. }
    unfold lm_exec, lm_update. rewrite Hk. cbn iota. destruct (lock_table (lm_world d)) as [rows|] eqn:Ht; [|by apply around_stay].
    rewrite Hids. cbn [fst snd lm_world set_world default].
    apply (around_tick _ _ (mkLockWorld (clock (lm_world d)) (Some (free_ids (clock (lm_world d)) ids rows)))).
    exists rows, 0, (free_ids (clock (lm_world d)) ids rows). by split_and!.
  - by_query ltac:(split; [done|]; by destruct (rows !! id)).
  - by_query ltac:(split; [done|]; by destruct (rows !! id)).
  - by_query ltac:(split; [done|]; eexists; split; [reflexivity|done]).
  - by_query ltac:(apply status_spec_row).
Qed.

#[export] Instance lm_advisory : AdvisoryLocks (D:=lockmem) lm_held.
Proof.
  split; intros d id; cbn [drv_query lm_driver]; unfold lm_query.
  - replace (lock_kind "SELECT pg_try_advisory_lock($1)") with LTry by by vm_compute. cbn. by exists (VBool true), true.
  - replace (lock_kind "SELECT pg_advisory_unlock($1)") with LUnlock by by vm_compute.
    destruct (decide (lm_held d id = 0%nat)); cbn; [exists (VBool false), false|exists (VBool true), true]; split_and!; try done. lia.
Qed.

(** The advisory locks are not among the contents of the database. *)
#[export] Instance lm_model : DbModel lockmem unit := { view _ := (None, tt); snap _ := Some (None, tt) }.
#[export] Instance lm_db_laws : DbLaws lockmem unit.
Proof. split; cbn; try done; by intros d [[] []]. Qed.

(** ** Witnesses *)

Lemma store_NewPostgres_refines_witness :
  lock_name ≠ "" ∧ LockStoreSpec lm_world later (postgres_store lock_name).
Proof.
  pose proof (store_NewPostgres_refines lm_world later lock_name (postgres_store lock_name) later_env eq_refl
    lm_postgres) as Hc. exact Hc.
Defined.

Lemma store_NewMySQL_refines_witness :
  lock_name ≠ "" ∧ LockStoreSpec lm_world later (mysql_store lock_name).
Proof.
  pose proof (store_NewMySQL_refines lm_world lm_saved later lock_name (mysql_store lock_name) eq_refl
    lm_lock_driver lm_mysql) as Hc. exact Hc.
Defined.

(** Process "a" acquires the lock for thirty seconds and dies; after 31 seconds
    process "b" acquires it. *)
Definition lease : Z := 30 * Second.
Definition rows_a : LockRows := {[7 := taken 0 "a" 30]}.
Definition rows_b : LockRows := <[7 := taken (seconds 31) "b" 30]> rows_a.
Definition y_both : System :=
  mkSystem (mkLockWorld (seconds 31) (Some rows_b)) (<["b" := seconds 61]> {["a" := seconds 30]}).

Lemma y_both_reachable : reachable 7 lease y_both.
Proof.
  exists (mkLockWorld 0 (Some ∅)). eapply rtc_l; [|eapply rtc_l; [|eapply rtc_once]].
  - apply (acquire_sys_step 7 lease "a" 0 ∅ rows_a ∅ (seconds 30)); [done|by vm_compute|by vm_compute].
  - apply (sys_time 7 lease _ (mkLockWorld (seconds 31) (Some rows_a))). by split.
  - apply acquire_sys_step; [by rewrite lookup_singleton_ne|by vm_compute|by vm_compute].
Qed.

Lemma mutual_exclusion_witness :
  seconds 30 < clock (y_world y_both) ∨ seconds 61 < clock (y_world y_both).
Proof.
  pose proof (mutual_exclusion 7 lease y_both "a" "b" (seconds 30) (seconds 61) y_both_reachable eq_refl eq_refl
    ltac:(done)) as Hc. exact Hc.
Defined.

Lemma subsecond_lease_witness :
  ∃ y ei ej, reachable 7 (500 * Millisecond) y ∧ clock (y_world y) = 1 ∧
    y_held y !! "a" = Some ei ∧ y_held y !! "b" = Some ej.
Proof.
  assert (0 < 500 * Millisecond < Second) as Hd by by vm_compute.
  pose proof (subsecond_lease 7 (500 * Millisecond) "a" "b" Hd ltac:(done)) as Hc. exact Hc.
Defined.

(** A locker on a database where another process holds the lock. *)
Definition lm_rows_held : LockRows := {[DefaultLockID := taken 0 "other" 30]}.
Definition lm_db (now : Z) : DB lockmem := mkDB (mkLockmem (mkLockWorld now (Some lm_rows_held)) None (λ _, 0%nat)) 0 0 false.
Definition lm_locker : TableLocker lockmem :=
  table_New "host" 42 "0badcafe" (mysql_store lock_name) default_table_config.
Definition lm_start (now : Z) : TLW lockmem := mkTLW (lm_db now) false false.
Definition lm_lock (now : Z) : outcome unit * TLW lockmem := run_call lm_locker CallLock (lm_start now).

#[local] Instance lm_locker_store : LockStoreSpec lm_world later (tl_store lm_locker).
Proof. apply (mysql_meets_contract lm_world lm_saved later lock_name). Qed.

Lemma lm_locker_lease : is_int64 (tl_leaseDuration lm_locker).
Proof. split; by vm_compute. Qed.

Lemma lm_start_related now : related (lm_start now) None.
Proof. by split. Qed.

Lemma locker_refines_node_witness :
  (lm_lock (seconds 10)).1 ≠ Ok tt ∧
  match lm_lock (seconds 31) with
  | (Panic _, _) => False
  | (Block, _) => True
  | (r, w') => ∃ h', rtc (run_step later lm_locker) (tlw lm_world (lm_start (seconds 31)), None) (tlw lm_world w', h') ∧
      related w' h' ∧ after_call CallLock r h'
  end.
Proof.
  split; [by vm_compute|].
  pose proof (locker_refines_node lm_world later lm_locker lm_locker_lease CallLock (lm_start (seconds 31)) None
    (lm_start_related _) eq_refl) as Hc. exact Hc.
Defined.

Definition lm_session : SessionLocker lockmem :=
  mkSessionLocker lockmem (postgres_SessionLock 9 (mkBackoff 60 (5 * Second)))
    (postgres_SessionUnlock 9 (mkBackoff 30 (2 * Second))).

Lemma lm_session_eq : NewPostgresSessionLocker [WithLockID 9] = inl lm_session.
Proof. reflexivity. Qed.

Lemma NewPostgresSessionLocker_ok_witness : ∃ id,
  lock_op_ok (U:=unit) (SessionLock lm_session) ∧ lock_op_ok (U:=unit) (SessionUnlock lm_session) ∧
  (∀ w, match SessionLock lm_session w with
        | (Ok _, w') => lm_held (drv w') = <[id := S (lm_held (drv w) id)]> (lm_held (drv w))
        | (Err _, w') => lm_held (drv w') = lm_held (drv w)
        | _ => False
        end) ∧
  (∀ w, match SessionUnlock lm_session w with
        | (Ok _, w') => lm_held (drv w') = <[id := pred (lm_held (drv w) id)]> (lm_held (drv w))
        | (Err _, w') => lm_held (drv w') = lm_held (drv w)
        | _ => False
        end).
Proof.
  pose proof (NewPostgresSessionLocker_ok (U:=unit) lm_held [WithLockID 9] lm_session lm_session_eq) as Hc. exact Hc.
Defined.
