(* ===== verification/LockTestSamples.v ===== *)
(** * Sample runs of [TestConcurrentLocking]

    Actions that make a step when its conditions hold, a run in which the
    second goroutine acquires the lock within a timeout of a second, and one
    with a timeout of six seconds, in which the test gives up. *)

From stdpp Require Import relations.
From S2P Require Import Prelude GoStrings Effects Migration LockStore LockSpec LockSystem LockTest LockTestSpec.

Inductive action :=
  | ATime (passed : Z) | AStart (k : nat) | ACreate (k : nat) | AAcquire (k : nat) | ARefused (k : nat)
  | AGiveUp (k : nat) | AUnlock (k : nat) | ARelease (k : nat).

Section Act.
Context (id leaseDuration : Z) (instance : nat → string) (start spread lockTimeout : Z).
Abbreviation secs := (int_Seconds leaseDuration).

Definition act (a : action) (s : ConcurrentTest) : option ConcurrentTest :=
  let w := ct_world s in
  match a with
  | ATime n => guard (0 ≤ n);; Some (mkConcurrentTest (mkLockWorld (now s + n) (lock_table w)) (ct_goroutines s) (ct_success s))
  | AStart k =>
      match ct_goroutines s !! k with
      | Some GStart => guard (now s ≤ start + spread);; Some (become k (GTrying (now s + lockTimeout) false) w s)
      | _ => None
      end
  | ACreate k =>
      match ct_goroutines s !! k, lock_table w with
      | Some (GTrying d b), None => guard (now s ≤ d);; Some (become k (GTrying d b) (mkLockWorld (now s) (Some ∅)) s)
      | _, _ => None
      end
  | AAcquire k =>
      match ct_goroutines s !! k, lock_table w with
      | Some (GTrying d b), Some rows =>
          guard (now s ≤ d);; rows' ← acquire (now s) id (instance k) secs rows;
          Some (send k (become k (GHolding (now s) d (now s + seconds secs)) (mkLockWorld (now s) (Some rows')) s))
      | _, _ => None
      end
  | ARefused k =>
      match ct_goroutines s !! k, lock_table w with
      | Some (GTrying d b), Some rows =>
          guard (now s ≤ d);; guard (acquire (now s) id (instance k) secs rows = None);;
          Some (become k (GTrying d true) w s)
      | _, _ => None
      end
  | AGiveUp k =>
      match ct_goroutines s !! k with
      | Some (GTrying d true) => Some (become k (GDone false) w s)
      | _ => None
      end
  | AUnlock k =>
      match ct_goroutines s !! k with
      | Some (GHolding t d e) => guard (t + 2 * lockTimeout ≤ now s);; Some (become k GUnlocking w s)
      | _ => None
      end
  | ARelease k =>
      match ct_goroutines s !! k, lock_table w with
      | Some GUnlocking, Some rows =>
          rows' ← release (now s) id (instance k) rows;
          Some (become k (GDone true) (mkLockWorld (now s) (Some rows')) s)
      | _, _ => None
      end
  end.

Lemma act_sound a s s' : act a s = Some s' → test_step id leaseDuration instance start spread lockTimeout s s'.
Proof.
  destruct a as [n|k|k|k|k|k|k|k]; cbn; intros Ha; repeat case_match; simplify_option_eq; try done.
  - apply step_time. split; [done|cbn; lia].
  - by apply step_start.
  - by eapply step_create.
  - change (now s + seconds secs) with (al_LeaseExpiresAt (mkAcquireLockResult (instance k) (now s + seconds secs))).
    eapply step_acquire; [done|done|]. by do 2 eexists.
  - by eapply step_refused.
  - by eapply step_give_up.
  - by eapply step_unlock.
  - eapply (step_release _ _ _ _ _ _ _ _ _ (mkReleaseLockResult id)); [done|]. by do 2 eexists.
Qed.

Definition run_actions (l : list action) (s : ConcurrentTest) : option ConcurrentTest :=
  foldl (λ s a, s ≫= act a) (Some s) l.

Lemma run_actions_sound l s s' : run_actions l s = Some s' →
  test_reachable id leaseDuration instance start spread lockTimeout s s'.
Proof.
  unfold run_actions. revert s. induction l as [|a l IH]; intros s; cbn [foldl]; [intros [= <-]; apply rtc_refl|].
  change (Some s ≫= act a) with (act a s). destruct (act a s) as [s1|] eqn:Ha.
  - intros Hr. eapply rtc_l; [by eapply act_sound|by apply IH].
  - intros Hr. exfalso. clear Ha IH. induction l as [|a' l IH']; [done|]. by apply IH'.
Qed.
End Act.

(** ** Five goroutines *)

Definition k_instance (k : nat) : string := "host-1-" +++ FormatInt (Z.of_nat k).

Definition k_actions (lockTimeout : Z) : list action :=
  [AStart 0; AStart 1; ACreate 0; AAcquire 1; AStart 2; ARefused 0; ARefused 2; AStart 3; AStart 4; ARefused 3;
   ARefused 4; ATime lockTimeout; AGiveUp 0; AGiveUp 2; AGiveUp 3; AGiveUp 4; ATime lockTimeout; AUnlock 1;
   ARelease 1]%nat.

Definition k_world : LockWorld := mkLockWorld 0 None.

Definition k_run (lockTimeout : Z) : option ConcurrentTest :=
  run_actions 1 (30 * Second) k_instance 0 1000 lockTimeout (k_actions lockTimeout) (test_start k_world).

Definition k_state (lockTimeout : Z) : ConcurrentTest := default (test_start k_world) (k_run lockTimeout).

Lemma k_reached lockTimeout : is_Some (k_run lockTimeout) →
  test_reachable 1 (30 * Second) k_instance 0 1000 lockTimeout (test_start k_world) (k_state lockTimeout).
Proof. intros [s Hs]. apply (run_actions_sound _ _ _ _ _ _ (k_actions lockTimeout)). unfold k_state. by rewrite Hs. Qed.

Lemma k_second_runs : is_Some (k_run (seconds 1)) ∧ all_returned (k_state (seconds 1)) = true.
Proof. split; [eexists|]; by vm_compute. Qed.

Lemma k_free : free 1 k_world.
Proof. done. Qed.

Lemma TestConcurrentLocking_passes_witness :
  ct_success (k_state (seconds 1)) = [1%nat] ∧ test_passes (seconds 1) 0 (k_state (seconds 1)) = true.
Proof.
  destruct (TestConcurrentLocking_passes 1 (30 * Second) k_instance 0 1000 (seconds 1) ltac:(done) ltac:(done)
    k_world (k_state (seconds 1)) 0 eq_refl k_free (k_reached _ (proj1 k_second_runs)) (proj2 k_second_runs))
    as [(k & Hs & Hk) Ht].
  split; [by vm_compute|]. rewrite Ht. by vm_compute.
Defined.

(** With six seconds: one goroutine had the lock alone, and the test fails. *)
Lemma k_six_seconds :
  ct_success (k_state (seconds 6)) = [1%nat] ∧ test_passes (seconds 6) 0 (k_state (seconds 6)) = false.
Proof. split; by vm_compute. Qed.
