(* ===== verification/Netip.v ===== *)
(** * Addresses (net/netip, net)

    The functions of the Go standard library on network addresses that
    pkg/dockermanage calls: [netip.ParseAddr] with its two address families,
    [netip.MustParseAddr] and [net.JoinHostPort]. *)

From S2P Require Import Prelude GoStrings Effects.

(** [netip.Addr]: four bytes, or sixteen and a zone. *)
Inductive Addr :=
  | Addr4 (fields : list Z)
  | Addr6 (bytes : list Z) (zone : string).

#[export] Instance Addr_eq_dec : EqDecision Addr.
Proof. solve_decision. Defined.

Definition parseAddrError (msg : string) : error := EErrorf "ParseAddr(%q): %s" [AStr msg].

(** ** IPv4 *)

(** The loop of [parseIPv4Fields]: [val] and [digLen] belong to the current
    octet, [fields] are the octets before it; [first] holds at the first byte
    and [after_dot] when the byte before was a dot. *)
Fixpoint ipv4_fields (first after_dot : bool) (val digLen : Z) (fields : list Z) (s : string)
  : result (list Z) :=
  match s with
  | EmptyString =>
      if (length fields <? 3)%nat then inr (parseAddrError "IPv4 address too short")
      else inl (fields ++ [val])
  | String c s' =>
      match digit_of c with
      | Some d =>
          if (digLen =? 1) && (val =? 0)
          then inr (parseAddrError "IPv4 field has octet with leading zero")
          else
            let val := val * 10 + d in
            if 255 <? val then inr (parseAddrError "IPv4 field has value >255")
            else ipv4_fields false false val (digLen + 1) fields s'
      | None =>
          if Ascii.eqb c "."
          then if first || String.eqb s' "" || after_dot
               then inr (parseAddrError "IPv4 field must have at least one digit")
               else if (length fields =? 3)%nat then inr (parseAddrError "IPv4 address too long")
               else ipv4_fields false true 0 0 (fields ++ [val]) s'
          else inr (parseAddrError "unexpected character")
      end
  end.

Definition parseIPv4Fields (s : string) : result (list Z) :=
  if String.eqb s "" then inr (parseAddrError "IPv4 address too short")
  else ipv4_fields true false 0 0 [] s.

(** ** IPv6 *)

Definition hex_of (c : ascii) : option Z :=
  let n := Z.of_nat (nat_of_ascii c) in
  if (48 <=? n) && (n <=? 57) then Some (n - 48)
  else if (97 <=? n) && (n <=? 102) then Some (n - 97 + 10)
  else if (65 <=? n) && (n <=? 70) then Some (n - 65 + 10)
  else None.

(** A group of at most four hexadecimal digits: its value, the number of its
    digits and the rest. *)
Fixpoint hex_group (off acc : Z) (s : string) : result (Z * Z * string) :=
  match s with
  | EmptyString => inl (acc, off, s)
  | String c s' =>
      match hex_of c with
      | None => inl (acc, off, s)
      | Some d =>
          let acc := acc * 16 + d in
          if 3 <? off then inr (parseAddrError "each group must have 4 or less digits")
          else if 65535 <? acc then inr (parseAddrError "IPv6 field has value >=2^16")
          else hex_group (off + 1) acc s'
      end
  end.

(** The loop of [parseIPv6]: [ip] are the bytes so far, [ellipsis] the
    position of [::].  A round adds two bytes and the loop ends at sixteen, so
    [rounds] is eight. *)
Fixpoint ipv6_groups (rounds : nat) (ip : list Z) (ellipsis : option nat) (s : string)
  : result (list Z * option nat * string) :=
  match rounds with
  | O => inl (ip, ellipsis, s)
  | S rounds =>
      let? (acc, off, rest) := hex_group 0 0 s in
      if off =? 0 then inr (parseAddrError "each colon-separated field must have at least one digit")
      else if HasPrefix rest "." then
        if bool_decide (ellipsis = None) && negb (length ip =? 12)%nat
        then inr (parseAddrError "embedded IPv4 address must replace the final 2 fields of the address")
        else if (16 <? length ip + 4)%nat
        then inr (parseAddrError "too many hex fields to fit an embedded IPv4 at the end of the address")
        else let? f := parseIPv4Fields s in inl (ip ++ f, ellipsis, "")
      else
        let ip := ip ++ [acc / 256; acc mod 256] in
        match rest with
        | EmptyString => inl (ip, ellipsis, "")
        | String c rest' =>
            if negb (Ascii.eqb c ":") then inr (parseAddrError "unexpected character, want colon")
            else match rest' with
            | EmptyString => inr (parseAddrError "colon must be followed by more characters")
            | String c' rest'' =>
                if Ascii.eqb c' ":" then
                  match ellipsis with
                  | Some _ => inr (parseAddrError "multiple :: in address")
                  | None =>
                      if String.eqb rest'' "" then inl (ip, Some (length ip), "")
                      else ipv6_groups rounds ip (Some (length ip)) rest''
                  end
                else ipv6_groups rounds ip ellipsis rest'
            end
        end
  end.

(** The zeros that an ellipsis stands for. *)
Definition expand_ellipsis (ip : list Z) (ellipsis : option nat) : result (list Z) :=
  match ellipsis with
  | None => if (length ip <? 16)%nat then inr (parseAddrError "address string too short") else inl ip
  | Some e =>
      if (length ip <? 16)%nat
      then inl (take e ip ++ replicate (16 - length ip) 0 ++ drop e ip)
      else inr (parseAddrError "the :: must expand to at least one field of zeros")
  end.

Definition parseIPv6 (s : string) : result Addr :=
  let '(s, zone, has_zone) := Cut s "%" in
  if has_zone && String.eqb zone "" then inr (parseAddrError "zone must be a non-empty string")
  else
    let leading := HasPrefix s "::" in
    let s := if leading then substring 2 (String.length s) s else s in
    if leading && String.eqb s "" then inl (Addr6 (replicate 16 0) zone)
    else
      let? (ip, ellipsis, rest) := ipv6_groups 8 [] (if leading then Some 0%nat else None) s in
      if negb (String.eqb rest "") then inr (parseAddrError "trailing garbage after address")
      else let? ip := expand_ellipsis ip ellipsis in inl (Addr6 ip zone).

(** ** Any address *)

(** The first dot, colon or percent sign decides. *)
Fixpoint parse_addr_from (s rest : string) : result Addr :=
  match rest with
  | EmptyString => inr (parseAddrError "unable to parse IP")
  | String c rest' =>
      if Ascii.eqb c "." then let? f := parseIPv4Fields s in inl (Addr4 f)
      else if Ascii.eqb c ":" then parseIPv6 s
      else if Ascii.eqb c "%" then inr (parseAddrError "missing IPv6 address")
      else parse_addr_from s rest'
  end.

Definition ParseAddr (s : string) : result Addr := parse_addr_from s s.

Definition MustParseAddr {W} (s : string) : M W Addr :=
  match ParseAddr s with inl a => mret a | inr _ => panic "netip: ParseAddr" end.

(** [net.JoinHostPort]. *)
Definition JoinHostPort (host port : string) : string :=
  if negb (lacks ":" host) then "[" +++ host +++ "]:" +++ port else host +++ ":" +++ port.

(** ** What is parsed *)

(** An address without a dot, a colon or a percent sign, such as a host name,
    is not parsed. *)
Lemma ParseAddr_host_name s :
  lacks "." s = true → lacks ":" s = true → lacks "%" s = true → ∃ e, ParseAddr s = inr e.
Proof.
  unfold ParseAddr. generalize s at 4. intros s0. induction s as [|c s IH]; simpl; [by eexists|].
  intros [H1 ?]%andb_prop [H2 ?]%andb_prop [H3 ?]%andb_prop.
  apply negb_true_iff in H1, H2, H3. rewrite H1, H2, H3. auto.
Qed.
