(* ===== verification/DockerClient.v ===== *)
(** * What pkg/dockermanage uses (contexts, package io, the Docker client)

    Contexts as values, the functions of package io on readers and writers, the
    Docker client and its types as a parameter with the documented behaviour of
    the calls, and go-retry under a deadline. *)

From S2P Require Import Prelude GoStrings Effects Netip.

(** ** Contexts

    The client sees which context a call is made with: the one the caller
    passed, one that ends after a time, or one that is not cancelled when its
    parent is. *)
Inductive Context :=
  | ContextCaller
  | WithTimeoutCtx (parent : Context) (timeout : Z)
  | WithoutCancel (parent : Context).

(** ** Package errors *)

(** [errors.Join]: nil values are discarded. *)
Definition errors_Join (errs : list (option error)) : option error :=
  match omap id errs with
  | [] => None
  | es => Some (EErrorf "errors.Join" (AWrap <$> es))
  end.

Lemma errors_Join_None errs : errors_Join errs = None ↔ Forall (.= None) errs.
Proof.
  unfold errors_Join. induction errs as [|[e|] errs IH]; simpl.
  - split; [by constructor|done].
  - split; [done|]. by intros [? ?]%Forall_cons.
  - rewrite IH, Forall_cons. naive_solver.
Qed.

Lemma errors_Join_Is errs e s :
  errors_Join errs = Some e →
  errors_Is e s = existsb (λ r, match r with Some e' => errors_Is e' s | None => false end) errs.
Proof.
  unfold errors_Join. intros He.
  assert (e = EErrorf "errors.Join" (AWrap <$> omap id errs)) as ->
    by (destruct (omap id errs); congruence).
  clear He. simpl. induction errs as [|[e|] errs IH]; [done| |done].
  simpl. f_equal. exact IH.
Qed.

(** ** Package io *)

Definition bytes : Type := list ascii.

(** A reader: the bytes not yet read and the error at their end, [None] for
    [io.EOF]. *)
Record Stream := mkStream { unread : bytes; at_end : option error }.

Definition end_error (r : Stream) : error := default (ESentinel io_EOF) (at_end r).

(** [err == io.EOF]. *)
Definition is_EOF (err : error) : bool :=
  match err with ESentinel s => bool_decide (s = io_EOF) | _ => false end.

(** [io.ReadFull] into a buffer of [n] bytes. *)
Definition ReadFull (n : nat) (r : Stream) : result bytes * Stream :=
  let got := take n (unread r) in
  let r' := mkStream (drop n (unread r)) (at_end r) in
  if (length got =? n)%nat then (inl got, r')
  else match at_end r with
       | Some e => (inr e, r')
       | None => (inr (ESentinel (if (length got =? 0)%nat then io_EOF else io_ErrUnexpectedEOF)), r')
       end.

Inductive Writer := io_Discard | os_Stderr | UserWriter (id : Z).

(** What the writers of the outside world do with the bytes they are given. *)
Class Writers (D : Type) := write_bytes : Writer → bytes → D → option error * D.

Section IO.
Context {D : Type} `{Writers D}.

Definition Write (dst : Writer) (p : bytes) : M D unit := λ d,
  match dst, p with
  | io_Discard, _ | _, [] => (Ok tt, d)
  | _, _ => match write_bytes dst p d with
            | (None, d') => (Ok tt, d')
            | (Some e, d') => (Err e, d')
            end
  end.

(** [io.Copy]: everything up to the end of [r], which is an error unless it is
    [io.EOF]. *)
Definition Copy (dst : Writer) (r : Stream) : M D unit :=
  Write dst (unread r);;
  match at_end r with None => mret tt | Some e => fail e end.

(** [io.CopyN]: [n] bytes, or the error at the end of [r], which may be
    [io.EOF]. *)
Definition CopyN (dst : Writer) (r : Stream) (n : nat) : M D Stream :=
  let got := take n (unread r) in
  Write dst got;;
  if (length got =? n)%nat then mret (mkStream (drop n (unread r)) (at_end r))
  else fail (end_error r).
End IO.

(** ** Ports (github.com/moby/moby/api/types/network) *)

Class Network := {
  Port : Type;
  Port_eq_dec :: EqDecision Port;
  Port_countable :: Countable Port;
  Port_zero : Port;
  Port_String : Port → string;
  ParsePort : string → result Port;
  PortFrom : Z → string → option Port
}.

Definition Port_IsZero `{Network} (p : Port) : bool := bool_decide (p = Port_zero).

Record PortBinding := mkPortBinding { HostIP : Addr; HostPort : string }.

(** ** The Docker client (github.com/moby/moby/client) *)

Section Types.
Context `{Network}.

(** [ContainerCreateOptions] with its [container.Config] and
    [container.HostConfig]. *)
Record ContainerCreateOptions := mkContainerCreateOptions {
  co_Name : string;
  co_Image : string;
  co_Env : list string;
  co_ExposedPorts : gset Port;
  co_Labels : gmap string string;
  co_PortBindings : gmap Port (list PortBinding);
  co_AutoRemove : bool
}.

(** [InspectResponse]: the bound ports, if there are network settings. *)
Record InspectResponse := mkInspectResponse {
  NetworkSettings : option (gmap Port (list PortBinding))
}.
End Types.

Record ExecCreateOptions := mkExecCreateOptions {
  ec_Cmd : list string;
  ec_Env : list string;
  ec_AttachStdout : bool;
  ec_AttachStderr : bool
}.

(** [errdefs.IsNotFound] and the methods of the client that are called; the
    list is that of all containers with a label. *)
Class DockerClient (D : Type) `{Network} := {
  errdefs_IsNotFound : error → bool;
  client_ImageInspect : Context → string → D → option error * D;
  client_ImagePull : Context → string → D → result Stream * D;
  client_PullClose : D → option error * D;
  client_ContainerCreate : Context → ContainerCreateOptions → D → result string * D;
  client_ContainerStart : Context → string → D → option error * D;
  client_ContainerInspect : Context → string → D → result InspectResponse * D;
  client_ContainerStop : Context → string → D → option error * D;
  client_ContainerRemove_Force : Context → string → D → option error * D;
  client_ContainerList_All : Context → string → D → result (list string) * D;
  client_ExecCreate : Context → string → ExecCreateOptions → D → result string * D;
  client_ExecAttach : Context → string → D → result Stream * D;
  client_ExecInspect : Context → string → D → result Z * D;
  client_AttachClose : D → D;
  client_Close : D → option error * D
}.

(** A call that returns a value, or only an error. *)
Definition call {D A} (f : D → result A * D) : M D A := λ d,
  match f d with (inl a, d') => (Ok a, d') | (inr e, d') => (Err e, d') end.

Definition call_ {D} (f : D → option error * D) : M D unit := λ d,
  match f d with (None, d') => (Ok tt, d') | (Some e, d') => (Err e, d') end.

(** ** What the calls do to the containers *)

Abbreviation Containers := (gmap string ContainerCreateOptions).

Section Containers.
Context `{Network}.

(** A container may exit at any time; Docker then removes it when it was
    created with [AutoRemove]. *)
Definition exits (m m' : Containers) : Prop :=
  m' ⊆ m ∧ ∀ id o, m !! id = Some o → m' !! id = Some o ∨ co_AutoRemove o = true.

#[export] Instance exits_preorder : PreOrder exits.
Proof.
  split.
  - intros m. split; [done|]. by left.
  - intros m1 m2 m3 [H12 H12'] [H23 H23']. split; [by etrans|].
    intros id o Ho. destruct (H12' id o Ho) as [Ho2|]; [|by right]. by apply H23'.
Qed.

Lemma exits_insert id o m m' : exits m m' → exits (<[id:=o]> m) (<[id:=o]> m').
Proof.
  intros [Hs Hk]. split; [by apply insert_mono|]. intros i o'.
  destruct (decide (i = id)) as [->|]; [rewrite !lookup_insert_eq; by left|].
  rewrite !lookup_insert_ne by done. apply Hk.
Qed.

Lemma exits_delete id m m' : exits m m' → exits (delete id m) (delete id m').
Proof.
  intros [Hs Hk]. split; [by apply delete_mono|]. intros i o'.
  rewrite !lookup_delete_Some. intros [? Ho]. destruct (Hk i o' Ho); naive_solver.
Qed.

Lemma exits_gone m m' id : exits m m' → m !! id = None → m' !! id = None.
Proof.
  intros [Hs _] Hn. destruct (m' !! id) as [o|] eqn:Ho; [|done].
  rewrite (lookup_weaken _ _ _ _ Ho Hs) in Hn. done.
Qed.
End Containers.

(** The documented behaviour of the calls, this process being the only one
    that works with the daemon; a call that fails does nothing. *)
Class DockerLaws (D : Type) `{DockerClient D, Writers D} (containers : D → Containers) := {
  create_law ctx o d : match client_ContainerCreate ctx o d with
    | (inl id, d') => containers d !! id = None ∧ exits (<[id:=o]> (containers d)) (containers d')
    | (inr _, d') => exits (containers d) (containers d')
    end;
  remove_law ctx id d : match client_ContainerRemove_Force ctx id d with
    | (None, d') => exits (delete id (containers d)) (containers d')
    | (Some _, d') => exits (containers d) (containers d')
    end;
  list_law ctx key d : match client_ContainerList_All ctx key d with
    | (inl ids, d') => exits (containers d) (containers d') ∧
        ∀ id, id ∈ ids ↔ ∃ o, containers d' !! id = Some o ∧ is_Some (co_Labels o !! key)
    | (inr _, d') => exits (containers d) (containers d')
    end;
  start_law ctx id d : exits (containers d) (containers (client_ContainerStart ctx id d).2);
  inspect_law ctx id d : exits (containers d) (containers (client_ContainerInspect ctx id d).2);
  stop_law ctx id d : exits (containers d) (containers (client_ContainerStop ctx id d).2);
  image_inspect_law ctx i d : exits (containers d) (containers (client_ImageInspect ctx i d).2);
  image_pull_law ctx i d : exits (containers d) (containers (client_ImagePull ctx i d).2);
  pull_close_law d : exits (containers d) (containers (client_PullClose d).2);
  write_law w p d : exits (containers d) (containers (write_bytes w p d).2)
}.

(** ** go-retry under a deadline *)

(** [retry.Do(ctx, retry.NewConstant(delay), f)] without a maximum. *)
Class RetryCtx := retry_Do_constant : ∀ W, Context → Z → M W unit → M W unit.
Arguments retry_Do_constant {_ W} _ _ _.

Definition ctx_error (e : error) : Prop :=
  e = ESentinel context_Canceled ∨ e = ESentinel context_DeadlineExceeded.

(** What the documentation says: [NewConstant] panics on a base that is not
    positive; otherwise [f] is called until it returns nil or an error that is
    not retryable, or until the context is done, whose error is returned then;
    a context that is done at the beginning means no call at all. *)
Class RetryCtxLaws `{RetryCtx} := {
  retry_constant_panics W ctx delay (f : M W unit) w :
    delay ≤ 0 → ∃ s, retry_Do_constant ctx delay f w = (Panic s, w);
  retry_constant_spec W ctx delay (f : M W unit) w : 0 < delay →
    (∃ e, ctx_error e ∧ retry_Do_constant ctx delay f w = (Err e, w)) ∨
    ∃ n r w', attempts f n w r w' ∧
      if is_retryable r
      then ∃ e, ctx_error e ∧ retry_Do_constant ctx delay f w = (Err e, w')
      else retry_Do_constant ctx delay f w = (r, w')
}.
