(* ===== verification/DockerManage.v ===== *)
(** * Containers for tests (pkg/dockermanage)

    The options of a container, the manager on a Docker client with its
    operations, and the demultiplexer of the output of a command. *)

From S2P Require Import Prelude GoStrings Effects Netip DockerClient.

Definition DefaultHostIP : string := "127.0.0.1".
Definition ManagedLabelKey : string := "pressly.goose".

Definition defaultReadinessTimeout : Z := 30 * 1000000000.
Definition defaultReadinessDelay : Z := 500 * 1000000.

(** ** Options (options.go) *)

Section Options.
Context `{Network}.

Record config := mkConfig {
  c_name : string;
  c_image : string;
  c_containerPort : Port;
  c_hostIP : string;
  c_hostPort : Z;
  c_envVars : list string;
  c_autoRemove : bool;
  c_pullProgress : option Writer;
  c_labels : gmap string string
}.

Definition defaultConfig : config :=
  mkConfig "" "" Port_zero DefaultHostIP 0 [] false None {[ManagedLabelKey := ""]}.

Definition set_name x c := let 'mkConfig _ b d e f g h i j := c in mkConfig x b d e f g h i j.
Definition set_image x c := let 'mkConfig a _ d e f g h i j := c in mkConfig a x d e f g h i j.
Definition set_containerPort x c := let 'mkConfig a b _ e f g h i j := c in mkConfig a b x e f g h i j.
Definition set_hostIP x c := let 'mkConfig a b d _ f g h i j := c in mkConfig a b d x f g h i j.
Definition set_hostPort x c := let 'mkConfig a b d e _ g h i j := c in mkConfig a b d e x g h i j.
Definition set_envVars x c := let 'mkConfig a b d e f _ h i j := c in mkConfig a b d e f x h i j.
Definition set_autoRemove x c := let 'mkConfig a b d e f g _ i j := c in mkConfig a b d e f g x i j.
Definition set_pullProgress x c := let 'mkConfig a b d e f g h _ j := c in mkConfig a b d e f g h x j.
Definition set_labels x c := let 'mkConfig a b d e f g h i _ := c in mkConfig a b d e f g h i x.

Definition ContainerOption : Type := config → result config.

Definition WithName (name : string) : ContainerOption := λ cfg,
  let name := TrimSpace name in
  if String.eqb name "" then inr (errors_New "container name must not be empty")
  else inl (set_name name cfg).

Definition WithImage (image : string) : ContainerOption := λ cfg,
  let image := TrimSpace image in
  if String.eqb image "" then inr (errors_New "image must not be empty")
  else inl (set_image image cfg).

Definition WithContainerPort (port : string) : ContainerOption := λ cfg,
  match ParsePort port with
  | inr err => inr (EErrorf "invalid container port: %w" [AWrap err])
  | inl p => inl (set_containerPort p cfg)
  end.

Definition WithContainerPortTCP (port : Z) : ContainerOption := λ cfg,
  if (port <=? 0) || (65535 <? port)
  then inr (EErrorf "container port must be in range 1-65535: %d" [AInt port])
  else match PortFrom (port mod 2 ^ 16) "tcp" with
       | None => inr (EErrorf "invalid container port: %d" [AInt port])
       | Some p => inl (set_containerPort p cfg)
       end.

Definition WithHostIP (hostIP : string) : ContainerOption := λ cfg,
  let hostIP := TrimSpace hostIP in
  if String.eqb hostIP "" then inr (errors_New "host IP must not be empty")
  else inl (set_hostIP hostIP cfg).

Definition WithHostPort (port : Z) : ContainerOption := λ cfg,
  if (port <=? 0) || (65535 <? port)
  then inr (EErrorf "host port must be in range 1-65535: %d" [AInt port])
  else inl (set_hostPort port cfg).

Definition WithEnv (key value : string) : ContainerOption := λ cfg,
  let key := TrimSpace key in
  if String.eqb key "" then inr (errors_New "env key must not be empty")
  else if Contains key "=" then inr (EErrorf "env key must not contain '=': %s" [AStr key])
  else inl (set_envVars (c_envVars cfg ++ [key +++ "=" +++ value]) cfg).

Definition WithEnvVars (envVars : list string) : ContainerOption := λ cfg,
  inl (set_envVars (c_envVars cfg ++ envVars) cfg).

Definition WithAutoRemove (autoRemove : bool) : ContainerOption := λ cfg,
  inl (set_autoRemove autoRemove cfg).

Definition WithPullProgress (w : option Writer) : ContainerOption := λ cfg,
  inl (set_pullProgress w cfg).

(** [labels[key] = value] with the key trimmed. *)
Definition put_label (key value : string) (labels : gmap string string) : result (gmap string string) :=
  let key := TrimSpace key in
  if String.eqb key "" then inr (errors_New "label key must not be empty")
  else inl (<[key := value]> labels).

Definition WithLabel (key value : string) : ContainerOption := λ cfg,
  let? labels := put_label key value (c_labels cfg) in inl (set_labels labels cfg).

(** The loop over the entries of a map, in the order [kvs]. *)
Fixpoint put_labels (kvs : list (string * string)) (labels : gmap string string)
  : result (gmap string string) :=
  match kvs with
  | [] => inl labels
  | (key, value) :: kvs => let? labels := put_label key value labels in put_labels kvs labels
  end.

(** [range] is the order in which Go ranges over the map. *)
Definition WithLabels (range : gmap string string → list (string * string))
    (labels : gmap string string) : ContainerOption := λ cfg,
  let? l := put_labels (range labels) (c_labels cfg) in inl (set_labels l cfg).

(** [for _, opt := range options], nil options being skipped. *)
Fixpoint apply_options (cfg : config) (options : list (option ContainerOption)) : result config :=
  match options with
  | [] => inl cfg
  | None :: options => apply_options cfg options
  | Some opt :: options => let? cfg := opt cfg in apply_options cfg options
  end.
End Options.

(** ** The manager (manager.go) *)

Record Container := mkContainer {
  ID : string;
  Image : string;
  Host : string;
  ContainerPort : Z;
  Labels : gmap string string
}.

(** The first binding that has a port. *)
Fixpoint first_bound_port (portName : string) (portBindings : list PortBinding) : result Z :=
  match portBindings with
  | [] => inr (EErrorf "no host port found for %s" [AStr portName])
  | binding :: portBindings =>
      if String.eqb (HostPort binding) "" then first_bound_port portName portBindings
      else match ParseInt (HostPort binding) with
           | inr err => inr (EErrorf "parse host port %q: %w" [AStr (HostPort binding); AWrap err])
           | inl port => inl port
           end
  end.

Definition resolveBoundPort `{Network} (containerJSON : InspectResponse) (containerPort : Port) : result Z :=
  match NetworkSettings containerJSON with
  | None => inr (errors_New "container network settings are missing")
  | Some ports =>
      match ports !! containerPort with
      | None | Some [] => inr (EErrorf "no port bindings found for %s" [AStr (Port_String containerPort)])
      | Some portBindings => first_bound_port (Port_String containerPort) portBindings
      end
  end.

Record waitConfig := mkWaitConfig { timeout : Z; delay : Z }.

Definition WaitOption : Type := waitConfig → waitConfig.
Definition WithTimeout (d : Z) : WaitOption := λ cfg, mkWaitConfig d (delay cfg).
Definition WithDelay (d : Z) : WaitOption := λ cfg, mkWaitConfig (timeout cfg) d.

Definition wait_config (opts : list WaitOption) : waitConfig :=
  foldl (λ cfg opt, opt cfg) (mkWaitConfig defaultReadinessTimeout defaultReadinessDelay) opts.

(** ** The multiplexed output of a command *)

Definition streamHeaderSize : nat := 8.
Definition streamStdout : Z := 1.
Definition streamStderr : Z := 2.

Definition byte_val (b : ascii) : Z := Z.of_nat (nat_of_ascii b).

(** [binary.BigEndian.Uint32]. *)
Definition BigEndian_Uint32 (b : bytes) : Z :=
  match b with
  | b0 :: b1 :: b2 :: b3 :: _ =>
      Z.lor (byte_val b3) (Z.lor (Z.shiftl (byte_val b2) 8)
        (Z.lor (Z.shiftl (byte_val b1) 16) (Z.shiftl (byte_val b0) 24)))
  | _ => 0
  end.

Definition stream_dst (stdout stderr : Writer) (streamType : Z) : Writer :=
  if streamType =? streamStdout then stdout
  else if streamType =? streamStderr then stderr
  else io_Discard.

Section Demux.
Context {D : Type} `{Writers D} (stdout stderr : Writer).

(** The rounds of the loop; [fuel] rounds at most. *)
Fixpoint demux_loop (fuel : nat) (r : Stream) : M D unit :=
  match fuel with
  | O => block
  | S fuel =>
      match ReadFull streamHeaderSize r with
      | (inr err, _) => if is_EOF err then mret tt else fail err
      | (inl header, r) =>
          let payloadSize := BigEndian_Uint32 (drop 4 header) in
          let dst := stream_dst stdout stderr (default 0 (byte_val <$> header !! 0%nat)) in
          r ← CopyN dst r (Z.to_nat payloadSize); demux_loop fuel r
      end
  end.

(** Every round but the last reads a header. *)
Definition demuxDockerStream (r : Stream) : M D unit := demux_loop (S (length (unread r))) r.
End Demux.

(** ** The operations *)

Section Manager.
Context {D : Type} `{DockerClient D, Writers D}.

Definition wrap (format : string) (args : list farg) (err : error) : error :=
  EErrorf format (args ++ [AWrap err]).

(** [defer func() { retErr = errors.Join(retErr, reader.Close()) }()] around
    [body]. *)
Definition defer_Close (body : M D unit) : M D unit :=
  retErr ← error_of body;
  closeErr ← error_of (call_ client_PullClose);
  match errors_Join [retErr; closeErr] with None => mret tt | Some err => fail err end.

Definition pullImageIfNotExists (ctx : Context) (imageName : string) (progressWriter : option Writer) : M D unit :=
  r ← error_of (call_ (client_ImageInspect ctx imageName));
  match r with
  | None => mret tt
  | Some err =>
      if negb (errdefs_IsNotFound err) then fail (wrap "inspect image: %w" [] err)
      else
        reader ← wrap_err (wrap "pull image: %w" []) (call (client_ImagePull ctx imageName));
        defer_Close
          (wrap_err (wrap "stream pull output: %w" []) (Copy (default io_Discard progressWriter) reader))
  end.

(** What a container is created with. *)
Definition create_options (cfg : config) (hostIP : Addr) : ContainerCreateOptions :=
  let portBinding :=
    mkPortBinding hostIP (if 0 <? c_hostPort cfg then FormatInt (c_hostPort cfg) else "") in
  mkContainerCreateOptions (c_name cfg) (c_image cfg) (c_envVars cfg) {[c_containerPort cfg]}
    (c_labels cfg) {[c_containerPort cfg := [portBinding]]} (c_autoRemove cfg).

(** Starting the container that has been created and finding its port. *)
Definition start_created (ctx : Context) (cfg : config) (id : string) : M D Container :=
  wrap_err (wrap "start container: %w" []) (call_ (client_ContainerStart ctx id));;
  hostPort ←
    (if c_hostPort cfg =? 0 then
       inspectResult ← wrap_err (wrap "inspect container for port: %w" []) (call (client_ContainerInspect ctx id));
       wrap_err (wrap "resolve host port: %w" []) (of_result (resolveBoundPort inspectResult (c_containerPort cfg)))
     else mret (c_hostPort cfg));
  mret (mkContainer id (c_image cfg) (c_hostIP cfg) hostPort (c_labels cfg)).

(** The deferred removal after a failure; its own error is only logged. *)
Definition remove_failed (ctx : Context) (id : string) (retErr : error) : M D error :=
  catch (call_ (client_ContainerRemove_Force (WithoutCancel ctx) id));; mret retErr.

Definition Start (ctx : Context) (options : list (option ContainerOption)) : M D Container :=
  cfg ← of_result (apply_options (set_pullProgress (Some os_Stderr) defaultConfig) options);
  if String.eqb (c_image cfg) "" then fail (errors_New "image is required")
  else if Port_IsZero (c_containerPort cfg) then fail (errors_New "container port is required")
  else
    wrap_err (wrap "pull image %s: %w" [AStr (c_image cfg)])
      (pullImageIfNotExists ctx (c_image cfg) (c_pullProgress cfg));;
    hostIP ← MustParseAddr (c_hostIP cfg);
    id ← wrap_err (wrap "create container: %w" [])
           (call (client_ContainerCreate ctx (create_options cfg hostIP)));
    on_error (remove_failed ctx id) (start_created ctx cfg id).

Definition Stop (ctx : Context) (containerID : string) : M D unit :=
  wrap_err (wrap "stop container %s: %w" [AStr containerID]) (call_ (client_ContainerStop ctx containerID)).

Definition Remove (ctx : Context) (containerID : string) : M D unit :=
  wrap_err (wrap "remove container %s: %w" [AStr containerID])
    (call_ (client_ContainerRemove_Force ctx containerID)).

Definition ReadinessFunc : Type := Context → option Container → M D unit.

Definition WaitReady `{RetryCtx} (ctx : Context) (container : option Container)
    (readiness : option ReadinessFunc) (opts : list WaitOption) : M D unit :=
  match container, readiness with
  | None, _ => fail (errors_New "container must not be nil")
  | Some _, None => fail (errors_New "readiness function must not be nil")
  | Some c, Some readiness =>
      let cfg := wait_config opts in
      if timeout cfg <=? 0 then fail (EErrorf "timeout must be positive: %v" [AInt (timeout cfg)])
      else
        let retryCtx := WithTimeoutCtx ctx (timeout cfg) in
        wrap_err (wrap "container %s did not become ready within %s: %w" [AStr (ID c); AInt (timeout cfg)])
          (retry_Do_constant retryCtx (delay cfg) (wrap_err ERetryable (readiness retryCtx container)))
  end.

Definition ListManaged (ctx : Context) : M D (list string) :=
  wrap_err (wrap "list managed containers: %w" []) (call (client_ContainerList_All ctx ManagedLabelKey)).

(** [for _, id := range ids { if err := op(id); err != nil { errs = append(errs, err) } }]. *)
Fixpoint collect_errors (op : string → M D unit) (ids : list string) : M D (list error) :=
  match ids with
  | [] => mret []
  | id :: ids =>
      r ← error_of (op id);
      errs ← collect_errors op ids;
      mret (match r with Some err => err :: errs | None => errs end)
  end.

Definition join_errors (errs : list error) : M D unit :=
  match errors_Join (Some <$> errs) with Some err => fail err | None => mret tt end.

Definition StopManaged (ctx : Context) : M D unit :=
  ids ← wrap_err (wrap "list containers for stop: %w" []) (ListManaged ctx);
  errs ← collect_errors (Stop ctx) ids; join_errors errs.

Definition RemoveManaged (ctx : Context) : M D unit :=
  ids ← wrap_err (wrap "list containers for remove: %w" []) (ListManaged ctx);
  errs ← collect_errors (Remove ctx) ids; join_errors errs.

Record ExecOptions := mkExecOptions {
  x_Cmd : list string;
  x_Env : list string;
  x_Stdout : option Writer;
  x_Stderr : option Writer
}.

(** [defer attachResp.Close()]. *)
Definition defer_AttachClose {A} (body : M D A) : M D A := λ d,
  match body d with (Block, d') => (Block, d') | (r, d') => (r, client_AttachClose d') end.

(** The exit code of the command. *)
Definition Exec (ctx : Context) (containerID : string) (opts : ExecOptions) : M D Z :=
  match x_Cmd opts with
  | [] => fail (errors_New "cmd must not be empty")
  | _ =>
      let stdout := default io_Discard (x_Stdout opts) in
      let stderr := default io_Discard (x_Stderr opts) in
      execID ← wrap_err (wrap "exec create: %w" [])
        (call (client_ExecCreate ctx containerID (mkExecCreateOptions (x_Cmd opts) (x_Env opts) true true)));
      reader ← wrap_err (wrap "exec attach: %w" []) (call (client_ExecAttach ctx execID));
      defer_AttachClose
        (wrap_err (wrap "exec stream: %w" []) (demuxDockerStream stdout stderr reader);;
         wrap_err (wrap "exec inspect: %w" []) (call (client_ExecInspect ctx execID)))
  end.

Definition Close : M D unit := call_ client_Close.
End Manager.
