(* ===== verification/DockerStream.v ===== *)
(** * The output of a command (pkg/dockermanage)

    The frames of Docker's multiplexed stream with their encoding, and what
    [demuxDockerStream] does with complete and truncated streams. *)

From S2P Require Import Prelude GoStrings Effects Netip DockerClient DockerManage.

(** ** Big-endian numbers *)

Definition byte_of (z : Z) : ascii := ascii_of_nat (Z.to_nat (z mod 256)).

Lemma byte_val_bound b : 0 ≤ byte_val b < 256.
Proof. unfold byte_val. pose proof (nat_ascii_bounded b). lia. Qed.

Lemma byte_val_of z : byte_val (byte_of z) = z mod 256.
Proof.
  unfold byte_val, byte_of. pose proof (Z.mod_pos_bound z 256 eq_refl).
  rewrite nat_ascii_embedding by lia. lia.
Qed.

Lemma byte_of_val b : byte_of (byte_val b) = b.
Proof.
  unfold byte_of. rewrite Z.mod_small by apply byte_val_bound. unfold byte_val.
  rewrite Nat2Z.id. apply ascii_nat_embedding.
Qed.

Lemma lor_shiftl a b k : 0 ≤ k → 0 ≤ a < 2 ^ k → Z.lor a (Z.shiftl b k) = a + b * 2 ^ k.
Proof.
  intros Hk Ha. assert (Z.land a (Z.shiftl b k) = 0) as Hl.
  { apply Z.bits_inj'. intros i Hi. rewrite Z.land_spec, Z.bits_0, Z.shiftl_spec by done.
    destruct (decide (i < k)); [by rewrite (Z.testbit_neg_r b), andb_false_r by lia|].
    rewrite <- (Z.mod_small a (2 ^ k)) by done. by rewrite Z.mod_pow2_bits_high by lia. }
  rewrite <- Z.lxor_lor, <- Z.add_nocarry_lxor by done. by rewrite Z.shiftl_mul_pow2.
Qed.

(** The value of the four bytes. *)
Lemma BigEndian_Uint32_sum b0 b1 b2 b3 l :
  BigEndian_Uint32 (b0 :: b1 :: b2 :: b3 :: l) =
  byte_val b3 + byte_val b2 * 2 ^ 8 + byte_val b1 * 2 ^ 16 + byte_val b0 * 2 ^ 24.
Proof.
  cbn [BigEndian_Uint32].
  replace (Z.shiftl (byte_val b1) 16) with (Z.shiftl (Z.shiftl (byte_val b1) 8) 8) by (by rewrite Z.shiftl_shiftl).
  replace (Z.shiftl (byte_val b0) 24) with (Z.shiftl (Z.shiftl (Z.shiftl (byte_val b0) 8) 8) 8)
    by (by rewrite !Z.shiftl_shiftl).
  rewrite <- !Z.shiftl_lor. pose proof (byte_val_bound b0). pose proof (byte_val_bound b1).
  pose proof (byte_val_bound b2). pose proof (byte_val_bound b3).
  rewrite !lor_shiftl by lia. lia.
Qed.

Lemma BigEndian_Uint32_bound b : 0 ≤ BigEndian_Uint32 b < 2 ^ 32.
Proof.
  destruct b as [|b0 [|b1 [|b2 [|b3 l]]]]; [done..|]. rewrite BigEndian_Uint32_sum.
  pose proof (byte_val_bound b0). pose proof (byte_val_bound b1).
  pose proof (byte_val_bound b2). pose proof (byte_val_bound b3). lia.
Qed.

(** [binary.BigEndian.PutUint32]. *)
Definition put_Uint32 (n : Z) : bytes :=
  [byte_of (n / 2 ^ 24); byte_of (n / 2 ^ 16); byte_of (n / 2 ^ 8); byte_of n].

Lemma Uint32_put n l : 0 ≤ n < 2 ^ 32 → BigEndian_Uint32 (put_Uint32 n ++ l) = n.
Proof.
  intros Hn. unfold put_Uint32. cbn [app]. rewrite BigEndian_Uint32_sum, !byte_val_of.
  change (2 ^ 24) with 16777216. change (2 ^ 16) with 65536. change (2 ^ 8) with 256.
  change (2 ^ 32) with 4294967296 in Hn. Z.to_euclidean_division_equations. lia.
Qed.

Lemma put_Uint32_of b0 b1 b2 b3 : put_Uint32 (BigEndian_Uint32 [b0; b1; b2; b3]) = [b0; b1; b2; b3].
Proof.
  rewrite BigEndian_Uint32_sum. unfold put_Uint32.
  pose proof (byte_val_bound b0). pose proof (byte_val_bound b1).
  pose proof (byte_val_bound b2). pose proof (byte_val_bound b3).
  set (n := _ + _ + _ + _).
  assert (∀ b z, z mod 256 = byte_val b → byte_of z = b) as Hb.
  { intros b z Hz. unfold byte_of. rewrite Hz. rewrite <- (Z.mod_small (byte_val b) 256) by apply byte_val_bound.
    apply byte_of_val. }
  change (2 ^ 24) with 16777216 in *. change (2 ^ 16) with 65536 in *. change (2 ^ 8) with 256 in *.
  repeat f_equal; apply Hb; unfold n; Z.to_euclidean_division_equations; lia.
Qed.

(** ** Frames *)

(** A frame: its stream, three bytes of padding and the payload. *)
Record Frame := mkFrame { f_stream : ascii; f_padding : bytes; f_payload : bytes }.

Definition frame_ok (f : Frame) : Prop :=
  length (f_padding f) = 3%nat ∧ Z.of_nat (length (f_payload f)) < 2 ^ 32.

Definition frame_header (f : Frame) : bytes :=
  f_stream f :: f_padding f ++ put_Uint32 (Z.of_nat (length (f_payload f))).

Definition encode_frame (f : Frame) : bytes := frame_header f ++ f_payload f.
Definition encode_frames (fs : list Frame) : bytes := fs ≫= encode_frame.

Lemma length_frame_header f : frame_ok f → length (frame_header f) = 8%nat.
Proof. intros [Hp _]. unfold frame_header. cbn. rewrite length_app, Hp. done. Qed.

Lemma header_size f : frame_ok f →
  BigEndian_Uint32 (drop 4 (frame_header f)) = Z.of_nat (length (f_payload f)).
Proof.
  intros [Hp Hl]. unfold frame_header. destruct (f_padding f) as [|a [|b [|c [|]]]]; try done.
  cbn [app drop]. rewrite <- (app_nil_r (put_Uint32 _)). apply Uint32_put. lia.
Qed.

(** Eight bytes are a header. *)
Lemma header_frame h payload :
  length h = 8%nat → BigEndian_Uint32 (drop 4 h) = Z.of_nat (length payload) →
  ∃ f, frame_ok f ∧ frame_header f = h ∧ f_payload f = payload.
Proof.
  intros Hh Hn. do 8 (destruct h as [|? h]; [done|]). destruct h; [|done]. cbn [drop] in Hn.
  eexists (mkFrame _ [_; _; _] payload). split_and!; [split; [done|]|unfold frame_header; cbn|done].
  - cbn. rewrite <- Hn. apply BigEndian_Uint32_bound.
  - by rewrite <- Hn, put_Uint32_of.
Qed.

Section Demux.
Context {D : Type} `{Writers D} (stdout stderr : Writer).

Abbreviation dst f := (stream_dst stdout stderr (byte_val (f_stream f))).
Abbreviation demux_loop := (demux_loop stdout stderr).
Abbreviation demuxDockerStream := (demuxDockerStream stdout stderr).

(** What a frame stands for: one write of its payload. *)
Definition write_frame (f : Frame) : M D unit := Write (dst f) (f_payload f).

Lemma ReadFull_header f rest e : frame_ok f →
  ReadFull streamHeaderSize (mkStream (encode_frame f ++ rest) e) =
  (inl (frame_header f), mkStream (f_payload f ++ rest) e).
Proof.
  intros Hf. pose proof (length_frame_header f Hf) as Hl. unfold ReadFull, encode_frame, streamHeaderSize.
  cbn [unread at_end]. rewrite <- app_assoc, <- Hl, take_app_length, drop_app_length, Nat.eqb_refl. done.
Qed.

(** One round on a complete frame. *)
Lemma demux_frame fuel f rest e d : frame_ok f →
  demux_loop (S fuel) (mkStream (encode_frame f ++ rest) e) d =
  (write_frame f;; demux_loop fuel (mkStream rest e)) d.
Proof.
  intros Hf. cbn [DockerManage.demux_loop]. rewrite ReadFull_header by done. rewrite header_size by done.
  cbn [frame_header lookup list_lookup]. unfold CopyN. cbn [unread at_end].
  rewrite Nat2Z.id, take_app_length, drop_app_length, Nat.eqb_refl.
  unfold write_frame. rewrite !bind_eq. cbn [fmap option_fmap option_map default from_option].
  destruct (Write _ _ d) as [[[]| | |] d1]; done.
Qed.

(** More rounds than there are bytes change nothing. *)
Lemma demux_fuel n m r d :
  (length (unread r) < n)%nat → (length (unread r) < m)%nat → demux_loop n r d = demux_loop m r d.
Proof.
  revert m r d. induction n as [|n IH]; intros m r d Hn Hm; [lia|]. destruct m as [|m]; [lia|]. cbn [DockerManage.demux_loop].
  unfold ReadFull.
  destruct (length (take streamHeaderSize (unread r)) =? streamHeaderSize)%nat eqn:Hfull;
    [|by destruct (at_end r)].
  apply Nat.eqb_eq in Hfull. rewrite length_take in Hfull. change streamHeaderSize with 8%nat in Hfull.
  rewrite !bind_eq. unfold CopyN. rewrite bind_eq. destruct (Write _ _ d) as [[[]| | |] d1]; try done.
  destruct (_ =? _)%nat; [|done]. cbn [mret M_ret].
  apply IH; cbn [unread]; rewrite !length_drop; change streamHeaderSize with 8%nat; lia.
Qed.

Lemma demux_frames fuel fs rest e d : Forall frame_ok fs →
  (length (encode_frames fs ++ rest) < fuel)%nat →
  demux_loop fuel (mkStream (encode_frames fs ++ rest) e) d =
  (mfor write_frame fs;; demuxDockerStream (mkStream rest e)) d.
Proof.
  intros Hfs. revert fuel d. induction Hfs as [|f fs Hf Hfs IH]; intros fuel d Hfuel.
  - change (demux_loop fuel (mkStream rest e) d = demuxDockerStream (mkStream rest e) d).
    unfold DockerManage.demuxDockerStream. apply demux_fuel; cbn in *; lia.
  - cbn [encode_frames mbind list_bind] in *. rewrite <- app_assoc in *.
    destruct fuel as [|fuel]; [lia|]. rewrite demux_frame by done. cbn [mfor]. rewrite !bind_eq.
    destruct (write_frame f d) as [[[]| | |] d1]; try done. apply IH.
    rewrite length_app in Hfuel. unfold encode_frames. unfold encode_frame in Hfuel at 1.
    rewrite length_app, length_frame_header in Hfuel by done. lia.
Qed.
(** ** What is left after the last complete frame *)

(** Less than a header, or a header with less than its payload. *)
Definition is_tail (tail : bytes) : Prop :=
  (length tail < 8)%nat ∨
  ∃ h p, tail = h ++ p ∧ length h = 8%nat ∧ Z.of_nat (length p) < BigEndian_Uint32 (drop 4 h).

(** At the end of the stream: nothing is left, or a part of a header, or a
    part of a frame, whose payload so far is delivered. *)
Definition demux_tail (tail : bytes) (e : option error) : M D unit :=
  if (length tail =? 0)%nat then match e with None => mret tt | Some e => fail e end
  else if (length tail <? 8)%nat then fail (default (ESentinel io_ErrUnexpectedEOF) e)
  else
    Write (stream_dst stdout stderr (default 0 (byte_val <$> tail !! 0%nat))) (drop 8 tail);;
    fail (default (ESentinel io_EOF) e).

Lemma demux_end tail e d : is_tail tail → e ≠ Some (ESentinel io_EOF) →
  demuxDockerStream (mkStream tail e) d = demux_tail tail e d.
Proof.
  intros Ht He. unfold DockerManage.demuxDockerStream, demux_tail. cbn [DockerManage.demux_loop unread].
  unfold ReadFull. cbn [unread at_end]. rewrite length_take. change streamHeaderSize with 8%nat.
  assert (∀ e', e = Some e' → is_EOF e' = false) as Heof.
  { intros e' ->. destruct e' as [s| | | | |]; try done. unfold is_EOF. apply bool_decide_eq_false_2. congruence. }
  destruct Ht as [Ht|(h & p & -> & Hh & Hp)].
  - rewrite Nat.min_r by lia. destruct (Nat.eqb_spec (length tail) 8); [lia|].
    apply Nat.ltb_lt in Ht. rewrite Ht. destruct e as [e|]; [by rewrite (Heof e), Tauto.if_same|].
    by destruct (length tail =? 0)%nat.
  - rewrite length_app, Hh, Nat.min_l by lia. rewrite (proj2 (Nat.ltb_ge (8 + length p) 8)) by lia.
    cbn [Nat.eqb plus].
    rewrite <- Hh, take_app_length, drop_app_length.
    unfold CopyN. cbn [unread at_end].
    rewrite take_ge by lia. destruct (Nat.eqb_spec (length p) (Z.to_nat (BigEndian_Uint32 (drop 4 h)))); [lia|].
    rewrite !bind_eq. replace ((h ++ p) !! 0%nat) with (h !! 0%nat) by (by destruct h).
    by destruct (Write _ _ d) as [[[]| | |] d1].
Qed.

(** Every sequence of bytes is complete frames and a tail. *)
Lemma split_frames l : ∃ fs tail, Forall frame_ok fs ∧ l = encode_frames fs ++ tail ∧ is_tail tail.
Proof.
  induction l as [l IH] using (induction_ltof1 _ (@length _)). unfold ltof in IH.
  destruct (decide (length l < 8)%nat) as [Hl|Hl]; [exists [], l; split_and!; [done|done|by left]|].
  set (h := take 8 l). set (p := drop 8 l). assert (length h = 8%nat) as Hh by (unfold h; rewrite length_take; lia).
  assert (l = h ++ p) as Hhp by (by unfold h, p; rewrite take_drop).
  pose proof (BigEndian_Uint32_bound (drop 4 h)) as Hb. set (n := BigEndian_Uint32 (drop 4 h)) in *.
  destruct (decide (Z.of_nat (length p) < n)) as [Hp|Hp]; [exists [], l; split_and!; [done|done|]|].
  { right. by exists h, p. }
  destruct (header_frame h (take (Z.to_nat n) p)) as (f & Hf & Hfh & Hfp); [done|rewrite length_take; lia|].
  destruct (IH (drop (Z.to_nat n) p)) as (fs & tail & Hfs & Hrest & Ht).
  { rewrite length_drop. rewrite Hhp, length_app. lia. }
  exists (f :: fs), tail. split_and!; [by constructor| |done]. 
  change (encode_frames (f :: fs)) with (encode_frame f ++ encode_frames fs).
  rewrite <- app_assoc, <- Hrest. unfold encode_frame. by rewrite Hfh, Hfp, <- app_assoc, take_drop.
Qed.


(** The demultiplexer inverts Docker's framing: on the frames of a
    sequence of writes it performs exactly these writes, and it succeeds on
    nothing else, so a truncated stream is never taken for a complete one. *)
Theorem demuxDockerStream_frames l d d' :
  demuxDockerStream (mkStream l None) d = (Ok tt, d') ↔
  ∃ fs, Forall frame_ok fs ∧ l = encode_frames fs ∧ mfor write_frame fs d = (Ok tt, d').
Proof.
  split.
  - intros Hd. destruct (split_frames l) as (fs & tail & Hfs & -> & Ht). exists fs.
    unfold DockerManage.demuxDockerStream in Hd. rewrite demux_frames in Hd by (done || cbn; lia).
    run_inv. rewrite demux_end in H1 by done. unfold demux_tail in H1. destruct tail as [|b tail]; cbn in H1.
    + rewrite app_nil_r. destruct x. injection H1 as ->. done.
    + case_match; [done|]. run_inv.
  - intros (fs & Hfs & -> & Hm). rewrite <- (app_nil_r (encode_frames fs)).
    unfold DockerManage.demuxDockerStream. rewrite demux_frames by (done || cbn; lia).
    by rewrite bind_eq, Hm.
Qed.
End Demux.
