(* ===== verification/DockerSpec.v ===== *)
(** * Correctness of pkg/dockermanage

    The options and their invariant, what a started container is, that a failed
    start leaves no container behind, the operations on all managed containers,
    and waiting for a container. *)

From S2P Require Import Prelude GoStrings Effects Netip DockerClient DockerManage.

#[local] Arguments TrimSpace : simpl never.

(** ** Options *)

(** A map is ranged over in some order. *)
Definition labels_range_ok (range : gmap string string → list (string * string)) : Prop :=
  ∀ m, range m ≡ₚ map_to_list m.

Section Options.
Context `{Network}.

(** The options: their interface has an unexported method, so there are no
    others. *)
Inductive is_option : ContainerOption → Prop :=
  | is_WithName n : is_option (WithName n)
  | is_WithImage i : is_option (WithImage i)
  | is_WithContainerPort p : is_option (WithContainerPort p)
  | is_WithContainerPortTCP p : is_option (WithContainerPortTCP p)
  | is_WithHostIP h : is_option (WithHostIP h)
  | is_WithHostPort p : is_option (WithHostPort p)
  | is_WithEnv k v : is_option (WithEnv k v)
  | is_WithEnvVars l : is_option (WithEnvVars l)
  | is_WithAutoRemove b : is_option (WithAutoRemove b)
  | is_WithPullProgress w : is_option (WithPullProgress w)
  | is_WithLabel k v : is_option (WithLabel k v)
  | is_WithLabels range m : is_option (WithLabels range m).

(** What every configuration satisfies: the container is marked as managed,
    names and labels are trimmed, ports fit in 16 bits. *)
Record config_ok (cfg : config) : Prop := {
  ok_managed : is_Some (c_labels cfg !! ManagedLabelKey);
  ok_labels : map_Forall (λ k _, k ≠ "" ∧ TrimSpace k = k) (c_labels cfg);
  ok_name : TrimSpace (c_name cfg) = c_name cfg;
  ok_image : TrimSpace (c_image cfg) = c_image cfg;
  ok_hostIP : c_hostIP cfg ≠ "" ∧ TrimSpace (c_hostIP cfg) = c_hostIP cfg;
  ok_hostPort : 0 ≤ c_hostPort cfg ≤ 65535
}.

Lemma defaultConfig_ok : config_ok defaultConfig.
Proof.
  split; [by exists ""| |done|done|done|cbn; lia].
  unfold defaultConfig, c_labels. apply map_Forall_singleton. by vm_compute.
Qed.

Definition labels_ok (m : gmap string string) : Prop :=
  is_Some (m !! ManagedLabelKey) ∧ map_Forall (λ k _, k ≠ "" ∧ TrimSpace k = k) m.

Lemma put_label_ok key value m m' : put_label key value m = inl m' → labels_ok m → labels_ok m'.
Proof.
  unfold put_label. destruct (String.eqb_spec (TrimSpace key) ""); [done|]. intros [= <-] [Hm Hk]. split.
  - rewrite lookup_insert_is_Some. destruct (decide (TrimSpace key = ManagedLabelKey)); auto.
  - apply map_Forall_insert_2; [|done]. split; [done|apply TrimSpace_idemp].
Qed.

Lemma put_labels_ok kvs m m' : put_labels kvs m = inl m' → labels_ok m → labels_ok m'.
Proof.
  revert m. induction kvs as [|[k v] kvs IH]; intros m; cbn; [by intros [= <-]|].
  destruct (put_label k v m) as [m1|e] eqn:Hp; [|done]. cbn. intros Hk Hm. eapply IH; [exact Hk|].
  by eapply put_label_ok.
Qed.

Lemma option_ok opt cfg cfg' : is_option opt → opt cfg = inl cfg' → config_ok cfg → config_ok cfg'.
Proof.
  intros Hopt Ho [H1 H2 H3 H4 H5 H6]. assert (labels_ok (c_labels cfg)) as Hl by done.
  destruct Hopt; unfold WithName, WithImage, WithContainerPort, WithContainerPortTCP, WithHostIP,
    WithHostPort, WithEnv, WithEnvVars, WithAutoRemove, WithPullProgress, WithLabel, WithLabels in Ho;
    cbn zeta in Ho; destruct cfg; cbn in *.
  all: try (case_match eqn:Hcase; [done|]); zify_bool.
  all: try (destruct (put_label _ _ _) as [l'|] eqn:Hp; [|done]; apply put_label_ok in Hp as [? ?]; [|done]).
  all: try (destruct (put_labels _ _) as [l'|] eqn:Hp; [|done]; apply put_labels_ok in Hp as [? ?]; [|done]).
  all: repeat (case_match; try done); simplify_eq/=.
  all: repeat match goal with Heq : String.eqb _ _ = false |- _ => apply String.eqb_neq in Heq end.
  all: split; cbn; auto using TrimSpace_idemp.
  all: try lia.
Qed.

(** Whatever options a container is configured with, in any order, the
    configuration is either refused or well formed: it carries the label that
    marks containers of this package, its labels, name, image and address are
    trimmed and not empty where they must not be, and its port has 16 bits. *)
Theorem container_options_ok options cfg :
  Forall (λ o, ∀ opt, o = Some opt → is_option opt) options →
  apply_options defaultConfig options = inl cfg → config_ok cfg.
Proof.
  generalize defaultConfig_ok. generalize defaultConfig as c.
  induction options as [|[opt|] options IH]; intros c Hc; cbn; [by intros _ [= <-]| |].
  - intros [Ho Hos]%Forall_cons. destruct (opt c) as [c'|e] eqn:Hopt; [|done]. cbn.
    intros Ha. eapply IH; [|exact Hos|exact Ha]. eapply option_ok; [by apply Ho|done|done].
  - intros [_ Hos]%Forall_cons. by apply IH.
Qed.
End Options.

(** ** The manager *)

Section Manager.
Context {D : Type} `{Network, !DockerClient D, !Writers D} (containers : D → Containers)
  `{!DockerLaws D containers}.

(** A run during which at most containers that remove themselves disappear. *)
Definition quiet (d d' : D) : Prop := exits (containers d) (containers d').

#[local] Instance quiet_preorder : PreOrder quiet.
Proof. unfold quiet. split; [by intros d|]. intros d1 d2 d3 H1 H2. by etrans. Qed.

Lemma moves_call {A} (f : D → result A * D) : (∀ d, quiet d (f d).2) → Moves quiet (call f).
Proof. intros Hf d. specialize (Hf d). unfold call. by destruct (f d) as [[] ?]. Qed.

Lemma moves_call_ (f : D → option error * D) : (∀ d, quiet d (f d).2) → Moves quiet (call_ f).
Proof. intros Hf d. specialize (Hf d). unfold call_. by destruct (f d) as [[] ?]. Qed.

Lemma moves_Write w p : Moves quiet (Write w p).
Proof.
  intros d. unfold Write. pose proof (write_law w p d) as Hw.
  destruct w, p; cbn; try done; by destruct (write_bytes _ _ d) as [[] ?].
Qed.

Lemma moves_start ctx id : Moves quiet (call_ (client_ContainerStart ctx id)).
Proof. apply moves_call_, start_law. Qed.
Lemma moves_stop ctx id : Moves quiet (call_ (client_ContainerStop ctx id)).
Proof. apply moves_call_, stop_law. Qed.
Lemma moves_inspect ctx id : Moves quiet (call (client_ContainerInspect ctx id)).
Proof. apply moves_call, inspect_law. Qed.
Lemma moves_image_inspect ctx i : Moves quiet (call_ (client_ImageInspect ctx i)).
Proof. apply moves_call_, image_inspect_law. Qed.
Lemma moves_image_pull ctx i : Moves quiet (call (client_ImagePull ctx i)).
Proof. apply moves_call, image_pull_law. Qed.
Lemma moves_pull_close : Moves quiet (call_ client_PullClose).
Proof. apply moves_call_, pull_close_law. Qed.

#[local] Hint Resolve moves_Write moves_start moves_stop moves_inspect moves_image_inspect
  moves_image_pull moves_pull_close : moves.

Lemma moves_pull ctx i w : Moves quiet (pullImageIfNotExists ctx i w).
Proof. unfold pullImageIfNotExists, defer_Close, Copy. moves. Qed.

Lemma moves_start_created ctx cfg id : Moves quiet (start_created ctx cfg id).
Proof. unfold start_created. moves. Qed.

Lemma moves_Stop ctx id : Moves quiet (Stop ctx id).
Proof. unfold Stop. moves. Qed.

(** Every operation returns. *)
Lemma no_panic_call {A} (f : D → result A * D) : NoPanic (call f).
Proof. intros d. unfold call. by destruct (f d) as [[] ?]. Qed.

Lemma no_panic_call_ (f : D → option error * D) : NoPanic (call_ f).
Proof. intros d. unfold call_. by destruct (f d) as [[] ?]. Qed.

Lemma no_panic_Write w p : NoPanic (Write w p).
Proof. intros d. unfold Write. destruct w, p; cbn; try done; by destruct (write_bytes _ _ d) as [[] ?]. Qed.

Lemma runs_call {A} (f : D → result A * D) : Runs (λ _, True) (call f).
Proof. intros d. unfold call. by destruct (f d) as [[] ?]. Qed.

Lemma runs_call_ (f : D → option error * D) : Runs (λ _, True) (call_ f).
Proof. intros d. unfold call_. by destruct (f d) as [[] ?]. Qed.

Lemma runs_Write w p : Runs (λ _, True) (Write w p).
Proof. intros d. unfold Write. destruct w, p; cbn; try done; by destruct (write_bytes _ _ d) as [[] ?]. Qed.

#[local] Hint Resolve no_panic_call no_panic_call_ no_panic_Write : nopanic.
#[local] Hint Resolve runs_call runs_call_ runs_Write : runs.

Definition returns_ {A} (r : outcome A) : Prop := match r with Ok _ | Err _ => True | _ => False end.

Lemma returns_intro {A} (m : M D A) d : NoPanic m → Runs (λ _, True) m → returns_ (m d).1.
Proof.
  intros Hp Hr. specialize (Hp d). destruct (Hr d I) as [Hb _]. by destruct (m d) as [[] ?].
Qed.

Lemma pull_returns ctx i w d : returns_ (pullImageIfNotExists ctx i w d).1.
Proof.
  apply returns_intro; unfold pullImageIfNotExists, defer_Close, Copy; [no_panic|runs].
Qed.

Lemma start_created_returns ctx cfg id d : returns_ (start_created ctx cfg id d).1.
Proof. apply returns_intro; unfold start_created; [no_panic|runs]. Qed.

(** What [start_created] returns. *)
Lemma start_created_ok ctx cfg id d c d' :
  start_created ctx cfg id d = (Ok c, d') →
  ID c = id ∧ Image c = c_image cfg ∧ Host c = c_hostIP cfg ∧ Labels c = c_labels cfg ∧
  (c_hostPort cfg ≠ 0 → ContainerPort c = c_hostPort cfg).
Proof.
  unfold start_created. intros Hs. run_inv. split_and!; try done. intros Hp.
  case_match eqn:Hz; [by apply Z.eqb_eq in Hz|]. by run_inv.
Qed.

(** A container [id] was created during the run. *)
Definition created (id : string) (o : ContainerCreateOptions) (d d' : D) : Prop :=
  ∃ m, exits (containers d) m ∧ m !! id = None ∧ exits (<[id := o]> m) (containers d').

(** What a call of [Start] does: the container it returns was created as
    configured; if it fails no container is left, unless it could not be
    removed either. *)
Definition start_outcome (ctx : Context) (options : list (option ContainerOption)) (d : D)
    (r : outcome Container) (d' : D) : Prop :=
  match r with
  | Ok c => ∃ cfg a, apply_options (set_pullProgress (Some os_Stderr) defaultConfig) options = inl cfg ∧
      ParseAddr (c_hostIP cfg) = inl a ∧ created (ID c) (create_options cfg a) d d' ∧
      Image c = c_image cfg ∧ Host c = c_hostIP cfg ∧ Labels c = c_labels cfg ∧
      (c_hostPort cfg ≠ 0 → ContainerPort c = c_hostPort cfg)
  | Err _ => quiet d d' ∨ ∃ id o d1 e, created id o d d' ∧
      client_ContainerRemove_Force (WithoutCancel ctx) id d1 = (Some e, d')
  | Panic _ => quiet d d' ∧ ∃ cfg e,
      apply_options (set_pullProgress (Some os_Stderr) defaultConfig) options = inl cfg ∧
      ParseAddr (c_hostIP cfg) = inr e
  | Block => False
  end.

(** The part of [Start] after the container has been created. *)
Lemma created_outcome ctx cfg id o d d1 r d' :
  containers d !! id = None → exits (<[id := o]> (containers d)) (containers d1) →
  on_error (remove_failed ctx id) (start_created ctx cfg id) d1 = (r, d') →
  match r with
  | Ok c => start_created ctx cfg id d1 = (Ok c, d') ∧ exits (<[id := o]> (containers d)) (containers d')
  | Err _ => quiet d d' ∨ ∃ d2 e, client_ContainerRemove_Force (WithoutCancel ctx) id d2 = (Some e, d') ∧
      exits (<[id := o]> (containers d)) (containers d')
  | _ => False
  end.
Proof.
  intros Hid Hd1. unfold on_error, remove_failed. pose proof (moves_start_created ctx cfg id d1) as Hm.
  pose proof (start_created_returns ctx cfg id d1) as Hr. unfold quiet in Hm.
  destruct (start_created ctx cfg id d1) as [[c|e|s|] d2]; try done; cbn in *.
  - intros [= <- <-]. split; [done|]. by etrans.
  - unfold mbind, M_bind, catch, call_. pose proof (remove_law (WithoutCancel ctx) id d2) as Hrm.
    destruct (client_ContainerRemove_Force (WithoutCancel ctx) id d2) as [[e'|] d3] eqn:Hre; cbn;
      intros [= <- <-].
    + right. exists d2, e'. split; [done|]. do 2 (etrans; [eassumption|]). done.
    + left. unfold quiet. etrans; [|exact Hrm]. etrans; [|by apply exits_delete].
      etrans; [|by apply exits_delete]. by rewrite delete_insert_id.
Qed.

Lemma Start_outcome ctx options d r d' : Start ctx options d = (r, d') → start_outcome ctx options d r d'.
Proof.
  unfold Start. rewrite bind_eq. unfold of_result.
  destruct (apply_options _ options) as [cfg|e] eqn:Ho; [|intros [= <- <-]; by left].
  case_match; [intros [= <- <-]; by left|]. case_match; [intros [= <- <-]; by left|].
  rewrite bind_eq, wrap_err_eq. pose proof (moves_pull ctx (c_image cfg) (c_pullProgress cfg) d) as Hm.
  pose proof (pull_returns ctx (c_image cfg) (c_pullProgress cfg) d) as Hr.
  destruct (pullImageIfNotExists _ _ _ d) as [[[]|e|s|] d1]; try done; cbn in Hm;
    [|intros [= <- <-]; by left].
  rewrite bind_eq. unfold MustParseAddr. destruct (ParseAddr (c_hostIP cfg)) as [a|e] eqn:Hp;
    [|intros [= <- <-]; split; [done|by exists cfg, e]].
  cbn [mret M_ret]. rewrite bind_eq, wrap_err_eq. unfold call at 1.
  pose proof (create_law ctx (create_options cfg a) d1) as Hc.
  destruct (client_ContainerCreate ctx _ d1) as [[id|e] d2]; [|intros [= <- <-]; left; unfold quiet; by etrans].
  destruct Hc as [Hid Hc]. intros Hs. apply (created_outcome ctx cfg id _ d1 d2 r d' Hid Hc) in Hs.
  assert (Hcr : ∀ d', exits (<[id := create_options cfg a]> (containers d1)) (containers d') →
    created id (create_options cfg a) d d') by (intros; by exists (containers d1)).
  destruct r as [c|e|s|]; cbn; [| |done|done].
  - destruct Hs as [Hs He]. apply start_created_ok in Hs as (<- & ? & ? & ? & ?).
    exists cfg, a. split_and!; auto.
  - destruct Hs as [Hq|(d3 & e' & Hr' & He)]; [left; unfold quiet; by etrans|].
    right. exists id, (create_options cfg a), d3, e'. auto.
Qed.


(** [WithHostIP] accepts any name, but [Start] requires an address: with a
    host name such as localhost it panics, after it has looked for the image,
    where every other bad option is an error. *)
Theorem WithHostIP_panics ctx image port p h d d1 :
  TrimSpace image ≠ "" → 1 ≤ port ≤ 65535 → PortFrom port "tcp" = Some p → p ≠ Port_zero →
  TrimSpace h ≠ "" → lacks "." (TrimSpace h) = true → lacks ":" (TrimSpace h) = true →
  lacks "%" (TrimSpace h) = true → client_ImageInspect ctx (TrimSpace image) d = (None, d1) →
  Start ctx [Some (WithImage image); Some (WithContainerPortTCP port); Some (WithHostIP h)] d =
    (Panic "netip: ParseAddr", d1).
Proof.
  intros Hi Hp Hport Hz Hh H1 H2 H3 Hins. destruct (ParseAddr_host_name _ H1 H2 H3) as [e He].
  unfold Start, WithImage, WithContainerPortTCP, WithHostIP. cbn [apply_options].
  destruct (String.eqb_spec (TrimSpace image) ""); [done|]. destruct (Z.leb_spec port 0); [lia|].
  destruct (Z.ltb_spec 65535 port); [lia|]. rewrite Z.mod_small by lia. cbn [orb rbind]. rewrite Hport.
  destruct (String.eqb_spec (TrimSpace h) ""); [done|]. rewrite bind_eq. cbn -[TrimSpace].
  destruct (String.eqb_spec (TrimSpace image) ""); [done|]. unfold Port_IsZero. rewrite bool_decide_eq_false_2 by done.
  rewrite bind_eq, wrap_err_eq. unfold pullImageIfNotExists. rewrite bind_eq, error_of_run. unfold call_.
  rewrite Hins. cbn [mret M_ret]. unfold MustParseAddr. by rewrite bind_eq, He.
Qed.

(** ** All managed containers *)

Definition managed (o : ContainerCreateOptions) : Prop := is_Some (co_Labels o !! ManagedLabelKey).

Lemma ListManaged_run ctx d :
  match ListManaged ctx d with
  | (Ok ids, d') => quiet d d' ∧ ∀ id, id ∈ ids ↔ ∃ o, containers d' !! id = Some o ∧ managed o
  | (Err _, d') => quiet d d'
  | _ => False
  end.
Proof.
  unfold ListManaged, wrap_err, call. pose proof (list_law ctx ManagedLabelKey d) as Hl.
  by destruct (client_ContainerList_All ctx ManagedLabelKey d) as [[ids|e] d'].
Qed.

Lemma Remove_run ctx id d :
  match Remove ctx id d with
  | (Ok _, d') => exits (delete id (containers d)) (containers d')
  | (Err e, d') => quiet d d' ∧ ∃ e0, e = wrap "remove container %s: %w" [AStr id] e0
  | _ => False
  end.
Proof.
  unfold Remove, wrap_err, call_. pose proof (remove_law ctx id d) as Hl.
  destruct (client_ContainerRemove_Force ctx id d) as [[e|] d']; [|done]. split; [done|by exists e].
Qed.

(** The removals: every error names its container, and what is not named is
    gone. *)
Lemma collect_removals ctx ids d :
  ∃ errs d', collect_errors (Remove ctx) ids d = (Ok errs, d') ∧
    (∀ id, id ∈ ids → containers d' !! id = None ∨
       ∃ e, wrap "remove container %s: %w" [AStr id] e ∈ errs) ∧
    containers d' ⊆ containers d ∧
    (∀ id o, id ∉ ids → containers d !! id = Some o →
       containers d' !! id = Some o ∨ co_AutoRemove o = true).
Proof.
  revert d. induction ids as [|id ids IH]; intros d; cbn.
  { exists [], d. split_and!; [done|by intros ? ?%elem_of_nil|done|by left]. }
  rewrite bind_eq, error_of_run. pose proof (Remove_run ctx id d) as Hr.
  destruct (Remove ctx id d) as [[[]|e|s|] d1]; try done.
  - destruct (IH d1) as (errs & d' & Hc & Hin & Hsub & Hkeep). rewrite bind_eq, Hc.
    exists errs, d'. split; [done|]. assert (containers d1 !! id = None) as Hg.
    { eapply exits_gone; [exact Hr|by rewrite lookup_delete_eq]. }
    split_and!.
    + intros i [->|Hi]%elem_of_cons; [|by apply Hin]. left. apply eq_None_not_Some. intros [o Ho].
      eapply lookup_weaken in Hsub; [|exact Ho]. congruence.
    + etrans; [exact Hsub|]. destruct Hr as [Hs _]. etrans; [exact Hs|apply delete_subseteq].
    + intros i o [Hne Hni]%not_elem_of_cons Ho. destruct Hr as [_ Hk].
      destruct (Hk i o) as [Hi|]; [by rewrite lookup_delete_ne| |by right]. by apply Hkeep.
  - destruct Hr as [[Hs Hk] [e0 ->]]. destruct (IH d1) as (errs & d' & Hc & Hin & Hsub & Hkeep).
    rewrite bind_eq, Hc. eexists _, d'. split; [done|]. split_and!.
    + intros i [->|Hi]%elem_of_cons; [right; exists e0; by left|].
      destruct (Hin i Hi) as [|[e' He']]; [by left|right; exists e'; by right].
    + by etrans.
    + intros i o [Hne Hni]%not_elem_of_cons Ho. destruct (Hk i o Ho) as [Hi|]; [|by right]. by apply Hkeep.
Qed.
(** C28: [RemoveManaged] attempts every managed container, whatever errors it
    meets: when it returns nil no managed container is left, and an error it
    returns names every managed container that is; no other container is
    touched. *)
Theorem RemoveManaged_spec ctx d :
  ∃ r d', RemoveManaged ctx d = (r, d') ∧
    containers d' ⊆ containers d ∧
    (∀ id o, containers d !! id = Some o → ¬ managed o →
       containers d' !! id = Some o ∨ co_AutoRemove o = true) ∧
    match r with
    | Ok _ => ∀ id o, containers d' !! id = Some o → ¬ managed o
    | Err e => (∃ e0, e = wrap "list containers for remove: %w" [] e0 ∧ quiet d d') ∨
        ∃ errs, errors_Join (Some <$> errs) = Some e ∧
          ∀ id o, containers d' !! id = Some o → managed o →
            ∃ e0, wrap "remove container %s: %w" [AStr id] e0 ∈ errs
    | _ => False
    end.
Proof.
  unfold RemoveManaged. rewrite bind_eq, wrap_err_eq. pose proof (ListManaged_run ctx d) as Hl.
  destruct (ListManaged ctx d) as [[ids|e|s|] d1]; try done; cycle 1.
  { destruct Hl as [Hs Hk]. eexists _, d1. split; [done|]. split_and!; [done|by auto|].
    left. exists e. done. }
  destruct Hl as [[Hs Hk] Hids]. destruct (collect_removals ctx ids d1) as (errs & d' & Hc & Hin & Hsub & Hkeep).
  rewrite bind_eq, Hc. unfold join_errors.
  exists (match errors_Join (Some <$> errs) with Some e => Err e | None => Ok tt end), d'.
  split; [by destruct (errors_Join (Some <$> errs))|].
  assert (Hleft : ∀ id o, containers d' !! id = Some o → managed o →
            ∃ e0, wrap "remove container %s: %w" [AStr id] e0 ∈ errs).
  { intros id o Ho Hm. destruct (Hin id) as [Hn|?]; [|congruence|done].
    apply Hids. exists o. split; [by eapply lookup_weaken|done]. }
  split; [by etrans|]. split.
  { intros id o Ho Hm. destruct (Hk id o Ho) as [H1|]; [|by right]. apply Hkeep; [|done].
    intros (o' & Ho' & Hm')%Hids. by simplify_eq. }
  destruct (errors_Join (Some <$> errs)) as [e|] eqn:He; cbn.
  - right. by exists errs.
  - intros id o Ho Hm. destruct (Hleft id o Ho Hm) as [e0 He0]. apply errors_Join_None in He.
    rewrite Forall_forall in He. eapply (list_elem_of_fmap_2 Some) in He0. by apply He in He0.
Qed.

(** Stopping them removes none but those that remove themselves. *)
Lemma StopManaged_quiet ctx : Moves quiet (StopManaged ctx).
Proof.
  unfold StopManaged, join_errors. apply moves_bind; [apply _| |].
  - apply moves_wrap_err. intros d. pose proof (ListManaged_run ctx d) as Hl.
    by destruct (ListManaged ctx d) as [[] ?]; try destruct Hl.
  - intros ids. apply moves_bind; [apply _| |moves]. induction ids as [|id ids IH]; cbn; moves.
Qed.
End Manager.

(** ** Waiting for a container *)

(** [failures f n w w']: [n] calls of [f], all of which return an error. *)
Inductive failures {W} (f : M W unit) : nat → W → W → Prop :=
  | failures_none w : failures f 0 w w
  | failures_more n w e w1 w' : f w = (Err e, w1) → failures f n w1 w' → failures f (S n) w w'.

Lemma attempts_failures {W} (f : M W unit) n w r w' :
  attempts (wrap_err ERetryable f) n w r w' →
  (is_retryable r = true ∧ failures f n w w') ∨
  (is_retryable r = false ∧ (∀ e, r ≠ Err e) ∧ ∃ w1, failures f (pred n) w w1 ∧ f w1 = (r, w')).
Proof.
  induction 1 as [w r w' Hf|n w e w1 r w' Hf Ha IH].
  - rewrite wrap_err_eq in Hf. destruct (f w) as [[[]|e|s|] w1] eqn:Hw; simplify_eq/=.
    1, 3, 4: right; split_and!; [done|done|]; exists w; split; [constructor|done].
    left. split; [done|]. by econstructor; [|constructor].
  - rewrite wrap_err_eq in Hf. destruct (f w) as [[[]|e'|s|] w1'] eqn:Hw; simplify_eq/=.
    destruct IH as [[Hr Hn]|(Hr & Hne & w2 & Hn & Hf)]; [left; split; [done|by econstructor]|].
    right. split_and!; [done|done|]. exists w2. split; [|done].
    destruct Ha; cbn in *; by econstructor.
Qed.

Section WaitReady.
Context {W : Type} `{RetryCtxLaws}.

Lemma WaitReady_run ctx c (f : @ReadinessFunc W) opts w :
  let cfg := wait_config opts in
  let check := f (WithTimeoutCtx ctx (timeout cfg)) (Some c) in
  let '(r, w') := WaitReady ctx (Some c) (Some f) opts w in
  if timeout cfg <=? 0 then (∃ e, r = Err e) ∧ w' = w
  else if delay cfg <=? 0 then (∃ s, r = Panic s) ∧ w' = w
  else ∃ n w1, failures check n w w1 ∧
    ((∃ e e0, r = Err e ∧ ctx_error e0 ∧ w' = w1 ∧ ∀ s, errors_Is e s = errors_Is e0 s) ∨
     ((∀ e, r ≠ Err e) ∧ check w1 = (r, w'))).
Proof.
  cbn zeta. unfold WaitReady. destruct (timeout _ <=? 0) eqn:Ht; [by split; [eexists|]|].
  rewrite wrap_err_eq. set (ctx' := WithTimeoutCtx _ _). set (delay := delay _). set (check := f ctx' (Some c)).
  destruct (delay <=? 0) eqn:Hd; zify_bool.
  { destruct (retry_constant_panics W ctx' delay (wrap_err ERetryable check) w Hd) as [s ->]. by split; [eexists|]. }
  destruct (retry_constant_spec W ctx' delay (wrap_err ERetryable check) w Hd)
    as [(e & He & ->)|(n & r & w' & Ha & Hr)].
  { exists 0%nat, w. split; [constructor|]. left. eexists _, e. split_and!; [done|done|done|].
    intros s. cbn. by rewrite orb_false_r. }
  apply attempts_failures in Ha as [[Hretry Hn]|(Hretry & Hne & w1 & Hn & Hf)]; rewrite Hretry in Hr.
  - destruct Hr as (e & He & ->). exists n, w'. split; [done|]. left. eexists _, e. split_and!; [done|done|done|].
    intros s. cbn. by rewrite orb_false_r.
  - rewrite Hr. destruct r as [u|e|s|]; [|by destruct (Hne e)|..]; cbn beta iota;
      exists (pred n), w1; (split; [done|]); by right.
Qed.

(** C29: [WaitReady] returns nil only right after a check that succeeded, all
    earlier ones having failed; its error is that of the context, not that of
    the last check; a timeout that is not positive is refused before the first
    check, and a delay that is not positive makes it panic. *)
Theorem WaitReady_spec ctx c (f : @ReadinessFunc W) opts w :
  let cfg := wait_config opts in
  let check := f (WithTimeoutCtx ctx (timeout cfg)) (Some c) in
  let '(r, w') := WaitReady ctx (Some c) (Some f) opts w in
  if timeout cfg <=? 0 then (∃ e, r = Err e) ∧ w' = w
  else if delay cfg <=? 0 then (∃ s, r = Panic s) ∧ w' = w
  else ∃ n w1, failures check n w w1 ∧
    ((∃ e e0, r = Err e ∧ ctx_error e0 ∧ w' = w1 ∧ ∀ s, errors_Is e s = errors_Is e0 s) ∨
     ((∀ e, r ≠ Err e) ∧ check w1 = (r, w'))).
Proof. apply WaitReady_run. Qed.
End WaitReady.
