(* ===== verification/DockerPostgres.v ===== *)
(** * A PostgreSQL container for tests (pkg/dockermanage/dockerpostgres)

    Its options, the connection string and the start of the container, which
    waits until the port accepts connections. *)

From S2P Require Import Prelude GoStrings Effects Netip DockerClient DockerManage.

Definition DefaultImage : string := "postgres:16-alpine".
Definition DefaultDatabase : string := "testdb".
Definition DefaultUser : string := "postgres".
Definition DefaultPassword : string := "password1".
Definition defaultContainerPort : string := "5432/tcp".

(** ** Options *)

Record pg_config := mkPgConfig {
  pg_image : string;
  pg_database : string;
  pg_user : string;
  pg_password : string;
  pg_hostPort : Z;
  pg_labels : gmap string string
}.

Definition pg_defaultConfig : pg_config :=
  mkPgConfig DefaultImage DefaultDatabase DefaultUser DefaultPassword 0 {[ManagedLabelKey := "postgres"]}.

Definition PgOption : Type := pg_config → result pg_config.

Definition pg_WithImage (image : string) : PgOption := λ cfg,
  let image := TrimSpace image in
  if String.eqb image "" then inr (errors_New "image must not be empty")
  else inl (let 'mkPgConfig _ b c d e f := cfg in mkPgConfig image b c d e f).

Definition pg_WithDatabase (database : string) : PgOption := λ cfg,
  let database := TrimSpace database in
  if String.eqb database "" then inr (errors_New "database must not be empty")
  else inl (let 'mkPgConfig a _ c d e f := cfg in mkPgConfig a database c d e f).

Definition pg_WithUser (user : string) : PgOption := λ cfg,
  let user := TrimSpace user in
  if String.eqb user "" then inr (errors_New "user must not be empty")
  else inl (let 'mkPgConfig a b _ d e f := cfg in mkPgConfig a b user d e f).

Definition pg_WithPassword (password : string) : PgOption := λ cfg,
  if String.eqb password "" then inr (errors_New "password must not be empty")
  else inl (let 'mkPgConfig a b c _ e f := cfg in mkPgConfig a b c password e f).

Definition pg_WithHostPort (port : Z) : PgOption := λ cfg,
  if (port <=? 0) || (65535 <? port)
  then inr (EErrorf "host port must be in range 1-65535: %d" [AInt port])
  else inl (let 'mkPgConfig a b c d _ f := cfg in mkPgConfig a b c d port f).

Definition set_pg_labels (labels : gmap string string) (cfg : pg_config) : pg_config :=
  let 'mkPgConfig a b c d e _ := cfg in mkPgConfig a b c d e labels.

Definition pg_WithLabel (key value : string) : PgOption := λ cfg,
  let? labels := put_label key value (pg_labels cfg) in inl (set_pg_labels labels cfg).

Definition pg_WithLabels (range : gmap string string → list (string * string))
    (labels : gmap string string) : PgOption := λ cfg,
  let? l := put_labels (range labels) (pg_labels cfg) in inl (set_pg_labels l cfg).

Fixpoint pg_apply_options (cfg : pg_config) (options : list (option PgOption)) : result pg_config :=
  match options with
  | [] => inl cfg
  | None :: options => pg_apply_options cfg options
  | Some opt :: options => let? cfg := opt cfg in pg_apply_options cfg options
  end.

(** ** The instance *)

Record Instance_ := mkInstance {
  i_Container : option Container;
  i_Database : string;
  i_User : string;
  i_Password : string
}.

Definition DSN (i : option Instance_) : string :=
  match i with
  | Some (mkInstance (Some c) database user password) =>
      "host=" +++ Host c +++ " port=" +++ FormatInt (ContainerPort c) +++ " user=" +++ user +++
      " password=" +++ password +++ " dbname=" +++ database +++ " sslmode=disable"
  | _ => ""
  end.

(** [net.Dialer.DialContext] and the [Close] of the connection. *)
Class Dialer (D : Type) := {
  DialContext : Context → string → string → D → option error * D;
  conn_Close : D → option error * D
}.

Section Start.
Context {D : Type} `{DockerClient D, Writers D, Dialer D, RetryCtx}.
Variable range : gmap string string → list (string * string).

Definition TCPReady : ReadinessFunc := λ ctx c,
  match c with
  | None => fail (errors_New "container must not be nil")
  | Some c =>
      call_ (DialContext ctx "tcp" (JoinHostPort (Host c) (FormatInt (ContainerPort c))));;
      call_ conn_Close
  end.

(** The options that the container is started with. *)
Definition start_options (cfg : pg_config) : list (option ContainerOption) :=
  [Some (WithImage (pg_image cfg));
   Some (WithContainerPort defaultContainerPort);
   Some (WithEnvVars ["POSTGRES_DB=" +++ pg_database cfg; "POSTGRES_USER=" +++ pg_user cfg;
                      "POSTGRES_PASSWORD=" +++ pg_password cfg]);
   Some (WithLabels range (pg_labels cfg))] ++
  (if 0 <? pg_hostPort cfg then [Some (WithHostPort (pg_hostPort cfg))] else []).

(** The deferred removal, whose error is joined. *)
Definition remove_not_ready (ctx : Context) (id : string) (retErr : error) : M D error :=
  r ← error_of (Remove ctx id); mret (default retErr (errors_Join [Some retErr; r])).

(** [manager] is whether the manager is not nil. *)
Definition pg_Start (ctx : Context) (manager : bool) (options : list (option PgOption)) : M D Instance_ :=
  if negb manager then fail (errors_New "manager must not be nil")
  else
    cfg ← of_result (pg_apply_options pg_defaultConfig options);
    container ← Start ctx (start_options cfg);
    on_error (remove_not_ready ctx (ID container))
      (wrap_err (wrap "wait for postgres readiness: %w" []) (WaitReady ctx (Some container) (Some TCPReady) []);;
       mret (mkInstance (Some container) (pg_database cfg) (pg_user cfg) (pg_password cfg))).
End Start.
