(* ===== verification/DockerPostgresSpec.v ===== *)
(** * Correctness of dockerpostgres

    The labels a container gets whatever order Go ranges over a map in, and what
    starting a PostgreSQL container does. *)

From S2P Require Import Prelude GoStrings Effects Netip DockerClient DockerManage DockerPostgres DockerSpec.

#[local] Arguments TrimSpace : simpl never.

(** ** Labels *)

Definition trimmed_key (k : string) : Prop := k ≠ "" ∧ TrimSpace k = k.

Lemma put_label_trimmed k v m : trimmed_key k → put_label k v m = inl (<[k := v]> m).
Proof. intros [Hk Ht]. unfold put_label. rewrite Ht. by destruct (String.eqb_spec k ""). Qed.

Lemma put_labels_trimmed kvs m : NoDup kvs.*1 → Forall trimmed_key kvs.*1 →
  put_labels kvs m = inl (list_to_map kvs ∪ m).
Proof.
  revert m. induction kvs as [|[k v] kvs IH]; intros m; cbn.
  { intros _ _. by rewrite (left_id_L ∅ (∪)). }
  intros [Hn Hnd]%NoDup_cons [Hk Hks]%Forall_cons. rewrite put_label_trimmed by done. cbn. rewrite IH by done.
  f_equal. rewrite <- insert_union_l, insert_union_r; [done|]. by apply not_elem_of_list_to_map_1.
Qed.

(** Trimmed labels are merged the same way in every order. *)
Lemma WithLabels_trimmed `{Network} range labels cfg :
  labels_range_ok range → map_Forall (λ k _, trimmed_key k) labels →
  WithLabels range labels cfg = inl (set_labels (labels ∪ c_labels cfg) cfg).
Proof.
  unfold labels_range_ok. intros Hr Hl. unfold WithLabels. rewrite put_labels_trimmed.
  - cbn. do 3 f_equal. rewrite <- (list_to_map_to_list labels) at 2.
    apply list_to_map_proper; [|by rewrite Hr]. rewrite Hr. apply NoDup_fst_map_to_list.
  - rewrite Hr. apply NoDup_fst_map_to_list.
  - apply Forall_fmap, Forall_forall. intros [k v]. rewrite Hr, elem_of_map_to_list. apply Hl.
Qed.

(** Labels that differ in white space only are not: the order decides which
    value is kept. *)
Lemma WithLabels_order_matters `{Network} : ∃ labels range1 range2,
  labels_range_ok range1 ∧ labels_range_ok range2 ∧
  WithLabels range1 labels defaultConfig ≠ WithLabels range2 labels defaultConfig.
Proof.
  exists (<["team" := "a"]> {["team " := "b"]}), map_to_list, (λ m, reverse (map_to_list m)).
  split_and!; [by intros m|intros m; by rewrite reverse_Permutation|].
  intros Heq. apply (f_equal (λ r, match r with inl c => c_labels c !! "team" | inr _ => None end)) in Heq.
  by vm_compute in Heq.
Qed.

(** ** Options *)

Inductive is_pg_option : PgOption → Prop :=
  | is_pg_WithImage i : is_pg_option (pg_WithImage i)
  | is_pg_WithDatabase d : is_pg_option (pg_WithDatabase d)
  | is_pg_WithUser u : is_pg_option (pg_WithUser u)
  | is_pg_WithPassword p : is_pg_option (pg_WithPassword p)
  | is_pg_WithHostPort p : is_pg_option (pg_WithHostPort p)
  | is_pg_WithLabel k v : is_pg_option (pg_WithLabel k v)
  | is_pg_WithLabels range m : is_pg_option (pg_WithLabels range m).

Record pg_config_ok (cfg : pg_config) : Prop := {
  pg_ok_image : pg_image cfg ≠ "" ∧ TrimSpace (pg_image cfg) = pg_image cfg;
  pg_ok_names : pg_database cfg ≠ "" ∧ pg_user cfg ≠ "" ∧ pg_password cfg ≠ "";
  pg_ok_port : 0 ≤ pg_hostPort cfg ≤ 65535;
  pg_ok_labels : labels_ok (pg_labels cfg)
}.

Lemma pg_defaultConfig_ok : pg_config_ok pg_defaultConfig.
Proof.
  split; [done|done|cbn; lia|]. split; [by exists "postgres"|].
  unfold pg_defaultConfig, pg_labels. apply map_Forall_singleton. by vm_compute.
Qed.

Lemma pg_option_ok opt cfg cfg' : is_pg_option opt → opt cfg = inl cfg' → pg_config_ok cfg → pg_config_ok cfg'.
Proof.
  intros Hopt Ho [H1 H2 H3 H4].
  destruct Hopt; unfold pg_WithImage, pg_WithDatabase, pg_WithUser, pg_WithPassword, pg_WithHostPort,
    pg_WithLabel, pg_WithLabels in Ho; cbn zeta in Ho; destruct cfg; cbn in *.
  all: try (destruct (put_label _ _ _) as [l'|] eqn:Hp; [|done]; eapply put_label_ok in Hp; [|done]).
  all: try (destruct (put_labels _ _) as [l'|] eqn:Hp; [|done]; eapply put_labels_ok in Hp; [|done]).
  all: try (case_match eqn:Hcase; [done|]); zify_bool; simplify_eq/=.
  all: repeat match goal with Heq : String.eqb _ _ = false |- _ => apply String.eqb_neq in Heq end.
  all: split; cbn; auto using TrimSpace_idemp; try naive_solver; try lia.
Qed.

Lemma pg_apply_options_ok options cfg :
  Forall (λ o, ∀ opt, o = Some opt → is_pg_option opt) options →
  pg_apply_options pg_defaultConfig options = inl cfg → pg_config_ok cfg.
Proof.
  generalize pg_defaultConfig_ok. generalize pg_defaultConfig as c.
  induction options as [|[opt|] options IH]; intros c Hc; cbn; [by intros _ [= <-]| |].
  - intros [Ho Hos]%Forall_cons. destruct (opt c) as [c'|e] eqn:Hopt; [|done]. cbn.
    intros Ha. eapply IH; [|exact Hos|exact Ha]. eapply pg_option_ok; [by apply Ho|done|done].
  - intros [_ Hos]%Forall_cons. by apply IH.
Qed.

(** ** Starting *)

Section Start.
Context {D : Type} `{Network, !DockerClient D, !Writers D, !Dialer D, !RetryCtx, !RetryCtxLaws}
  (containers : D → Containers) `{!DockerLaws D containers}.
Variables (range : gmap string string → list (string * string)) (port : Port).
Hypothesis range_ok : labels_range_ok range.
Hypothesis port_ok : ParsePort defaultContainerPort = inl port ∧ port ≠ Port_zero.
Hypothesis dial_quiet : ∀ ctx network address d,
  exits (containers d) (containers (DialContext ctx network address d).2).
Hypothesis close_quiet : ∀ d, exits (containers d) (containers (conn_Close d).2).

Abbreviation quiet := (quiet containers).
#[local] Instance quiet_preorder' : PreOrder quiet.
Proof. apply quiet_preorder. Qed.

(** What the manager is asked to start. *)
Definition pg_container_config (cfg : pg_config) : config :=
  mkConfig "" (pg_image cfg) port DefaultHostIP (pg_hostPort cfg)
    ["POSTGRES_DB=" +++ pg_database cfg; "POSTGRES_USER=" +++ pg_user cfg;
     "POSTGRES_PASSWORD=" +++ pg_password cfg] false (Some os_Stderr) (pg_labels cfg).

Lemma start_options_config cfg : pg_config_ok cfg →
  apply_options (set_pullProgress (Some os_Stderr) defaultConfig) (start_options range cfg) =
  inl (pg_container_config cfg).
Proof.
  intros [[Hi Ht] _ Hp [Hm Hl]]. destruct port_ok as [Hport _]. unfold start_options, WithImage, WithContainerPort.
  cbn [apply_options app]. rewrite Ht, Hport. destruct (String.eqb_spec (pg_image cfg) ""); [done|].
  cbn [rbind WithEnvVars]. rewrite WithLabels_trimmed by done. cbn [rbind set_image set_containerPort set_envVars
    set_pullProgress set_labels defaultConfig c_labels c_envVars app].
  assert (pg_labels cfg ∪ {[ManagedLabelKey := ""]} = pg_labels cfg) as Hu.
  { apply map_eq. intros k. rewrite lookup_union. destruct (decide (k = ManagedLabelKey)) as [->|Hne].
    - destruct Hm as [v ->]. done.
    - rewrite lookup_singleton_ne by done. by destruct (pg_labels cfg !! k). }
  destruct (Z.ltb_spec 0 (pg_hostPort cfg)) as [Hpos|Hpos]; cbn [apply_options].
  - unfold WithHostPort. destruct (Z.leb_spec (pg_hostPort cfg) 0); [lia|].
    destruct (Z.ltb_spec 65535 (pg_hostPort cfg)); [lia|]. rewrite Hu. done.
  - assert (pg_hostPort cfg = 0) as Hz by lia. unfold pg_container_config. by rewrite Hu, Hz.
Qed.

Lemma moves_TCPReady ctx c : Moves quiet (TCPReady ctx c).
Proof.
  unfold TCPReady. destruct c as [c|]; [|moves]. apply moves_bind; [apply _| |intros _]; apply moves_call_; [|done].
  intros d. apply dial_quiet.
Qed.

Lemma TCPReady_returns ctx c d : returns_ (TCPReady ctx c d).1.
Proof.
  unfold TCPReady. destruct c as [c|]; [|done]. rewrite bind_eq. unfold call_ at 1.
  destruct (DialContext _ _ _ d) as [[e|] d1]; [done|]. unfold call_. by destruct (conn_Close d1) as [[e|] d2].
Qed.

Lemma moves_failures (f : M D unit) n d d' : Moves quiet f → failures f n d d' → quiet d d'.
Proof.
  intros Hf. induction 1 as [d|n d e d1 d' Hd _ IH]; [done|]. specialize (Hf d). rewrite Hd in Hf. by etrans.
Qed.

(** Waiting with the default options returns, and nil only after a connection
    was accepted. *)
Lemma wait_ready ctx c d :
  match WaitReady ctx (Some c) (Some TCPReady) [] d with
  | (Ok _, d') => quiet d d' ∧ ∃ ctx' d1, TCPReady ctx' (Some c) d1 = (Ok tt, d')
  | (Err _, d') => quiet d d'
  | _ => False
  end.
Proof.
  pose proof (WaitReady_run ctx c TCPReady [] d) as Hw. cbn zeta in Hw.
  destruct (WaitReady ctx (Some c) (Some TCPReady) [] d) as [r d'].
  change (timeout (wait_config []) <=? 0) with false in Hw. change (delay (wait_config []) <=? 0) with false in Hw.
  destruct Hw as (n & d1 & Hn & Hw). eapply moves_failures in Hn; [|apply moves_TCPReady].
  destruct Hw as [(e & e0 & -> & _ & -> & _)|[_ Hc]]; [done|].
  pose proof (moves_TCPReady (WithTimeoutCtx ctx (timeout (wait_config []))) (Some c) d1) as Hm.
  pose proof (TCPReady_returns (WithTimeoutCtx ctx (timeout (wait_config []))) (Some c) d1) as Hr.
  rewrite Hc in Hm, Hr. destruct r as [[]|e|s|]; try done; [split; [by etrans|by eauto]|by etrans].
Qed.

(** C27: [dockerpostgres.Start], whatever its options: the container it returns
    runs the configured image with the three variables of the database, has
    exactly the configured labels, the mark of managed containers among them,
    accepted a connection, and exists; when it fails no container is left unless
    a removal failed; it never panics. *)
Theorem pg_Start_spec ctx options d :
  Forall (λ o, ∀ opt, o = Some opt → is_pg_option opt) options →
  let '(r, d') := pg_Start range ctx true options d in
  match r with
  | Ok i => ∃ cfg c o, pg_apply_options pg_defaultConfig options = inl cfg ∧
      i = mkInstance (Some c) (pg_database cfg) (pg_user cfg) (pg_password cfg) ∧
      created containers (ID c) o d d' ∧ containers d' !! ID c = Some o ∧ managed o ∧
      co_Image o = pg_image cfg ∧ co_Labels o = pg_labels cfg ∧
      co_Env o = ["POSTGRES_DB=" +++ pg_database cfg; "POSTGRES_USER=" +++ pg_user cfg;
                  "POSTGRES_PASSWORD=" +++ pg_password cfg] ∧
      ∃ ctx' d1, TCPReady ctx' (Some c) d1 = (Ok tt, d')
  | Err _ => quiet d d' ∨ ∃ id o ctx' d1 e, created containers id o d d' ∧
      client_ContainerRemove_Force ctx' id d1 = (Some e, d')
  | _ => False
  end.
Proof.
  intros Hopts. unfold pg_Start. cbn [negb]. rewrite bind_eq. unfold of_result.
  destruct (pg_apply_options _ options) as [cfg|e] eqn:Hcfg; [|by left].
  pose proof (pg_apply_options_ok _ _ Hopts Hcfg) as Hok. rewrite bind_eq.
  destruct (Start ctx _ d) as [r d1] eqn:Hs. apply (Start_outcome containers) in Hs.
  unfold start_outcome in Hs. rewrite (start_options_config _ Hok) in Hs. destruct r as [c|e|s|]; try done; cycle 1.
  { destruct Hs as [?|(id & o & d0 & e0 & ? & ?)]; [by left|right; by exists id, o, (WithoutCancel ctx), d0, e0]. }
  { destruct Hs as [_ (cfg' & e & [= <-] & Hp)]. by vm_compute in Hp. }
  destruct Hs as (cfg' & a & [= <-] & _ & (m & Hm1 & Hm2 & Hm3) & _).
  set (o := create_options (pg_container_config cfg) a) in *. unfold on_error. rewrite bind_eq, wrap_err_eq.
  pose proof (wait_ready ctx c d1) as Hw.
  destruct (WaitReady ctx (Some c) (Some TCPReady) [] d1) as [[[]|e|s|] d2]; try done; cbn [mret M_ret].
  - destruct Hw as [Hq Hready]. exists cfg, c, o.
    assert (exits (<[ID c := o]> m) (containers d2)) as Hm by (etrans; [exact Hm3|exact Hq]).
    split_and!; try done; [by exists m| |apply Hok]. destruct Hm as [_ Hk].
    destruct (Hk (ID c) o) as [?|?]; [apply lookup_insert_eq|done|done].
  - unfold remove_not_ready. rewrite bind_eq, error_of_run. pose proof (Remove_run containers ctx (ID c) d2) as Hr.
    assert (exits (<[ID c := o]> m) (containers d2)) as Hm by (etrans; [exact Hm3|exact Hw]).
    unfold Remove, wrap_err, call_ in *.
    destruct (client_ContainerRemove_Force ctx (ID c) d2) as [[e'|] d3] eqn:He; cbn [mret M_ret].
    + right. exists (ID c), o, ctx, d2, e'. split; [|done]. exists m. split_and!; [done|done|].
      destruct Hr as [Hr _]. etrans; [exact Hm|exact Hr].
    + left. unfold DockerSpec.quiet. etrans; [exact Hm1|]. etrans; [|exact Hr].
      etrans; [|apply exits_delete, Hm]. by rewrite delete_insert_id.
Qed.
End Start.
