(* ===== verification/DockerMem.v ===== *)
(** * A Docker daemon in memory

    An implementation of the client, the dialer and the retry loop, and sample
    runs: starting, a failed start, a start cancelled while waiting, removing
    all managed containers, and a demultiplexed stream. *)

From stdpp Require Import stringmap.
From S2P Require Import Prelude GoStrings Effects Netip DockerClient DockerManage DockerStream.
From S2P Require Import DockerSpec DockerPostgres DockerPostgresSpec.

#[export] Instance mem_network : Network := {
  Port := string;
  Port_zero := "";
  Port_String p := p;
  ParsePort s := if String.eqb s "" then inr (errors_New "invalid port") else inl s;
  PortFrom n proto := Some (FormatInt n +++ "/" +++ proto)
}.

(** [dm_accept] is how many connections are refused before one is accepted;
    [dm_cancel] holds when the caller cancels its context at the next
    connection, and [dm_cancelled] when it has. *)
Record daemon := mkDaemon {
  dm_containers : Containers;
  dm_images : list string;
  dm_broken : list string;
  dm_refuse : nat;
  dm_cancel : bool;
  dm_cancelled : bool;
  dm_written : list (Writer * bytes)
}.

Definition set_containers m d :=
  mkDaemon m (dm_images d) (dm_broken d) (dm_refuse d) (dm_cancel d) (dm_cancelled d) (dm_written d).

Fixpoint cancellable (ctx : Context) : bool :=
  match ctx with ContextCaller => true | WithTimeoutCtx ctx _ => cancellable ctx | WithoutCancel _ => false end.

Definition Canceled : error := ESentinel context_Canceled.
Definition not_found : error := errors_New "not found".

(** A call under a cancelled context is not made. *)
Definition under {A} (ctx : Context) (d : daemon) (refused : error → A) (k : A) : A :=
  if dm_cancelled d && cancellable ctx then refused Canceled else k.

Definition sample_settings (o : ContainerCreateOptions) : InspectResponse :=
  mkInspectResponse (Some ((λ _, [mkPortBinding (Addr4 [127; 0; 0; 1]) "49153"]) <$> co_PortBindings o)).

#[export] Instance mem_client : DockerClient daemon := {
  errdefs_IsNotFound e := match e with EErrorf "not found" _ => true | _ => false end;
  client_ImageInspect ctx i d :=
    under ctx d (λ e, (Some e, d)) (if bool_decide (i ∈ dm_images d) then (None, d) else (Some not_found, d));
  client_ImagePull ctx i d := under ctx d (λ e, (inr e, d)) (inl (mkStream [] None), d);
  client_PullClose d := (None, d);
  client_ContainerCreate ctx o d := under ctx d (λ e, (inr e, d))
    (let id := fresh_string "c" (dm_containers d) in (inl id, set_containers (<[id := o]> (dm_containers d)) d));
  client_ContainerStart ctx id d := under ctx d (λ e, (Some e, d))
    match dm_containers d !! id with
    | None => (Some not_found, d)
    | Some o => if bool_decide (co_Image o ∈ dm_broken d) then (Some (errors_New "cannot start"), d) else (None, d)
    end;
  client_ContainerInspect ctx id d := under ctx d (λ e, (inr e, d))
    match dm_containers d !! id with None => (inr not_found, d) | Some o => (inl (sample_settings o), d) end;
  client_ContainerStop ctx id d := under ctx d (λ e, (Some e, d)) (None, d);
  client_ContainerRemove_Force ctx id d := under ctx d (λ e, (Some e, d))
    match dm_containers d !! id with
    | None => (Some not_found, d)
    | Some _ => (None, set_containers (delete id (dm_containers d)) d)
    end;
  client_ContainerList_All ctx key d := under ctx d (λ e, (inr e, d))
    (inl (map_to_list (filter (λ kv, is_Some (co_Labels kv.2 !! key)) (dm_containers d))).*1, d);
  client_ExecCreate ctx id o d := (inl "exec", d);
  client_ExecAttach ctx id d := (inl (mkStream [] None), d);
  client_ExecInspect ctx id d := (inl 0, d);
  client_AttachClose d := d;
  client_Close d := (None, d)
}.

#[export] Instance mem_writers : Writers daemon := λ w p d,
  (None, mkDaemon (dm_containers d) (dm_images d) (dm_broken d) (dm_refuse d) (dm_cancel d) (dm_cancelled d)
           (dm_written d ++ [(w, p)])).

#[export] Instance mem_dialer : Dialer daemon := {
  DialContext ctx network address d :=
    let d' := mkDaemon (dm_containers d) (dm_images d) (dm_broken d) (pred (dm_refuse d)) (dm_cancel d)
                (dm_cancelled d || dm_cancel d) (dm_written d) in
    match dm_refuse d with O => (None, d') | S _ => (Some (errors_New "connection refused"), d') end;
  conn_Close d := (None, d)
}.

(** Four checks, then the deadline. *)
Fixpoint deadline_loop {W} (k : nat) (f : M W unit) : M W unit := λ w,
  match f w with
  | (Err (ERetryable _), w') =>
      match k with O => (Err (ESentinel context_DeadlineExceeded), w') | S k => deadline_loop k f w' end
  | r => r
  end.

#[export] Instance mem_retry : RetryCtx := λ W ctx delay f,
  if delay <=? 0 then panic "t must be greater than 0" else deadline_loop 3 f.

Lemma mem_retry_laws : @RetryCtxLaws mem_retry.
Proof.
  split; intros W ctx delay f w Hd; unfold retry_Do_constant, mem_retry.
  - destruct (Z.leb_spec delay 0); [by eexists|lia].
  - destruct (Z.leb_spec delay 0); [lia|]. right. generalize 3%nat as k. intros k.
    revert w. induction k as [|k IH]; intros w; cbn [deadline_loop]; destruct (f w) as [r w1] eqn:Hf.
    + exists 1%nat, r, w1. split; [by apply attempts_last|].
      destruct r as [|[]| |]; cbn; try done. eexists; split; [by right|done].
    + destruct r as [a|[s|fm args|e|e1 e2|ap fa e|c]|s|].
      4: { destruct (IH w1) as (n & r & w' & Ha & Hr). exists (S n), r, w'.
           split; [by eapply attempts_retry|exact Hr]. }
      all: exists 1%nat; eexists _, w1; (split; [by apply attempts_last|done]).
Qed.

(** ** It is as documented *)

Lemma under_run {A} (P : A → Prop) ctx d refused k :
  (∀ e, P (refused e)) → P k → P (under ctx d refused k).
Proof. intros. unfold under. by destruct (_ && _). Qed.

Lemma mem_laws : DockerLaws daemon dm_containers.
Proof.
  split; intros.
  - unfold client_ContainerCreate, mem_client. apply under_run; [done|]. split; [apply fresh_string_fresh|done].
  - unfold client_ContainerRemove_Force, mem_client. apply under_run; [done|]. by destruct (_ !! id).
  - unfold client_ContainerList_All, mem_client. apply under_run; [done|]. split; [done|]. intros id.
    rewrite list_elem_of_fmap. split.
    + intros ([i o] & -> & Hin%elem_of_map_to_list). rewrite map_lookup_filter_Some in Hin. by exists o.
    + intros (o & Ho & Hm). exists (id, o). split; [done|]. by rewrite elem_of_map_to_list, map_lookup_filter_Some.
  - unfold client_ContainerStart, mem_client. apply under_run; [done|]. by repeat case_match.
  - unfold client_ContainerInspect, mem_client. apply under_run; [done|]. by case_match.
  - unfold client_ContainerStop, mem_client. by apply under_run.
  - unfold client_ImageInspect, mem_client. apply under_run; [done|]. by case_match.
  - unfold client_ImagePull, mem_client. by apply under_run.
  - done.
  - done.
Qed.

(** ** Sample runs *)

#[local] Existing Instance mem_laws.
#[local] Existing Instance mem_retry_laws.

Definition sample_options : list (option ContainerOption) :=
  [Some (WithImage " redis:7 "); None; Some (WithContainerPortTCP 6379); Some (WithEnv "MODE" "test");
   Some (WithLabel "team" "db")].

Definition foreign : ContainerCreateOptions := mkContainerCreateOptions "web" "nginx" [] ∅ ∅ ∅ false.

Definition daemon0 : daemon := mkDaemon {["w" := foreign]} ["redis:7"; "postgres:16-alpine"] [] 0 false false [].
Definition daemon_broken : daemon := mkDaemon {["w" := foreign]} ["redis:7"] ["redis:7"] 0 false false [].

Lemma container_options_ok_witness : ∃ cfg, apply_options defaultConfig sample_options = inl cfg ∧ config_ok cfg.
Proof.
  assert (match apply_options defaultConfig sample_options with inl _ => true | _ => false end = true) as Hr
    by by vm_compute.
  destruct (apply_options defaultConfig sample_options) as [cfg|e] eqn:Ha; [|done].
  exists cfg. split; [done|]. eapply (container_options_ok sample_options cfg); [|exact Ha].
  repeat constructor; intros opt [= <-]; constructor.
Defined.

(** What can be seen of a run of [Start]. *)
Definition seen (rd : outcome Container * daemon) : option (string * Z) * list string * option (option string) :=
  (match rd.1 with Ok c => Some (ID c, ContainerPort c) | _ => None end,
   (map_to_list (dm_containers rd.2)).*1, (λ o, co_Labels o !! "team") <$> dm_containers rd.2 !! "c").


Lemma WithHostIP_panics_witness :
  Start ContextCaller [Some (WithImage "redis:7"); Some (WithContainerPortTCP 6379); Some (WithHostIP "localhost")]
    daemon0 = (Panic "netip: ParseAddr", daemon0).
Proof.
  apply (WithHostIP_panics ContextCaller "redis:7" 6379 ("6379/tcp" : @Port mem_network) "localhost"); by vm_compute.
Defined.

(** Two containers, one of them of this package, and a removal that fails
    because its context is cancelled. *)
Definition daemon2 (cancelled : bool) : daemon :=
  mkDaemon (<["c" := create_options defaultConfig (Addr4 [127; 0; 0; 1])]> {["w" := foreign]}) [] [] 0 false cancelled [].

Lemma RemoveManaged_removes :
  (RemoveManaged ContextCaller (daemon2 false)).1 = Ok tt ∧
  (map_to_list (dm_containers (RemoveManaged ContextCaller (daemon2 false)).2)).*1 = ["w"].
Proof. by vm_compute. Qed.

Lemma RemoveManaged_spec_witness :
  (RemoveManaged ContextCaller (daemon2 false)).1 = Ok tt ∧
  ∃ d', RemoveManaged ContextCaller (daemon2 false) = (Ok tt, d') ∧
    ∀ id o, dm_containers d' !! id = Some o → ¬ managed o.
Proof.
  split; [exact (proj1 RemoveManaged_removes)|].
  destruct (RemoveManaged_spec dm_containers ContextCaller (daemon2 false)) as (r & d' & Hr & _ & _ & Hc).
  pose proof (proj1 RemoveManaged_removes) as Hok. rewrite Hr in Hok. cbn [fst] in Hok. subst r.
  exists d'. split; [exact Hr|exact Hc].
Defined.

Lemma WaitReady_spec_witness :
  let check : @ReadinessFunc daemon := TCPReady in
  let c := mkContainer "c" "redis:7" "127.0.0.1" 6379 ∅ in
  let d := mkDaemon ∅ [] [] 2 false false [] in
  (WaitReady ContextCaller (Some c) (Some check) [] d).1 = Ok tt ∧
  ∃ n d1, failures (check (WithTimeoutCtx ContextCaller defaultReadinessTimeout) (Some c)) n d d1 ∧
    check (WithTimeoutCtx ContextCaller defaultReadinessTimeout) (Some c) d1 =
      WaitReady ContextCaller (Some c) (Some check) [] d.
Proof.
  intros check c d. split; [by vm_compute|].
  pose proof (WaitReady_spec ContextCaller c check [] d) as Hc. cbn zeta in Hc.
  destruct (WaitReady ContextCaller (Some c) (Some check) [] d) as [r d'] eqn:Hw.
  assert (r = Ok tt) as -> by (change r with (r, d').1; rewrite <- Hw; by vm_compute).
  change (timeout (wait_config []) <=? 0) with false in Hc. change (delay (wait_config []) <=? 0) with false in Hc.
  destruct Hc as (n & d1 & Hn & [(e & e0 & He & _)|[_ Hc]]); [done|]. by exists n, d1.
Defined.

(** ** Streams *)

Definition sample_frame (stream : nat) (payload : string) : Frame :=
  mkFrame (ascii_of_nat stream) (replicate 3 (ascii_of_nat 0)) (String.list_ascii_of_string payload).

Definition sample_frames : list Frame := [sample_frame 1 "out"; sample_frame 2 "err"; sample_frame 1 ""].


(** ** dockerpostgres *)

Lemma map_to_list_labels_ok : labels_range_ok map_to_list.
Proof. by intros m. Qed.

Lemma mem_dial_quiet ctx network address d :
  exits (dm_containers d) (dm_containers (DialContext ctx network address d).2).
Proof. unfold DialContext, mem_dialer. by destruct (dm_refuse d). Qed.

Lemma mem_close_quiet (d : daemon) : exits (dm_containers d) (dm_containers (conn_Close d).2).
Proof. done. Qed.

Lemma mem_port_ok : ParsePort defaultContainerPort = inl (defaultContainerPort : @Port mem_network) ∧
  (defaultContainerPort : @Port mem_network) ≠ Port_zero.
Proof. done. Qed.

Definition sample_pg_options : list (option PgOption) := [Some (pg_WithUser "app"); Some (pg_WithLabel "team" "db")].

Lemma pg_Start_spec_witness :
  ∃ i d', pg_Start map_to_list ContextCaller true sample_pg_options daemon0
    = (Ok i, d') ∧
  ∃ cfg c o, pg_apply_options pg_defaultConfig sample_pg_options = inl cfg ∧
    i = mkInstance (Some c) (pg_database cfg) (pg_user cfg) (pg_password cfg) ∧
    dm_containers d' !! ID c = Some o ∧ managed o.
Proof.
  pose proof (pg_Start_spec dm_containers map_to_list (defaultContainerPort : @Port mem_network) map_to_list_labels_ok
    mem_port_ok mem_dial_quiet mem_close_quiet
    ContextCaller sample_pg_options daemon0) as Hc.
  destruct (pg_Start map_to_list ContextCaller true sample_pg_options daemon0) as [r d'] eqn:Hs.
  assert (match r with Ok _ => true | _ => false end = true) as Hr
    by (change r with (r, d').1; rewrite <- Hs; by vm_compute).
  destruct r as [i|e|s|]; [|discriminate Hr..].
  destruct Hc as (cfg & c & o & H1 & H2 & _ & H3 & H4 & _).
  { repeat constructor; intros opt [= <-]; constructor. }
  exists i, d'. split; [reflexivity|]. exists cfg, c, o. auto.
Defined.

(** The caller's context is cancelled while the container becomes ready: the
    removal, made under that context, is not carried out, and the container
    stays.  A failure inside [Manager.Start] under the same context would have
    been cleaned up. *)
Lemma pg_Start_cancelled_leaks :
  let d := mkDaemon ∅ ["postgres:16-alpine"] [] 5 true false [] in
  let rd := pg_Start map_to_list ContextCaller true [] d in
  match rd.1 with Err e => errors_Is e context_Canceled | _ => false end = true ∧
  (map_to_list (dm_containers rd.2)).*1 = ["c"] ∧
  (client_ContainerRemove_Force (WithoutCancel ContextCaller) "c" rd.2).1 = None.
Proof. by vm_compute. Qed.
