(* ===== verification/TestDB.v ===== *)
(** * Databases in containers (internal/testing/testdb)

    What the integration tests get their databases from: for each database an
    image, environment and ports, a container that is started with dockertest,
    a connection that is tried until the database answers, and a function that
    cleans up. *)

From S2P Require Import Prelude GoStrings Effects Migration.

(** ** Options (options.go) *)

Record options := mkOptions { bindPort : Z; debug : bool }.
Definition OptionsFunc : Type := options → options.

Definition WithBindPort (n : Z) : OptionsFunc := λ o, mkOptions n (debug o).
Definition WithDebug (b : bool) : OptionsFunc := λ o, mkOptions (bindPort o) b.

(** [option := &options{}] and the loop over the functions. *)
Definition apply_funcs (opts : list OptionsFunc) : options := foldl (λ o f, f o) (mkOptions 0 false) opts.

(** ** What is called *)

(** [dockertest.RunOptions]; a port binding is its host port. *)
Record RunOptions := mkRunOptions {
  Repository : string;
  Tag : string;
  Env : list string;
  Labels : list (string * string);
  PortBindings : list (string * list string);
  ExposedPorts : list string;
  Mounts : list string;
  Hostname : string
}.

(** The fields of [docker.HostConfig] that are set. *)
Record HostConfig := mkHostConfig { AutoRemove : bool; RestartPolicy : string; Init : bool }.

(** github.com/ory/dockertest: a resource is a started container; [pool_Retry]
    waits at most [pool.MaxWait], if it is set, and returns what the last
    attempt returned, its error perhaps wrapped. *)
Class DockerTest (T : Type) := {
  Resource : Type;
  container_ID : Resource → string;
  GetPort : Resource → string → string;
  dockertest_NewPool : T → option error * T;
  pool_RunWithOptions : RunOptions → (HostConfig → HostConfig) → T → result Resource * T;
  pool_Purge : Resource → T → option error * T;
  pool_Retry : ∀ A, option Z → M T A → M T A;
  InspectContainer_Health : string → T → result string * T;
  types_Healthy : string;
  (** How often the context of a health check is found live. *)
  ctx_rounds : T → nat
}.
Arguments pool_Retry {T _} A _ _.

(** The drivers behind database/sql and their own interfaces, package os and
    the clock; a handle is a [*sql.DB]. *)
Class Databases (T : Type) := {
  Handle : Type;
  sql_Open : string → string → T → result Handle * T;
  db_Ping : Handle → T → option error * T;
  db_Exec : Handle → string → T → option error * T;
  db_QueryRow_Scan : Handle → string → T → option error * T;
  db_Close : Handle → T → option error * T;
  clickhouse_OpenDB : string → string → string → string → bool → T → Handle * T;
  Native : Type;
  ydb_Open : string → bool → T → result Native * T;
  ydb_Close : Native → T → option error * T;
  YdbConnector : Type;
  ydb_Connector : Native → T → result YdbConnector * T;
  connector_Close : YdbConnector → T → option error * T;
  sql_OpenDB : YdbConnector → T → Handle * T;
  AdminClient : Type;
  NewInstanceAdminClient : T → result AdminClient * T;
  NewDatabaseAdminClient : T → result AdminClient * T;
  client_Close : AdminClient → T → option error * T;
  CreateInstance : AdminClient → string → string → string → T → option error * T;
  CreateDatabase : AdminClient → string → string → T → option error * T;
  os_Setenv : string → string → T → T;
  time_Sleep : Z → T → T;
  os_TempDir : string;
  Error_text : error → string
}.

Definition call {T A} (f : T → result A * T) : M T A := λ d,
  match f d with (inl a, d') => (Ok a, d') | (inr e, d') => (Err e, d') end.
Definition call_ {T} (f : T → option error * T) : M T unit := λ d,
  match f d with (None, d') => (Ok tt, d') | (Some e, d') => (Err e, d') end.
Definition get {T A} (f : T → A * T) : M T A := λ d, let '(a, d') := f d in (Ok a, d').

Section TestDB.
Context {T : Type} `{DockerTest T, Databases T}.

(** The three results: the connection, the clean-up function and the error. *)
Record Started := mkStarted { st_db : option Handle; st_cleanup : option (M T unit); st_err : option error }.

Definition failed (err : error) : M T Started := mret (mkStarted None None (Some err)).

(** [x, err := m; if err != nil { return fail(err) }]. *)
Definition or_return {A} (m : M T A) (on_err : error → M T Started) (k : A → M T Started) : M T Started :=
  r ← catch m; match r with inl a => k a | inr err => on_err err end.

Definition fmt_v (format : string) (err : error) : error := EErrorf format [AErr err].
Definition fmt_w (format : string) (err : error) : error := EErrorf format [AWrap err].

Definition auto_remove (config : HostConfig) : HostConfig := mkHostConfig true "no" (Init config).

Definition goose_label : list (string * string) := [("goose_test", "1")].

Definition bindings (option : options) (port : string) : list (string * list string) :=
  if 0 <? bindPort option then [(port, [FormatInt (bindPort option)])] else [].

(** The closure that removes the container; what it logs is left out. *)
Definition cleanup (option : options) (container : Resource) : M T unit :=
  if debug option then mret tt else catch (call_ (pool_Purge container));; mret tt.

(** ** PostgreSQL (postgres.go) *)

Definition postgres_options (option : options) : RunOptions :=
  mkRunOptions "postgres" "16-alpine"
    ["POSTGRES_USER=postgres"; "POSTGRES_PASSWORD=password1"; "POSTGRES_DB=testdb"; "listen_addresses = '*'"]
    goose_label (bindings option "5432/tcp") [] [] "".

Definition psqlInfo (container : Resource) : string :=
  "host=localhost port=" +++ GetPort container "5432/tcp" +++
  " user=postgres password=password1 dbname=testdb sslmode=disable".

Definition open_and_ping (driver dsn : string) : M T Handle :=
  db ← call (sql_Open driver dsn); call_ (db_Ping db);; mret db.

Definition newPostgres (opts : list OptionsFunc) : M T Started :=
  let option := apply_funcs opts in
  or_return (call_ dockertest_NewPool) (λ err, failed (fmt_v "failed to connect to docker: %v" err)) (λ _,
  or_return (call (pool_RunWithOptions (postgres_options option) auto_remove))
    (λ err, failed (fmt_v "failed to create docker container: %v" err)) (λ container,
  or_return (pool_Retry Handle None (open_and_ping "pgx" (psqlInfo container)))
    (λ err, mret (mkStarted None (Some (cleanup option container))
              (Some (fmt_v "could not connect to docker database: %v" err)))) (λ db,
  mret (mkStarted (Some db) (Some (cleanup option container)) None)))).

(** ** MariaDB (mariadb.go) *)

Definition mariadb_options (option : options) : RunOptions :=
  mkRunOptions "mariadb" "11"
    ["MARIADB_USER=tester"; "MARIADB_PASSWORD=password1"; "MARIADB_ROOT_PASSWORD=password1"; "MARIADB_DATABASE=testdb"]
    goose_label (bindings option "3306/tcp") [] [] "".

Definition mariadb_dsn (container : Resource) : string :=
  "tester:password1@(localhost:" +++ GetPort container "3306/tcp" +++ ")/testdb?parseTime=true&multiStatements=true".

Definition newMariaDB (opts : list OptionsFunc) : M T Started :=
  let option := apply_funcs opts in
  or_return (call_ dockertest_NewPool) (λ err, failed (fmt_v "failed to connect to docker: %v" err)) (λ _,
  or_return (call (pool_RunWithOptions (mariadb_options option) auto_remove))
    (λ err, failed (fmt_v "failed to create docker container: %v" err)) (λ container,
  modify (time_Sleep (5 * Second));;
  or_return (pool_Retry Handle None (open_and_ping "mysql" (mariadb_dsn container)))
    (λ err, mret (mkStarted None (Some (cleanup option container))
              (Some (fmt_v "could not connect to docker database: %v" err)))) (λ db,
  mret (mkStarted (Some db) (Some (cleanup option container)) None)))).

(** ** ClickHouse (clickhouse.go) *)

Definition clickhouse_options (option : options) : RunOptions :=
  mkRunOptions "clickhouse/clickhouse-server" "24-alpine"
    ["CLICKHOUSE_DB=clickdb"; "CLICKHOUSE_USER=clickuser"; "CLICKHOUSE_PASSWORD=password1";
     "CLICKHOUSE_DEFAULT_ACCESS_MANAGEMENT=1"]
    goose_label (bindings option "9000/tcp") [] [] "".

(** The address, the name of the database, the user and the password; the
    settings of the connection are fixed. *)
Definition clickHouseOpenDB (address : string) (debug : bool) : M T Handle :=
  get (clickhouse_OpenDB address "clickdb" "clickuser" "password1" debug).

Definition newClickHouse (opts : list OptionsFunc) : M T Started :=
  let option := apply_funcs opts in
  or_return (call_ dockertest_NewPool) failed (λ _,
  or_return (call (pool_RunWithOptions (clickhouse_options option) auto_remove)) failed (λ container,
  let address := "localhost:" +++ GetPort container "9000/tcp" in
  or_return (pool_Retry Handle None (db ← clickHouseOpenDB address (debug option); call_ (db_Ping db);; mret db))
    (λ err, mret (mkStarted None (Some (cleanup option container))
              (Some (fmt_w "could not connect to docker database: %w" err)))) (λ db,
  mret (mkStarted (Some db) (Some (cleanup option container)) None)))).

(** ** StarRocks (starrocks.go) *)

Definition starrocks_options (option : options) : RunOptions :=
  mkRunOptions "starrocks/allin1-ubuntu" "3.5.11" [] goose_label (bindings option "9030/tcp") ["9030/tcp"] [] "".

Definition starrocks_dsn (container : Resource) : string :=
  "root:@(localhost:" +++ GetPort container "9030/tcp" +++ ")/?parseTime=true&interpolateParams=true".

Definition starrocks_attempt (dsn : string) : M T Handle :=
  db ← call (sql_Open "mysql" dsn);
  wrap_err (fmt_v "could not create initial database: %v") (call_ (db_Exec db "CREATE DATABASE IF NOT EXISTS migrations"));;
  wrap_err (fmt_v "could not set default initial database: %v") (call_ (db_Exec db "USE migrations"));;
  call_ (db_Ping db);;
  mret db.

Definition newStarrocks (opts : list OptionsFunc) : M T Started :=
  let option := apply_funcs opts in
  or_return (call_ dockertest_NewPool) (λ err, failed (fmt_v "failed to connect to docker: %v" err)) (λ _,
  or_return (call (pool_RunWithOptions (starrocks_options option) auto_remove))
    (λ err, failed (fmt_v "failed to create docker container: %v" err)) (λ container,
  or_return (pool_Retry Handle (Some (120 * Second)) (starrocks_attempt (starrocks_dsn container)))
    (λ err, mret (mkStarted None (Some (cleanup option container))
              (Some (fmt_v "could not connect to docker database: %v" err)))) (λ db,
  mret (mkStarted (Some db) (Some (cleanup option container)) None)))).

(** ** Turso (turso.go) *)

Definition turso_options (option : options) : RunOptions :=
  mkRunOptions "ghcr.io/tursodatabase/libsql-server" "v0.24.7"
    [if debug option then "RUST=trace" else "RUST=error"] goose_label (bindings option "8080/tcp") [] [] "".

Definition tursoOpenDB (container : Resource) : M T Handle :=
  db ← call (sql_Open "libsql" ("http://127.0.0.1:" +++ GetPort container "8080/tcp"));
  call_ (db_QueryRow_Scan db "SELECT 1");;
  mret db.

Definition newTurso (opts : list OptionsFunc) : M T Started :=
  let option := apply_funcs opts in
  or_return (call_ dockertest_NewPool) failed (λ _,
  or_return (call (pool_RunWithOptions (turso_options option) auto_remove)) failed (λ container,
  or_return (pool_Retry Handle None (tursoOpenDB container))
    (λ err, mret (mkStarted None (Some (cleanup option container))
              (Some (fmt_w "could not connect to docker database: %w" err)))) (λ db,
  mret (mkStarted (Some db) (Some (cleanup option container)) None)))).

(** ** YDB (ydb.go, container_healthcheck.go) *)

Definition containerHealthStatus (id : string) : M T string := call (InspectContainer_Health id).

(** The loop until the context is done. *)
Fixpoint wait_rounds (rounds : nat) (id : string) : M T unit :=
  match rounds with
  | O => fail (ESentinel context_DeadlineExceeded)
  | S rounds =>
      status ← containerHealthStatus id;
      if String.eqb status types_Healthy then mret tt else wait_rounds rounds id
  end.

Definition containerWaitHealthy (id : string) : M T unit :=
  rounds ← gets ctx_rounds; wait_rounds rounds id.

Definition ydb_options (option : options) : RunOptions :=
  mkRunOptions "ghcr.io/ydb-platform/local-ydb" "24.1"
    (["YDB_USE_IN_MEMORY_PDISKS=true"; "YDB_LOCAL_SURVIVE_RESTART=true"; "GRPC_PORT=2136"; "MON_PORT=8765"] ++
     [if debug option then "YDB_DEFAULT_LOG_LEVEL=NOTICE" else "YDB_DEFAULT_LOG_LEVEL=ERROR"])
    goose_label (bindings option "2136/tcp") [] [os_TempDir +++ ":/ydb_certs"] "localhost".

Definition ydb_host_config (config : HostConfig) : HostConfig := mkHostConfig true "no" true.

Definition ydb_dsn (container : Resource) : string :=
  "grpc://localhost:" +++ GetPort container "2136/tcp" +++ "/local".

(** A deferred call of a close function, whose error is dropped. *)
Definition close_on_error (close : T → option error * T) (err : error) : M T error :=
  catch (call_ close);; mret err.

Definition ydb_attempt (debug : bool) (container : Resource) (dsn : string) : M T Handle :=
  containerWaitHealthy (container_ID container);;
  nativeDriver ← call (ydb_Open dsn debug);
  on_error (close_on_error (ydb_Close nativeDriver))
    (connector ← call (ydb_Connector nativeDriver);
     on_error (close_on_error (connector_Close connector))
       (db ← get (sql_OpenDB connector); call_ (db_Ping db);; mret db)).

Definition newYdb (opts : list OptionsFunc) : M T Started :=
  let option := apply_funcs opts in
  or_return (call_ dockertest_NewPool) failed (λ _,
  or_return (call (pool_RunWithOptions (ydb_options option) ydb_host_config)) failed (λ container,
  or_return (pool_Retry Handle None (ydb_attempt (debug option) container (ydb_dsn container)))
    (λ err, cleanup option container;; failed (fmt_w "could not connect to docker database: %w" err)) (λ db,
  mret (mkStarted (Some db) (Some (cleanup option container)) None)))).

(** ** Spanner (spanner.go) *)

Definition spanner_options : RunOptions :=
  mkRunOptions "gcr.io/cloud-spanner-emulator/emulator" "latest" [] goose_label [] ["9010/tcp"; "9020/tcp"] [] "".

(** [defer client.Close()] around the rest of a function. *)
Definition defer_close {A} (close : T → option error * T) (m : M T A) : M T A := λ d,
  let '(r, d') := m d in match r with Block => (r, d') | _ => (r, (close d').2) end.

(** [if err != nil && !strings.Contains(err.Error(), "AlreadyExists")]. *)
Definition unless_exists (wrap : error → error) (m : M T unit) : M T unit :=
  r ← error_of m;
  match r with
  | Some err => if Contains (Error_text err) "AlreadyExists" then mret tt else fail (wrap err)
  | None => mret tt
  end.

Definition createSpannerResources : M T unit :=
  instClient ← wrap_err (fmt_w "create instance client failed: %w") (call NewInstanceAdminClient);
  defer_close (client_Close instClient)
    (dbClient ← wrap_err (fmt_w "create database client failed: %w") (call NewDatabaseAdminClient);
     defer_close (client_Close dbClient)
       (unless_exists (fmt_w "create instance failed: %w")
          (call_ (CreateInstance instClient "projects/test-project" "test-instance"
             "projects/test-project/instanceConfigs/emulator-config"));;
        unless_exists (fmt_w "create database failed: %w")
          (call_ (CreateDatabase dbClient "projects/test-project/instances/test-instance"
             "CREATE DATABASE `test-db`")))).

Definition spanner_dsn : string := "projects/test-project/instances/test-instance/databases/test-db".

Definition spanner_attempt : M T unit :=
  createSpannerResources;;
  db ← call (sql_Open "spanner" spanner_dsn);
  defer_close (db_Close db) (call_ (db_Ping db)).

Definition spanner_cleanup (db : Handle) (resource : Resource) : M T unit :=
  catch (call_ (db_Close db));; catch (call_ (pool_Purge resource));; mret tt.

(** The options are read and not used. *)
Definition newSpanner (opts : list OptionsFunc) : M T Started :=
  or_return (call_ dockertest_NewPool) (λ err, failed (fmt_v "failed to connect to docker: %v" err)) (λ _,
  or_return (call (pool_RunWithOptions spanner_options auto_remove))
    (λ err, failed (fmt_v "failed to start spanner emulator container: %v" err)) (λ resource,
  modify (os_Setenv "SPANNER_EMULATOR_HOST" ("localhost:" +++ GetPort resource "9010/tcp"));;
  or_return (pool_Retry unit None spanner_attempt)
    (λ err, catch (call_ (pool_Purge resource));; failed (fmt_v "could not initialize spanner emulator: %v" err)) (λ _,
  or_return (call (sql_Open "spanner" spanner_dsn)) (λ err, failed (fmt_v "failed to open spanner DB: %v" err)) (λ db,
  mret (mkStarted (Some db) (Some (spanner_cleanup db resource)) None))))).

(** ** All databases (testdb.go) *)

Inductive Kind := ClickHouse | Postgres | Spanner | MariaDB | Ydb | Starrocks | Turso.

Definition new_database (k : Kind) : list OptionsFunc → M T Started :=
  match k with
  | ClickHouse => newClickHouse
  | Postgres => newPostgres
  | Spanner => newSpanner
  | MariaDB => newMariaDB
  | Ydb => newYdb
  | Starrocks => newStarrocks
  | Turso => newTurso
  end.
End TestDB.
