(* ===== verification/TestDBSpec.v ===== *)
(** * Databases in containers: no container is lost

    What starting a database leaves behind on every path: which container
    runs, who has to remove it, and what is known about the connection. *)

From S2P Require Import Prelude GoStrings Effects Migration TestDB.

(** ** What the called code promises *)

(** A container with what it was created from. *)
Definition Containers : Type := gmap string (RunOptions * HostConfig).

(** [docker.HostConfig] before the functions given to [RunWithOptions]. *)
Definition no_host_config : HostConfig := mkHostConfig false "" false.

Section Retry.
Context {T A : Type} (waits : T → T → Prop) (m : M T A).

(** Failed attempts with a wait after each. *)
Inductive tried : T → T → Prop :=
  | tried_first d : tried d d
  | tried_again d e d1 d2 d' : m d = (Err e, d1) → waits d1 d2 → tried d2 d' → tried d d'.
End Retry.

(** The error may be wrapped. *)
Definition same_result {A} (r r' : outcome A) : Prop :=
  match r with Err _ => ∃ e, r' = Err e | _ => r' = r end.

(** The containers that run. *)
Class Running (T : Type) := running : T → Containers.

(** Containers may exit on their own. *)
Definition fewer `{Running T} (d d' : T) : Prop := running d' ⊆ running d.

#[export] Instance fewer_preorder `{Running T} : PreOrder fewer.
Proof.
  split; [intros d; unfold fewer; reflexivity|].
  intros d1 d2 d3 H12 H23. unfold fewer in *. by transitivity (running d2).
Qed.

(** Only [RunWithOptions] starts a container. *)
Class DockerTestLaws (T : Type) `{DockerTest T, Databases T, Running T} := {
  NewPool_law d : fewer d (dockertest_NewPool d).2;
  RunWithOptions_law o h d :
    match pool_RunWithOptions o h d with
    | (inl c, d') => running d !! container_ID c = None ∧
        running d' ⊆ <[container_ID c := (o, h no_host_config)]> (running d)
    | (inr _, d') => fewer d d'
    end;
  Purge_law c d :
    match pool_Purge c d with
    | (None, d') => running d' ⊆ delete (container_ID c) (running d)
    | (Some _, d') => fewer d d'
    end;
  Retry_law A w (m : M T A) d : ∃ d0 r r' d',
    tried fewer m d d0 ∧ m d0 = (r, d') ∧ pool_Retry A w m d = (r', d') ∧ same_result r r';
  Inspect_law id d : fewer d (InspectContainer_Health id d).2;
  Open_law driver dsn d : fewer d (sql_Open driver dsn d).2;
  Ping_law db d : fewer d (db_Ping db d).2;
  Exec_law db q d : fewer d (db_Exec db q d).2;
  QueryRow_law db q d : fewer d (db_QueryRow_Scan db q d).2;
  Close_law db d : fewer d (db_Close db d).2;
  OpenDB_law a n u p b d : fewer d (clickhouse_OpenDB a n u p b d).2;
  ydb_Open_law dsn b d : fewer d (ydb_Open dsn b d).2;
  ydb_Close_law n d : fewer d (ydb_Close n d).2;
  ydb_Connector_law n d : fewer d (ydb_Connector n d).2;
  connector_Close_law c d : fewer d (connector_Close c d).2;
  sql_OpenDB_law c d : fewer d (sql_OpenDB c d).2;
  NewInstanceAdminClient_law d : fewer d (NewInstanceAdminClient d).2;
  NewDatabaseAdminClient_law d : fewer d (NewDatabaseAdminClient d).2;
  client_Close_law c d : fewer d (client_Close c d).2;
  CreateInstance_law c p i g d : fewer d (CreateInstance c p i g d).2;
  CreateDatabase_law c p s d : fewer d (CreateDatabase c p s d).2;
  Setenv_law k v d : fewer d (os_Setenv k v d);
  Sleep_law n d : fewer d (time_Sleep n d)
}.

Create HintDb testdb discriminated.
#[export] Hint Resolve NewPool_law Inspect_law Open_law Ping_law Exec_law QueryRow_law Close_law OpenDB_law
  ydb_Open_law ydb_Close_law ydb_Connector_law connector_Close_law sql_OpenDB_law NewInstanceAdminClient_law
  NewDatabaseAdminClient_law client_Close_law CreateInstance_law CreateDatabase_law Setenv_law Sleep_law : testdb.

Section Spec.
Context {T : Type} `{DockerTestLaws T}.

(** ** A logic for the parts that start no container

    [quiet m P d]: run from [d], [m] returns, no container has started, and
    where it returns a value, [P] holds of it and the state after. *)
Definition quiet {A} (m : M T A) (P : A → T → Prop) (d : T) : Prop :=
  match m d with
  | (Ok a, d') => fewer d d' ∧ P a d'
  | (Err _, d') => fewer d d'
  | _ => False
  end.

Definition anything {A} (_ : A) (_ : T) : Prop := True.

Lemma quiet_ret {A} (P : A → T → Prop) a d : P a d → quiet (mret a) P d.
Proof. done. Qed.

Lemma quiet_fail {A} (P : A → T → Prop) e d : quiet (fail e) P d.
Proof. unfold quiet, fail. reflexivity. Qed.

Lemma quiet_bind {A B} (m : M T A) (k : A → M T B) P Q d :
  quiet m P d → (∀ a d', P a d' → quiet (k a) Q d') → quiet (m ≫= k) Q d.
Proof.
  unfold quiet. rewrite bind_eq. destruct (m d) as [[a|e|s|] d1]; try done.
  intros [Hd1 Ha] Hk. specialize (Hk a d1 Ha).
  destruct (k a d1) as [[b|e|s|] d2]; try done; [destruct Hk as [Hk ?]; split; [|done]|]; by etrans.
Qed.

Lemma quiet_seq {A B} (m : M T A) (k : M T B) Q d :
  quiet m anything d → (∀ d', quiet k Q d') → quiet (m ≫= λ _, k) Q d.
Proof. intros Hm Hk. by eapply quiet_bind; [done|]. Qed.

Lemma quiet_weaken {A} (m : M T A) (P Q : A → T → Prop) d :
  (∀ a d', P a d' → Q a d') → quiet m P d → quiet m Q d.
Proof. unfold quiet. destruct (m d) as [[] ?]; naive_solver. Qed.

Lemma quiet_any {A} (m : M T A) P d : quiet m P d → quiet m anything d.
Proof. by apply quiet_weaken. Qed.

Lemma quiet_call {A} (f : T → result A * T) d :
  (∀ d, fewer d (f d).2) → quiet (call f) (λ a d', ∃ d0, f d0 = (inl a, d')) d.
Proof. intros Hf. unfold quiet, call. specialize (Hf d). destruct (f d) as [[a|e] d'] eqn:?; naive_solver. Qed.

Lemma quiet_call_ (f : T → option error * T) d :
  (∀ d, fewer d (f d).2) → quiet (call_ f) (λ _ d', ∃ d0, f d0 = (None, d')) d.
Proof. intros Hf. unfold quiet, call_. specialize (Hf d). destruct (f d) as [[e|] d'] eqn:?; naive_solver. Qed.

Lemma quiet_get {A} (f : T → A * T) d : (∀ d, fewer d (f d).2) → quiet (get f) anything d.
Proof. intros Hf. unfold quiet, get. specialize (Hf d). by destruct (f d) as [a d']. Qed.

Lemma quiet_modify (f : T → T) d : (∀ d, fewer d (f d)) → quiet (modify f) anything d.
Proof. intros Hf. split; [apply Hf|done]. Qed.

Lemma quiet_catch {A} (m : M T A) d : quiet m anything d → quiet (catch m) anything d.
Proof. unfold quiet, catch. destruct (m d) as [[] ?]; naive_solver. Qed.

Lemma quiet_wrap_err {A} g (m : M T A) P d : quiet m P d → quiet (wrap_err g m) P d.
Proof. unfold quiet, wrap_err. destruct (m d) as [[] ?]; naive_solver. Qed.

Lemma quiet_error_of (m : M T unit) d : quiet m anything d → quiet (error_of m) anything d.
Proof. unfold quiet. rewrite error_of_run. destruct (m d) as [[] ?]; naive_solver. Qed.

Lemma quiet_on_error {A} (g : error → M T error) (m : M T A) P d :
  quiet m P d → (∀ e d', quiet (g e) anything d') → quiet (on_error g m) P d.
Proof.
  unfold quiet, on_error. destruct (m d) as [[a|e|s|] d1]; try done. intros Hd1 Hg.
  specialize (Hg e d1). destruct (g e d1) as [[] d2]; try done; [destruct Hg as [Hg _]|]; by etrans.
Qed.

Lemma quiet_defer_close {A} (close : T → option error * T) (m : M T A) d :
  (∀ d, fewer d (close d).2) → quiet m anything d → quiet (defer_close close m) anything d.
Proof.
  intros Hc. unfold quiet, defer_close. destruct (m d) as [[a|e|s|] d1]; try done.
  - intros [Hd1 _]. split; [|done]. by etrans; [|apply Hc].
  - intros Hd1. by etrans; [|apply Hc].
Qed.

Lemma tried_fewer {A} (m : M T A) d d0 : (∀ d, quiet m anything d) → tried fewer m d d0 → fewer d d0.
Proof.
  intros Hm Ht. induction Ht as [d|d e d1 d2 d' Hrun Hw _ IH]; [reflexivity|].
  specialize (Hm d). unfold quiet in Hm. rewrite Hrun in Hm. by etrans; [|etrans].
Qed.

Lemma quiet_Retry {A} w (m : M T A) P d : (∀ d, quiet m P d) → quiet (pool_Retry A w m) P d.
Proof.
  intros Hm. destruct (Retry_law A w m d) as (d0 & r & r' & d' & Ht & Hlast & Hrun & Hr).
  apply tried_fewer in Ht; [|intros; by eapply quiet_any].
  specialize (Hm d0). unfold quiet in *. rewrite Hlast in Hm. rewrite Hrun.
  destruct r as [a|e|s|]; simpl in Hr; try done.
  - rewrite Hr. destruct Hm as [Hm ?]. split; [by etrans|done].
  - destruct Hr as [e' ->]. by etrans.
Qed.

Lemma quiet_wait_rounds n id d : quiet (wait_rounds n id) anything d.
Proof.
  revert d. induction n as [|n IH]; intros d; simpl; [apply quiet_fail|].
  eapply quiet_bind; [apply quiet_call, Inspect_law|]. intros status d' _.
  case_match; [by apply quiet_ret|apply IH].
Qed.

Lemma quiet_containerWaitHealthy id d : quiet (containerWaitHealthy id) anything d.
Proof. unfold containerWaitHealthy, quiet. rewrite bind_eq. apply quiet_wait_rounds. Qed.

Lemma quiet_unless_exists g (m : M T unit) d : quiet m anything d → quiet (unless_exists g m) anything d.
Proof.
  intros Hm. eapply quiet_bind; [by apply quiet_error_of|]. intros [e|] d' _; [|by apply quiet_ret].
  case_match; [by apply quiet_ret|apply quiet_fail].
Qed.

(** ** What a start delivers *)

(** The container that is asked for. *)
Definition wanted (k : Kind) (o : options) : RunOptions * HostConfig :=
  match k with
  | ClickHouse => (clickhouse_options o, auto_remove no_host_config)
  | Postgres => (postgres_options o, auto_remove no_host_config)
  | Spanner => (spanner_options, auto_remove no_host_config)
  | MariaDB => (mariadb_options o, auto_remove no_host_config)
  | Ydb => (ydb_options o, ydb_host_config no_host_config)
  | Starrocks => (starrocks_options o, auto_remove no_host_config)
  | Turso => (turso_options o, auto_remove no_host_config)
  end.

(** That container has been started in [d1], and no other since [d]. *)
Definition started (k : Kind) (o : options) (c : Resource) (d d' : T) : Prop := ∃ d1,
  fewer d d1 ∧ running d1 !! container_ID c = None ∧ running d' ⊆ <[container_ID c := wanted k o]> (running d1).

(** Debugging leaves the container to the user, except Spanner's. *)
Definition kept (k : Kind) (o : options) : bool := match k with Spanner => false | _ => debug o end.

(** What was asked of the connection last. *)
Definition connected (k : Kind) (db : Handle) (d' : T) : Prop :=
  match k with
  | Turso => ∃ d0, db_QueryRow_Scan db "SELECT 1" d0 = (None, d')
  | Spanner => ∃ d0, sql_Open "spanner" spanner_dsn d0 = (inl db, d')
  | _ => ∃ d0, db_Ping db d0 = (None, d')
  end.

(** A clean-up function returns, and removes the container if it is not kept
    and [Purge] succeeds. *)
Definition removes (k : Kind) (o : options) (c : Resource) (cl : M T unit) : Prop := ∀ d,
  ∃ d', cl d = (Ok tt, d') ∧ fewer d d' ∧ (kept k o = true → d' = d) ∧
    (kept k o = false → (∀ d0, (pool_Purge c d0).1 = None) → running d' !! container_ID c = None).

(** The only ways to lose a container: YDB when debugging, a failed removal,
    and Spanner's second [sql.Open]. *)
Definition lost (k : Kind) (o : options) (c : Resource) (d' : T) : Prop :=
  (k = Ydb ∧ debug o = true) ∨
  ((k = Ydb ∨ k = Spanner) ∧ ∃ d0 e, pool_Purge c d0 = (Some e, d')) ∨
  (k = Spanner ∧ ∃ d0 e, sql_Open "spanner" spanner_dsn d0 = (inr e, d')).

Inductive delivered (k : Kind) (o : options) (d : T) : Started → T → Prop :=
  | connects c db cl d' : started k o c d d' → connected k db d' → removes k o c cl →
      delivered k o d (mkStarted (Some db) (Some cl) None) d'
  | unreachable c cl e d' : started k o c d d' → removes k o c cl →
      delivered k o d (mkStarted None (Some cl) (Some e)) d'
  | nothing_left e d' : fewer d d' → delivered k o d (mkStarted None None (Some e)) d'
  | left_behind c e d' : started k o c d d' → lost k o c d' → delivered k o d (mkStarted None None (Some e)) d'.

Definition ends (m : M T Started) (R : Started → T → Prop) (d : T) : Prop :=
  match m d with (Ok s, d') => R s d' | _ => False end.

Lemma ends_or_return {A} (m : M T A) on_err k P R d : quiet m P d →
  (∀ e d', fewer d d' → m d = (Err e, d') → ends (on_err e) R d') →
  (∀ a d', fewer d d' → P a d' → ends (k a) R d') → ends (or_return m on_err k) R d.
Proof.
  unfold quiet, ends, or_return. rewrite bind_eq, catch_run.
  destruct (m d) as [[a|e|s|] d1]; naive_solver.
Qed.

Lemma ends_modify (f : T → T) m R d : ends m R (f d) → ends (modify f;; m) R d.
Proof. done. Qed.

Lemma ends_seq (m : M T unit) k R d :
  (∃ d', m d = (Ok tt, d') ∧ ends k R d') → ends (m;; k) R d.
Proof. intros (d' & Hm & Hk). unfold ends. by erewrite bind_run. Qed.

Lemma ends_catch_purge c k R d : ends k R (pool_Purge c d).2 → ends (catch (call_ (pool_Purge c));; k) R d.
Proof. unfold ends. rewrite bind_eq, catch_run. unfold call_. by destruct (pool_Purge c d) as [[e|] d']. Qed.

Lemma started_fewer k o c d d1 d2 : started k o c d d1 → fewer d1 d2 → started k o c d d2.
Proof. intros (d0 & Hd0 & Hc & Hd) Hf. exists d0. split_and!; [done..|]. by transitivity (running d1). Qed.

Lemma purge_fewer c d : fewer d (pool_Purge c d).2.
Proof.
  pose proof (Purge_law c d) as Hp. destruct (pool_Purge c d) as [[e|] d']; [done|].
  unfold fewer. etrans; [done|apply delete_subseteq].
Qed.

Lemma purge_gone c d : (pool_Purge c d).1 = None → running (pool_Purge c d).2 !! container_ID c = None.
Proof.
  pose proof (Purge_law c d) as Hp. destruct (pool_Purge c d) as [[e|] d']; [done|]. intros _. simpl.
  apply (lookup_weaken_None _ _ _ (lookup_delete_eq (running d) (container_ID c)) Hp).
Qed.

Lemma purge_started k o c d d1 : started k o c d d1 → (k = Ydb ∨ k = Spanner) → ∀ e,
  delivered k o d (mkStarted None None (Some e)) (pool_Purge c d1).2.
Proof.
  intros Hs Hk e. pose proof (purge_fewer c d1) as Hf. pose proof (Purge_law c d1) as Hp.
  destruct (pool_Purge c d1) as [[e'|] d'] eqn:Hrun; simpl in *.
  - eapply left_behind; [by eapply started_fewer|]. right. left. eauto.
  - apply nothing_left. destruct Hs as (d0 & Hd0 & Hc & Hd). transitivity d0; [done|]. unfold fewer.
    rewrite <- (delete_insert_id (running d0) (container_ID c) (wanted k o) Hc).
    etrans; [exact Hp|]. by apply delete_mono.
Qed.

(** ** The shared parts *)

Lemma removes_cleanup k o c : k ≠ Spanner → removes k o c (cleanup o c).
Proof.
  intros Hk d. assert (kept k o = debug o) as -> by by destruct k.
  unfold cleanup. destruct (debug o); [by exists d; split_and!|].
  exists (pool_Purge c d).2. split_and!; [|apply purge_fewer|done|intros _ Hp; apply purge_gone, Hp].
  rewrite bind_eq, catch_run. unfold call_. by destruct (pool_Purge c d) as [[e|] d'].
Qed.

Lemma removes_spanner o c db : removes Spanner o c (spanner_cleanup db c).
Proof.
  intros d. pose proof (Close_law db d) as Hclose. set (d1 := (db_Close db d).2) in *.
  exists (pool_Purge c d1).2. split_and!; [|etrans; [exact Hclose|apply purge_fewer]|done|intros _ Hp; apply purge_gone, Hp].
  unfold spanner_cleanup. rewrite bind_eq, catch_run. subst d1. unfold call_ at 1.
  destruct (db_Close db d) as [[e|] d']; rewrite bind_eq, catch_run; unfold call_;
    by destruct (pool_Purge c _) as [[e'|] d''].
Qed.

(** A pool and a container, or the error. *)
Lemma ends_started k o ro h f1 f2 body d :
  (ro, h no_host_config) = wanted k o → (∀ e, ∃ e', f1 e = failed e') → (∀ e, ∃ e', f2 e = failed e') →
  (∀ c d', started k o c d d' → ends (body c) (delivered k o d) d') →
  ends (or_return (call_ dockertest_NewPool) f1 (λ _, or_return (call (pool_RunWithOptions ro h)) f2 body))
    (delivered k o d) d.
Proof.
  intros Hw Hf1 Hf2 Hbody. eapply ends_or_return; [apply quiet_call_, NewPool_law| |].
  { intros e d' Hd' _. destruct (Hf1 e) as [e' ->]. by apply nothing_left. }
  intros [] d1 Hd1 _. unfold ends, or_return. rewrite bind_eq, catch_run. unfold call.
  pose proof (RunWithOptions_law ro h d1) as Hrun.
  destruct (pool_RunWithOptions ro h d1) as [[c|e] d2]; cycle 1.
  { destruct (Hf2 e) as [e' ->]. apply nothing_left. by etrans. }
  destruct Hrun as [Hc Hd2]. apply Hbody. exists d1. by rewrite <- Hw.
Qed.

(** The five databases that end alike. *)
Lemma ends_connect k o c (m : M T Handle) g d d1 :
  k ≠ Spanner → started k o c d d1 → quiet m (connected k) d1 →
  ends (or_return m (λ err, mret (mkStarted None (Some (cleanup o c)) (Some (g err))))
                    (λ db, mret (mkStarted (Some db) (Some (cleanup o c)) None))) (delivered k o d) d1.
Proof.
  intros Hk Hs Hm. eapply ends_or_return; [done| |].
  - intros e d' Hd' _. eapply unreachable; [by eapply started_fewer|by apply removes_cleanup].
  - intros db d' Hd' Hdb. eapply connects; [by eapply started_fewer|done|by apply removes_cleanup].
Qed.

Lemma quiet_ping k db d : k ≠ Turso → k ≠ Spanner →
  quiet (call_ (db_Ping db);; mret db) (connected k) d.
Proof.
  intros Ht Hs. eapply quiet_bind; [apply quiet_call_, Ping_law|]. intros [] d' Hp. apply quiet_ret. by destruct k.
Qed.

Lemma quiet_open_and_ping k driver dsn d : k ≠ Turso → k ≠ Spanner →
  quiet (open_and_ping driver dsn) (connected k) d.
Proof.
  intros Ht Hs. eapply quiet_bind; [apply quiet_call, Open_law|]. intros db d' _. by apply quiet_ping.
Qed.

Lemma quiet_exec db q g d : quiet (wrap_err g (call_ (db_Exec db q))) anything d.
Proof. eapply quiet_wrap_err, quiet_any, quiet_call_, Exec_law. Qed.

Lemma quiet_starrocks dsn d : quiet (starrocks_attempt dsn) (connected Starrocks) d.
Proof.
  eapply quiet_bind; [apply quiet_call, Open_law|]. intros db d' _.
  apply quiet_seq; [apply quiet_exec|]. intros d2. apply quiet_seq; [apply quiet_exec|]. intros d3.
  by apply quiet_ping.
Qed.

Lemma quiet_turso c d : quiet (tursoOpenDB c) (connected Turso) d.
Proof.
  eapply quiet_bind; [apply quiet_call, Open_law|]. intros db d' _.
  eapply quiet_bind; [apply quiet_call_, QueryRow_law|]. intros [] d2 Hq. by apply quiet_ret.
Qed.

Lemma quiet_close_on_error (close : T → option error * T) e d :
  (∀ d, fewer d (close d).2) → quiet (close_on_error close e) anything d.
Proof.
  intros Hc. apply quiet_seq; [by eapply quiet_catch, quiet_any, quiet_call_|]. intros d'. by apply quiet_ret.
Qed.

Lemma quiet_ydb b c dsn d : quiet (ydb_attempt b c dsn) (connected Ydb) d.
Proof.
  apply quiet_seq; [apply quiet_containerWaitHealthy|]. intros d1.
  eapply quiet_bind; [apply quiet_call, ydb_Open_law|]. intros n d2 _.
  apply quiet_on_error; [|intros; apply quiet_close_on_error, ydb_Close_law].
  eapply quiet_bind; [apply quiet_call, ydb_Connector_law|]. intros x d3 _.
  apply quiet_on_error; [|intros; apply quiet_close_on_error, connector_Close_law].
  eapply quiet_bind; [apply quiet_get, sql_OpenDB_law|]. intros db d4 _. by apply quiet_ping.
Qed.

Lemma quiet_createSpannerResources d : quiet createSpannerResources anything d.
Proof.
  eapply quiet_bind; [apply quiet_wrap_err, quiet_call, NewInstanceAdminClient_law|]. intros i d1 _.
  apply quiet_defer_close; [apply client_Close_law|].
  eapply quiet_bind; [apply quiet_wrap_err, quiet_call, NewDatabaseAdminClient_law|]. intros b d2 _.
  apply quiet_defer_close; [apply client_Close_law|].
  apply quiet_seq; [|intros d3]; eapply quiet_unless_exists, quiet_any, quiet_call_;
    [apply CreateInstance_law|apply CreateDatabase_law].
Qed.

Lemma quiet_spanner d : quiet spanner_attempt anything d.
Proof.
  apply quiet_seq; [apply quiet_createSpannerResources|]. intros d1.
  eapply quiet_bind; [apply quiet_call, Open_law|]. intros db d2 _.
  apply quiet_defer_close; [apply Close_law|]. eapply quiet_any, quiet_call_, Ping_law.
Qed.

(** ** Each database *)

Lemma newPostgres_delivers opts d : ends (newPostgres opts) (delivered Postgres (apply_funcs opts) d) d.
Proof.
  eapply ends_started; [done|by eexists..|]. intros c d1 Hs.
  apply ends_connect; [done..|]. apply quiet_Retry. intros. by apply quiet_open_and_ping.
Qed.

Lemma newMariaDB_delivers opts d : ends (newMariaDB opts) (delivered MariaDB (apply_funcs opts) d) d.
Proof.
  eapply ends_started; [done|by eexists..|]. intros c d1 Hs. apply ends_modify.
  apply ends_connect; [done|by eapply started_fewer, Sleep_law|].
  apply quiet_Retry. intros. by apply quiet_open_and_ping.
Qed.

Lemma newClickHouse_delivers opts d : ends (newClickHouse opts) (delivered ClickHouse (apply_funcs opts) d) d.
Proof.
  eapply ends_started; [done|by eexists..|]. intros c d1 Hs. apply ends_connect; [done..|].
  apply quiet_Retry. intros d2. eapply quiet_bind; [apply quiet_get; intros; apply OpenDB_law|].
  intros db d3 _. by apply quiet_ping.
Qed.

Lemma newStarrocks_delivers opts d : ends (newStarrocks opts) (delivered Starrocks (apply_funcs opts) d) d.
Proof.
  eapply ends_started; [done|by eexists..|]. intros c d1 Hs.
  apply ends_connect; [done..|]. apply quiet_Retry, quiet_starrocks.
Qed.

Lemma newTurso_delivers opts d : ends (newTurso opts) (delivered Turso (apply_funcs opts) d) d.
Proof.
  eapply ends_started; [done|by eexists..|]. intros c d1 Hs.
  apply ends_connect; [done..|]. apply quiet_Retry, quiet_turso.
Qed.

Lemma newYdb_delivers opts d : ends (newYdb opts) (delivered Ydb (apply_funcs opts) d) d.
Proof.
  eapply ends_started; [done|by eexists..|]. intros c d1 Hs.
  eapply ends_or_return; [apply quiet_Retry, quiet_ydb| |].
  - intros e d2 Hd2 _. assert (started Ydb (apply_funcs opts) c d d2) as Hs2 by by eapply started_fewer.
    unfold cleanup. destruct (debug (apply_funcs opts)) eqn:Hdebug.
    + eapply left_behind; [done|]. by left.
    + unfold ends. rewrite bind_eq, bind_eq, catch_run. unfold call_.
      pose proof (purge_started _ _ _ _ _ Hs2 (or_introl eq_refl)
                    (fmt_w "could not connect to docker database: %w" e)) as Hp.
      by destruct (pool_Purge c d2) as [[e'|] d3].
  - intros db d2 Hd2 Hdb. eapply connects; [by eapply started_fewer|done|by apply removes_cleanup].
Qed.

Lemma newSpanner_delivers opts d : ends (newSpanner opts) (delivered Spanner (apply_funcs opts) d) d.
Proof.
  eapply ends_started; [done|by eexists..|]. intros c d1 Hs. apply ends_modify.
  eapply started_fewer in Hs; [|apply Setenv_law]. eapply ends_or_return; [apply quiet_Retry, quiet_spanner| |].
  - intros e d2 Hd2 _. apply ends_catch_purge, purge_started; [by eapply started_fewer|by right].
  - intros [] d2 Hd2 _. eapply ends_or_return; [apply quiet_call, Open_law| |].
    + intros e d3 Hd3 Hrun. eapply left_behind; [by eapply started_fewer; [eapply started_fewer|]|].
      right. right. split; [done|]. exists d2, e. unfold call in Hrun.
      destruct (sql_Open "spanner" spanner_dsn d2) as [[x|x] d']; naive_solver.
    + intros db d3 Hd3 Hdb.
      eapply connects; [by eapply started_fewer; [eapply started_fewer|]|done|apply removes_spanner].
Qed.

End Spec.
