(* ===== verification/TestDBSamples.v ===== *)
(** * Databases in containers: a small engine

    Containers in a map, a database that answers after some pings, and a
    driver whose [sql.Open] works a given number of times; with it the theorem
    is applied, and the paths of interest are run. *)

From S2P Require Import Prelude GoStrings Effects Migration TestDB TestDBSpec.

Record machine := mkMachine { containers : Containers; opens_left : nat; deaf_pings : nat; spent : Z }.

Definition set_containers (c : Containers) (m : machine) : machine :=
  mkMachine c (opens_left m) (deaf_pings m) (spent m).

Definition nope : error := errors_New "not available".

Fixpoint retry_some {A} (n : nat) (m : M machine A) : M machine A := λ d,
  match m d with
  | (Err e, d') => match n with O => (Err (fmt_w "reached retry deadline: %w" e), d') | S n => retry_some n m d' end
  | r => r
  end.

Definition m_open (d : machine) : option error * machine :=
  match opens_left d with
  | O => (Some nope, d)
  | S n => (None, mkMachine (containers d) n (deaf_pings d) (spent d))
  end.

Definition m_ping (d : machine) : option error * machine :=
  match deaf_pings d with
  | O => (None, d)
  | S n => (Some nope, mkMachine (containers d) (opens_left d) n (spent d))
  end.

#[export] Instance machine_docker : DockerTest machine := {|
  Resource := string;
  container_ID c := c;
  GetPort _ _ := "49153";
  dockertest_NewPool d := (None, d);
  pool_RunWithOptions o h d :=
    let c := fresh (dom (containers d)) in
    (inl c, set_containers (<[c := (o, h no_host_config)]> (containers d)) d);
  pool_Purge c d := (None, set_containers (delete c (containers d)) d);
  pool_Retry A _ m := retry_some 3 m;
  InspectContainer_Health _ d := (inl "healthy", d);
  types_Healthy := "healthy";
  ctx_rounds _ := 2%nat
|}.

#[export] Instance machine_databases : Databases machine := {|
  Handle := unit;
  sql_Open _ _ d := let '(e, d') := m_open d in (match e with None => inl tt | Some e => inr e end, d');
  db_Ping _ := m_ping;
  db_Exec _ _ d := (None, d);
  db_QueryRow_Scan _ _ := m_ping;
  db_Close _ d := (None, d);
  clickhouse_OpenDB _ _ _ _ _ d := (tt, d);
  Native := unit;
  ydb_Open _ _ d := (inl tt, d);
  ydb_Close _ d := (None, d);
  YdbConnector := unit;
  ydb_Connector _ d := (inl tt, d);
  connector_Close _ d := (None, d);
  sql_OpenDB _ d := (tt, d);
  AdminClient := unit;
  NewInstanceAdminClient d := (inl tt, d);
  NewDatabaseAdminClient d := (inl tt, d);
  client_Close _ d := (None, d);
  CreateInstance _ _ _ _ d := (Some (errors_New "rpc error: AlreadyExists"), d);
  CreateDatabase _ _ _ d := (None, d);
  os_Setenv _ _ d := d;
  time_Sleep n d := mkMachine (containers d) (opens_left d) (deaf_pings d) (spent d + n);
  os_TempDir := "/tmp";
  Error_text e := match e with EErrorf s _ => s | _ => "" end
|}.

#[export] Instance machine_running : Running machine := containers.

Lemma retry_some_law {A} n (m : M machine A) d : ∃ d0 r r' d',
  tried fewer m d d0 ∧ m d0 = (r, d') ∧ retry_some n m d = (r', d') ∧ same_result r r'.
Proof.
  revert d. induction n as [|n IH]; intros d; simpl; destruct (m d) as [[a|e|s|] d1] eqn:Hm;
    try by eexists d, _, _, d1; split_and!; [apply tried_first|done|done|done].
  - exists d, (Err e), (Err (fmt_w "reached retry deadline: %w" e)), d1.
    split_and!; [apply tried_first|done|done|by eexists].
  - destruct (IH d1) as (d0 & r & r' & d' & Ht & ?). exists d0, r, r', d'. split; [|done].
    by eapply tried_again.
Qed.

#[export] Instance machine_laws : DockerTestLaws machine.
Proof.
  split; try by intros.
  - intros o h d. simpl. split; [apply not_elem_of_dom, is_fresh|done].
  - intros c d. simpl. done.
  - intros A w m d. apply retry_some_law.
  - intros driver dsn [c [|n] p s]; unfold fewer; simpl; done.
  - intros db [c n [|p] s]; unfold fewer; simpl; done.
  - intros db q [c n [|p] s]; unfold fewer; simpl; done.
  - intros n d. unfold fewer. simpl. done.
Defined.

Definition machine0 (opens pings : nat) : machine := mkMachine ∅ opens pings 0.


Definition left_running (k : Kind) (opts : list OptionsFunc) (opens pings : nat) : nat :=
  size (containers (new_database k opts (machine0 opens pings)).2).

(** YDB that never answers is removed, unless it is being debugged. *)
Example ydb_removed : left_running Ydb [] 9 9 = 0%nat.
Proof. vm_compute. reflexivity. Qed.
Example ydb_kept : left_running Ydb [WithDebug true] 9 9 = 1%nat.
Proof. vm_compute. reflexivity. Qed.

(** Spanner's emulator is lost when the second [sql.Open] fails. *)
Lemma spanner_lost :
  left_running Spanner [] 1 0 = 1%nat ∧
  match new_database Spanner [] (machine0 1 0) with
  | (Ok s, _) => st_cleanup s = None ∧ st_err s = Some (fmt_v "failed to open spanner DB: %v" nope)
  | _ => False
  end.
Proof. vm_compute. by split_and!. Qed.
