(* ===== verification/Samples.v ===== *)
(** * A concrete provider

    The theorems about providers evaluated on a provider with two SQL files and
    a Go migration over the in-memory database of [MemDB]: the assumptions on
    the store, the user's code, the lockers and the libraries all hold there. *)

From S2P Require Import Prelude GoStrings Effects Resolve SqlParser Dialects Sql Store MemDB.
From S2P Require Import Migration Options Collect Runner Provider ProviderLocks RunnerSpec.
From S2P Require Import ProviderSpec ProviderQueries.

#[local] Existing Instance pair_Append.
#[local] Existing Instance pair_Append_laws.
#[local] Existing Instance loop_retry.
#[local] Existing Instance loop_retry_laws.

(** ** The instance *)

(** Function 9 panics, the others execute a statement. *)
Definition s_go (id : Z) (db : DBTxConn) : M (DB mem) unit :=
  if id =? 9 then panic "boom" else ExecContext db "SELECT go" [].

Definition s_user (q : string) : Prop := mem_kind q = KOther.

Definition file_a : string := unlines ["-- +goose Up"; "CREATE TABLE a;"; "-- +goose Down"; "DROP TABLE a;"].
Definition file_c : string := unlines ["-- +goose Up"; "CREATE TABLE c;"; "-- +goose Down"; "DROP TABLE c;"].

Definition s_open : FS := λ name,
  if String.eqb name "00001_a.sql" then inl (mkReader file_a None, None)
  else if String.eqb name "00003_c.sql" then inl (mkReader file_c None, None)
  else inr (ESentinel fs_ErrNotExist).

Definition s_fsys : FileSystem := mkFileSystem s_open (λ _, inl []).

Definition s_migs (go : Z) : list Migration :=
  [newSQLMigration (mkSource TypeSQL "00001_a.sql" 1);
   NewGoMigration 2 (Some (mkGoFunc (Some go) None 0)) None;
   newSQLMigration (mkSource TypeSQL "00003_c.sql" 3)].

Definition s_locker : SessionLocker mem := mkSessionLocker mem (mret tt) (mret tt).
Definition s_config : config mem := set_sessionLocker s_locker empty_config.

Definition s_provider : Provider mem := mkProvider mem_store s_fsys s_config (s_migs 5).

(** A provider over a database with the rows [tbl]; the Go migration calls
    function [go]. *)
Definition s_world (tbl : option (list (Z * bool))) (failing : list string) (max : Z) (go : Z) : PW mem :=
  mkPW (mem_open tbl failing max) false false (s_migs go).

(** ** The assumptions hold *)

Lemma s_go_pool id db : Runs (room (D:=mem)) (s_go id db).
Proof. unfold s_go. destruct (id =? 9); [apply runs_panic|apply ExecContext_runs]. Qed.

Lemma mem_exec_user q (d : mem) : s_user q → m_tbl (mem_exec q [] d).2 = m_tbl d.
Proof. unfold s_user, mem_exec. intros ->. by case_match. Qed.

#[export] Instance s_user_laws : UserLaws (U:=list string) s_user s_go.
Proof.
  split.
  - intros db q d Hq. by apply mem_exec_user.
  - intros id db. unfold s_go. destruct (id =? 9); [apply preserves_panic|apply ExecContext_session].
  - intros id db. unfold s_go. destruct (id =? 9); [apply preserves_panic|].
    assert (s_user "SELECT go") as Hq by by vm_compute.
    intros w. unfold ExecContext, with_handle, drv_call, table, db_view.
    pose proof (mem_exec_user "SELECT go" (drv w) Hq) as Hx. cbn [drv_exec mem_driver].
    destruct (mem_exec "SELECT go" [] (drv w)) as [[] d]; destruct db, (pool_exhausted w), (txOpen w);
      simpl in *; done.
Qed.

Lemma s_go_ok : go_ok (U:=list string) s_go.
Proof. intros id db. apply user_go_session. Qed.

Lemma s_lock_op_ok : lock_op_ok (D:=mem) (U:=list string) (mret tt).
Proof. split; [apply preserves_ret|apply preserves_ret|apply no_panic_ret]. Qed.

Lemma s_lockers_ok : lockers_ok (U:=list string) s_config.
Proof. split; [|done]. intros l [= <-]. split; apply s_lock_op_ok. Qed.

Lemma s_lockers_run : lockers_run s_config.
Proof. split; [|done]. intros l [= <-]. split; apply runs_ret. Qed.

Lemma s_store_spec : StoreSpec (U:=list string) (p_store s_provider).
Proof. apply mem_store_spec. Qed.

Lemma s_store_runs : store_runs (p_store s_provider).
Proof. apply new_store_runs. Qed.

(** The driver's errors are not [ErrUnsupported], and Postgres has a query for
    the existence of a table. *)
Lemma s_exists : tells_existence (p_store s_provider).
Proof.
  intros db w e w'. unfold TableExists. cbn [p_store s_provider mem_store s_TableExists new_store].
  unfold store_TableExists, queryController_TableExists.
  destruct (q_TableExists NewPostgres) as [f|] eqn:Hf; [|by vm_compute in Hf].
  destruct (kind_exists f Hf) as [Hne Hk]. rewrite (proj2 (String.eqb_neq _ _) Hne). intros He. run_inv.
  - rename select (QueryRowContext _ _ _ _ = _) into Hq.
    apply QueryRowContext_err in Hq as [[Hq| ->]|[-> Hq]]; [|done|done].
    cbn [drv_query mem_driver fst] in Hq. unfold mem_query in Hq. rewrite Hk in Hq. by simplify_eq.
  - unfold scan_exists, scan_bool, scan_arity in *. by case_all.
Qed.

Lemma s_parsed up_first name ps :
  ParseAllFromFS inl up_first (fs_Open (p_fsys s_provider)) name = inl ps →
  Forall s_user (SqlParser.Up ps) ∧ Forall s_user (SqlParser.Down ps).
Proof.
  unfold ParseAllFromFS, parse. cbn [fs_Open p_fsys s_provider s_fsys]. unfold s_open.
  destruct (String.eqb name "00001_a.sql"); [|destruct (String.eqb name "00003_c.sql"); [|done]].
  - intros Hp. vm_compute in Hp. injection Hp as <-. split; repeat constructor; by vm_compute.
  - intros Hp. vm_compute in Hp. injection Hp as <-. split; repeat constructor; by vm_compute.
Qed.

Lemma s_well_formed tbl failing max go : well_formed (U:=list string) s_user s_provider (s_world tbl failing max go).
Proof.
  split_and!.
  - repeat constructor.
  - right. split; [done|by left].
  - repeat constructor.
Qed.

(** ** Witnesses *)

Abbreviation s_run_call := (run_call s_go inl (λ _, true) s_provider).
Definition s_calls : list Call := [CUp; CStatus; CDownTo 1; CHasPending; CApplyVersion 1 false].

Definition all_errors (r : outcome (list (option error)) * PW mem) : option (list bool) :=
  match r with (Ok errs, _) => Some (map is_nil errs) | _ => None end.

Definition s_fresh : PW mem := s_world None [] 2 5.
Definition s_panicking : PW mem := s_world None [] 2 9.

Lemma calls_release_witness :
  all_errors (mmap s_run_call s_calls s_fresh) = Some [true; true; true; true; true] ∧
  match mmap s_run_call s_calls s_panicking with
  | (Block, _) => True
  | (_, w') => w_mu w' = w_mu s_panicking ∧ inUse (w_db w') = inUse (w_db s_panicking) ∧
      maxOpen (w_db w') = maxOpen (w_db s_panicking)
  end.
Proof.
  split; [by vm_compute|].
  pose proof (calls_release s_go s_go_ok inl (λ _, true) s_provider s_store_spec s_lockers_ok s_calls
    s_panicking) as Hc. exact Hc.
Defined.


Definition s_mig (go : Z) : Migration := NewGoMigration 2 (Some (mkGoFunc (Some go) None 0)) None.
Definition s_sql_mig : Migration :=
  set_sql (mkSqlMigration true true ["CREATE TABLE a;"; "CREATE TABLE b;"] []) (newSQLMigration (mkSource TypeSQL "1_a.sql" 1)).

(** The first statement runs, the second fails: nothing is left. *)
Definition s_db : DB mem := mem_open (Some [(0, true)]) ["CREATE TABLE b;"] 2.
Definition s_failing_run : outcome unit * DB mem := runIndividually s_go mem_store false false s_sql_mig true s_db.

Lemma s_failing_run_eq : s_failing_run = (Err mem_error, s_failing_run.2).
Proof. vm_compute. reflexivity. Qed.

Lemma failed_tx_rolls_back_witness :
  m_log (drv s_failing_run.2) = [] ∧ db_view s_failing_run.2 = db_view s_db.
Proof.
  split; [vm_compute; reflexivity|].
  exact (failed_tx_rolls_back s_user s_go mem_store mem_store_spec false s_sql_mig true s_db mem_error
    s_failing_run.2 eq_refl s_failing_run_eq).
Defined.

(** The third migration fails. *)
Definition s_partial_world : PW mem := s_world (Some [(0, true)]) ["CREATE TABLE c;"] 2 5.
Definition s_partial_run : outcome (list MigrationResult) * PW mem :=
  runMigrations s_go inl (λ _, true) s_provider [0; 1; 2]%nat DirectionUp false s_partial_world.

Lemma s_partial_points : points_to s_partial_world [0; 1; 2]%nat [1; 2; 3].
Proof. repeat constructor. Qed.

Lemma runMigrations_spec_witness :
  match s_partial_run with
  | (Ok rs, w') => map res_version rs = selected false [1; 2; 3] ∧ Forall (succeeded DirectionUp) rs ∧
      ptable w' = Some (record_all (ToBool DirectionUp) (selected false [1; 2; 3]) [(0, true)])
  | (Err e, w') => run_failed s_partial_world (ToBool DirectionUp) (selected false [1; 2; 3]) [(0, true)] e w'
  | _ => True
  end ∧ ptable s_partial_run.2 = Some [(2, true); (1, true); (0, true)].
Proof.
  split; [|vm_compute; reflexivity].
  pose proof (runMigrations_spec s_user s_go inl (λ _, true) s_provider s_store_spec s_parsed [0; 1; 2]%nat
    DirectionUp false s_partial_world [1; 2; 3] [(0, true)] eq_refl
    (proj1 (s_well_formed (Some [(0, true)]) ["CREATE TABLE c;"] 2 5)) s_partial_points eq_refl) as Hc.
  exact Hc.
Defined.

(** A pointer to a file that does not exist: nothing is run. *)
Definition s_missing_world : PW mem :=
  mkPW (mem_open (Some [(0, true)]) [] 2) false false
    (s_migs 5 ++ [newSQLMigration (mkSource TypeSQL "00004_d.sql" 4)]).
Definition s_missing_run : outcome (list MigrationResult) * PW mem :=
  runMigrations s_go inl (λ _, true) s_provider [0; 1; 2; 3]%nat DirectionUp false s_missing_world.
Definition s_missing_error : error :=
  match s_missing_run.1 with Err e => e | _ => ErrTxDone end.

Lemma s_missing_run_eq : s_missing_run = (Err s_missing_error, s_missing_run.2).
Proof. vm_compute. reflexivity. Qed.

Lemma prepare_before_run_witness :
  w_db s_missing_run.2 = w_db s_missing_world.
Proof.
  assert (NoDup [0; 1; 2; 3]%nat) as Hnd by (apply (bool_decide_unpack _); by vm_compute).
  assert ((unprepared inl (λ _, true) s_provider 3 (ToBool DirectionUp) s_missing_world).1 ≠ Ok tt) as Hbad.
  { vm_compute. discriminate. }
  assert (3%nat ∈ [0; 1; 2; 3]%nat) as Hin by (apply (bool_decide_unpack _); by vm_compute).
  pose proof (prepare_before_run s_user s_go inl (λ _, true) s_provider s_parsed [0; 1; 2; 3]%nat
    DirectionUp false s_missing_world 3 s_missing_error s_missing_run.2 Hnd Hin Hbad s_missing_run_eq) as Hc.
  exact Hc.
Defined.

(** [Up], then [DownTo 0]. *)
Definition s_up : outcome results_t * PW mem := Provider_Up s_go inl (λ _, true) s_provider s_fresh.
Definition s_down : outcome results_t * PW mem := DownTo s_go inl (λ _, true) s_provider 0 s_up.2.

Definition results_of (r : outcome results_t * PW mem) : list MigrationResult :=
  match r with (Ok (rs, _), _) => rs | _ => [] end.

Lemma s_up_eq : s_up = (Ok (results_of s_up, None), s_up.2).
Proof. vm_compute. reflexivity. Qed.

Lemma s_down_eq : s_down = (Ok (results_of s_down, None), s_down.2).
Proof. vm_compute. reflexivity. Qed.

Definition s_up_to : outcome results_t * PW mem := UpTo s_go inl (λ _, true) s_provider 2 s_fresh.

Lemma UpTo_spec_witness :
  map res_version (results_of s_up_to) = [1; 2] ∧
  method_spec (U:=list string) DirectionUp (pending (pversions s_fresh) (ensured (ptable (U:=list string) s_fresh)).*1 2)
    (ensured (ptable (U:=list string) s_fresh)) s_fresh s_up_to.
Proof.
  split; [vm_compute; reflexivity|].
  pose proof (UpTo_spec s_user s_go inl (λ _, true) s_provider s_store_spec s_lockers_ok s_exists s_parsed
    2 s_fresh eq_refl (s_well_formed None [] 2 5) ltac:(done)) as Hc. exact Hc.
Defined.

(** Rolling back on a database whose migrations were applied out of order:
    version 1 last, then 3, then the Go migration 2. *)
Definition s_applied : PW mem := s_world (Some [(1, true); (3, true); (2, true); (0, true)]) [] 2 5.
Definition s_down_to : outcome results_t * PW mem := DownTo s_go inl (λ _, true) s_provider 0 s_applied.

Lemma s_applied_nonempty : w_migs s_applied ≠ [].
Proof. done. Qed.

Lemma DownTo_spec_witness :
  map res_version (results_of s_down_to) = [1; 3; 2] ∧
  method_spec (U:=list string) DirectionDown (to_undo 0 (ensured (ptable (U:=list string) s_applied)))
    (ensured (ptable (U:=list string) s_applied)) s_applied s_down_to.
Proof.
  split; [vm_compute; reflexivity|].
  pose proof (DownTo_spec s_user s_go inl (λ _, true) s_provider s_store_spec s_lockers_ok s_exists s_parsed
    0 s_applied eq_refl (s_well_formed _ [] 2 5) s_applied_nonempty) as Hc. exact Hc.
Defined.

Lemma s_fresh_nonempty : w_migs s_fresh ≠ [].
Proof. done. Qed.

Lemma Up_DownTo_roundtrip_witness :
  map res_version (results_of s_up) = slices_Sort (filter (λ v, v ≤ maxInt64) (pversions s_fresh)) ∧
  map res_version (results_of s_down) = reverse (map res_version (results_of s_up)) ∧
  ptable (U:=list string) s_down.2 = Some [(0, true)].
Proof.
  pose proof (Up_DownTo_roundtrip s_user s_go inl (λ _, true) s_provider s_store_spec s_lockers_ok s_exists
    s_parsed s_fresh (results_of s_up) s_up.2 (results_of s_down) s_down.2 eq_refl (s_well_formed None [] 2 5)
    s_fresh_nonempty (or_introl eq_refl) s_up_eq s_down_eq) as Hc.
  exact Hc.
Defined.

(** The migrations 1 and 2 are applied, 3 is not. *)
Definition s_half : PW mem := s_world (Some [(2, true); (1, true); (0, true)]) [] 2 5.
Definition s_status : outcome (list MigrationStatus * option error) * PW mem := Status s_provider s_half.
Definition s_statuses : list MigrationStatus := match s_status.1 with Ok (sts, _) => sts | _ => [] end.

Lemma s_status_eq : s_status = (Ok (s_statuses, None), s_status.2).
Proof. vm_compute. reflexivity. Qed.

Lemma Status_spec_witness :
  Forall2 (status_of (ensured (ptable (U:=list string) s_half))) (w_migs s_half) s_statuses ∧
  ptable (U:=list string) s_status.2 = Some (ensured (ptable (U:=list string) s_half)).
Proof.
  pose proof (Status_spec s_user s_provider s_store_spec s_lockers_ok s_exists s_half
    s_statuses s_status.2 eq_refl (s_well_formed _ [] 2 5) s_status_eq) as Hc. exact Hc.
Defined.

Definition s_versions : outcome (Z * Z * option error) * PW mem := GetVersions s_provider s_half.

Lemma s_versions_eq : s_versions = (Ok (2, 3, None), s_versions.2).
Proof. vm_compute. reflexivity. Qed.

Lemma GetVersions_spec_witness :
  max_version (ensured (ptable (U:=list string) s_half)) = Some 2 ∧ last (pversions s_half) = Some 3 ∧
  ptable (U:=list string) s_versions.2 = Some (ensured (ptable (U:=list string) s_half)).
Proof.
  pose proof (GetVersions_spec s_user s_provider s_store_spec s_lockers_ok s_exists s_half
    2 3 s_versions.2 eq_refl (s_well_formed _ [] 2 5) s_versions_eq) as Hc. exact Hc.
Defined.

(** Rolling back version 2 alone. *)
Definition s_apply : outcome (option MigrationResult * option error) * PW mem :=
  ApplyVersion s_go inl (λ _, true) s_provider 2 false s_half.
Definition s_apply_result : option MigrationResult :=
  match s_apply.1 with Ok (res, _) => res | _ => None end.

Lemma s_apply_eq : s_apply = (Ok (s_apply_result, None), s_apply.2).
Proof. vm_compute. reflexivity. Qed.

Lemma ApplyVersion_spec_witness :
  1 ≤ 2 ∧ 2 ∈ pversions s_half ∧ (2 ∈ (ensured (ptable (U:=list string) s_half)).*1 ↔ false = false) ∧
  (∃ r, s_apply_result = Some r ∧ res_version r = 2) ∧
  ptable (U:=list string) s_apply.2 = Some (record false 2 (ensured (ptable (U:=list string) s_half))).
Proof.
  pose proof (ApplyVersion_spec s_user s_go inl (λ _, true) s_provider s_store_spec s_lockers_ok s_exists s_parsed
    2 false s_half s_apply_result None s_apply.2 eq_refl (s_well_formed _ [] 2 5) s_apply_eq) as Hc. exact Hc.
Defined.

(** The database refuses the commit that would create the version table. *)
Definition s_refusing : PW mem := s_world None ["COMMIT"] 2 5.
Definition s_ensure : outcome unit * PW mem := ensureVersionTable s_provider s_refusing.
Definition s_ensure_error : error := match s_ensure.1 with Err e => e | _ => ErrTxDone end.

Lemma s_ensure_eq : ensureVersionTable s_provider s_refusing = (Err s_ensure_error, s_ensure.2).
Proof. vm_compute. reflexivity. Qed.

Lemma s_refusing_none : ptable (U:=list string) s_refusing = None.
Proof. done. Qed.

Lemma ensure_once_not_retried_witness :
  ptable (U:=list string) s_ensure.2 = None ∧ ensureVersionTable s_provider s_ensure.2 = (Ok tt, s_ensure.2).
Proof.
  pose proof (ensure_once_not_retried s_provider s_store_spec s_exists s_refusing s_ensure_error s_ensure.2
    eq_refl s_refusing_none s_ensure_eq) as Hc. exact Hc.
Defined.

(** A Go migration that runs outside a transaction, with one connection, which
    the provider holds. *)
Definition s_notx_mig : Migration :=
  NewGoMigration 2 (Some (mkGoFunc None (Some 5) TransactionDisabled))
    (Some (mkGoFunc None (Some 5) TransactionDisabled)).
Definition s_unlocked : Provider mem := mkProvider mem_store s_fsys empty_config [s_notx_mig].
Definition s_waiting : PW mem :=
  mkPW (db_Conn (mem_open (Some [(0, true)]) [] 1)).2 true true [s_notx_mig].

Lemma go_no_tx_deadlock_witness :
  prepareMigration inl (λ _, true) s_unlocked 0 true s_waiting = (Ok tt, s_waiting) ∧
  (run_one s_go s_unlocked s_notx_mig true s_waiting).1 ≠ Ok tt ∧
  ((runMigration s_go HDB s_notx_mig true (w_db s_waiting)).1 = Ok tt →
    (run_one s_go s_unlocked s_notx_mig true s_waiting).1 = Block).
Proof.
  pose proof (go_no_tx_deadlock s_go s_go_ok inl (λ _, true) s_unlocked "goose_db_version" NewPostgres eq_refl
    0 s_notx_mig true s_waiting eq_refl eq_refl eq_refl eq_refl eq_refl eq_refl eq_refl) as Hc. exact Hc.
Defined.
