(* ===== verification/IntegrationSamples.v ===== *)
(** * A sample run of the integration test

    [testDatabase] on a directory with two SQL files over the in-memory
    database, and on a directory with a gap, which it rejects. *)

From S2P Require Import Prelude GoStrings Effects Resolve SqlParser Dialects Sql Store MemDB.
From S2P Require Import Migration Options Collect Runner Provider ProviderLocks RunnerSpec ProviderSpec.
From S2P Require Import Integration IntegrationSpec Samples.

#[local] Existing Instance pair_Append.
#[local] Existing Instance pair_Append_laws.
#[local] Existing Instance loop_retry.
#[local] Existing Instance loop_retry_laws.

Definition i_names : list string := ["00001_a.sql"; "00002_c.sql"].

Definition i_open : FS := λ name,
  if String.eqb name "00001_a.sql" then inl (mkReader file_a None, None)
  else if String.eqb name "00002_c.sql" then inl (mkReader file_c None, None)
  else inr (ESentinel fs_ErrNotExist).

Definition i_DirFS (names : list string) (dir : string) : FileSystem :=
  mkFileSystem i_open (λ pattern, inl (if String.eqb pattern "*.sql" then names else [])).

Definition i_ReadDir (names : list string) (dir : string) : result (list DirEntry) :=
  inl (map (λ n, mkDirEntry n false) names).

Definition i_config : config mem := set_logger 0 empty_config.

Definition i_provider (names : list string) : Provider mem :=
  mkProvider mem_store (i_DirFS names "migrations") i_config (map newSQLMigration (dir_sources names)).

Definition i_test (names : list string) : M (DB mem) unit :=
  testDatabase map_to_list s_go inl (λ _, true) (i_ReadDir names) (i_DirFS names) ∅ DialectPostgres "migrations" [].

Lemma i_numbered : numbered_dir (i_ReadDir i_names "migrations") (i_DirFS i_names "migrations") i_names.
Proof.
  split; [done..| |].
  - intros i name Hi. by destruct i as [|[|i]]; [injection Hi as <-..|].
  - intros name Hin. unfold i_names in Hin. by repeat (apply elem_of_cons in Hin as [-> |Hin]); [..|apply elem_of_nil in Hin].
Qed.

Lemma i_plain : plain_options (D:=mem) [] ∅ empty_config.
Proof. by split; [..|right]. Qed.

Lemma i_new : NewProvider map_to_list DialectPostgres (Some (i_DirFS i_names "migrations")) [] ∅ = Ok (i_provider i_names).
Proof. vm_compute. reflexivity. Qed.

Lemma i_parsed up_first name ps :
  ParseAllFromFS inl up_first (fs_Open (p_fsys (i_provider i_names))) name = inl ps →
  Forall s_user (SqlParser.Up ps) ∧ Forall s_user (SqlParser.Down ps).
Proof.
  unfold ParseAllFromFS, parse. cbn [fs_Open p_fsys i_provider i_DirFS]. unfold i_open.
  destruct (String.eqb name "00001_a.sql"); [|destruct (String.eqb name "00002_c.sql"); [|done]].
  - intros Hp. vm_compute in Hp. injection Hp as <-. split; repeat constructor; by vm_compute.
  - intros Hp. vm_compute in Hp. injection Hp as <-. split; repeat constructor; by vm_compute.
Qed.

Lemma i_lockers_ok : lockers_ok (U:=list string) i_config.
Proof. done. Qed.

Definition i_db : DB mem := mem_open None [] 2.

Lemma i_passes : (i_test i_names i_db).1 = Ok tt.
Proof. by vm_compute. Qed.


(** A gap is noticed by the check of the current version. *)
Lemma i_gap : (i_test ["00002_c.sql"] i_db).1 = Err (mismatch "current version").
Proof. by vm_compute. Qed.
