(* ===== verification/LegacySamples.v ===== *)
(** * The legacy commands on a concrete directory

    The theorems about the legacy interface evaluated on a directory with two
    SQL files and a Go file whose migration is registered, over the in-memory
    database of [MemDB]: their assumptions hold there. *)

From S2P Require Import Prelude GoStrings Effects Resolve SqlParser Dialects Sql Store MemDB.
From S2P Require Import Migration Options Collect Runner Provider ProviderLocks RunnerSpec.
From S2P Require Import ProviderSpec ProviderQueries Samples.
From S2P Require Import LegacyStore Legacy LegacyRun LegacySpec LegacyCollect LegacyResolve LegacyMethods.

#[local] Existing Instance pair_Append.
#[local] Existing Instance pair_Append_laws.

(** ** The directory and the registry *)

Definition l_open : FS := λ name,
  if String.eqb name "db/00001_a.sql" then inl (mkReader file_a None, None)
  else if String.eqb name "db/00003_c.sql" then inl (mkReader file_c None, None)
  else inr (ESentinel fs_ErrNotExist).

Definition l_glob (pattern : string) : result (list string) :=
  if String.eqb pattern "db/*.sql" then inl ["db/00001_a.sql"; "db/00003_c.sql"]
  else if String.eqb pattern "db/*.go" then inl ["db/00002_b.go"]
  else inl [].

Definition l_baseFS : BaseFS := mkBaseFS (mkFileSystem l_open l_glob) (λ _, None).

(** Version 2 is registered with an up function and no down function, as
    [AddNamedMigrationContext] leaves it. *)
Definition l_registry : registry := (AddNamedMigrationContext "db/00002_b.go" (Some 5) None ∅).2.

Definition l_world (tbl : option (list (Z * bool))) : LW mem := mkLW (mem_open tbl [] 2) l_registry [].

Abbreviation l_query := NewPostgres.
Abbreviation l_table := mem_table.

Lemma l_glob_ok : glob_ok l_baseFS.
Proof.
  intros dir pattern files file _. cbn [b_fs l_baseFS fs_Glob]. unfold l_glob.
  destruct (String.eqb _ _); [|destruct (String.eqb _ _)]; intros [= <-] Hin;
    repeat (apply elem_of_cons in Hin as [->|Hin]); try by apply elem_of_nil in Hin.
  - right. by vm_compute.
  - right. by vm_compute.
  - left. by vm_compute.
Qed.

Definition l_range : registry → list (Z * Migration) := map_to_list.

Lemma l_range_ok : range_ok l_range.
Proof. by intros m. Qed.

Lemma l_parsed name f dir parsed :
  fs_Open (b_fs l_baseFS) name = inl f → ParseSQLMigration inl f.1 dir = inl parsed → Forall s_user parsed.1.
Proof.
  cbn [b_fs l_baseFS fs_Open]. unfold l_open.
  destruct (String.eqb name "db/00001_a.sql"); [|destruct (String.eqb name "db/00003_c.sql"); [|done]].
  - intros [= <-] Hp. destruct dir; vm_compute in Hp; injection Hp as <-; repeat constructor; by vm_compute.
  - intros [= <-] Hp. destruct dir; vm_compute in Hp; injection Hp as <-; repeat constructor; by vm_compute.
Qed.

Lemma l_registry_eq : ∃ m, l_registry = {[ 2 := m ]} ∧ m_Version m = 2 ∧ m_Source m = "db/00002_b.go" ∧
  m_noVersioning m = false.
Proof. eexists. split_and!; reflexivity. Qed.

Lemma l_well_formed tbl : registry_well_formed (l_world tbl).
Proof.
  destruct l_registry_eq as (m & Hr & Hv & Hs & Hn). unfold registry_well_formed, reg_ok. cbn [l_reg l_world].
  rewrite Hr. split; intros k m' [<- <-]%lookup_singleton_Some.
  - split; [done|]. rewrite Hs. by vm_compute.
  - split; [|done]. right. rewrite Hs. by vm_compute.
Qed.

Lemma l_list_live (d : DB mem) t :
  table (U:=list string) d = Some t → pool_exhausted d = false →
  ∃ rs d', legacy_ListMigrations l_query l_table d = (Ok rs, d') ∧ pool_exhausted d' = false.
Proof.
  intros Ht Hp. destruct (QueryContext_live HDB (q_ListMigrations l_query l_table) [] d
    (map (λ r, [VInt r.1; VBool r.2]) t)) as [d' Hd'].
  - cbn. by rewrite Hp.
  - cbn [drv_query mem_driver]. unfold mem_query. rewrite kind_list. unfold table, db_view in Ht. cbn in Ht.
    by rewrite Ht.
  - pose proof (QueryContext_pool HDB (q_ListMigrations l_query l_table) [] d) as Hpool. rewrite Hd' in Hpool.
    unfold pool in Hpool. cbn in Hpool. exists (map (λ r, {| lm_Version := r.1; lm_IsApplied := r.2 |}) t), d'. split.
    + unfold legacy_ListMigrations. cbn zeta. rewrite bind_eq, Hd'. clear. induction t as [|[v b] t IH]; [done|].
      cbn [map mmap]. rewrite bind_eq. cbn. cbn in IH. by rewrite bind_eq, IH.
    + unfold pool_exhausted in *. simplify_eq/=. congruence.
Qed.

Lemma l_reads (w : DB mem) e w' :
  legacy_ListMigrations l_query l_table w = (Err e, w') → table (U:=list string) w = None.
Proof.
  intros Hl. destruct (table w) as [t|] eqn:Ht; [|done]. destruct (pool_exhausted w) eqn:Hp.
  - unfold legacy_ListMigrations in Hl. rewrite bind_eq in Hl. unfold QueryContext, with_handle in Hl.
    by rewrite Hp in Hl.
  - destruct (l_list_live w t Ht Hp) as (rs & d & Hd & _). congruence.
Qed.

(** ** Witnesses *)

(** Versions 1 and 3 are in the database, 2 and 4 are not: 2 is missing. *)
Definition l_found : list (ptr * Migration) :=
  map (λ v, (PNew (Z.to_nat v), file_migration v "")) [1; 2; 3; 4].

Lemma legacy_resolves_alike_witness :
  to_apply true l_found (merge_sort Z.le [3; 1; 0]) 3 9 = inl [PNew 2; PNew 4] ∧
  match to_apply false l_found (merge_sort Z.le [3; 1; 0]) 3 9, UpVersions (found_version <$> l_found) [3; 1; 0] 9 false with
  | inl ps, inl vs => ∃ l, ps = l.*1 ∧ l ⊆ l_found ∧ found_version <$> l = vs
  | inr _, inr _ => True
  | _, _ => False
  end.
Proof.
  split; [by vm_compute|].
  assert (StronglySorted Z.lt (found_version <$> l_found)) as Hs by (cbn; repeat constructor).
  assert (Forall (λ v, 0 < v ∧ v ≤ 9) (found_version <$> l_found)) as Hp by (cbn; repeat constructor; lia).
  pose proof (legacy_resolves_alike l_found [3; 1; 0] 3 9 Hs Hp eq_refl false) as Hc. exact Hc.
Defined.

Definition l_up : outcome unit * LW mem :=
  UpToContext s_go inl l_range l_baseFS l_query l_table "db" 2 [] (l_world None).


(** Version 3 was applied before version 2. *)
Definition l_rows : list (Z * bool) := [(2, true); (3, true); (1, true); (0, true)].
Definition l_down : outcome (option unit) * LW mem :=
  DownToContext s_go inl l_range l_baseFS l_query l_table 5 "db" 1 [] (l_world (Some l_rows)).

Lemma l_rows_plain : plain_rows l_rows.
Proof. split; [apply (bool_decide_unpack _); by vm_compute|repeat constructor]. Qed.


(** A database with a row that says that version 3 was rolled back. *)
Definition l_undone : list (Z * bool) := [(3, false); (2, true); (3, true); (1, true); (0, true)].
Definition l_reset : outcome (option unit) * LW mem :=
  ResetContext s_go inl l_range l_baseFS l_query l_table 0 "db" [] (l_world (Some l_undone)).

Lemma legacy_Reset_spec_witness :
  ltable (U:=list string) l_reset.2 = Some [(3, false); (3, true); (0, true)] ∧
  let vs := filter (applied_now l_undone)
    (reverse (collected_versions l_range l_baseFS "db" maxVersion (l_world (Some l_undone)))) in
  match l_reset with
  | (Ok r, w') => r = Some tt ∧ ltable (U:=list string) w' = Some (record_all false vs l_undone)
  | (Err _, w') => lrecorded (U:=list string) false vs l_undone w'
  | _ => True
  end.
Proof.
  split; [by vm_compute|].
  pose proof (legacy_Reset_spec s_user s_go inl l_range l_range_ok l_baseFS l_glob_ok l_query l_table l_parsed
    0 "db" [] (l_world (Some l_undone)) l_undone eq_refl (l_well_formed _) eq_refl) as Hc. exact Hc.
Defined.

Definition l_up_undone : outcome unit * LW mem :=
  UpToContext s_go inl l_range l_baseFS l_query l_table "db" maxVersion [] (l_world (Some l_undone)).

Lemma l_up_undone_eq :
  UpToContext s_go inl l_range l_baseFS l_query l_table "db" maxVersion [] (l_world (Some l_undone)) =
  (Ok tt, l_up_undone.2).
Proof. vm_compute. reflexivity. Qed.

Lemma legacy_Up_skips_rolled_back_witness :
  ∃ t', ltable (U:=list string) l_up_undone.2 = Some t' ∧ (applied_now t' 3 ↔ applied_now l_undone 3).
Proof.
  assert (3 ∈ l_undone.*1) as Hin by (apply (bool_decide_unpack _); by vm_compute).
  pose proof (legacy_Up_skips_rolled_back s_user s_go inl l_range l_range_ok l_baseFS l_glob_ok l_query l_table
    l_parsed l_reads false "db" maxVersion [] (l_world (Some l_undone)) l_up_undone.2 3 l_undone eq_refl
    (l_well_formed _) ltac:(done) eq_refl Hin l_up_undone_eq) as Hc. exact Hc.
Defined.

(** [UpTo] without versioning ran the registered migration; the database has
    its record from before. *)
Definition l_sticky_rows : list (Z * bool) := [(2, true); (1, true); (0, true)].
Definition l_sticky : LW mem :=
  (UpToContext s_go inl l_range l_baseFS l_query l_table "db" 2 [WithNoVersioning]
     (l_world (Some l_sticky_rows))).2.
Definition l_sticky_collected : outcome Migrations * LW mem :=
  CollectMigrations l_range l_baseFS "db" minVersion maxVersion l_sticky.
Definition l_sticky_mig : Migration := default (file_migration 0 "") (l_reg l_sticky_collected.2 !! 2).

Lemma l_sticky_collect_eq :
  CollectMigrations l_range l_baseFS "db" minVersion maxVersion l_sticky =
  (Ok [PNew 1; PReg 2; PNew 2], l_sticky_collected.2).
Proof. vm_compute. reflexivity. Qed.

Lemma l_sticky_current :
  Migrations_Current [PNew 1; PReg 2; PNew 2] 2 l_sticky_collected.2 = (Ok (PReg 2), l_sticky_collected.2).
Proof. vm_compute. reflexivity. Qed.

Lemma l_sticky_lookup : heap_lookup (PReg 2) l_sticky_collected.2 = Some l_sticky_mig.
Proof. vm_compute. reflexivity. Qed.

Lemma l_sticky_mig_eq : m_Version l_sticky_mig = 2 ∧ runnable l_sticky_mig ∧ m_noVersioning l_sticky_mig = true.
Proof. split_and!; [by vm_compute|right; by vm_compute|by vm_compute]. Qed.

Lemma l_sticky_run (d : DB mem) :
  pool_exhausted d = false →
  ∃ d', Migration_run s_go inl l_baseFS l_query l_table l_sticky_mig false d = (Ok tt, d') ∧ pool_exhausted d' = false.
Proof.
  intros Hp. exists d. split; [|done].
  assert (String.eqb (filepath_Ext (m_Source l_sticky_mig)) ".sql" = false ∧
    String.eqb (filepath_Ext (m_Source l_sticky_mig)) ".go" = true ∧ m_Registered l_sticky_mig = true ∧
    m_UseTx l_sticky_mig = true ∧ m_DownFnContext l_sticky_mig = None ∧ m_noVersioning l_sticky_mig = true)
    as (H1 & H2 & H3 & H4 & H5 & H6) by (split_and!; by vm_compute).
  unfold Migration_run. rewrite H1, H2, H3, H4, H5, H6. done.
Qed.

Lemma no_versioning_sticks_witness :
  (DownToContext s_go inl l_range l_baseFS l_query l_table 100000 "db" 0 [] l_sticky).1 = Ok None.
Proof.
  destruct l_sticky_mig_eq as (Hv & Hext & Hnv).
  assert (ltable (U:=list string) l_sticky_collected.2 = Some l_sticky_rows) as Ht by by vm_compute.
  assert (pool_exhausted (l_db l_sticky_collected.2) = false) as Hp by by vm_compute.
  pose proof (no_versioning_sticks (U:=list string) s_user s_go inl l_range l_baseFS l_query l_table l_parsed "db" [] 0
    l_sticky [PNew 1; PReg 2; PNew 2] l_sticky_collected.2 (PReg 2) l_sticky_mig 2 l_sticky_rows
    eq_refl l_sticky_collect_eq l_sticky_current l_sticky_lookup Hv Hext Hnv ltac:(done) ltac:(done) Ht eq_refl Hp
    (λ d, l_list_live d l_sticky_rows) l_sticky_run) as Hc.
  exact (Hc 100000%nat).
Defined.

(** The commit of a Go migration fails. *)
Definition l_go_mig : Migration := default (file_migration 0 "") (l_registry !! 2).
Definition l_go_db : DB mem := mem_open (Some [(0, true)]) ["COMMIT"] 2.
Definition l_go_run : outcome unit * DB mem := Migration_run s_go inl l_baseFS l_query l_table l_go_mig true l_go_db.
Definition l_go_error : error := match l_go_run.1 with Err e => e | _ => ErrTxDone end.

Lemma l_go_eq :
  Migration_run s_go inl l_baseFS l_query l_table l_go_mig true l_go_db = (Err l_go_error, l_go_run.2).
Proof. vm_compute. reflexivity. Qed.

Lemma legacy_tx_rolls_back_witness :
  db_view (U:=list string) l_go_run.2 = db_view (U:=list string) l_go_db.
Proof.
  pose proof (legacy_tx_rolls_back (U:=list string) s_user s_go inl l_baseFS l_query l_table l_parsed l_go_mig true l_go_db
    l_go_error l_go_run.2 eq_refl l_go_eq) as Hc. exact Hc.
Defined.

(** The newest rows say that 3 was rolled back: the version is 2. *)
Definition l_version : outcome Z * DB mem :=
  EnsureDBVersionContext l_query l_table (mem_open (Some l_undone) [] 2).

Lemma l_version_eq :
  EnsureDBVersionContext l_query l_table (mem_open (Some l_undone) [] 2) = (Ok 2, l_version.2).
Proof. vm_compute. reflexivity. Qed.

Lemma EnsureDBVersion_spec_witness :
  let t := ensured (table (U:=list string) (mem_open (Some l_undone) [] 2)) in
  table (U:=list string) l_version.2 = Some t ∧ applied_now t 2 ∧
  ∃ pre post, t = pre ++ (2, true) :: post ∧ ∀ u, u ∈ pre.*1 → ¬ applied_now t u.
Proof.
  pose proof (EnsureDBVersion_spec (U:=list string) l_query l_table l_reads (mem_open (Some l_undone) [] 2) 2 l_version.2
    l_version_eq) as Hc. exact Hc.
Defined.
