(* ===== verification/FilesSamples.v ===== *)
(** * A concrete directory

    The theorems about names and files evaluated on a directory with numbered
    and time-stamped migrations, with package unicode restricted to ASCII; and
    five inputs on which the commands do not do what they mean to. *)

From S2P Require Import Prelude GoStrings Effects SqlParser Sql Dialects Store MemDB Migration Options.
From S2P Require Import Collect LegacyStore Legacy LegacyRun Names Files Paths Directory FilesSpec Stats Cli CliSpec.

(** ** The instances *)

#[local] Instance f_other : OtherOS := {|
  other_Glob _ _ := inl [];
  rename_dir _ _ := fail (errors_New "not supported")
|}.

#[local] Instance ascii_unicode : Unicode := {|
  IsLetter r := between 65 r 90 || between 97 r 122;
  IsNumber r := between 48 r 57;
  ToUpper r := if between 97 r 122 then r - 32 else r;
  ToLower r := if between 65 r 90 then r + 32 else r
|}.

#[local] Instance ascii_laws : UnicodeLaws.
Proof. split; [done|done|]. intros r. cbn. unfold between. destruct (_ && _) eqn:Hu; lia. Qed.

Definition f_range (r : registry) : list (Z * Migration) := map_to_list r.

Lemma f_range_ok : range_ok f_range.
Proof. intros r. reflexivity. Qed.

Definition f_os : OS := mkOS
  (list_to_map [("db/00002_b.sql", "B"); ("db/20230101000000_x.sql", "X"); ("db/20220101000000_w.go", "W");
                ("db/README", "R")]) {["."; "db"]} (λ _, None).

Definition f_world (sequential : bool) : OW mem := mkOW (mkLW (mem_open None [] 2) ∅ []) f_os sequential.

(** ** Names *)

Example names_example : camelCase "$()&^%(_--crazy__--input$)" = "CrazyInput" ∧
  snakeCase "$()&^%(_--crazy__--input$)" = "crazy_input".
Proof. by vm_compute. Qed.

(** One sign after the last word leaves an underscore, two leave none. *)
Lemma snakeCase_last_underscore : snakeCase "add users!" = "add_users_" ∧ snakeCase "add users!!" = "add_users".
Proof. by vm_compute. Qed.

(** ** [Fix] *)

Lemma f_files : migration_files "db" f_os =
  [(2, "db/00002_b.sql"); (20230101000000, "db/20230101000000_x.sql"); (20220101000000, "db/20220101000000_w.go")].
Proof. by vm_compute. Qed.

Lemma f_fixable : fixable "db" f_os.
Proof.
  unfold fixable. rewrite f_files. split; [by vm_compute|]. intros v q Hin. rewrite !elem_of_cons in Hin.
  destruct Hin as [[= -> ->]|[[= -> ->]|[[= -> ->]|Hin]]]; [..|by apply not_elem_of_nil in Hin].
  all: split_and!; try (intros Hv; by vm_compute in Hv); try (intros _; by vm_compute).
  all: try (eexists; by vm_compute). all: try (apply (bool_decide_unpack _); by vm_compute).
  - intros _. split; [by vm_compute|]. by exists "x.sql".
  - intros _. split; [by vm_compute|]. by exists "w.go".
Qed.

Definition f_fixed : outcome unit * OW mem := Fix f_range "db" (f_world false).

Lemma f_fixed_eq : Fix f_range "db" (f_world false) = (Ok tt, f_fixed.2).
Proof. vm_compute. reflexivity. Qed.

Example f_fixed_files : os_files (o_os f_fixed.2) !! "db/00003_w.go" = Some "W" ∧
  os_files (o_os f_fixed.2) !! "db/00004_x.sql" = Some "X".
Proof. by vm_compute. Qed.

Lemma Fix_spec_witness :
  ∃ vs, by_version vs ∧ vs ≡ₚ migration_files "db" f_os ∧
    let first := first_free vs in
    let ts := stamped vs in
    let new := renumbered first ts in
    new.*1 = seqZ first (Z.of_nat (length ts)) ∧
    (∀ v q, (v, q) ∈ vs → is_versioned v = true → v < first) ∧
    (∀ vq, vq ∈ migration_files "db" (o_os f_fixed.2) ↔ vq ∈ vs ∧ is_timestamped vq.1 = false ∨ vq ∈ new) ∧
    (∀ i vq, ts !! i = Some vq → os_files (o_os f_fixed.2) !! new_path first i vq = os_files f_os !! vq.2) ∧
    (∀ vq, vq ∈ new → ¬ in_os vq.2 f_os) ∧
    (∀ q, q ∉ ts.*2 → q ∉ new.*2 → os_files (o_os f_fixed.2) !! q = os_files f_os !! q).
Proof.
  pose proof (Fix_spec "db" eq_refl eq_refl f_range f_range_ok (f_world false) f_fixed.2 eq_refl f_fixable f_fixed_eq) as Hc.
  exact Hc.
Defined.

(** ** [Create] *)

Definition f_created : outcome unit * OW mem :=
  CreateWithTemplate f_range "" "db" None "Add users table" "sql" (f_world true).

Lemma f_created_eq :
  CreateWithTemplate f_range "" "db" None "Add users table" "sql" (f_world true) = (Ok tt, f_created.2).
Proof. vm_compute. reflexivity. Qed.

Lemma f_room v q : (v, q) ∈ migration_files "db" f_os → is_versioned v = true → v < maxInt64.
Proof.
  rewrite f_files, !elem_of_cons. intros [[= -> ->]|[[= -> ->]|[[= -> ->]|Hin]]]; [..|by apply not_elem_of_nil in Hin]; done.
Qed.

Lemma Create_sequential_witness : ∃ v q,
  (v = 1 ∨ ∃ q', (v - 1, q') ∈ migration_files "db" f_os) ∧
  (∀ v' q', (v', q') ∈ migration_files "db" f_os → is_versioned v' = true → v' < v) ∧
  ∀ vq, vq ∈ migration_files "db" (o_os f_created.2) ↔ vq ∈ migration_files "db" f_os ∨ vq = (v, q).
Proof.
  pose proof (Create_sequential "db" eq_refl eq_refl f_range f_range_ok "" None "Add users table" "sql" (f_world true)
    f_created.2 eq_refl eq_refl eq_refl f_room (or_introl eq_refl) f_created_eq) as Hc.
  exact Hc.
Defined.

(** The new SQL file is one that the parser accepts, in both directions. *)
Example sql_template_parses vars :
  ParseSQLMigration inl (mkReader (sqlMigrationTemplate vars).1 None) DirectionUp = inl (["SELECT 'up SQL query';"], true) ∧
  ParseSQLMigration inl (mkReader (sqlMigrationTemplate vars).1 None) DirectionDown = inl (["SELECT 'down SQL query';"], true).
Proof. split; vm_compute; reflexivity. Qed.

(** A Go migration whose name ends in the word test is taken for a test: the
    directory does not get a migration, and the next one gets the same number. *)
Definition f_go_test : outcome unit * OW mem := Create f_range "" "db" "add test" "go" (f_world true).

Lemma Create_test_ignored :
  f_go_test.1 = Ok tt ∧ is_Some (os_files (o_os f_go_test.2) !! "db/00003_add_test.go") ∧
  migration_files "db" (o_os f_go_test.2) = migration_files "db" f_os ∧
  (choose_version f_range "" "db" f_go_test.2).1 = Ok "00003".
Proof. split_and!; [by vm_compute|eexists; by vm_compute|by vm_compute|by vm_compute]. Qed.

(** When the file exists there is no error to wrap. *)
Lemma Create_existing_file_error :
  (Create f_range "20230101000000" "db" "x" "sql" (f_world false)).1
  = Err (errors_New "failed to create migration file: %!w(<nil>)").
Proof. by vm_compute. Qed.

(** ** Time stamps in unexpected places *)

(** The first time stamp of the epoch is on neither list. *)
Lemma epoch_in_neither : is_versioned 19700101000000 = false ∧ is_timestamped 19700101000000 = false.
Proof. by vm_compute. Qed.

(** The directory's name contains the time stamp of a migration: [Fix] changes
    the directory's part of the path, which does not exist. *)
Definition f_backup : OS := mkOS (list_to_map [("20230101000000/20230101000000_x.sql", "X")])
  {["."; "20230101000000"]} (λ _, None).

Lemma Fix_replaces_in_directory :
  (Fix f_range "20230101000000" (mkOW (mkLW (mem_open None [] 2) ∅ []) f_backup false)).1
  = Err (ESentinel fs_ErrNotExist).
Proof. by vm_compute. Qed.

(** ** [goose init] *)

Definition f_empty : OS := mkOS (list_to_map [("README", "R")]) {["."]} (λ _, None).
Definition f_start : OW mem := mkOW (mkLW (mem_open None [] 2) ∅ []) f_empty false.
Definition f_init : outcome unit * OW mem := gooseInit f_range "20240229120000" "" f_start.

Lemma f_init_eq : gooseInit f_range "20240229120000" "" f_start = (Ok tt, f_init.2).
Proof. vm_compute. reflexivity. Qed.

Lemma f_empty_closed : os_closed f_empty.
Proof.
  intros p Hp. assert (p ∈ ["README"; "."]) as Hin.
  { unfold in_os, f_empty in Hp. cbn in Hp. set_solver. }
  apply elem_of_cons in Hin as [->|[->|Hin%elem_of_nil]%elem_of_cons]; [by vm_compute..|done].
Qed.

Lemma f_now : o_sequential f_start = true ∨ ∃ v, 1 ≤ v ≤ maxInt64 ∧ "20240229120000" = Sprintf_05v v.
Proof. right. exists 20240229120000. split; [by vm_compute|vm_compute; reflexivity]. Qed.

Lemma gooseInit_spec_witness : ∃ vq content,
  (∀ vq', vq' ∈ migration_files "migrations" (o_os f_init.2) ↔ vq' = vq) ∧
  os_files (o_os f_init.2) !! vq.2 = Some content ∧
  (∀ direction, ∃ e, ParseSQLMigration inl (mkReader content None) direction = inr e) ∧
  ∀ p c, os_files f_empty !! p = Some c → os_files (o_os f_init.2) !! p = Some c.
Proof.
  pose proof (gooseInit_spec f_range f_range_ok inl "20240229120000" "" f_start f_init.2 eq_refl eq_refl f_empty_closed
    eq_refl f_now f_init_eq) as Hc.
  exact Hc.
Defined.
