(* ===== verification/SystemSamples.v ===== *)
(** * Sample runs of several providers on one database

    Three goroutines whose unlocked checks all come before the first migration,
    and two providers of which both meet a statement that the database
    refuses. *)

From S2P Require Import Prelude GoStrings Effects Resolve SqlParser Dialects Sql Store MemDB.
From S2P Require Import Migration.
From S2P Require Import Options Collect Runner Provider ProviderLocks RunnerSpec ProviderSpec.
From S2P Require Import ProviderSystem ProviderSystemSpec Samples.

#[local] Existing Instance pair_Append.
#[local] Existing Instance pair_Append_laws.
#[local] Existing Instance loop_retry.
#[local] Existing Instance loop_retry_laws.

Definition y_inst (go : Z) : Inst := mkInst false false (s_migs go) PStart.

Definition y_system (tbl : option (list (Z * bool))) (failing : list string) (n : nat) : System mem :=
  mkSystem (mem_open tbl failing 2) (replicate n (y_inst 5)).

Abbreviation y_run := (run_schedule s_go inl (λ _, true) s_provider 3).

Definition y_vers : list Z := [1; 2; 3].

Lemma y_system_ok tbl failing n :
  system_ok (U:=list string) s_user s_provider y_vers tbl [] (y_system tbl failing n).
Proof.
  split_and!; [apply prefix_nil|by right|]. intros k i Hi _. cbn in Hi. apply lookup_replicate in Hi as [-> _].
  split; [exact (s_well_formed tbl failing 2 5)|done].
Qed.

Lemma y_vers_NoDup : NoDup y_vers.
Proof. apply (bool_decide_unpack _). by vm_compute. Qed.

(** What can be seen of a goroutine. *)
Definition y_see (i : Inst) : string * list Z :=
  match i_phase i with
  | PStart => ("start", []) | PChecked => ("checked", []) | PUp rs => ("up", map res_version rs)
  | PDone rs => ("done", map res_version rs) | PMismatch v => ("mismatch", [v])
  | PFailed _ => ("failed", []) | PStuck => ("stuck", [])
  end.

Definition y_seen (s : System mem) : list (string * list Z) := map y_see (s_insts s).

Lemma y_seen_all (P : string * list Z → bool) s k i :
  forallb P (y_seen s) = true → s_insts s !! k = Some i → P (y_see i) = true.
Proof.
  intros Hs Hi. rewrite forallb_forall in Hs. apply Hs, in_map, list_elem_of_In. by eapply list_elem_of_lookup_2.
Qed.

Definition y_sched : list nat := [0; 1; 2; 1; 2; 0; 0; 2; 1]%nat.

Lemma y_seen_run : y_seen (y_run y_sched (y_system None [] 3)) = [("done", []); ("done", [1; 2; 3]); ("done", [])].
Proof. by vm_compute. Qed.

(** The phases of a run, from what can be seen of it. *)
Lemma y_not_stuck s : forallb (λ x, negb (String.eqb x.1 "stuck")) (y_seen s) = true → ¬ stuck s.
Proof. intros Hs (k & i & Hi & Hp). apply (y_seen_all _ s k i) in Hs; [|done]. unfold y_see in Hs. by rewrite Hp in Hs. Qed.

Lemma y_all_done s : forallb (λ x, String.eqb x.1 "done") (y_seen s) = true →
  ∀ k i, s_insts s !! k = Some i → ∃ rs, i_phase i = PDone rs.
Proof.
  intros Hs k i Hi. apply (y_seen_all _ s k i) in Hs; [|done]. unfold y_see in Hs.
  destruct (i_phase i); try done. by eexists.
Qed.

Abbreviation y_final := (y_run y_sched (y_system None [] 3)).

Lemma y_max : max_version (record_all true (pending y_vers (ensured None).*1 maxInt64) (ensured None)) = Some 3.
Proof. by vm_compute. Qed.

Lemma y_pending : pending y_vers (ensured None).*1 maxInt64 ≠ [].
Proof. by vm_compute. Qed.

Lemma y_starts k i : s_insts (y_system None [] 3) !! k = Some i → i_phase i = PStart.
Proof. intros Hi. cbn in Hi. by apply (lookup_replicate_1 3 (y_inst 5)) in Hi as [-> _]. Qed.

Lemma y_final_done k i : s_insts y_final !! k = Some i → ∃ rs, i_phase i = PDone rs.
Proof. apply y_all_done. by rewrite y_seen_run. Qed.

Lemma y_final_not_stuck : ¬ stuck y_final.
Proof. intros (k & i & Hi & Hp). apply y_final_done in Hi as [rs Hrs]. congruence. Qed.

Lemma y_final_not_failed : ¬ failed y_final.
Proof. intros (k & i & e & Hi & Hp). apply y_final_done in Hi as [rs Hrs]. congruence. Qed.

Lemma y_seen_insts s x l : y_seen s = x :: l → s_insts s ≠ [].
Proof. unfold y_seen. intros Hs Hn. by rewrite Hn in Hs. Qed.

Lemma y_final_insts : s_insts y_final ≠ [].
Proof. exact (y_seen_insts _ _ _ y_seen_run). Qed.

Lemma y_final_dead k i : s_insts y_final !! k = Some i → live (i_phase i) = false.
Proof. intros Hi. apply y_final_done in Hi as [rs Hrs]. by rewrite Hrs. Qed.


(** The statement of version 3 is refused. *)
Abbreviation y_failing := (y_run [0; 1; 0; 1]%nat (y_system None ["CREATE TABLE c;"] 2)).

Lemma y_failing_seen : y_seen y_failing = [("failed", []); ("failed", [])].
Proof. by vm_compute. Qed.

Lemma y_failing_not_stuck : ¬ stuck y_failing.
Proof. apply y_not_stuck. by rewrite y_failing_seen. Qed.


Lemma y_failing_prefix : ∃ pre, pre `prefix_of` [1; 2; 3] ∧
  ensured (table (U:=list string) (ProviderSystem.s_db y_failing)) = record_all true pre [(0, true)].
Proof.
  exists [1; 2]. split; [by exists [3]|]. by vm_compute.
Qed.
